(* ===== verification/_CoqProject ===== *)
-Q . S2P
Prelude.v
Threads.v
GoLib.v
Sha256.v
GoPath.v
Sig.v
Collate.v
Natsort.v
GoTime.v
OsArch.v
Bolt.v
Store.v
Pins.v
Ldso.v
Index.v
Export.v
Package.v
Update.v
Unsigned.v
World.v
Locks.v
Lookup.v
Interleave.v
Proto.v
Fuse.v
Serve.v
Strconv.v
Size.v
Replies.v
Mount.v
Life.v
Running.v
Images.v
Session.v
Linux.v
Darwin.v
Convert.v
Indexer.v
Http.v
Daemon.v
Process.v
Tools.v
Pipeline.v
