(* ===== verification/Prelude.v ===== *)
(** * apkg: a verification development

    apkg is a package manager whose packages are SquashFS images mounted on
    demand: a daemon keeps a signed database of packages, mounts it as a FUSE
    file system, resolves names to the newest version, and downloads and mounts a
    package when its contents are first read.  Two more programs build package
    files ([apkg-convert]) and the database ([apkg-index]).  This library models
    the Go code of the three programs as executable functions and proves what it
    promises; the last section says what is left out.

    ** Parts, files and source

    The files are listed in the order in which they are compiled; each requires
    only files before it.  This one, [Prelude.v], has the two monads of the
    models, the notations, the hint databases and the lemmas every file shares.

    - The language and its library.  [GoLib.v]: machine integers as [Z] with
      their wrap-around, slices, [strings], [encoding/binary], readers,
      base64.  [Sha256.v]: the hash function, computed.  [GoPath.v]: [path].
      [GoTime.v]: the calendar.  [Strconv.v]: numbers as text.
      [Size.v]: [formatSize], with its [float32] written out.
    - Signatures ([apkgsig/]).  [Sig.v]: [ReadVarblob], [WriteVarblob],
      [VerifyPkg], [VerifyDb], [Sign], with the error of each step.
    - Names ([apkgdb/collate.go], [natsort.go], [osarch.go]).  [Collate.v],
      [Natsort.v], [OsArch.v]: keys, the natural order, platforms.
    - One database ([db.go], [write.go], [pin.go], [ldso.go], [meta.go],
      [index.go], [export.go], [update.go]).  [Bolt.v]: the interface of bbolt.
      [Store.v]: the record [DB], the write lock and transactions.  [Pins.v],
      [Ldso.v], [Index.v], [Export.v], [Update.v]: the operations on it.
    - Packages ([package.go], [unsigned.go]).  [Package.v]: the file format,
      the download and its validation.  [Unsigned.v]: the directory of unsigned
      images, as a registry kept by events.
    - Databases together ([db.go], [lookup.go], [sub.go], [notify.go]).
      [World.v]: the shared heap of databases and packages, inode numbers, name
      resolution, sub-databases.  [Lookup.v]: its theorems.
    - At once and in any order.  [Threads.v]: what the models of concurrent
      calls share: mutexes, results, schedules.  [Locks.v]: readers and writers of
      one database as steps between which others run.  [Interleave.v] and
      [Images.v]: lookups of packages and of unsigned images that run at once, as
      steps between the locks.  [Life.v] and [Running.v]: every operation of the
      daemon on its databases, in any order, as a step relation, its invariant
      and what it gives a client.
    - The file system ([apkgfs/]).  [Proto.v]: the messages.  [Fuse.v]: the
      methods of [PkgFS] and the raw server [FuseServer], over the class
      [InodeOps].  [Serve.v]: their theorems.  [Replies.v]: the type of an
      answer.  [Mount.v]: [apkgdb/inode.go], [stat.go] and the links as an
      instance of that class.  [Session.v]: a session of requests while the
      daemon runs.  [Linux.v]: mounting, unmounting and handing the mount to a
      new binary.  [Darwin.v]: the same files for the other platform.
    - The programs.  [Convert.v]: [cmd/apkg-convert/process.go].  [Indexer.v]:
      [cmd/apkg-index/process.go].  [Http.v]: [apkgdb/http.go].  [Daemon.v]:
      the start of [main.go], [updater.go], [ctrl.go], [vars.go].
      [Process.v]: the signals, the control channel and the ways out.
      [Tools.v]: the main functions of the two tools.  [Pipeline.v]: the three
      programs composed, from an image to the files below the mount point.

    ** How the code is modelled

    A function without effects returns an [outcome]: [Ok], [Err] with the error,
    or [Panic].  A method is a function from the state of its receiver, [ST S A];
    the state survives an error, as in Go, and [defer] is [defer_st].  Pointers
    that the source shares (packages of the global cache, the parent of a
    database, the inode tree) are locations of a heap, in [World.v].  System
    calls that may fail take their outcome from a list in the state, [None] or
    the end of the list being a success, so that a theorem over all such lists
    covers every combination of failures.  Code outside the repository is a
    class of operations with, where a proof needs it, a second class of
    documented laws: bbolt ([BoltOps], [BoltSpec]), the LLRB tree, Ed25519,
    JWT, SquashFS, the remote file, JSON, the ld.so cache format, [sort.Sort], the
    order of [range] over maps, and the structs of go-fuse.  Every file that has
    such a theorem ends with a module of concrete instances, in which the
    definitions are evaluated and the hypotheses of the theorems hold.

    ** What is shown

    - Trust.  A signature blob is accepted only from a trusted key over exactly
      the data ([Sig.verify_sound]); a database file only with the right magic,
      name and hash at their offsets, and a trusted signature of its header
      ([Index.check_file_sound]); a download changes the data only by such a
      file, which the server has under the name of the version a signed token
      announces ([Update.download_sound]); a package is opened only when its hashes match
      and mounted only when its file was validated ([Package.OpenPackage_sound],
      [Package.ensureDl_mounts]).
    - The whole.  A package that [apkg-convert] made and [apkg-index] published
      is, in a daemon that starts without a database, found under its name and
      served as the files of exactly the image ([Pipeline.image_to_files]).
    - Storage.  Every write is all or nothing under any failures and keeps the
      buckets consistent ([Index.index_atomic], [Index.db_wf_preserved]);
      concurrent reads and writes are linearizable and all finish
      ([Locks.requests_linearize], [Locks.requests_finish]); when the
      server stamps what it offers as the announced version with it, an update
      reaches that version and the next one is a no-op
      ([Update.update_converges]); what is exported indexes back to the same
      packages and pins, and nothing is uploaded unchecked
      ([Export.export_roundtrip], [Export.upload_checked]).
    - Resolution.  Keys sort as names do, for ASCII names whose numbers have no
      leading zero and at most 33 digits ([Collate.collatedVersion_order]); a
      prefix resolves to the greatest version unless another name hides the
      versions, and the result leads to the package ([Lookup.seek_version_latest], [Lookup.internalLookup_resolves],
      [Session.mount_resolves]);
      in every state a running daemon reaches the inode numbers have one owner,
      and they are permanent ([Running.daemon_inodes],
      [Running.numbers_permanent]); concurrent lookups are linearizable
      and all finish ([Interleave.lookups_linearize],
      [Interleave.lookups_finish], [Images.images_linearize],
      [Images.images_finish]); the registry of unsigned images
      follows the regular files of the directory, as long as none is renamed
      away or created as a link ([Unsigned.unsignedScan_registry]).
    - The file system.  The two front ends give the same answers, but for the
      status of an error without a number ([Serve.front_ends_agree]); every
      answer is well typed ([Replies.replies_typed]); every request but RELEASE,
      RELEASEDIR and DESTROY gets exactly one answer in any order of the
      goroutines, and the loop ends with every accepted request handled
      ([Serve.serve_answers], [Serve.serve_terminates]); the node of an answered
      LOOKUP keeps its object, and a link its target, whatever comes in between,
      and it is that of the chosen package when no unsigned image or package of
      another database is in the way ([Session.mount_resolves]); mounting leaks
      nothing and the next process inherits exactly the connection
      ([Linux.doMount_resources], [Linux.handover_inherits]).
    - The programs.  What [apkg-convert] writes the daemon opens
      ([Convert.process_opens]), and each file a run leaves is a beginning of a
      package of an argument ([Tools.convert_run]); what [apkg-index] publishes is
      the database with exactly the changes of the directory, less the packages
      whose call failed ([Indexer.processDb_publishes]); the ways out of the daemon, its list of
      packages and the replacement of its executable ([Process.daemon_life],
      [Http.ServeHTTP_list], [Daemon.updater_atomic]).
    - Defects.  Some theorems state behaviour the code does not mean to have: a
      short key panics ([Sig.verify_short_key_panics]), a sibling hides a
      package ([Lookup.seek_version_hidden]), a package of another database gets
      numbers nobody answers for ([Lookup.shared_package_lost]), a reset leaves
      a package without its file ([Package.ensureDl_stale]), the number of an
      unsigned image is given out before [GetInode] answers for it
      ([Images.number_before_tree]), an older signed database is accepted under
      the name of the announced version ([Update.stale_file_accepted]), an
      unsigned image that is renamed away stays registered
      ([Unsigned.SampleUnsigned.renamed_stays]) and a link to one is registered
      only when it appears while the daemon runs
      ([Unsigned.SampleUnsigned.link_registered]), three kinds of requests are
      never answered ([Serve.serve_answers]), the end of [ld.so.cache] is an I/O
      error ([Mount.ldso_read_window]), and the process after a graceful restart
      never serves ([Linux.handover_dead]).

    ** Bounds and fuel

    Loops of the source are structural recursions where they consume a list; the
    others take fuel that a lemma shows to be enough: the bytes left for the
    loops of the parsers, [S l] for a walk up the parents of the database at
    location [l] (a parent's location is smaller), [db_next] for closing
    sub-databases, six rounds for the block size (it doubles from 4 KiB to
    128 KiB), and [S k] calls for the stack dump, whose buffer doubles
    ([Daemon.Stack_whole]).  Integers keep the width of the source: [u64],
    [u32], [u16], [i64] and [i32] are applied wherever a conversion or an
    overflow can change the value.

    ** Not modelled

    Concurrency is modelled where the source has it at three levels: the
    readers and writers of one database ([Locks.v]), lookups ([Interleave.v] and
    [Images.v], each kind among itself) and the requests of the kernel
    ([Serve.v], which orders whole requests freely).  The other operations run to
    their end before the next one starts; [Life.v] and [Running.v] order them
    freely.  Accesses the source leaves without a common lock (the inode tree,
    the channel, the registry when a sub-database is opened) are single steps,
    as if they were atomic.  A file that is being written is its content so
    far; a crash in the middle of a system call is not modelled.  The theorems of [Lookup.v] and [Interleave.v] assume that no
    unsigned images are loaded, which is the default; those of [Running.v] do
    not, and [Session.mount_resolves] only for the clause that names the package
    a lookup chose.

    Left out: the certificate pool ([ssltrust.go], [capool.go]), a constant the
    TLS library is given; [setRlimit], whose error is ignored and whose effect
    only the kernel sees; [bytesDup], the identity where values are immutable; the
    context of a request, which is never used; the text of log messages. *)

From stdpp Require Export base tactics option list list_numbers gmap sorting.
From stdpp Require Import strings.
From Stdlib Require Export ZArith Lia.
From Stdlib Require Import Strings.Byte.
Export Stdlib.Strings.String.StringSyntax.

#[global] Set Default Goal Selector "!".
#[global] Set Warnings "-clear-no-such-hyp".

Declare Scope apkg_scope.
Delimit Scope apkg_scope with apkg.
Create HintDb apkg.
Create Rewrite HintDb apkg_rw.

(** ** Bytes and byte strings

    A Go [byte] is [Byte.byte]; Go's [string] and [[]byte] are both lists
    of bytes.  [b2z] is the numeric value, [z2b] Go's conversion [byte(z)]. *)

Abbreviation byte := Byte.byte.
Abbreviation bytes := (list Byte.byte).

#[export] Instance byte_eq_dec' : EqDecision byte := Byte.byte_eq_dec.

#[export] Program Instance byte_countable : Countable byte :=
  inj_countable Byte.to_N Byte.of_N _.
Next Obligation. intros x. apply Byte.of_to_N. Qed.

Definition b2z (b : byte) : Z := Z.of_N (Byte.to_N b).
Definition z2b (z : Z) : byte :=
  match Byte.of_N (Z.to_N (z mod 256)) with Some b => b | None => Byte.x00 end.

(** A Go string literal. *)
Definition str (s : string) : bytes := String.list_byte_of_string s.
Arguments str s%_string.

Lemma b2z_range b : (0 <= b2z b < 256)%Z.
Proof. pose proof (Byte.to_N_bounded b). unfold b2z. lia. Qed.

Lemma b2z_z2b z : b2z (z2b z) = (z mod 256)%Z.
Proof.
  unfold b2z, z2b. pose proof (Z.mod_pos_bound z 256 ltac:(lia)).
  destruct (Byte.of_N _) as [b|] eqn:E.
  - apply Byte.to_of_N in E. lia.
  - apply Byte.of_N_None_iff in E. lia.
Qed.

Lemma z2b_b2z b : z2b (b2z b) = b.
Proof.
  pose proof (b2z_range b). unfold z2b. rewrite Z.mod_small by done.
  unfold b2z. rewrite N2Z.id, Byte.of_to_N. done.
Qed.

Lemma b2z_inj a b : b2z a = b2z b -> a = b.
Proof. intros H. rewrite <-(z2b_b2z a), <-(z2b_b2z b). by f_equal. Qed.

Lemma z2b_mod z : z2b (z mod 256) = z2b z.
Proof. apply b2z_inj. rewrite !b2z_z2b, Z.mod_mod by lia. done. Qed.

(** ** Errors and outcomes

    An error value is identified by what the code compares it with: the
    sentinel values of [os] and [io], a [syscall.Errno], an error built by
    [errors.New] or [fmt.Errorf] (identified by its constant text, the
    formatted arguments being dropped), or the uninterpreted error [k] of
    a call that leaves the program ([ErrLib]). *)

Inductive error :=
  | ErrNotExist | ErrInvalid | ErrPermission | ErrExist
  | ErrEOF | ErrUnexpectedEOF
  | ErrErrno (n : Z)
  | ErrNew (msg : bytes)
  | ErrLib (k : Z).

#[export] Instance error_eq_dec : EqDecision error.
Proof. solve_decision. Defined.

(** The result of a Go function that returns [(A, error)]; the value beside
    a non-nil error is dropped, and [Panic] is a run-time panic. *)
Inductive outcome (A : Type) :=
  | Ok (a : A)
  | Err (e : error)
  | Panic.
Arguments Ok {A} a.
Arguments Err {A} e.
Arguments Panic {A}.

#[export] Instance outcome_eq_dec `{EqDecision A} : EqDecision (outcome A).
Proof. solve_decision. Defined.

#[export] Instance outcome_ret : MRet outcome := fun A a => Ok a.
#[export] Instance outcome_bind : MBind outcome := fun A B f m =>
  match m with Ok a => f a | Err e => Err e | Panic => Panic end.
#[export] Instance outcome_fmap : FMap outcome := fun A B f m =>
  match m with Ok a => Ok (f a) | Err e => Err e | Panic => Panic end.

(** [if cond { return errors.New(..) }] *)
Definition check (b : bool) (e : error) : outcome unit :=
  if b then Ok tt else Err e.

Definition is_ok {A} (o : outcome A) : bool :=
  match o with Ok _ => true | _ => false end.

Definition of_option {A} (e : error) (o : option A) : outcome A :=
  match o with Some a => Ok a | None => Err e end.

(** A computation over a state [S]: the state survives an error, as in Go. *)
Definition ST (S A : Type) : Type := S -> outcome A * S.

#[export] Instance ST_ret {S} : MRet (ST S) := fun A a s => (Ok a, s).
#[export] Instance ST_bind {S} : MBind (ST S) := fun A B f m s =>
  match m s with
  | (Ok a, s') => f a s'
  | (Err e, s') => (Err e, s')
  | (Panic, s') => (Panic, s')
  end.

#[export] Instance ST_fmap {S} : FMap (ST S) := fun A B f m s =>
  match m s with
  | (Ok a, s') => (Ok (f a), s')
  | (Err e, s') => (Err e, s')
  | (Panic, s') => (Panic, s')
  end.

Definition get_st {S} : ST S S := fun s => (Ok s, s).
Definition put_st {S} (s : S) : ST S unit := fun _ => (Ok tt, s).
Definition upd_st {S} (f : S -> S) : ST S unit := fun s => (Ok tt, f s).
Definition lift_st {S A} (o : outcome A) : ST S A := fun s => (o, s).
Definition err_st {S A} (e : error) : ST S A := fun s => (Err e, s).

(** [defer f()]: [f] runs on every way out of [m]. *)
Definition defer_st {S A} (m : ST S A) (f : S -> S) : ST S A := fun s =>
  let '(o, s') := m s in (o, f s').

(** ** Tactics *)

(** Case analysis of the outcome a hypothesis is about. *)
Ltac case_match_hyp H :=
  match type of H with
  | context [match ?x with _ => _ end] =>
      let E := fresh "E" in destruct x eqn:E; try discriminate H
  end.

Ltac inv_outcome H :=
  repeat (cbn in H; case_match_hyp H); simplify_eq/=.

(** Normalises the monadic operators to matches. *)
Ltac munfold :=
  unfold mbind, mret, fmap, ST_bind, ST_ret, ST_fmap, outcome_bind, outcome_ret,
    outcome_fmap, get_st, put_st, upd_st, lift_st, err_st, defer_st in *.

Lemma bind_Ok {A B} (m : outcome A) (f : A -> outcome B) b :
  m ≫= f = Ok b <-> exists a, m = Ok a /\ f a = Ok b.
Proof.
  destruct m; cbn; [|split; [done|]; intros (a0 & ? & ?); done..].
  split; [eauto|]. by intros (a0 & [= <-] & ?).
Qed.

Lemma check_Ok b e u : check b e = Ok u <-> b = true.
Proof. unfold check; destruct u; destruct b; split; congruence. Qed.
#[export] Hint Rewrite @bind_Ok check_Ok : apkg_rw.

(** A sequence either stops in its first part or runs its second one. *)
Lemma bind_cases {S A B} (m : ST S A) (f : A -> ST S B) s o s' :
  (m ≫= f) s = (o, s') ->
  (exists a s1, m s = (Ok a, s1) /\ f a s1 = (o, s')) \/
  (exists om, m s = (om, s') /\ is_ok om = false /\ is_ok o = false).
Proof.
  munfold. destruct (m s) as [[a|e|] s1]; [eauto|intros [= <- <-]; right; eauto..].
Qed.

(** ** Lists *)

Lemma Sorted_mono {A} (R S : relation A) l :
  (forall x y, R x y -> S x y) -> Sorted R l -> Sorted S l.
Proof.
  intros HRS. induction 1 as [|x l _ IH Hd]; [constructor|]. constructor; [done|].
  destruct Hd; constructor; auto.
Qed.

(** Cutting a list around a separator. *)
Lemma drop_sep {A} (a : list A) c b : drop (S (length a)) (a ++ c :: b) = b.
Proof. induction a as [|x a IH]; [done|]. exact IH. Qed.
Lemma take_sep {A} (a : list A) c b : take (length a) (a ++ c :: b) = a.
Proof. apply take_app_length. Qed.
#[export] Hint Rewrite @drop_sep @take_sep : apkg_rw.

(** [v, err := f(); if err != nil ...]: the error as a value. *)
Definition try_st {S A} (m : ST S A) : ST S (option error) := fun s =>
  match m s with
  | (Ok _, s') => (Ok None, s')
  | (Err e, s') => (Ok (Some e), s')
  | (Panic, s') => (Panic, s')
  end.

Declare Scope st_scope.
Notation "m ;; k" := (mbind (fun _ => k) m)
  (at level 100, k at level 200, right associativity) : st_scope.
Open Scope st_scope.
