(* ===== verification/Threads.v ===== *)
(** * Threads: calls that run at once

    What the models of concurrent calls share.  A state has a list of threads, and
    each step replaces one of them.  The threads may hold mutexes, one for
    each database: [holders] says that a mutex is taken exactly when one thread of
    its database is where it holds it.  The amount of work that is left is a sum
    over the threads.  What the calls returned is a list of results, in the order in
    which they took effect. *)

From S2P Require Import Prelude.

(** ** Sums over the threads *)

Section total.
Context {T : Type} (f : T -> nat).

Definition total (ths : list T) : nat := foldr (fun th a => f th + a)%nat 0%nat ths.

Lemma total_cons th ths : total (th :: ths) = (f th + total ths)%nat.
Proof. done. Qed.

Lemma total_insert ths t th th' :
  ths !! t = Some th -> (total (<[t := th']> ths) + f th = total ths + f th')%nat.
Proof.
  revert t. induction ths as [|x ths IH]; intros [|t] Ht; [done..| |].
  - injection Ht as ->. change (<[0%nat := th']> (th :: ths)) with (th' :: ths). rewrite !total_cons. lia.
  - specialize (IH t Ht). change (<[S t := th']> (x :: ths)) with (x :: <[t := th']> ths).
    rewrite !total_cons. lia.
Qed.

Lemma total_bound k ths : Forall (fun th => (f th <= k)%nat) ths -> (total ths <= k * length ths)%nat.
Proof.
  induction 1 as [|th ths ? _ IH]; [cbn; lia|]. rewrite total_cons. cbn [length]. lia.
Qed.
End total.

(** A run in which every step brings a thread forward is short. *)
Lemma nsteps_total {S T} (ths : S -> list T) (f : T -> nat) (R : relation S) k s s' :
  (forall s s', R s s' -> (total f (ths s') < total f (ths s))%nat) ->
  nsteps R k s s' -> (total f (ths s') + k <= total f (ths s))%nat.
Proof. intros HR. induction 1 as [|k s1 s2 s3 H12 _ IH]; [lia|]. apply HR in H12. lia. Qed.

(** ** Mutexes *)

Section holders.
Context {T : Type} (db : T -> nat) (holds : T -> Prop).

Definition holders (lk : gmap nat nat) (ths : list T) : Prop :=
  forall l t, lk !! l = Some t <-> exists th, ths !! t = Some th /\ db th = l /\ holds th.

Lemma moved_lookup (ths : list T) t th th' t' :
  ths !! t = Some th -> <[t := th']> ths !! t' = if decide (t' = t) then Some th' else ths !! t'.
Proof.
  intros Ht. case_decide as Hd; [subst; by apply list_lookup_insert_eq, lookup_lt_Some with th|].
  by apply list_lookup_insert_ne.
Qed.

(** A step inside or outside. *)
Lemma holders_same lk ths t th th' :
  holders lk ths -> ths !! t = Some th -> db th' = db th -> (holds th <-> holds th') ->
  holders lk (<[t := th']> ths).
Proof.
  intros I Ht Hdb Hh l t'. rewrite (I l t'). setoid_rewrite (moved_lookup _ _ _ _ _ Ht).
  case_decide as Hd; [subst|done]. rewrite Ht. split.
  - intros (? & [= <-] & ? & ?). exists th'. by rewrite Hdb, <-Hh.
  - intros (? & [= <-] & ? & ?). exists th. by rewrite <-Hdb, Hh.
Qed.

(** Taking the mutex. *)
Lemma holders_take lk ths t th th' :
  holders lk ths -> ths !! t = Some th -> db th' = db th -> lk !! db th = None -> holds th' ->
  holders (<[db th := t]> lk) (<[t := th']> ths).
Proof.
  intros I Ht Hdb Hn Hh l t'. setoid_rewrite (moved_lookup _ _ _ _ _ Ht).
  assert (~ holds th) as Hth.
  { intros Hb. assert (lk !! db th = Some t) by (apply I; eauto). congruence. }
  rewrite lookup_insert_Some. case_decide as Hd.
  - subst t'. split.
    + intros [[<- _]|[_ (th2 & E & _ & Hb)%I]]; [by exists th'|]. congruence.
    + intros (? & [= <-] & <- & _). left. by rewrite Hdb.
  - split.
    + intros [[_ <-]|[_ Hl]]; [done|]. by apply I.
    + intros (th2 & E & El & Hb). right. split; [|apply I; eauto].
      intros <-. assert (lk !! db th = Some t') by (apply I; eauto). congruence.
Qed.

(** Giving it back. *)
Lemma holders_drop lk ths t th th' :
  holders lk ths -> ths !! t = Some th -> db th' = db th -> holds th -> ~ holds th' ->
  holders (delete (db th) lk) (<[t := th']> ths).
Proof.
  intros I Ht Hdb Hb Hh l t'. setoid_rewrite (moved_lookup _ _ _ _ _ Ht).
  assert (lk !! db th = Some t) as Hl by (apply I; eauto).
  rewrite lookup_delete_Some. case_decide as Hd.
  - subst t'. split; [|by intros (? & [= <-] & _ & ?)].
    intros [Hne (th2 & E & <- & _)%I]. congruence.
  - split.
    + intros [_ ?]. by apply I.
    + intros (th2 & E & <- & Hb'). split; [|apply I; eauto].
      intros El. assert (lk !! db th2 = Some t') as Hl' by (apply I; eauto).
      rewrite <-El in Hl'. congruence.
Qed.

(** At most one thread of a database holds its mutex. *)
Lemma holders_alone lk ths t th t' th' :
  holders lk ths -> ths !! t = Some th -> ths !! t' = Some th' -> db th = db th' ->
  holds th -> holds th' -> t = t'.
Proof.
  intros I Ht Ht' Hdb Hh Hh'. assert (lk !! db th = Some t) as H1 by (apply I; eauto).
  assert (lk !! db th = Some t') as H2 by (apply I; exists th'; by rewrite Hdb). congruence.
Qed.
End holders.

(** ** Results *)

Section results.
Context {T O : Type} (result : T -> option O).

(** [l] lists the threads that have a result. *)
Definition results (l : list (nat * O)) (ths : list T) : Prop :=
  forall t o, (t, o) ∈ l <-> exists th, ths !! t = Some th /\ result th = Some o.

Lemma results_same l ths t th th' :
  results l ths -> ths !! t = Some th -> result th' = result th -> results l (<[t := th']> ths).
Proof.
  intros Hl Ht Hr t' o. rewrite (Hl t' o). setoid_rewrite (moved_lookup _ _ _ _ _ Ht).
  case_decide as Hd; [subst t'|done]. rewrite Ht. split.
  - intros (? & [= <-] & ?). exists th'. by rewrite Hr.
  - intros (? & [= <-] & ?). exists th. by rewrite <-Hr.
Qed.

Lemma results_add l ths t th th' o :
  results l ths -> ths !! t = Some th -> result th = None -> result th' = Some o ->
  results (l ++ [(t, o)]) (<[t := th']> ths).
Proof.
  intros Hl Ht Hn Hr t' o'. rewrite elem_of_app, (Hl t' o'), list_elem_of_singleton.
  setoid_rewrite (moved_lookup _ _ _ _ _ Ht). case_decide as Hd.
  - subst t'. rewrite Ht. split; [intros [(? & [= <-] & ?)|[= ->]]; [congruence|by exists th']|].
    intros (? & [= <-] & ?). right. congruence.
  - split; [intros [?|[= ? _]]; done|by left].
Qed.

Lemma results_fresh l ths t th :
  results l ths -> ths !! t = Some th -> result th = None -> t ∉ l.*1.
Proof.
  intros Hl Ht Hn ([t' o] & Et & Hin)%list_elem_of_fmap. cbn in Et. subst t'.
  apply Hl in Hin as (th' & Ht' & Ho). congruence.
Qed.

Lemma results_snoc_nodup l ths t th o :
  results l ths -> NoDup l.*1 -> ths !! t = Some th -> result th = None -> NoDup (l ++ [(t, o)]).*1.
Proof.
  intros Hl Hnd Ht Hn. rewrite fmap_app. apply NoDup_app. split; [done|]. split; [|apply NoDup_singleton].
  intros t' Hin ->%list_elem_of_singleton. by eapply results_fresh.
Qed.

(** When every thread has one, all of them are listed. *)
Lemma results_all l ths :
  results l ths -> NoDup l.*1 -> (forall t th, ths !! t = Some th -> is_Some (result th)) ->
  l.*1 ≡ₚ seq 0 (length ths).
Proof.
  intros Hl Hnd Hall. apply NoDup_Permutation; [done|apply NoDup_seq|]. intros t. rewrite elem_of_seq. split.
  - intros ([t' o] & -> & Hin)%list_elem_of_fmap. apply Hl in Hin as (th & Ht & _).
    cbn. apply lookup_lt_Some in Ht. lia.
  - intros Ht. destruct (lookup_lt_is_Some_2 ths t ltac:(lia)) as [th Hth].
    destruct (Hall _ _ Hth) as [o Ho]. apply list_elem_of_fmap. exists (t, o). split; [done|].
    apply Hl. by exists th.
Qed.
End results.

(** ** Schedules

    A concrete run: the threads that take the steps, in order. *)

Section schedules.
Context {S : Type} (step : nat -> S -> option S).

Fixpoint exec (l : list nat) (s : S) : option S :=
  match l with [] => Some s | t :: l => step t s ≫= exec l end.

Lemma exec_nsteps l s s' :
  exec l s = Some s' -> nsteps (fun s s' => exists t, step t s = Some s') (length l) s s'.
Proof.
  revert s. induction l as [|t l IH]; cbn; intros s; [intros [= ->]; constructor|].
  destruct (step t s) as [s1|] eqn:E; [|done]. cbn. intros E2. econstructor; [by exists t|]. by apply IH.
Qed.

Lemma exec_steps l s s' : exec l s = Some s' -> rtc (fun s s' => exists t, step t s = Some s') s s'.
Proof. intros E%exec_nsteps. by eapply rtc_nsteps_2. Qed.
End schedules.
