(* ===== verification/GoLib.v ===== *)
(** * GoLib: the parts of Go's standard library the program leans on

    [strings]/[bytes] searching, [bytes.Compare], [encoding/binary] (fixed
    width and varint), [io.ReadFull] over an in-memory reader, and integer
    conversions.  Everything here is executable. *)

From S2P Require Import Prelude.
Local Open Scope Z_scope.

(** ** Fixed-width integers *)

Definition two64 : Z := 18446744073709551616.
Definition two63 : Z := 9223372036854775808.
Definition two32 : Z := 4294967296.
Definition u64 (z : Z) : Z := z mod two64.
Definition u32 (z : Z) : Z := z mod two32.
Definition u16 (z : Z) : Z := z mod 65536.
(** Conversion to [int64] and [int32]: two's complement. *)
Definition i64 (z : Z) : Z :=
  let u := u64 z in if u <? two63 then u else u - two64.
Definition i32 (z : Z) : Z :=
  let u := u32 z in if u <? 2147483648 then u else u - two32.

Lemma u64_small z : 0 <= z < two64 -> u64 z = z.
Proof. intros. unfold u64. by rewrite Z.mod_small. Qed.
Lemma u32_small z : 0 <= z < two32 -> u32 z = z.
Proof. intros. unfold u32. by rewrite Z.mod_small. Qed.
Lemma u64_range z : 0 <= u64 z < two64.
Proof. apply Z.mod_pos_bound. unfold two64. lia. Qed.
Lemma u32_range z : 0 <= u32 z < two32.
Proof. apply Z.mod_pos_bound. unfold two32. lia. Qed.
Lemma i64_small z : 0 <= z < two63 -> i64 z = z.
Proof.
  intros. unfold i64. rewrite u64_small by (unfold two64, two63 in *; lia).
  by rewrite (proj2 (Z.ltb_lt _ _)) by lia.
Qed.
Lemma u64_i64 z : u64 (i64 z) = u64 z.
Proof.
  unfold i64. pose proof (u64_range z). case_match.
  - by apply u64_small.
  - unfold u64 at 1. unfold u64 in *.
    replace (z mod two64 - two64) with (z mod two64 + (-1) * two64) by lia.
    rewrite Z_mod_plus_full, Z.mod_mod; unfold two64; lia.
Qed.

(** ** Slices *)

(** [v[i:j]] *)
Definition slice (i j : nat) (v : bytes) : outcome bytes :=
  if decide (i <= j /\ j <= length v)%nat then Ok (take (j - i) (drop i v)) else Panic.

Lemma slice_mid a b c i j :
  length a = i -> (length b + i)%nat = j -> slice i j (a ++ b ++ c) = Ok b.
Proof.
  intros <- <-. unfold slice. rewrite decide_True by (rewrite !length_app; lia).
  rewrite drop_app_length, Nat.add_sub. by rewrite take_app_length.
Qed.

(** ** Little- and big-endian codecs *)

Fixpoint le_put (n : nat) (z : Z) : bytes :=
  match n with O => [] | S n => z2b z :: le_put n (z / 256) end.
Fixpoint le_get (l : bytes) : Z :=
  match l with [] => 0 | b :: l => b2z b + 256 * le_get l end.
Definition be_put (n : nat) (z : Z) : bytes := rev (le_put n z).
Definition be_get (l : bytes) : Z := le_get (rev l).

Lemma length_le_put n z : length (le_put n z) = n.
Proof. revert z; induction n; intros; cbn; [done|by rewrite IHn]. Qed.
Lemma length_be_put n z : length (be_put n z) = n.
Proof. unfold be_put. rewrite length_rev. apply length_le_put. Qed.

Lemma le_get_range l : 0 <= le_get l < 256 ^ Z.of_nat (length l).
Proof.
  induction l as [|b l IH]; cbn [le_get length]; [lia|].
  rewrite Nat2Z.inj_succ, Z.pow_succ_r by lia.
  pose proof (b2z_range b). lia.
Qed.
Lemma be_get_range l : 0 <= be_get l < 256 ^ Z.of_nat (length l).
Proof. unfold be_get. rewrite <-(length_rev l). apply le_get_range. Qed.

Lemma le_get_put n z : le_get (le_put n z) = z mod 256 ^ Z.of_nat n.
Proof.
  revert z. induction n as [|n IH]; intros z; cbn [le_put le_get].
  { by rewrite Z.mod_1_r. }
  rewrite IH, b2z_z2b, Nat2Z.inj_succ, Z.pow_succ_r by lia.
  rewrite Z.rem_mul_r; lia.
Qed.

Lemma be_get_put n z : be_get (be_put n z) = z mod 256 ^ Z.of_nat n.
Proof. unfold be_get, be_put. rewrite rev_involutive. apply le_get_put. Qed.

Lemma be_get_put_small n z :
  0 <= z < 256 ^ Z.of_nat n -> be_get (be_put n z) = z.
Proof. intros. by rewrite be_get_put, Z.mod_small. Qed.

Lemma le_put_get l : le_put (length l) (le_get l) = l.
Proof.
  induction l as [|b l IH]; cbn [length le_put le_get]; [done|].
  pose proof (b2z_range b).
  f_equal.
  - rewrite <-z2b_mod, Z.add_comm, Z.mul_comm, Z_mod_plus_full'
      || rewrite <-z2b_mod, Z.mul_comm, Z_mod_plus_full.
    rewrite Z.mod_small by done. apply z2b_b2z.
  - rewrite Z.mul_comm, Z_div_plus_full, Z.div_small by lia. apply IH.
Qed.
Lemma be_put_get l : be_put (length l) (be_get l) = l.
Proof.
  unfold be_put, be_get. rewrite <-(length_rev l), le_put_get.
  apply rev_involutive.
Qed.

Lemma le_put_app n m z : le_put (n + m) z = le_put n z ++ le_put m (z / 256 ^ Z.of_nat n).
Proof.
  revert z. induction n as [|n IH]; intros z; cbn [le_put Nat.add app].
  { by rewrite Z.div_1_r. }
  rewrite IH, Z.div_div by lia. rewrite Nat2Z.inj_succ, Z.pow_succ_r by lia. done.
Qed.
Lemma be_put_app n m z : be_put (n + m) z = be_put n (z / 256 ^ Z.of_nat m) ++ be_put m z.
Proof. unfold be_put. rewrite Nat.add_comm, le_put_app. apply rev_app_distr. Qed.

Lemma le_put_mod n z : le_put n (z mod 256 ^ Z.of_nat n) = le_put n z.
Proof.
  rewrite <-le_get_put.
  rewrite <-(length_le_put n z) at 1. apply le_put_get.
Qed.

(** ** [bytes.Compare] / [strings.Compare]: lexicographic on bytes *)

Fixpoint bytes_cmp (a b : bytes) : comparison :=
  match a, b with
  | [], [] => Eq
  | [], _ :: _ => Lt
  | _ :: _, [] => Gt
  | x :: a, y :: b =>
      match Z.compare (b2z x) (b2z y) with Eq => bytes_cmp a b | c => c end
  end.

Definition bytes_lt (a b : bytes) : Prop := bytes_cmp a b = Lt.
Definition bytes_ltb (a b : bytes) : bool :=
  match bytes_cmp a b with Lt => true | _ => false end.

Lemma bytes_cmp_refl a : bytes_cmp a a = Eq.
Proof. induction a; cbn; [done|]. by rewrite Z.compare_refl. Qed.
Lemma bytes_cmp_eq a b : bytes_cmp a b = Eq <-> a = b.
Proof.
  split; [|intros ->; apply bytes_cmp_refl].
  revert b; induction a as [|x a IH]; intros [|y b]; cbn; try done.
  destruct (Z.compare_spec (b2z x) (b2z y)) as [E| |]; try done.
  intros H. apply b2z_inj in E. subst. f_equal. by apply IH.
Qed.
Lemma bytes_cmp_antisym a b : bytes_cmp b a = CompOpp (bytes_cmp a b).
Proof.
  revert b; induction a as [|x a IH]; intros [|y b]; cbn; try done.
  rewrite (Z.compare_antisym (b2z x) (b2z y)).
  destruct (Z.compare (b2z x) (b2z y)); cbn; auto.
Qed.
Lemma bytes_cmp_trans c a b d :
  bytes_cmp a b = c -> bytes_cmp b d = c -> bytes_cmp a d = c.
Proof.
  revert b d; induction a as [|x a IH]; intros [|y b] [|z d]; cbn;
    try congruence.
  destruct (Z.compare_spec (b2z x) (b2z y)), (Z.compare_spec (b2z y) (b2z z)),
    (Z.compare_spec (b2z x) (b2z z)); intros; subst; try congruence; try lia; eauto.
Qed.

#[export] Instance bytes_lt_strict : StrictOrder bytes_lt.
Proof.
  split.
  - intros a H. unfold bytes_lt in H. by rewrite bytes_cmp_refl in H.
  - intros a b c. unfold bytes_lt. apply bytes_cmp_trans.
Qed.
#[export] Instance bytes_lt_dec a b : Decision (bytes_lt a b).
Proof. unfold bytes_lt. destruct (bytes_cmp a b); [right|left|right]; congruence. Defined.

Lemma bytes_lt_total a b : bytes_lt a b \/ a = b \/ bytes_lt b a.
Proof.
  unfold bytes_lt. rewrite (bytes_cmp_antisym a b).
  destruct (bytes_cmp a b) eqn:E; cbn; auto. apply bytes_cmp_eq in E. auto.
Qed.
Lemma bytes_ltb_lt a b : bytes_ltb a b = true <-> bytes_lt a b.
Proof. unfold bytes_ltb, bytes_lt. destruct (bytes_cmp a b); split; congruence. Qed.

(** Comparing two strings with a common prefix. *)
Lemma bytes_cmp_app p a b : bytes_cmp (p ++ a) (p ++ b) = bytes_cmp a b.
Proof. induction p as [|x p IH]; cbn; [done|]. by rewrite Z.compare_refl. Qed.

(** ** [strings]: searching, prefixes, splitting *)

(** [strings.IndexByte] and [strings.LastIndexByte]; [None] is [-1]. *)
Fixpoint IndexByte (s : bytes) (c : byte) : option nat :=
  match s with
  | [] => None
  | x :: s => if decide (x = c) then Some O else S <$> IndexByte s c
  end.
Fixpoint LastIndexByte (s : bytes) (c : byte) : option nat :=
  match s with
  | [] => None
  | x :: s =>
      match LastIndexByte s c with
      | Some i => Some (S i)
      | None => if decide (x = c) then Some O else None
      end
  end.

Fixpoint HasPrefix (s pre : bytes) : bool :=
  match pre, s with
  | [], _ => true
  | _ :: _, [] => false
  | c :: pre, x :: s => if decide (x = c) then HasPrefix s pre else false
  end.
Definition HasSuffix (s suf : bytes) : bool := HasPrefix (rev s) (rev suf).
Definition TrimSuffix (s suf : bytes) : bytes :=
  if HasSuffix s suf then take (length s - length suf) s else s.
Definition TrimPrefix (s pre : bytes) : bytes :=
  if HasPrefix s pre then drop (length pre) s else s.

(** [strings.Split(s, sep)] for a one-byte separator; never empty. *)
Fixpoint Split (s : bytes) (sep : byte) : list bytes :=
  match s with
  | [] => [[]]
  | x :: s =>
      if decide (x = sep) then [] :: Split s sep
      else match Split s sep with
           | [] => [[x]]
           | w :: ws => (x :: w) :: ws
           end
  end.
Fixpoint Join (ws : list bytes) (sep : byte) : bytes :=
  match ws with
  | [] => []
  | [w] => w
  | w :: ws => w ++ sep :: Join ws sep
  end.

Lemma HasPrefix_spec s pre : HasPrefix s pre = true <-> exists t, s = pre ++ t.
Proof.
  revert s. induction pre as [|c pre IH]; intros s; cbn.
  - split; [by exists s|]. by destruct s.
  - destruct s as [|x s]; cbn; [split; [done|by intros (t & [=])]|].
    case_decide; subst.
    + rewrite IH. split; intros (t & Ht); exists t; [by rewrite Ht|by injection Ht].
    + split; [done|]. intros (t & [= ? ?]). congruence.
Qed.
Lemma HasPrefix_app pre t : HasPrefix (pre ++ t) pre = true.
Proof. apply HasPrefix_spec. by exists t. Qed.
Lemma HasPrefix_refl s : HasPrefix s s = true.
Proof. apply HasPrefix_spec. exists []. by rewrite app_nil_r. Qed.
Lemma HasSuffix_spec s suf : HasSuffix s suf = true <-> exists t, s = t ++ suf.
Proof.
  unfold HasSuffix. rewrite HasPrefix_spec. split; intros (t & Ht); exists (rev t).
  - by rewrite <-(rev_involutive s), Ht, rev_app_distr, rev_involutive.
  - by rewrite Ht, rev_app_distr.
Qed.
Lemma TrimSuffix_app t suf : TrimSuffix (t ++ suf) suf = t.
Proof.
  unfold TrimSuffix. rewrite (proj2 (HasSuffix_spec _ _)) by eauto.
  rewrite length_app, Nat.add_sub. apply take_app_length.
Qed.
Lemma TrimPrefix_app pre t : TrimPrefix (pre ++ t) pre = t.
Proof. unfold TrimPrefix. rewrite HasPrefix_app. apply drop_app_length. Qed.

Lemma IndexByte_spec s c i :
  IndexByte s c = Some i ->
  s = take i s ++ c :: drop (S i) s /\ c ∉ take i s.
Proof.
  revert i. induction s as [|x s IH]; intros i; cbn; [done|].
  case_decide; subst.
  - intros [= <-]. cbn. split; [done|]. apply not_elem_of_nil.
  - intros (j & Hj & ->)%fmap_Some. destruct (IH _ Hj) as [E Hn]. cbn. split.
    + by rewrite <-E.
    + rewrite not_elem_of_cons. done.
Qed.
Lemma IndexByte_None s c : IndexByte s c = None <-> c ∉ s.
Proof.
  induction s as [|x s IH]; cbn; [split; [intros; apply not_elem_of_nil|done]|].
  rewrite not_elem_of_cons. case_decide; subst; [by split; [|intros []]|].
  destruct (IndexByte s c); cbn.
  - split; [done|]. intros [_ H1]. by apply IH in H1.
  - split; [|done]. intros _. by split; [|apply IH].
Qed.
Lemma IndexByte_app a b c : c ∉ a -> IndexByte (a ++ c :: b) c = Some (length a).
Proof.
  induction a as [|x a IH]; cbn; intros H.
  - by rewrite decide_True.
  - apply not_elem_of_cons in H as [? ?]. rewrite decide_False by done.
    by rewrite IH.
Qed.
Lemma LastIndexByte_None s c : LastIndexByte s c = None <-> c ∉ s.
Proof.
  induction s as [|x s IH]; cbn; [split; [intros; apply not_elem_of_nil|done]|].
  rewrite not_elem_of_cons. destruct (LastIndexByte s c).
  - split; [done|]. intros [_ H]. by apply IH in H.
  - pose proof (proj1 IH eq_refl). case_decide; subst.
    + by split; [|intros []].
    + by split.
Qed.
Lemma LastIndexByte_app a b c :
  c ∉ b -> LastIndexByte (a ++ c :: b) c = Some (length a).
Proof.
  intros Hb. induction a as [|x a IH]; cbn; [|by rewrite IH].
  apply LastIndexByte_None in Hb. rewrite Hb. by rewrite decide_True.
Qed.
Lemma LastIndexByte_spec s c i :
  LastIndexByte s c = Some i ->
  s = take i s ++ c :: drop (S i) s /\ c ∉ drop (S i) s.
Proof.
  revert i. induction s as [|x s IH]; intros i; cbn; [done|].
  destruct (LastIndexByte s c) as [j|] eqn:E.
  - intros [= <-]. destruct (IH _ eq_refl) as [E1 E2]. cbn. by rewrite <-E1.
  - case_decide; [|done]. intros [= <-]. cbn. rewrite drop_0. subst.
    split; [done|]. by apply LastIndexByte_None.
Qed.

Lemma Split_no_sep w c : c ∉ w -> Split w c = [w].
Proof.
  induction w as [|x w IH]; intros H; cbn; [done|].
  apply not_elem_of_cons in H as [? ?]. rewrite decide_False by done.
  by rewrite IH.
Qed.
Lemma Split_app w s c : c ∉ w -> Split (w ++ c :: s) c = w :: Split s c.
Proof.
  induction w as [|x w IH]; intros H; cbn; [by rewrite decide_True|].
  apply not_elem_of_cons in H as [? ?]. rewrite decide_False by done.
  by rewrite IH.
Qed.
Lemma Split_Join ws c :
  ws <> [] -> Forall (fun w => c ∉ w) ws -> Split (Join ws c) c = ws.
Proof.
  induction ws as [|w ws IH]; [done|]. intros _ [Hw Hws]%Forall_cons.
  destruct ws as [|w' ws]; [by apply Split_no_sep|].
  change (Join (w :: w' :: ws) c) with (w ++ c :: Join (w' :: ws) c).
  rewrite Split_app by done. by rewrite IH.
Qed.
Lemma Split_not_nil s c : Split s c <> [].
Proof. destruct s; cbn; [done|]. case_decide; [done|]. by case_match. Qed.
Lemma Join_Split s c : Join (Split s c) c = s.
Proof.
  induction s as [|x s IH]; [done|]. cbn. pose proof (Split_not_nil s c).
  destruct (Split s c) as [|w ws] eqn:E; [done|].
  case_decide; subst; [done|]. by destruct ws.
Qed.
Lemma Split_words s c : Forall (fun w => c ∉ w) (Split s c).
Proof.
  induction s as [|x s IH]; cbn.
  { constructor; [apply not_elem_of_nil|done]. }
  case_decide; [constructor; [apply not_elem_of_nil|done]|].
  destruct (Split s c) as [|w ws]; [constructor; [|done]|].
  - rewrite not_elem_of_cons. split; [done|apply not_elem_of_nil].
  - apply Forall_cons in IH as [? ?]. constructor; [|done].
    by apply not_elem_of_cons.
Qed.

(** ** In-memory readers

    [bytes.Reader], [bufio.Reader] over verified data: the state is what is
    left to read. *)

Abbreviation reader := (ST bytes).

(** [io.ReadFull(r, make([]byte, n))] *)
Definition ReadFull (n : nat) : reader bytes := fun r =>
  if decide (n = O) then (Ok [], r)
  else match r with
       | [] => (Err ErrEOF, [])
       | _ => if decide (length r < n)%nat then (Err ErrUnexpectedEOF, [])
              else (Ok (take n r), drop n r)
       end.

(** [binary.Read(r, binary.BigEndian, &v)] for an [n]-byte unsigned [v]. *)
Definition ReadBE (n : nat) : reader Z := be_get <$> ReadFull n.

Lemma ReadFull_app n a rest :
  length a = n -> ReadFull n (a ++ rest) = (Ok a, rest).
Proof.
  intros <-. unfold ReadFull. case_decide as H.
  { by destruct a. }
  destruct a as [|x a]; [done|]. cbn [app]. rewrite decide_False.
  - change (x :: a ++ rest) with ((x :: a) ++ rest).
    by rewrite take_app_length, drop_app_length.
  - cbn. rewrite length_app. lia.
Qed.
Lemma ReadFull_Ok n r a rest :
  ReadFull n r = (Ok a, rest) -> r = a ++ rest /\ length a = n.
Proof.
  unfold ReadFull. case_decide; [intros [= <- <-]; by subst|].
  destruct r as [|x r]; [done|]. case_decide; [done|]. intros [= <- <-].
  rewrite take_drop, length_take. split; [done|]. cbn in *. lia.
Qed.

(** ** [encoding/binary] varints *)

Definition errOverflow : error :=
  ErrNew (str "binary: varint overflows a 64-bit integer").
Definition MaxVarintLen64 : nat := 10.

(** [binary.PutUvarint]; [fuel] bounds the loop, [MaxVarintLen64] rounds
    suffice for a [uint64] ([PutUvarint_length]). *)
Fixpoint put_uvarint (fuel : nat) (x : Z) : bytes :=
  match fuel with
  | O => []
  | S fuel =>
      if x <? 128 then [z2b x]
      else z2b (Z.lor (x mod 256) 128) :: put_uvarint fuel (Z.shiftr x 7)
  end.
Definition PutUvarint (x : Z) : bytes := put_uvarint MaxVarintLen64 x.

(** [binary.ReadUvarint]: the value is returned even beside an error. *)
Fixpoint read_uvarint (fuel : nat) (i x s : Z) (r : bytes)
    : Z * option error * bytes :=
  match fuel with
  | O => (x, Some errOverflow, r)
  | S fuel =>
      match r with
      | [] => (x, Some (if 0 <? i then ErrUnexpectedEOF else ErrEOF), [])
      | b :: r =>
          if b2z b <? 128 then
            if (i =? Z.of_nat MaxVarintLen64 - 1) && (1 <? b2z b)
            then (x, Some errOverflow, r)
            else (Z.lor x (u64 (Z.shiftl (b2z b) s)), None, r)
          else read_uvarint fuel (i + 1)
                 (Z.lor x (u64 (Z.shiftl (Z.land (b2z b) 127) s))) (s + 7) r
      end
  end.
Definition ReadUvarint (r : bytes) : Z * option error * bytes :=
  read_uvarint MaxVarintLen64 0 0 0 r.

Lemma read_uvarint_consumes fuel i x s r y r' :
  read_uvarint fuel i x s r = (y, None, r') -> (length r' < length r)%nat.
Proof.
  revert i x s r. induction fuel as [|fuel IH]; intros i x s [|b r]; cbn [read_uvarint]; try done.
  destruct (b2z b <? 128).
  - destruct (_ && _); [done|]. intros [= _ <-]. cbn. lia.
  - intros E%IH. cbn. lia.
Qed.

(** What follows does not matter, unless the input ends inside the varint. *)
Lemma read_uvarint_ext fuel i x s r y er r' e :
  read_uvarint fuel i x s r = (y, er, r') ->
  (r' = [] /\ is_Some er) \/ read_uvarint fuel i x s (r ++ e) = (y, er, r' ++ e).
Proof.
  revert i x s r. induction fuel as [|fuel IH]; intros i x s r.
  { cbn. intros [= <- <- <-]. by right. }
  destruct r as [|b r]; cbn [read_uvarint app]; [intros [= <- <- <-]; left; eauto|].
  destruct (b2z b <? 128); [|apply IH].
  destruct (_ && _); intros [= <- <- <-]; by right.
Qed.

Lemma lor_shift_disjoint a b s :
  0 <= s -> 0 <= a < 2 ^ s -> Z.lor a (Z.shiftl b s) = a + b * 2 ^ s.
Proof.
  intros Hs Ha.
  assert (Z.land a (Z.shiftl b s) = 0) as H0.
  { apply Z.bits_inj'. intros n Hn. rewrite Z.land_spec, Z.bits_0.
    destruct (Z.lt_ge_cases n s).
    - rewrite Z.shiftl_spec_low by done. apply andb_false_r.
    - by rewrite <-(Z.mod_small a (2 ^ s)), Z.mod_pow2_bits_high by lia. }
  pose proof (Z.add_nocarry_lxor _ _ H0) as H1.
  rewrite Z.lxor_lor in H1 by done. rewrite <-H1, Z.shiftl_mul_pow2 by done. lia.
Qed.

Lemma lor_128 x : 0 <= x -> Z.lor (x mod 256) 128 = x mod 128 + 128.
Proof.
  intros Hx.
  replace (Z.lor (x mod 256) 128) with (Z.lor (x mod 128) (Z.shiftl 1 7)).
  { rewrite lor_shift_disjoint; [lia..|].
    change (2 ^ 7) with 128. apply Z.mod_pos_bound. lia. }
  change 256 with (2 ^ 8). change 128 with (2 ^ 7) at 1. change (Z.shiftl 1 7) with 128.
  rewrite <-!Z.land_ones by lia.
  apply Z.bits_inj'. intros n Hn. rewrite !Z.lor_spec, !Z.land_spec.
  rewrite !Z.testbit_ones_nonneg by lia.
  change 128 with (2 ^ 7). destruct (decide (n = 7)) as [->|].
  { by rewrite Z.pow2_bits_true, !orb_true_r by lia. }
  rewrite Z.pow2_bits_false, !orb_false_r by lia. f_equal.
  destruct (Z.ltb_spec n 7), (Z.ltb_spec n 8); lia.
Qed.

Lemma varint_byte x :
  0 <= x ->
  b2z (z2b (Z.lor (x mod 256) 128)) = x mod 128 + 128 /\
  Z.land (b2z (z2b (Z.lor (x mod 256) 128))) 127 = x mod 128.
Proof.
  intros Hx. pose proof (Z.mod_pos_bound x 128 ltac:(lia)).
  rewrite lor_128, b2z_z2b, (Z.mod_small (_ + _)) by lia. split; [done|].
  change 127 with (Z.ones 7). rewrite Z.land_ones by lia.
  change (2 ^ 7) with 128. replace (x mod 128 + 128) with (x mod 128 + 1 * 128) by lia.
  by rewrite Z_mod_plus_full, Z.mod_mod.
Qed.

Lemma read_put_uvarint fuel k acc x rest :
  Z.of_nat fuel + k = 10 -> 0 <= k -> 0 <= acc < 2 ^ (7 * k) ->
  0 <= x < 2 ^ (64 - 7 * k) ->
  read_uvarint fuel k acc (7 * k) (put_uvarint fuel x ++ rest)
  = (acc + x * 2 ^ (7 * k), None, rest).
Proof.
  revert k acc x. induction fuel as [|fuel IH]; intros k acc x Hf Hk Hacc Hx.
  { replace k with 10 in Hx by lia. cbn in Hx. lia. }
  assert (2 ^ (64 - 7 * k) * 2 ^ (7 * k) = two64) as H64.
  { rewrite <-Z.pow_add_r by lia. by replace (64 - 7 * k + 7 * k) with 64 by lia. }
  assert (0 < 2 ^ (7 * k)) by (apply Z.pow_pos_nonneg; lia).
  assert (x * 2 ^ (7 * k) < two64) as Hxs.
  { rewrite <-H64. apply Z.mul_lt_mono_pos_r; lia. }
  cbn [put_uvarint]. destruct (Z.ltb_spec x 128) as [Hlt|Hge]; cbn [app read_uvarint].
  - rewrite b2z_z2b, Z.mod_small by lia. rewrite (proj2 (Z.ltb_lt _ _)) by lia.
    replace ((k =? _) && (1 <? x)) with false.
    + rewrite u64_small by (rewrite Z.shiftl_mul_pow2 by lia; lia).
      by rewrite lor_shift_disjoint by lia.
    + change (Z.of_nat MaxVarintLen64 - 1) with 9.
      destruct (Z.eqb_spec k 9) as [->|]; [|done].
      destruct (Z.ltb_spec 1 x); [|done].
      change (2 ^ (64 - 7 * 9)) with 2 in Hx. lia.
  - destruct (varint_byte x) as [E1 E2]; [lia|].
    pose proof (Z.mod_pos_bound x 128 ltac:(lia)).
    pose proof (Z.div_mod x 128 ltac:(lia)) as Hdm.
    rewrite E2, E1. rewrite (proj2 (Z.ltb_ge _ _)) by lia.
    rewrite u64_small by (rewrite Z.shiftl_mul_pow2 by lia; nia).
    rewrite lor_shift_disjoint by lia.
    replace (7 * k + 7) with (7 * (k + 1)) by lia.
    assert (2 ^ (7 * (k + 1)) = 128 * 2 ^ (7 * k)) as Hp.
    { replace (7 * (k + 1)) with (7 + 7 * k) by lia. by rewrite Z.pow_add_r by lia. }
    assert (k < 9).
    { destruct (Z.lt_ge_cases k 9); [done|]. destruct (decide (k = 9)) as [->|].
      - cbn in Hx. lia.
      - replace k with 10 in Hx by lia. cbn in Hx. lia. }
    assert (2 ^ (64 - 7 * k) = 128 * 2 ^ (64 - 7 * (k + 1))) as Hq.
    { replace (64 - 7 * k) with (7 + (64 - 7 * (k + 1))) by lia.
      by rewrite Z.pow_add_r by lia. }
    rewrite Z.shiftr_div_pow2 by lia. change (2 ^ 7) with 128.
    rewrite IH; [|lia|lia|nia|nia].
    f_equal. f_equal. rewrite Hp. nia.
Qed.

Lemma ReadUvarint_Put x rest :
  0 <= x < two64 -> ReadUvarint (PutUvarint x ++ rest) = (x, None, rest).
Proof.
  intros. unfold ReadUvarint, PutUvarint.
  pose proof (read_put_uvarint MaxVarintLen64 0 0 x rest) as E.
  change (7 * 0) with 0 in E. rewrite E by done. by rewrite Z.mul_1_r.
Qed.

Lemma length_PutUvarint_small x : 0 <= x < 128 -> length (PutUvarint x) = 1%nat.
Proof. intros. unfold PutUvarint. cbn. by rewrite (proj2 (Z.ltb_lt _ _)) by lia. Qed.

(** ** [encoding/base64]: [RawURLEncoding.EncodeToString] *)

Definition b64_alphabet : bytes :=
  str "ABCDEFGHIJKLMNOPQRSTUVWXYZabcdefghijklmnopqrstuvwxyz0123456789-_".
Definition b64_char (z : Z) : byte := default Byte.x41 (b64_alphabet !! Z.to_nat z).
Fixpoint RawURLEncode (l : bytes) : bytes :=
  match l with
  | [] => []
  | [a] =>
      let v := b2z a * 16 in
      [b64_char (v / 64); b64_char (v mod 64)]
  | [a; b] =>
      let v := (b2z a * 256 + b2z b) * 4 in
      [b64_char (v / 4096); b64_char (v / 64 mod 64); b64_char (v mod 64)]
  | a :: b :: c :: l =>
      let v := (b2z a * 256 + b2z b) * 256 + b2z c in
      b64_char (v / 262144) :: b64_char (v / 4096 mod 64)
      :: b64_char (v / 64 mod 64) :: b64_char (v mod 64) :: RawURLEncode l
  end.

Lemma b64_char_inj x y : 0 <= x < 64 -> 0 <= y < 64 -> b64_char x = b64_char y -> x = y.
Proof.
  intros Hx Hy H.
  assert (forall a b : nat, (a < 64)%nat -> (b < 64)%nat ->
    default Byte.x41 (b64_alphabet !! a) = default Byte.x41 (b64_alphabet !! b) ->
    a = b) as Hinj.
  { assert (forallb (fun a => forallb (fun b =>
      implb (bool_decide (default Byte.x41 (b64_alphabet !! a)
                          = default Byte.x41 (b64_alphabet !! b)))
        (Nat.eqb a b)) (seq 0 64)) (seq 0 64) = true) as Hall by by vm_compute.
    intros a b Ha Hb E. rewrite forallb_forall in Hall.
    specialize (Hall a ltac:(apply in_seq; lia)). rewrite forallb_forall in Hall.
    specialize (Hall b ltac:(apply in_seq; lia)).
    rewrite bool_decide_eq_true_2 in Hall by done. by apply Nat.eqb_eq. }
  apply Z2Nat.inj; [lia..|]. apply Hinj; [lia..|]. exact H.
Qed.

(** Splitting a 24-bit group into its four 6-bit digits loses nothing. *)
Lemma b64_digits v w :
  0 <= v < 16777216 -> 0 <= w < 16777216 ->
  b64_char (v / 262144) = b64_char (w / 262144) ->
  b64_char (v / 4096 mod 64) = b64_char (w / 4096 mod 64) ->
  b64_char (v / 64 mod 64) = b64_char (w / 64 mod 64) ->
  b64_char (v mod 64) = b64_char (w mod 64) -> v = w.
Proof.
  intros Hv Hw H1 H2 H3 H4.
  apply b64_char_inj in H1; [|Z.div_mod_to_equations; lia..].
  apply b64_char_inj in H2, H3, H4; [|Z.div_mod_to_equations; lia..].
  Z.div_mod_to_equations; lia.
Qed.

Lemma RawURLEncode_inj a b :
  length a = length b -> RawURLEncode a = RawURLEncode b -> a = b.
Proof.
  intros Hl. remember (length a) as n eqn:Hn. revert a b Hn Hl.
  induction (lt_wf n) as [n _ IH]. intros a b Ha Hb.
  destruct a as [|a1 [|a2 [|a3 a]]], b as [|b1 [|b2 [|b3 b]]];
    cbn in Ha, Hb; try lia; cbn [RawURLEncode]; intros H; [done|..].
  - pose proof (b2z_range a1) as Ra1. pose proof (b2z_range b1) as Rb1.
    injection H as H1 H2. f_equal. apply b2z_inj.
    apply b64_char_inj in H1, H2; Z.div_mod_to_equations; lia.
  - pose proof (b2z_range a1) as Ra1. pose proof (b2z_range b1) as Rb1.
    pose proof (b2z_range a2) as Ra2. pose proof (b2z_range b2) as Rb2.
    injection H as H1 H2 H3.
    apply b64_char_inj in H1, H2, H3; [|Z.div_mod_to_equations; lia..].
    assert (b2z a1 = b2z b1 /\ b2z a2 = b2z b2) as [E1%b2z_inj E2%b2z_inj]
      by (Z.div_mod_to_equations; lia).
    by subst.
  - pose proof (b2z_range a1) as Ra1. pose proof (b2z_range b1) as Rb1.
    pose proof (b2z_range a2) as Ra2. pose proof (b2z_range b2) as Rb2.
    pose proof (b2z_range a3) as Ra3. pose proof (b2z_range b3) as Rb3.
    injection H as H1 H2 H3 H4 H5.
    apply b64_digits in H1; [|lia..|done|done|done].
    assert (b2z a1 = b2z b1 /\ b2z a2 = b2z b2 /\ b2z a3 = b2z b3)
      as (E1%b2z_inj & E2%b2z_inj & E3%b2z_inj) by lia. subst.
    do 3 f_equal. eapply IH; [|done| |done]; lia.
Qed.

(** [RawURLEncoding.DecodeString]: line breaks are skipped, trailing bits of
    the last digit are ignored (the encoding is not [Strict]). *)
Definition errB64 : error := ErrNew (str "illegal base64 data").
Definition b64_index (c : byte) : option Z :=
  Z.of_nat ∘ fst <$> list_find (fun x => x = c) b64_alphabet.
Fixpoint b64_decode (l : bytes) : option bytes :=
  match l with
  | [] => Some []
  | [_] => None
  | [a; b] =>
      va ← b64_index a; vb ← b64_index b;
      Some [z2b ((va * 64 + vb) / 16)]
  | [a; b; c] =>
      va ← b64_index a; vb ← b64_index b; vc ← b64_index c;
      let v := (va * 64 + vb) * 64 + vc in
      Some [z2b (v / 1024); z2b (v / 4)]
  | a :: b :: c :: d :: l =>
      va ← b64_index a; vb ← b64_index b; vc ← b64_index c; vd ← b64_index d;
      let v := ((va * 64 + vb) * 64 + vc) * 64 + vd in
      rest ← b64_decode l;
      Some (z2b (v / 65536) :: z2b (v / 256) :: z2b v :: rest)
  end.
Definition RawURLDecode (s : bytes) : outcome bytes :=
  of_option errB64
    (b64_decode (List.filter (fun c => negb (bool_decide (c = Byte.x0a))
                                 && negb (bool_decide (c = Byte.x0d))) s)).

Lemma b64_index_char z : 0 <= z < 64 -> b64_index (b64_char z) = Some z.
Proof.
  intros Hz. assert (forallb (fun n : nat =>
    bool_decide (b64_index (b64_char (Z.of_nat n)) = Some (Z.of_nat n)))
    (seq 0 64) = true) as H by by vm_compute.
  rewrite forallb_forall in H. specialize (H (Z.to_nat z) ltac:(apply in_seq; lia)).
  apply bool_decide_eq_true_1 in H. by rewrite Z2Nat.id in H by lia.
Qed.

Lemma b64_decode_encode l : b64_decode (RawURLEncode l) = Some l.
Proof.
  remember (length l) as n eqn:Hn. revert l Hn.
  induction (lt_wf n) as [n _ IH]. intros l ->.
  destruct l as [|a [|b [|c l]]]; cbn [RawURLEncode b64_decode]; [done|..].
  - pose proof (b2z_range a) as Ra.
    rewrite !b64_index_char by (Z.div_mod_to_equations; lia). cbn. do 2 f_equal.
    apply b2z_inj. rewrite b2z_z2b. Z.div_mod_to_equations; lia.
  - pose proof (b2z_range a) as Ra. pose proof (b2z_range b) as Rb.
    rewrite !b64_index_char by (Z.div_mod_to_equations; lia). cbn.
    f_equal; f_equal; [|f_equal]; apply b2z_inj; rewrite b2z_z2b;
      Z.div_mod_to_equations; lia.
  - pose proof (b2z_range a) as Ra. pose proof (b2z_range b) as Rb.
    pose proof (b2z_range c) as Rc.
    rewrite !b64_index_char by (Z.div_mod_to_equations; lia).
    cbn [mbind option_bind]. rewrite (IH (length l)) by (cbn; lia || done). cbn.
    f_equal; f_equal; [|f_equal; [|f_equal]]; apply b2z_inj; rewrite b2z_z2b;
      Z.div_mod_to_equations; lia.
Qed.

Lemma b64_char_no_newline z :
  0 <= z < 64 -> b64_char z <> Byte.x0a /\ b64_char z <> Byte.x0d.
Proof.
  intros Hz. assert (forallb (fun n : nat =>
    bool_decide (b64_char (Z.of_nat n) <> Byte.x0a /\
                 b64_char (Z.of_nat n) <> Byte.x0d)) (seq 0 64) = true) as H
    by by vm_compute.
  rewrite forallb_forall in H. specialize (H (Z.to_nat z) ltac:(apply in_seq; lia)).
  apply bool_decide_eq_true_1 in H. by rewrite Z2Nat.id in H by lia.
Qed.

Lemma RawURLEncode_no_newline l :
  Forall (fun c => c <> Byte.x0a /\ c <> Byte.x0d) (RawURLEncode l).
Proof.
  remember (length l) as n eqn:Hn. revert l Hn.
  induction (lt_wf n) as [n _ IH]. intros l ->.
  destruct l as [|a [|b [|c l]]]; cbn [RawURLEncode]; [constructor|..];
    pose proof (b2z_range a) as Ra; try (pose proof (b2z_range b) as Rb);
    try (pose proof (b2z_range c) as Rc);
    repeat (apply Forall_cons_2; [apply b64_char_no_newline; Z.div_mod_to_equations; lia|]).
  1-2: constructor.
  eapply IH; [|done]. cbn. lia.
Qed.

Lemma RawURLDecode_Encode l : RawURLDecode (RawURLEncode l) = Ok l.
Proof.
  unfold RawURLDecode.
  assert (List.filter (fun c => negb (bool_decide (c = Byte.x0a))
            && negb (bool_decide (c = Byte.x0d))) (RawURLEncode l) = RawURLEncode l)
    as ->; [|by rewrite b64_decode_encode].
  pose proof (RawURLEncode_no_newline l) as H.
  induction H as [|c w [H1 H2] _ IH]; [done|]. cbn [List.filter].
  rewrite !bool_decide_eq_false_2 by done. cbn. by rewrite IH.
Qed.
