(* ===== verification/Sha256.v ===== *)
(** * Sha256: the function [crypto/sha256] computes

    The hash the database and package files are checked with, written out so
    that the checks of the code are about a concrete function.  [Sum256] is
    [sha256.Sum256], and also what [New], any writes and [Sum] give. *)

From S2P Require Import Prelude GoLib.
Local Open Scope Z_scope.

(** ** 32-bit words *)

Definition add32 (x y : Z) : Z := (x + y) mod two32.
Definition rotr (x : Z) (n : Z) : Z :=
  Z.lor (Z.shiftr x n) (Z.shiftl x (32 - n) mod two32).
Definition not32 (x : Z) : Z := two32 - 1 - x.

Definition Ch (x y z : Z) : Z := Z.lxor (Z.land x y) (Z.land (not32 x) z).
Definition Maj (x y z : Z) : Z := Z.lxor (Z.lxor (Z.land x y) (Z.land x z)) (Z.land y z).
Definition Sigma0 (x : Z) : Z := Z.lxor (Z.lxor (rotr x 2) (rotr x 13)) (rotr x 22).
Definition Sigma1 (x : Z) : Z := Z.lxor (Z.lxor (rotr x 6) (rotr x 11)) (rotr x 25).
Definition sigma0 (x : Z) : Z := Z.lxor (Z.lxor (rotr x 7) (rotr x 18)) (Z.shiftr x 3).
Definition sigma1 (x : Z) : Z := Z.lxor (Z.lxor (rotr x 17) (rotr x 19)) (Z.shiftr x 10).

(** The constants of the standard: the first 32 bits of the fractional parts of
    the cube roots of the first 64 primes, and of the square roots of the first
    eight.  [iroot k n] is the integer [k]-th root below [2^42], bit by bit. *)
Definition iroot (k n : Z) : Z :=
  foldl (fun r i => let r' := r + 2 ^ Z.of_nat i in if r' ^ k <=? n then r' else r) 0
    (rev (seq 0 42)).
Definition is_prime (n : nat) : bool :=
  forallb (fun d => negb (n mod d =? 0)%nat) (seq 2 (n - 2)).
Definition primes (n : nat) : list Z :=
  Z.of_nat <$> take n (filter (fun m => is_prime m = true) (seq 2 320)).

Definition K256 : list Z := Eval vm_compute in
  map (fun p => iroot 3 (p * 2 ^ 96) mod two32) (primes 64).
Definition H256 : list Z := Eval vm_compute in
  map (fun p => iroot 2 (p * 2 ^ 64) mod two32) (primes 8).

(** ** One block *)

(** [ws] holds the schedule so far, the latest word first. *)
Fixpoint schedule (n : nat) (ws : list Z) : list Z :=
  match n with
  | O => rev ws
  | S n =>
      let w i := nth i ws 0 in
      schedule n (add32 (add32 (sigma1 (w 1%nat)) (w 6%nat))
                        (add32 (sigma0 (w 14%nat)) (w 15%nat)) :: ws)
  end.

Fixpoint be_words (n : nat) (b : bytes) : list Z :=
  match n with
  | O => []
  | S n => be_get (take 4 b) :: be_words n (drop 4 b)
  end.

Definition round (st : list Z) (kw : Z * Z) : list Z :=
  match st with
  | [a; b; c; d; e; f; g; h] =>
      let t1 := add32 (add32 h (Sigma1 e)) (add32 (Ch e f g) (add32 kw.1 kw.2)) in
      let t2 := add32 (Sigma0 a) (Maj a b c) in
      [add32 t1 t2; a; b; c; add32 d t1; e; f; g]
  | _ => st
  end.

Definition block (st : list Z) (b : bytes) : list Z :=
  let ws := schedule 48 (rev (be_words 16 b)) in
  zip_with add32 st (foldl round st (zip K256 ws)).

(** ** Padding and the whole hash *)

Definition pad (m : bytes) : bytes :=
  let l := Z.of_nat (length m) in
  m ++ [Byte.x80] ++ replicate (Z.to_nat ((55 - l) mod 64)) Byte.x00 ++ be_put 8 (8 * l).

Fixpoint blocks (fuel : nat) (st : list Z) (b : bytes) : list Z :=
  match fuel, b with
  | O, _ | _, [] => st
  | S fuel, _ => blocks fuel (block st (take 64 b)) (drop 64 b)
  end.

Definition Sum256 (m : bytes) : bytes :=
  let p := pad m in
  concat (map (be_put 4) (blocks (length p) H256 p)).

Example Sum256_empty :
  Sum256 [] = be_put 32 0xe3b0c44298fc1c149afbf4c8996fb92427ae41e4649b934ca495991b7852b855.
Proof. vm_compute. reflexivity. Qed.
Example Sum256_abc :
  Sum256 (str "abc") = be_put 32 0xba7816bf8f01cfea414140de5dae2223b00361a396177a9cb410ff61f20015ad.
Proof. vm_compute. reflexivity. Qed.
Example Sum256_two_blocks :
  Sum256 (str "abcdbcdecdefdefgefghfghighijhijkijkljklmklmnlmnomnopnopq")
  = be_put 32 0x248d6a61d20638b8e5c026930c3e6039a33ce45964ff2167f6ecedd419db06c1.
Proof. vm_compute. reflexivity. Qed.

(** ** The length of a hash *)

Lemma length_round st kw : length st = 8%nat -> length (round st kw) = 8%nat.
Proof. intros H. do 9 (destruct st as [|? st]; try done). Qed.

Lemma length_block st b : length st = 8%nat -> length (block st b) = 8%nat.
Proof.
  intros H. unfold block. rewrite length_zip_with.
  assert (forall l st, length st = 8%nat -> length (foldl round st l) = 8%nat) as Hr.
  { clear. induction l as [|kw l IH]; intros st H; [done|]. cbn. by apply IH, length_round. }
  rewrite Hr by done. lia.
Qed.

Lemma length_blocks fuel st b : length st = 8%nat -> length (blocks fuel st b) = 8%nat.
Proof.
  revert st b. induction fuel as [|fuel IH]; intros st b H; [done|].
  destruct b; [done|]. cbn [blocks]. by apply IH, length_block.
Qed.

Lemma length_Sum256 m : length (Sum256 m) = 32%nat.
Proof.
  unfold Sum256. pose proof (length_blocks (length (pad m)) H256 (pad m) eq_refl) as H.
  revert H. generalize (blocks (length (pad m)) H256 (pad m)). intros l H.
  do 9 (destruct l as [|? l]; try done).
Qed.
