(* ===== verification/GoPath.v ===== *)
(** * GoPath: lexical path functions

    [path.Clean], [path.Join], [path.Dir] and [path.Base] (the [path/filepath]
    functions are the same ones on Linux). *)

From S2P Require Import Prelude GoLib.
Local Open Scope Z_scope.

Definition slash : byte := Byte.x2f.

(** The elements kept so far, the last first: an empty element and ["."] are
    dropped, [".."] takes back the element before it where there is one. *)
Fixpoint clean_elems (rooted : bool) (ws out : list bytes) : list bytes :=
  match ws with
  | [] => rev out
  | w :: ws =>
      if bool_decide (w = []) || bool_decide (w = str ".") then clean_elems rooted ws out
      else if bool_decide (w = str "..") then
        match out with
        | o :: out' =>
            if bool_decide (o = str "..") then clean_elems rooted ws (w :: out)
            else clean_elems rooted ws out'
        | [] => if rooted then clean_elems rooted ws [] else clean_elems rooted ws [w]
        end
      else clean_elems rooted ws (w :: out)
  end.

Definition path_Clean (p : bytes) : bytes :=
  let rooted := HasPrefix p [slash] in
  let body := Join (clean_elems rooted (Split p slash) []) slash in
  if rooted then slash :: body
  else match body with [] => str "." | _ => body end.

(** [Join]: the empty arguments are ignored, the rest cleaned together. *)
Definition path_Join (elems : list bytes) : bytes :=
  match filter (fun e => e <> []) elems with
  | [] => []
  | es => path_Clean (Join es slash)
  end.

Definition path_Dir (p : bytes) : bytes :=
  match LastIndexByte p slash with
  | Some i => path_Clean (take (S i) p)
  | None => str "."
  end.

(** [Base]: trailing slashes are removed first. *)
Fixpoint trim_slashes (fuel : nat) (p : bytes) : bytes :=
  match fuel with
  | O => p
  | S fuel => if HasSuffix p [slash] then trim_slashes fuel (take (length p - 1) p) else p
  end.
Definition path_Base (p : bytes) : bytes :=
  match p with
  | [] => str "."
  | _ =>
      let p := trim_slashes (length p) p in
      let p := match LastIndexByte p slash with Some i => drop (S i) p | None => p end in
      match p with [] => str "/" | _ => p end
  end.

Example path_Clean_1 : path_Clean (str "a//b/../c/.") = str "a/c". Proof. reflexivity. Qed.
Example path_Clean_2 : path_Clean (str "/../a/") = str "/a". Proof. reflexivity. Qed.
Example path_Clean_3 : path_Clean (str "../../x/..") = str "../..". Proof. reflexivity. Qed.
Example path_Clean_4 : path_Clean [] = str ".". Proof. reflexivity. Qed.
Example path_Join_1 : path_Join [str "/var/lib"; []; str "main/../x"] = str "/var/lib/x".
Proof. reflexivity. Qed.
Example path_Dir_1 : path_Dir (str "/a/b/c") = str "/a/b". Proof. reflexivity. Qed.
Example path_Base_1 : path_Base (str "/a/b/") = str "b". Proof. reflexivity. Qed.
Example path_Base_2 : path_Base (str "///") = str "/". Proof. reflexivity. Qed.
