(* ===== verification/Sig.v ===== *)
(** * Sig: package [apkgsig]

    Signature blobs, the trust stores and their verification
    ([apkgsig/varblob.go], [verify.go], [sign.go], [trust.go]).  Ed25519 and
    the HSM are outside the repository: they are the class [Ed25519] and the
    record [HsmKey]. *)

From S2P Require Import Prelude GoLib.
Local Open Scope Z_scope.

(** ** Outside the repository *)

(** [ed25519.Verify(pub, data, sig)]. *)
Class Ed25519 := ed25519_Verify : bytes -> bytes -> bytes -> outcome bool.

Definition PublicKeySize : Z := 32.
Definition Ed25519SignatureSize : Z := 64.

(** Its documentation: "It will panic if len(publicKey) is not PublicKeySize." *)
Class Ed25519Spec `{Ed25519} : Prop := {
  Verify_panics pub data sig :
    Z.of_nat (length pub) <> PublicKeySize -> ed25519_Verify pub data sig = Panic;
  Verify_returns pub data sig :
    Z.of_nat (length pub) = PublicKeySize ->
    exists b, ed25519_Verify pub data sig = Ok b;
}.

(** [hsm.Key]: the two methods the code calls. *)
Record HsmKey := {
  PublicBlob : outcome bytes;
  KeySign : bytes -> outcome bytes;
}.

(** ** Varblobs *)

Definition errOversized : error := ErrNew (str "oversized blob").

Definition ReadUvarintM : reader Z := fun r =>
  match ReadUvarint r with
  | (x, None, r) => (Ok x, r)
  | (_, Some e, r) => (Err e, r)
  end.

Definition ReadVarblob (maxLen : Z) : reader bytes :=
  l ← ReadUvarintM;
  if maxLen <? l then err_st errOversized
  else ReadFull (Z.to_nat l).

Definition WriteVarblob (v : bytes) : bytes :=
  PutUvarint (Z.of_nat (length v)) ++ v.

(** ** Trust stores and verification *)

Definition SignatureSize : Z := 3 + PublicKeySize + Ed25519SignatureSize.

Definition trustedDbSig : gmap bytes bytes := list_to_map [
  (str "dbXFt7yjQhHcpPq0UIRMonWUyO5f4DoNVOYcefKCIhU",
   str "Mark Karpeles <magicaltux@gmail.com>");
  (str "TPDBy98_HUS9JikdsjCbw_FjUjNWTx5ryNron_DHEBA",
   str "APDB emergency key #1")].

Definition trustedPkgSig : gmap bytes bytes := list_to_map [
  (str "n21_CiuzEuo_OaSfEVodAXpQtcc4Qe_NprMSAs3B9QU",
   str "Mark Karpeles <magicaltux@gmail.com>");
  (str "TPKGBiS_JH8tnSUgAE-4_f8gOkvzFqR2dnOKrJyLRus",
   str "APKG emergency key #1");
  (str "TPKG37jwLgVabYPH3GSDAqSoAxlRAHN-aTQT3dLYLMQ",
   str "APKG emergency key #2")].

Record VerifyResult := { Version : Z; Key : bytes; Name : bytes }.

Definition errSigVersion : error := ErrNew (str "unsupported package signature version").
Definition errSigInvalid : error := ErrNew (str "invalid signature").
Definition errSigUntrusted : error := ErrNew (str "valid signature from non trusted key").

Section with_ed25519.
Context `{Ed25519}.

(** The error of the version varint is dropped, as in the source: only the
    value counts. *)
Definition verify (data : bytes) (trust : gmap bytes bytes) : reader VerifyResult :=
  n ← (fun r => let '(x, _, r) := ReadUvarint r in (Ok x, r));
  if negb (n =? 1) then err_st errSigVersion else
  pub ← ReadVarblob PublicKeySize;
  blob ← ReadVarblob Ed25519SignatureSize;
  good ← lift_st (ed25519_Verify pub data blob);
  if negb good then err_st errSigInvalid else
  let keyS := RawURLEncode pub in
  match trust !! keyS with
  | None => err_st errSigUntrusted
  | Some keyN => mret {| Version := n; Key := keyS; Name := keyN |}
  end.

Definition VerifyPkg (data sig : bytes) : outcome VerifyResult :=
  fst (verify data trustedPkgSig sig).
Definition VerifyDb (data sig : bytes) : outcome VerifyResult :=
  fst (verify data trustedDbSig sig).
End with_ed25519.

Definition DbKeyName (k : bytes) : bytes := default [] (trustedDbSig !! k).

Definition errSigTooLarge : error := ErrNew (str "signature was too large").

Definition Sign (k : HsmKey) (data : bytes) : outcome bytes :=
  let sigB := PutUvarint 1 in
  sig_pub ← PublicBlob k;
  let sigB := sigB ++ WriteVarblob sig_pub in
  sig_blob ← KeySign k data;
  let sigB := sigB ++ WriteVarblob sig_blob in
  if SignatureSize <? Z.of_nat (length sigB) then Err errSigTooLarge
  else Ok sigB.

(** ** Lemmas *)

Lemma ReadVarblob_Write maxLen v rest :
  Z.of_nat (length v) <= maxLen -> Z.of_nat (length v) < two64 ->
  ReadVarblob maxLen (WriteVarblob v ++ rest) = (Ok v, rest).
Proof.
  intros Hm H64. unfold ReadVarblob, WriteVarblob, ReadUvarintM. munfold.
  rewrite <-app_assoc, ReadUvarint_Put by lia.
  rewrite (proj2 (Z.ltb_ge _ _)) by lia. rewrite Nat2Z.id. by apply ReadFull_app.
Qed.
#[export] Hint Rewrite ReadVarblob_Write using lia : apkg_rw.

Lemma ReadVarblob_Ok maxLen r v rest :
  0 <= maxLen -> ReadVarblob maxLen r = (Ok v, rest) ->
  Z.of_nat (length v) <= maxLen /\
  exists x, ReadUvarint r = (x, None, v ++ rest) /\ Z.to_nat x = length v.
Proof.
  intros Hm. unfold ReadVarblob, ReadUvarintM. munfold.
  destruct (ReadUvarint r) as [[x [e|]] r'] eqn:E; [done|].
  destruct (Z.ltb_spec maxLen x); [done|]. intros HR.
  apply ReadFull_Ok in HR as [-> Hl]. split; [lia|]. eauto.
Qed.

Lemma ReadVarblob_consumes maxLen r v rest :
  ReadVarblob maxLen r = (Ok v, rest) -> (length rest < length r)%nat.
Proof.
  unfold ReadVarblob, ReadUvarintM. munfold.
  destruct (ReadUvarint r) as [[x [e|]] r'] eqn:E; [done|].
  destruct (maxLen <? x); [done|]. intros [-> _]%ReadFull_Ok.
  apply read_uvarint_consumes in E. rewrite length_app in E. lia.
Qed.

Lemma ReadVarblob_len maxLen r v rest :
  0 <= maxLen -> ReadVarblob maxLen r = (Ok v, rest) -> Z.of_nat (length v) <= maxLen.
Proof. intros Hm E. by apply ReadVarblob_Ok in E as [E _]. Qed.

(** ** Properties of the signature layer *)

(** A verification does not depend on what follows the bytes it reads. *)
Lemma ReadVarblob_ext maxLen r v rest e :
  ReadVarblob maxLen r = (Ok v, rest) -> ReadVarblob maxLen (r ++ e) = (Ok v, rest ++ e).
Proof.
  unfold ReadVarblob, ReadUvarintM. munfold.
  destruct (ReadUvarint r) as [[x [er|]] r'] eqn:E; [done|].
  apply (read_uvarint_ext _ _ _ _ _ _ _ _ e) in E as [[_ [? ?]]|E]; [done|].
  unfold ReadUvarint. rewrite E.
  destruct (maxLen <? x); [done|]. intros [-> Hl]%ReadFull_Ok.
  rewrite <-app_assoc. by apply ReadFull_app.
Qed.

Lemma verify_ext `{Ed25519} data trust sig res rest e :
  verify data trust sig = (Ok res, rest) -> verify data trust (sig ++ e) = (Ok res, rest ++ e).
Proof.
  unfold verify. munfold. destruct (ReadUvarint sig) as [[n er] r1] eqn:E1.
  destruct (Z.eqb_spec n 1) as [->|]; cbn [negb]; [|done].
  apply (read_uvarint_ext _ _ _ _ _ _ _ _ e) in E1 as [[-> _]|E1]; [done|].
  unfold ReadUvarint. rewrite E1. cbn [Z.eqb Pos.eqb negb].
  destruct (ReadVarblob PublicKeySize r1) as [[pub| |] r2] eqn:E2; [|done..].
  rewrite (ReadVarblob_ext _ _ _ _ e E2).
  destruct (ReadVarblob Ed25519SignatureSize r2) as [[blob| |] r3] eqn:E3; [|done..].
  rewrite (ReadVarblob_ext _ _ _ _ e E3).
  destruct (ed25519_Verify pub data blob) as [[|]| |]; [|done..]. cbn [negb].
  destruct (trust !! RawURLEncode pub); [|done]. by intros [= <- <-].
Qed.

(** What an accepted blob shows of the data. *)
Definition accepted `{Ed25519} (trust : gmap bytes bytes) (data : bytes) (res : VerifyResult) : Prop :=
  exists pub blob,
    Z.of_nat (length pub) = PublicKeySize /\
    Z.of_nat (length blob) <= Ed25519SignatureSize /\
    ed25519_Verify pub data blob = Ok true /\
    Key res = RawURLEncode pub /\ trust !! Key res = Some (Name res) /\
    Version res = 1.

Lemma verify_accepts `{Ed25519Spec} data trust sig res rest :
  verify data trust sig = (Ok res, rest) -> accepted trust data res.
Proof.
  unfold verify. munfold. destruct (ReadUvarint sig) as [[n e] r1].
  destruct (Z.eqb_spec n 1) as [->|]; cbn [negb]; [|done].
  destruct (ReadVarblob PublicKeySize r1) as [[pub| |] r2] eqn:Epub; try done.
  destruct (ReadVarblob Ed25519SignatureSize r2) as [[blob| |] r3] eqn:Eblob; try done.
  apply ReadVarblob_Ok in Epub as [Hp _], Eblob as [Hb _]; try done.
  destruct (ed25519_Verify pub data blob) as [[|]| |] eqn:Ev; try done. cbn [negb].
  destruct (trust !! RawURLEncode pub) as [name|] eqn:Et; [|done].
  intros [= <- <-]. exists pub, blob. repeat split; try done.
  destruct (decide (Z.of_nat (length pub) = PublicKeySize)) as [|Hne]; [done|].
  by rewrite Verify_panics in Ev.
Qed.

(** C2: what [VerifyPkg] and [VerifyDb] accept.  An accepted blob carries a
    32-byte public key whose Base64 form is a key of the trust store, the
    package keys for the one and the database keys for the other, and a
    signature of at most 64 bytes that Ed25519 accepts for exactly [data]
    under that key; the result names that key and its owner. *)
Theorem verify_sound `{Ed25519Spec} data sig res :
  (VerifyPkg data sig = Ok res -> accepted trustedPkgSig data res) /\
  (VerifyDb data sig = Ok res -> accepted trustedDbSig data res).
Proof.
  unfold VerifyPkg, VerifyDb.
  split; destruct (verify _ _ _) as [o rest] eqn:E; cbn; intros ->; by eapply verify_accepts.
Qed.

(** [Sign] with a working key makes a blob of exactly [SignatureSize] bytes
    that verifies. *)
Lemma Sign_works `{Ed25519} k data pub blob trust name rest :
  PublicBlob k = Ok pub -> Z.of_nat (length pub) = PublicKeySize ->
  KeySign k data = Ok blob -> Z.of_nat (length blob) = Ed25519SignatureSize ->
  ed25519_Verify pub data blob = Ok true ->
  trust !! RawURLEncode pub = Some name ->
  exists sig, Sign k data = Ok sig /\ Z.of_nat (length sig) = SignatureSize /\
    verify data trust (sig ++ rest)
    = (Ok {| Version := 1; Key := RawURLEncode pub; Name := name |}, rest).
Proof.
  intros Hpub Hlp Hsign Hls Hv Ht.
  assert (Z.of_nat (length ((PutUvarint 1 ++ WriteVarblob pub) ++ WriteVarblob blob))
          = SignatureSize) as Hlen.
  { unfold WriteVarblob. rewrite !length_app.
    rewrite !length_PutUvarint_small by (unfold PublicKeySize, Ed25519SignatureSize in *; lia).
    unfold SignatureSize. lia. }
  exists ((PutUvarint 1 ++ WriteVarblob pub) ++ WriteVarblob blob).
  split; [|split; [done|]].
  - unfold Sign. rewrite Hpub. munfold. rewrite Hsign. munfold. by rewrite Hlen.
  - unfold verify. munfold. rewrite <-!app_assoc, ReadUvarint_Put by done. cbn [Z.eqb Pos.eqb negb].
    rewrite !ReadVarblob_Write by (unfold two64, PublicKeySize, Ed25519SignatureSize in *; lia).
    by rewrite Hv, Ht.
Qed.

(** [Sign] then verify.  With a 32-byte key and a 64-byte signature Ed25519
    accepts, [Sign] succeeds and its blob has exactly [SignatureSize] bytes;
    followed by anything it verifies as a package signature when the key is a
    trusted package key, and as a database signature when it is a trusted
    database key, and the result names the signer. *)
Theorem Sign_verify `{Ed25519} k data pub blob rest :
  PublicBlob k = Ok pub -> Z.of_nat (length pub) = PublicKeySize ->
  KeySign k data = Ok blob -> Z.of_nat (length blob) = Ed25519SignatureSize ->
  ed25519_Verify pub data blob = Ok true ->
  exists sig, Sign k data = Ok sig /\ Z.of_nat (length sig) = SignatureSize /\
    (forall name, trustedPkgSig !! RawURLEncode pub = Some name ->
       VerifyPkg data (sig ++ rest)
       = Ok {| Version := 1; Key := RawURLEncode pub; Name := name |}) /\
    (forall name, trustedDbSig !! RawURLEncode pub = Some name ->
       VerifyDb data (sig ++ rest)
       = Ok {| Version := 1; Key := RawURLEncode pub; Name := name |}).
Proof.
  intros Hp Hlp Hs Hls Hv.
  destruct (Sign_works k data pub blob {[ RawURLEncode pub := [] ]} [] rest Hp Hlp Hs Hls Hv)
    as (sig & E & Hl & _); [apply lookup_singleton_eq|].
  exists sig. split; [done|]. split; [done|]. unfold VerifyPkg, VerifyDb.
  split; intros name Hn;
    destruct (Sign_works k data pub blob _ name rest Hp Hlp Hs Hls Hv Hn) as (sig' & E' & _ & V);
    rewrite E in E'; injection E' as <-; by rewrite V.
Qed.

(** a varblob read returns what was written and nothing more; a length
    above the limit is refused before any byte of the payload is consumed. *)
Theorem ReadVarblob_spec maxLen v rest :
  Z.of_nat (length v) < two64 ->
  ReadVarblob maxLen (WriteVarblob v ++ rest)
  = if maxLen <? Z.of_nat (length v) then (Err errOversized, v ++ rest)
    else (Ok v, rest).
Proof.
  intros H64. destruct (Z.ltb_spec maxLen (Z.of_nat (length v))) as [Hlt|].
  - unfold ReadVarblob, WriteVarblob, ReadUvarintM. munfold.
    rewrite <-app_assoc, ReadUvarint_Put by lia.
    by rewrite (proj2 (Z.ltb_lt _ _)).
  - by apply ReadVarblob_Write.
Qed.

(** A blob with a public key shorter than 32 bytes does not give an error:
    it reaches [ed25519.Verify] and panics, whatever the trust store. *)
Theorem verify_short_key_panics `{Ed25519Spec} data trust pub blob rest :
  Z.of_nat (length pub) < PublicKeySize ->
  Z.of_nat (length blob) <= Ed25519SignatureSize ->
  fst (verify data trust
         (PutUvarint 1 ++ WriteVarblob pub ++ WriteVarblob blob ++ rest)) = Panic.
Proof.
  intros Hp Hb. unfold verify. munfold.
  rewrite ReadUvarint_Put by done. cbn [Z.eqb Pos.eqb negb].
  rewrite !ReadVarblob_Write by (unfold two64, PublicKeySize, Ed25519SignatureSize in *; lia).
  by rewrite Verify_panics by lia.
Qed.

(** ** Concrete instance, for evaluation *)

(** A toy signature scheme with the documented domain: [sig] is valid when it
    is the key followed by 32 zero bytes. *)
Module Toy.
Definition sig_of (pub : bytes) : bytes := pub ++ replicate 32 Byte.x00.
Instance toy_ed25519 : Ed25519 := fun pub data sig =>
  if Z.of_nat (length pub) =? PublicKeySize
  then Ok (bool_decide (sig = sig_of pub)) else Panic.
Instance toy_ed25519_spec : Ed25519Spec.
Proof.
  split; intros pub data sig Hl; unfold ed25519_Verify, toy_ed25519.
  - by rewrite (proj2 (Z.eqb_neq _ _)).
  - rewrite (proj2 (Z.eqb_eq _ _)) by done. eauto.
Qed.
(** The public key behind an entry of a trust store. *)
Definition pub_of (kid : bytes) : bytes := default [] (b64_decode kid).
Definition db_kid : bytes := str "dbXFt7yjQhHcpPq0UIRMonWUyO5f4DoNVOYcefKCIhU".
Definition pkg_kid : bytes := str "n21_CiuzEuo_OaSfEVodAXpQtcc4Qe_NprMSAs3B9QU".
Definition key (kid : bytes) : HsmKey :=
  {| PublicBlob := Ok (pub_of kid); KeySign := fun _ => Ok (sig_of (pub_of kid)) |}.
End Toy.

Lemma verify_sound_witness :
  @accepted Toy.toy_ed25519 trustedDbSig [Byte.x07]
    {| Version := 1; Key := Toy.db_kid; Name := str "Mark Karpeles <magicaltux@gmail.com>" |}.
Proof.
  destruct (Sign (Toy.key Toy.db_kid) [Byte.x07]) as [sig| |] eqn:E;
    vm_compute in E; [|discriminate E|discriminate E].
  apply (@verify_sound Toy.toy_ed25519 Toy.toy_ed25519_spec [Byte.x07] sig).
  injection E as <-. vm_compute. reflexivity.
Defined.

Lemma Sign_verify_witness :
  exists sig, Sign (Toy.key Toy.pkg_kid) [Byte.x2a] = Ok sig /\
    Z.of_nat (length sig) = SignatureSize /\
    @VerifyPkg Toy.toy_ed25519 [Byte.x2a] (sig ++ [Byte.x00])
    = Ok {| Version := 1; Key := RawURLEncode (Toy.pub_of Toy.pkg_kid);
            Name := str "Mark Karpeles <magicaltux@gmail.com>" |}.
Proof.
  destruct (@Sign_verify Toy.toy_ed25519 (Toy.key Toy.pkg_kid) [Byte.x2a]
              (Toy.pub_of Toy.pkg_kid) (Toy.sig_of (Toy.pub_of Toy.pkg_kid)) [Byte.x00])
    as (sig & E & L & V & _); [vm_compute; reflexivity..|].
  exists sig. split; [exact E|]. split; [exact L|]. apply V. vm_compute. reflexivity.
Defined.

Lemma ReadVarblob_spec_witness :
  ReadVarblob 2 (WriteVarblob (str "abc") ++ [Byte.x00])
  = (Err errOversized, str "abc" ++ [Byte.x00]).
Proof. rewrite (ReadVarblob_spec 2 (str "abc")); vm_compute; reflexivity. Defined.

Lemma verify_short_key_panics_witness :
  fst (@verify Toy.toy_ed25519 [] trustedPkgSig
         (PutUvarint 1 ++ WriteVarblob (str "k") ++ WriteVarblob [] ++ [])) = Panic.
Proof. apply (@verify_short_key_panics Toy.toy_ed25519 Toy.toy_ed25519_spec); vm_compute; congruence. Defined.
