(* ===== verification/Collate.v ===== *)
(** * Collate: [apkgdb/collate.go] and the natural order of names

    [collatedVersion] builds the database keys.  The file first gives the
    specification both orderings of the program are compared with: a name is a
    list of tokens, a token is a byte or a maximal run of digits, and tokens
    compare with numbers by value and after every other byte. *)

From S2P Require Import Prelude GoLib.
Local Open Scope Z_scope.

Definition is_digit (b : byte) : bool := (48 <=? b2z b) && (b2z b <=? 57).

(** ** Tokens: the abstract view of a name *)

Inductive token := Chr (b : byte) | Num (ds : bytes).

Fixpoint tokens (v : bytes) : list token :=
  match v with
  | [] => []
  | x :: v =>
      if is_digit x then
        match tokens v with
        | Num ds :: ts => Num (x :: ds) :: ts
        | ts => Num [x] :: ts
        end
      else Chr x :: tokens v
  end.

Definition digits_value (ds : bytes) : Z :=
  foldl (fun acc d => 10 * acc + (b2z d - 48)) 0 ds.

Definition token_cmp (s t : token) : comparison :=
  match s, t with
  | Chr x, Chr y => Z.compare (b2z x) (b2z y)
  | Chr _, Num _ => Lt
  | Num _, Chr _ => Gt
  | Num x, Num y => Z.compare (digits_value x) (digits_value y)
  end.

Fixpoint tokens_cmp (s t : list token) : comparison :=
  match s, t with
  | [], [] => Eq
  | [], _ :: _ => Lt
  | _ :: _, [] => Gt
  | x :: s, y :: t =>
      match token_cmp x y with Eq => tokens_cmp s t | c => c end
  end.

(** ** [collatedVersion] *)

(** [strings.IndexAny(v, "0123456789")] *)
Fixpoint IndexDigit (v : bytes) : option nat :=
  match v with
  | [] => None
  | x :: v => if is_digit x then Some O else S <$> IndexDigit v
  end.

(** [for i = 1; i <= 32; i++ { .. }] from [i], with [rounds] left to go. *)
Fixpoint count_digits (rounds i : nat) (v : bytes) : nat :=
  match rounds with
  | O => i
  | S rounds =>
      match v !! i with
      | None => i
      | Some c => if is_digit c then count_digits rounds (S i) v else i
      end
  end.

Fixpoint collate (fuel : nat) (v r : bytes) : bytes :=
  match fuel with
  | O => r
  | S fuel =>
      match v with
      | [] => r
      | _ =>
          match IndexDigit v with
          | None => r ++ v
          | Some n =>
              let r := r ++ take n v in
              let v := drop n v in
              let i := count_digits 32 1 v in
              let r := r ++ [z2b (0x7f + Z.of_nat i)] in
              let r := r ++ take i v in
              collate fuel (drop i v) r
          end
      end
  end.

(** Each round consumes a byte, so [length v] rounds are enough. *)
Definition collatedVersion (v : bytes) : bytes := collate (length v) v [].

Example collate_1_10 :
  collatedVersion (str "a.1.10") =
  str "a." ++ [Byte.x80] ++ str "1." ++ [Byte.x81] ++ str "10".
Proof. vm_compute. reflexivity. Qed.

(** ** Decoding a key *)

Fixpoint uncollate_fuel (fuel : nat) (c : bytes) : bytes :=
  match fuel with
  | O => []
  | S fuel =>
      match IndexDigit c with
      | None => c
      | Some p =>
          let i := Z.to_nat (b2z (default Byte.x00 (c !! (p - 1)%nat)) - 0x7f) in
          take (p - 1) c ++ take i (drop p c)
          ++ uncollate_fuel fuel (drop (p + i) c)
      end
  end.
Definition uncollate (c : bytes) : bytes := uncollate_fuel (S (length c)) c.

(** ** Lemmas on digits and runs *)

Definition nondigits (w : bytes) : Prop := Forall (fun b => is_digit b = false) w.
Definition digits (w : bytes) : Prop := Forall (fun b => is_digit b = true) w.
Definition no_digit_head (w : bytes) : Prop :=
  match w with [] => True | x :: _ => is_digit x = false end.

Definition marker (ds : bytes) : byte := z2b (0x7f + Z.of_nat (length ds)).

Lemma IndexDigit_None v : IndexDigit v = None <-> nondigits v.
Proof.
  induction v as [|x v IH]; cbn; [by split; [constructor|]|].
  unfold nondigits in *. rewrite Forall_cons. destruct (is_digit x).
  - split; [done|]. by intros [? _].
  - rewrite <-IH. destruct (IndexDigit v); cbn; split; try done. by intros [_ ?].
Qed.

Lemma IndexDigit_app w x v :
  nondigits w -> is_digit x = true -> IndexDigit (w ++ x :: v) = Some (length w).
Proof.
  induction 1 as [|y w Hy _ IH]; cbn; intros Hx; [by rewrite Hx|].
  by rewrite Hy, IH.
Qed.

Lemma IndexDigit_split v n :
  IndexDigit v = Some n ->
  exists x, v = take n v ++ x :: drop (S n) v /\ nondigits (take n v) /\
    is_digit x = true /\ length (take n v) = n.
Proof.
  revert n. induction v as [|x v IH]; intros n; cbn; [done|].
  destruct (is_digit x) eqn:Hx.
  - intros [= <-]. exists x. cbn. repeat split; [constructor|done].
  - destruct (IndexDigit v) as [m|]; cbn; [|done]. intros [= <-].
    destruct (IH m eq_refl) as (y & E & Hn & Hy & Hl). exists y. cbn.
    rewrite Hl. repeat split; [by rewrite <-E|by constructor|done].
Qed.

(** The run length of [ds ++ rest], when the run stops at [rest] or at the
    limit of 33 digits. *)
Lemma count_digits_app rounds i ds rest :
  digits ds -> (i <= length ds <= i + rounds)%nat ->
  no_digit_head rest \/ length ds = (i + rounds)%nat ->
  count_digits rounds i (ds ++ rest) = length ds.
Proof.
  revert i. induction rounds as [|k IH]; intros i Hd Hi Hr; cbn; [lia|].
  destruct ((ds ++ rest) !! i) as [c|] eqn:Ec.
  - destruct (decide (i = length ds)) as [->|Hne].
    + rewrite lookup_app_r, Nat.sub_diag in Ec by lia.
      destruct Hr as [Hr|Hr]; [|lia]. destruct rest; [done|]. injection Ec as ->.
      by rewrite Hr.
    + rewrite lookup_app_l in Ec by lia.
      rewrite (Forall_lookup_1 _ _ _ _ Hd Ec). apply IH; [done|lia|].
      destruct Hr; [by left|right; lia].
  - apply lookup_ge_None in Ec. rewrite length_app in Ec. lia.
Qed.

(** Every string that starts with a digit splits after its first run. *)
Lemma digit_run_split rounds x v :
  is_digit x = true ->
  exists ds rest, x :: v = ds ++ rest /\ digits ds /\
    (1 <= length ds <= S rounds)%nat /\
    (no_digit_head rest \/ length ds = S rounds).
Proof.
  revert x v. induction rounds as [|k IH]; intros x v Hx.
  - exists [x], v. repeat split; cbn; [repeat constructor; done|lia|lia|by right].
  - destruct v as [|y v].
    { exists [x], []. repeat split; cbn; [repeat constructor; done|lia|lia|by left]. }
    destruct (is_digit y) eqn:Hy.
    + destruct (IH y v Hy) as (ds & rest & E & Hd & Hl & Hr).
      exists (x :: ds), rest. rewrite E. repeat split; cbn; [by constructor|lia|lia|].
      destruct Hr; [by left|right; lia].
    + exists [x], (y :: v). repeat split; cbn; [repeat constructor; done|lia|lia|by left].
Qed.

(** The shape the loop walks through. *)
Inductive name_view : bytes -> Prop :=
  | view_tail w : nondigits w -> name_view w
  | view_run w ds rest :
      nondigits w -> digits ds -> (1 <= length ds <= 33)%nat ->
      no_digit_head rest \/ length ds = 33%nat ->
      name_view rest -> name_view (w ++ ds ++ rest).

Lemma name_view_all v : name_view v.
Proof.
  remember (length v) as n eqn:Hn. revert v Hn.
  induction (lt_wf n) as [n _ IH]. intros v ->.
  destruct (IndexDigit v) as [m|] eqn:E; [|by apply view_tail, IndexDigit_None].
  destruct (IndexDigit_split v m E) as (x & Ev & Hw & Hx & _).
  destruct (digit_run_split 32 x (drop (S m) v) Hx) as (ds & rest & E2 & Hd & Hl & Hr).
  rewrite Ev, E2. apply view_run; try done.
  eapply IH; [|done]. rewrite Ev, E2, !length_app. lia.
Qed.

(** ** The two equations of [collatedVersion] *)

Lemma collate_acc fuel v r : collate fuel v r = r ++ collate fuel v [].
Proof.
  revert v r. induction fuel as [|fuel IH]; intros v r; cbn; [by rewrite app_nil_r|].
  destruct v as [|x v]; [by rewrite app_nil_r|].
  destruct (IndexDigit (x :: v)) as [n|]; [|done].
  rewrite IH. symmetry. rewrite IH. by rewrite !app_assoc.
Qed.

Lemma collate_tail fuel w :
  nondigits w -> (length w <= fuel)%nat -> collate fuel w [] = w.
Proof.
  intros Hw Hf. destruct fuel; [by destruct w; cbn in Hf; [|lia]|].
  destruct w as [|x w]; [done|]. cbn [collate]. by rewrite (proj2 (IndexDigit_None _)).
Qed.

Lemma collate_run fuel w ds rest :
  nondigits w -> digits ds -> (1 <= length ds <= 33)%nat ->
  no_digit_head rest \/ length ds = 33%nat ->
  collate (S fuel) (w ++ ds ++ rest) []
  = w ++ marker ds :: ds ++ collate fuel rest [].
Proof.
  intros Hw Hd Hl Hr. destruct ds as [|d ds]; [cbn in Hl; lia|].
  assert (is_digit d = true) as Hd1 by by apply Forall_cons in Hd as [? _].
  cbn [collate]. change ((d :: ds) ++ rest) with (d :: ds ++ rest).
  rewrite IndexDigit_app by done.
  destruct (w ++ d :: ds ++ rest) as [|y v] eqn:E; [by destruct w|]. rewrite <-E. clear E y v.
  rewrite take_app_length, drop_app_length.
  change (d :: ds ++ rest) with ((d :: ds) ++ rest).
  rewrite count_digits_app by (try done; lia).
  rewrite take_app_length, drop_app_length, collate_acc.
  unfold marker. by rewrite <-!app_assoc.
Qed.

Lemma collate_fuel fuel v :
  (length v <= fuel)%nat -> collate fuel v [] = collatedVersion v.
Proof.
  unfold collatedVersion. revert fuel. induction (name_view_all v) as [w Hw|w ds rest Hw Hd Hl Hr _ IH];
    intros fuel Hf.
  - by rewrite !collate_tail by done.
  - rewrite !length_app in Hf. destruct fuel as [|fuel]; [lia|].
    destruct (length (w ++ ds ++ rest)) as [|m] eqn:Em; [rewrite !length_app in Em; lia|].
    rewrite !collate_run by done. rewrite !length_app in Em.
    by rewrite (IH fuel), (IH m) by lia.
Qed.

Lemma collatedVersion_tail w : nondigits w -> collatedVersion w = w.
Proof. intros. by apply collate_tail. Qed.

Lemma collatedVersion_run w ds rest :
  nondigits w -> digits ds -> (1 <= length ds <= 33)%nat ->
  no_digit_head rest \/ length ds = 33%nat ->
  collatedVersion (w ++ ds ++ rest) = w ++ marker ds :: ds ++ collatedVersion rest.
Proof.
  intros Hw Hd Hl Hr.
  rewrite <-(collate_fuel (S (length (w ++ ds ++ rest)))) by lia.
  rewrite collate_run by done. rewrite collate_fuel; [done|]. rewrite !length_app. lia.
Qed.

Lemma marker_value ds :
  (1 <= length ds <= 33)%nat -> b2z (marker ds) = 0x7f + Z.of_nat (length ds).
Proof. intros. unfold marker. rewrite b2z_z2b, Z.mod_small; lia. Qed.

Lemma marker_nondigit ds : (1 <= length ds <= 33)%nat -> is_digit (marker ds) = false.
Proof.
  intros. unfold is_digit. rewrite marker_value by done.
  destruct (Z.leb_spec (127 + Z.of_nat (length ds)) 57); [lia|]. apply andb_false_r.
Qed.

Lemma uncollate_collated v fuel :
  (length (collatedVersion v) < fuel)%nat ->
  uncollate_fuel fuel (collatedVersion v) = v.
Proof.
  revert fuel. induction (name_view_all v) as [w Hw|w ds rest Hw Hd Hl Hr _ IH];
    intros fuel Hf.
  - rewrite collatedVersion_tail in * by done. destruct fuel; [lia|]. cbn.
    by rewrite (proj2 (IndexDigit_None _)).
  - rewrite collatedVersion_run in * by done.
    destruct fuel as [|fuel]; [lia|]. cbn [uncollate_fuel].
    destruct ds as [|d ds]; [cbn in Hl; lia|].
    assert (is_digit d = true) as Hd1 by by apply Forall_cons in Hd as [? _].
    set (m := marker (d :: ds)) in *. set (c := collatedVersion rest) in *.
    assert (w ++ m :: (d :: ds) ++ c = (w ++ [m]) ++ (d :: ds) ++ c) as E
      by by rewrite <-app_assoc.
    rewrite E at 1. change ((d :: ds) ++ c) with (d :: ds ++ c) at 1.
    rewrite IndexDigit_app; [|apply Forall_app; split; [done|]|done].
    2: { constructor; [|done]. by apply marker_nondigit. }
    rewrite length_app. change (length [m]) with 1%nat. rewrite Nat.add_sub.
    rewrite lookup_app_r, Nat.sub_diag by lia. cbn [lookup list_lookup default].
    change (id m) with m.
    assert (b2z m = 0x7f + Z.of_nat (length (d :: ds))) as -> by by apply marker_value.
    replace (Z.to_nat (0x7f + Z.of_nat (length (d :: ds)) - 0x7f))
      with (length (d :: ds)) by lia.
    rewrite take_app_length. f_equal.
    rewrite E. replace (length w + 1)%nat with (length (w ++ [m])) by (rewrite length_app; done).
    rewrite drop_app_length, take_app_length. f_equal.
    rewrite <-drop_drop, !drop_app_length. apply IH.
    rewrite !length_app in Hf. cbn in Hf. rewrite length_app in Hf. lia.
Qed.

Lemma collatedVersion_key v w : collatedVersion v = collatedVersion w -> v = w.
Proof.
  intros H. set (fuel := S (length (collatedVersion v))).
  rewrite <-(uncollate_collated v fuel) by (unfold fuel; lia).
  rewrite <-(uncollate_collated w fuel) by (unfold fuel; rewrite H; lia).
  by rewrite H.
Qed.

(** [collatedVersion] loses nothing: the key determines the name, so two
    different package names never share a [p2p] key. *)
Theorem collatedVersion_inj v w :
  collatedVersion v = collatedVersion w <-> v = w.
Proof. split; [apply collatedVersion_key|by intros ->]. Qed.

(** ** Digit strings as numbers *)

Lemma digits_value_acc acc ds :
  foldl (fun acc d => 10 * acc + (b2z d - 48)) acc ds
  = acc * 10 ^ Z.of_nat (length ds) + digits_value ds.
Proof.
  unfold digits_value. revert acc. induction ds as [|d ds IH]; intros acc; cbn [foldl length].
  - lia.
  - rewrite (IH (10 * acc + _)), (IH (10 * 0 + _)), Nat2Z.inj_succ, Z.pow_succ_r by lia. lia.
Qed.
Lemma digits_value_cons d ds :
  digits_value (d :: ds) = (b2z d - 48) * 10 ^ Z.of_nat (length ds) + digits_value ds.
Proof. unfold digits_value at 1. cbn [foldl]. rewrite digits_value_acc. lia. Qed.

Lemma is_digit_range b : is_digit b = true -> 48 <= b2z b <= 57.
Proof. unfold is_digit. intros [? ?]%andb_prop. lia. Qed.

Lemma digits_value_range ds :
  digits ds -> 0 <= digits_value ds < 10 ^ Z.of_nat (length ds).
Proof.
  induction 1 as [|d ds Hd _ IH]; [by cbn|].
  rewrite digits_value_cons. cbn [length]. rewrite Nat2Z.inj_succ, Z.pow_succ_r by lia.
  pose proof (is_digit_range d Hd). nia.
Qed.

(** No leading zero, except in the number "0". *)
Definition no_lead (ds : bytes) : bool :=
  match ds with [] => false | [_] => true | d :: _ => negb (b2z d =? 48) end.

Lemma no_lead_lower d e ds :
  digits (d :: e :: ds) -> no_lead (d :: e :: ds) = true ->
  10 ^ Z.of_nat (length (e :: ds)) <= digits_value (d :: e :: ds).
Proof.
  intros [Hd He]%Forall_cons Hz. cbn [no_lead] in Hz.
  rewrite digits_value_cons.
  pose proof (is_digit_range d Hd). pose proof (digits_value_range _ He).
  assert (b2z d <> 48). { intros E. by rewrite E in Hz. } nia.
Qed.

Lemma digits_longer x y :
  digits x -> digits y -> no_lead y = true -> (length x < length y)%nat -> x <> [] ->
  digits_value x < digits_value y.
Proof.
  intros Hx Hy Hn Hl Hne. destruct y as [|d [|e y]]; [cbn in *; lia| |].
  { destruct x; cbn in *; [done|lia]. }
  pose proof (no_lead_lower d e y Hy Hn). pose proof (digits_value_range _ Hx).
  assert (10 ^ Z.of_nat (length x) <= 10 ^ Z.of_nat (length (e :: y))).
  { apply Z.pow_le_mono_r; cbn in *; lia. } lia.
Qed.

Lemma digits_same_length x y :
  digits x -> digits y -> length x = length y ->
  Z.compare (digits_value x) (digits_value y) = bytes_cmp x y.
Proof.
  intros Hx. revert y. induction Hx as [|d x Hd Hx IH]; intros [|e y] Hy Hl;
    try done. apply Forall_cons in Hy as [He Hy]. injection Hl as Hl.
  rewrite !digits_value_cons, Hl. cbn [bytes_cmp].
  pose proof (digits_value_range _ Hx) as Rx. pose proof (digits_value_range _ Hy) as Ry.
  rewrite Hl in Rx. pose proof (is_digit_range d Hd). pose proof (is_digit_range e He).
  destruct (Z.compare_spec (b2z d) (b2z e)) as [E|E|E].
  - rewrite <-(IH y Hy Hl), E.
    destruct (Z.compare_spec (digits_value x) (digits_value y)).
    + by apply Z.compare_eq_iff; lia.
    + apply Z.compare_lt_iff; lia.
    + apply Z.compare_gt_iff; lia.
  - apply Z.compare_lt_iff. nia.
  - apply Z.compare_gt_iff. nia.
Qed.

(** Without leading zeros, numbers compare by length, then as strings. *)
Lemma digits_cmp x y :
  digits x -> digits y -> no_lead x = true -> no_lead y = true ->
  Z.compare (digits_value x) (digits_value y)
  = match Nat.compare (length x) (length y) with Eq => bytes_cmp x y | c => c end.
Proof.
  intros Hx Hy Nx Ny. destruct (Nat.compare_spec (length x) (length y)).
  - by apply digits_same_length.
  - apply Z.compare_lt_iff, digits_longer; try done. by intros ->.
  - apply Z.compare_gt_iff, digits_longer; try done. by intros ->.
Qed.

(** ** Token lists *)

Definition token_wf (t : token) : Prop :=
  match t with Chr b => is_digit b = false | Num ds => digits ds /\ ds <> [] end.

Lemma tokens_wf v : Forall token_wf (tokens v).
Proof.
  induction v as [|x v IH]; cbn; [constructor|].
  destruct (is_digit x) eqn:Hx; [|by constructor].
  destruct (tokens v) as [|[b|ds] ts].
  - constructor; [|done]. split; [by constructor|done].
  - constructor; [|done]. split; [by constructor|done].
  - apply Forall_cons in IH as [[Hd _] IH]. constructor; [|done].
    split; [by constructor|done].
Qed.

Lemma tokens_nondigits w v : nondigits w -> tokens (w ++ v) = (Chr <$> w) ++ tokens v.
Proof. induction 1 as [|x w Hx _ IH]; [done|]. cbn. by rewrite Hx, IH. Qed.

Lemma tokens_digits ds v :
  digits ds -> ds <> [] ->
  tokens (ds ++ v) = match tokens v with
                     | Num e :: ts => Num (ds ++ e) :: ts
                     | ts => Num ds :: ts
                     end.
Proof.
  induction 1 as [|d ds Hd Hds IH]; [done|]. intros _. cbn. rewrite Hd.
  destruct ds as [|e ds]; [cbn; by destruct (tokens v) as [|[] ?]|].
  rewrite IH by done. by destruct (tokens v) as [|[] ?].
Qed.

Lemma tokens_no_digit_head v ds ts :
  no_digit_head v -> tokens v <> Num ds :: ts.
Proof. destruct v as [|x v]; cbn; [done|]. intros ->. done. Qed.

Lemma tokens_run ds v :
  digits ds -> ds <> [] -> no_digit_head v -> tokens (ds ++ v) = Num ds :: tokens v.
Proof.
  intros Hd Hne Hv. rewrite tokens_digits by done.
  destruct (tokens v) as [|[b|e] ts] eqn:E; [done..|].
  exfalso. by eapply tokens_no_digit_head.
Qed.

(** ** The order of the keys *)

(** What the collation can order: ASCII bytes, numbers of at most 33 digits
    without leading zeros. *)
Definition plain_token (t : token) : bool :=
  match t with
  | Chr b => b2z b <? 128
  | Num ds => no_lead ds && (Nat.leb (length ds) 33)
  end.
Definition plain_name (v : bytes) : bool := forallb plain_token (tokens v).

Definition enc_token (t : token) : bytes :=
  match t with Chr b => [b] | Num ds => marker ds :: ds end.

Lemma enc_chars w : concat (enc_token <$> (Chr <$> w)) = w.
Proof. induction w as [|x w IH]; cbn; [done|]. f_equal. apply IH. Qed.

Lemma plain_name_spec v : plain_name v = true <-> Forall (fun t => plain_token t = true) (tokens v).
Proof. unfold plain_name. rewrite forallb_forall, List.Forall_forall. done. Qed.

(** On plain names the key is the concatenation of the encoded tokens. *)
Lemma collatedVersion_tokens v :
  plain_name v = true -> collatedVersion v = concat (enc_token <$> tokens v).
Proof.
  rewrite plain_name_spec.
  induction (name_view_all v) as [w Hw|w ds rest Hw Hd Hl Hr _ IH].
  - intros _. rewrite collatedVersion_tail by done.
    rewrite <-(app_nil_r w) at 2. rewrite tokens_nondigits by done.
    cbn [tokens]. by rewrite app_nil_r, enc_chars.
  - rewrite collatedVersion_run by done. rewrite tokens_nondigits by done.
    assert (ds <> []) as Hne by (intros ->; cbn in Hl; lia).
    rewrite fmap_app, concat_app, enc_chars.
    intros [_ Hp]%Forall_app. destruct Hr as [Hr|Hr].
    + rewrite tokens_run in Hp |- * by done.
      apply Forall_cons in Hp as [_ Hp]. cbn. by rewrite (IH Hp).
    + rewrite tokens_digits in Hp |- * by done.
      pose proof (tokens_wf rest) as Hwf.
      destruct (tokens rest) as [|[b|e] ts]; apply Forall_cons in Hp as [Hp1 Hp].
      * cbn. by rewrite (IH Hp).
      * cbn. by rewrite (IH Hp).
      * exfalso. apply Forall_cons in Hwf as [[_ He] _].
        apply andb_prop in Hp1 as [_ Hp1%Nat.leb_le].
        rewrite length_app in Hp1. destruct e; [done|]. cbn in Hp1. lia.
Qed.

Lemma bytes_cmp_same_length p q a b :
  length p = length q ->
  bytes_cmp (p ++ a) (q ++ b)
  = match bytes_cmp p q with Eq => bytes_cmp a b | c => c end.
Proof.
  revert q. induction p as [|x p IH]; intros [|y q] Hl; try done.
  injection Hl as Hl. cbn. rewrite IH by done. by destruct (Z.compare (b2z x) (b2z y)).
Qed.

Lemma enc_cmp s t :
  Forall token_wf s -> Forall token_wf t ->
  Forall (fun t => plain_token t = true) s -> Forall (fun t => plain_token t = true) t ->
  bytes_cmp (concat (enc_token <$> s)) (concat (enc_token <$> t)) = tokens_cmp s t.
Proof.
  revert t. induction s as [|x s IH]; intros [|y t] Hs Ht Ps Pt; try done.
  { by destruct y. } { by destruct x. }
  apply Forall_cons in Hs as [Hx Hs], Ht as [Hy Ht], Ps as [Px Ps], Pt as [Py Pt].
  specialize (IH t Hs Ht Ps Pt).
  destruct x as [b|x], y as [c|y]; cbn in Px, Py; cbn [fmap list_fmap enc_token concat].
  - cbn. rewrite <-IH. done.
  - apply andb_prop in Py as [Ny Ly%Nat.leb_le]. destruct Hy as [Hy Hne].
    assert (b2z b < b2z (marker y)) as Hlt.
    { destruct y as [|d y]; [done|]. rewrite marker_value by (cbn in *; lia). cbn; lia. }
    cbn. by rewrite (proj2 (Z.compare_lt_iff _ _)).
  - apply andb_prop in Px as [Nx Lx%Nat.leb_le]. destruct Hx as [Hx Hne].
    assert (b2z c < b2z (marker x)) as Hlt.
    { destruct x as [|d x]; [done|]. rewrite marker_value by (cbn in *; lia). cbn; lia. }
    cbn. by rewrite (proj2 (Z.compare_gt_iff _ _)).
  - apply andb_prop in Px as [Nx Lx%Nat.leb_le], Py as [Ny Ly%Nat.leb_le].
    destruct Hx as [Hx Hnx], Hy as [Hy Hny].
    assert (1 <= length x)%nat by (destruct x; [done|cbn; lia]).
    assert (1 <= length y)%nat by (destruct y; [done|cbn; lia]).
    cbn [tokens_cmp token_cmp app bytes_cmp].
    rewrite !marker_value by lia. rewrite digits_cmp by done.
    rewrite Z.add_compare_mono_l, Nat2Z.inj_compare.
    destruct (Nat.compare_spec (length x) (length y)); [|done..].
    by rewrite bytes_cmp_same_length, IH.
Qed.

Lemma collated_cmp v w :
  plain_name v = true -> plain_name w = true ->
  bytes_cmp (collatedVersion v) (collatedVersion w) = tokens_cmp (tokens v) (tokens w).
Proof.
  intros Hv Hw. rewrite !collatedVersion_tokens by done.
  apply enc_cmp; (apply tokens_wf || by apply plain_name_spec).
Qed.

(** C20: the byte order of the keys is the natural order of the names (numbers by
    value, after every other character), for names in ASCII whose numbers have
    at most 33 digits and no leading zero: "1.9" is before "1.10". *)
Theorem collatedVersion_order v w :
  plain_name v = true -> plain_name w = true ->
  bytes_cmp (collatedVersion v) (collatedVersion w) = tokens_cmp (tokens v) (tokens w).
Proof. apply collated_cmp. Qed.

Lemma collatedVersion_order_witness :
  bytes_cmp (collatedVersion (str "sys-libs.glibc.libs.1.9"))
            (collatedVersion (str "sys-libs.glibc.libs.1.10")) = Lt.
Proof. rewrite collatedVersion_order; vm_compute; reflexivity. Defined.
