(* ===== verification/Natsort.v ===== *)
(** * Natsort: [apkgdb/natsort.go]

    [natsortCompare] with its two counters, proved equal to the comparison of
    token lists of [Collate]; hence a strict weak order, which is what
    [sort.Sort] asks of [Less]. *)

From S2P Require Import Prelude GoLib Collate.
Local Open Scope Z_scope.

(** ** The comparison *)

(** The inner loop: [a] is [a[posa:]], [n] is [intlna], [av] is [a[posa]].
    A leading zero moves [posa]; otherwise the count grows. *)
Fixpoint num_run (fuel : nat) (av : byte) (a : bytes) (n : nat) : bytes * nat :=
  match fuel with
  | O => (a, n)
  | S fuel =>
      match a !! n with
      | None => (a, n)
      | Some x =>
          if is_digit x then
            if b2z av =? 48 then num_run fuel x (tail a) n
            else num_run fuel av a (S n)
          else (a, n)
      end
  end.

(** The outer loop on [a[posa:]] and [b[posb:]]; [None] is fuel exhausted. *)
Fixpoint natsort_loop (fuel : nat) (a b : bytes) : option bool :=
  match fuel with
  | O => None
  | S fuel =>
      match a, b with
      | [], [] => Some false
      | [], _ => Some true
      | _, [] => Some false
      | av :: a1, bv :: b1 =>
          let digita := is_digit av in
          let digitb := is_digit bv in
          if digita && digitb then
            let '(a2, intlna) := num_run (length a) av a 1 in
            let '(b2, intlnb) := num_run (length b) bv b 1 in
            if (intlna <? intlnb)%nat then Some true
            else if (intlnb <? intlna)%nat then Some false
            else match bytes_cmp (take intlna a2) (take intlnb b2) with
                 | Lt => Some true
                 | Gt => Some false
                 | Eq => natsort_loop fuel (drop intlna a2) (drop intlnb b2)
                 end
          else if b2z av =? b2z bv then natsort_loop fuel a1 b1
          else if digitb then Some true
          else if digita then Some false
          else Some (b2z av <? b2z bv)
      end
  end.

(** Every round consumes a byte of [a] ([natsort_loop_spec]). *)
Definition natsortCompare (a b : bytes) : bool :=
  default false (natsort_loop (S (length a)) a b).

Example natsort_leading_zero :
  natsortCompare (str "foo00001") (str "foo002") = true /\
  natsortCompare (str "foo10") (str "foo01") = false.
Proof. vm_compute. done. Qed.

(** ** The inner loop strips the leading zeros of a run *)

Fixpoint strip (ds : bytes) : bytes :=
  match ds with
  | d :: ((_ :: _) as t) => if b2z d =? 48 then strip t else ds
  | _ => ds
  end.

Lemma strip_cons d e ds :
  strip (d :: e :: ds) = if b2z d =? 48 then strip (e :: ds) else d :: e :: ds.
Proof. done. Qed.

Lemma strip_spec ds :
  digits ds -> ds <> [] ->
  digits (strip ds) /\ strip ds <> [] /\ no_lead (strip ds) = true /\
  digits_value (strip ds) = digits_value ds.
Proof.
  induction 1 as [|d ds Hd Hds IH]; [done|]. intros _.
  destruct ds as [|e ds]; [by repeat split; [constructor|]|].
  rewrite strip_cons. destruct (Z.eqb_spec (b2z d) 48) as [E|E].
  - destruct IH as (? & ? & ? & Hv); [done|]. repeat split; try done.
    rewrite Hv, (digits_value_cons d), E. lia.
  - repeat split; [by constructor|done|]. cbn. by rewrite (proj2 (Z.eqb_neq _ _)).
Qed.

Lemma num_run_gen fuel av cur todo rest :
  digits todo -> no_digit_head rest -> (length todo < fuel)%nat ->
  head cur = Some av -> (length cur = 1%nat \/ b2z av <> 48) ->
  num_run fuel av (cur ++ todo ++ rest) (length cur)
  = (strip (cur ++ todo) ++ rest, length (strip (cur ++ todo))).
Proof.
  revert av cur todo. induction fuel as [|fuel IH]; intros av cur todo Hd Hr Hf Hh Hc; [lia|].
  cbn [num_run]. rewrite lookup_app_r, Nat.sub_diag by lia.
  destruct cur as [|c cur]; [done|]. injection Hh as ->.
  destruct todo as [|x todo].
  - rewrite app_nil_r. assert (strip (av :: cur) = av :: cur) as ->.
    { destruct cur as [|e cur]; [done|]. rewrite strip_cons.
      destruct Hc as [Hc|Hc]; [by cbn in Hc|]. by rewrite (proj2 (Z.eqb_neq _ _)). }
    destruct rest as [|y rest]; cbn; [done|]. cbn in Hr. by rewrite Hr.
  - apply Forall_cons in Hd as [Hx Hd]. cbn [app lookup list_lookup]. rewrite Hx.
    destruct (Z.eqb_spec (b2z av) 48) as [E|E].
    + destruct Hc as [Hc|Hc]; [|done]. destruct cur as [|e cur]; [|done].
      cbn [app tail length]. rewrite strip_cons, E, Z.eqb_refl.
      apply (IH x [x] todo); cbn in *; auto; lia.
    + specialize (IH av ((av :: cur) ++ [x]) todo).
      rewrite length_app, <-!app_assoc in IH. cbn [app length] in IH |- *.
      rewrite Nat.add_1_r in IH.
      apply IH; [done|done|cbn in Hf; lia|done|by right].
Qed.

Lemma num_run_spec d ds rest :
  digits (d :: ds) -> no_digit_head rest ->
  num_run (length (d :: ds ++ rest)) d (d :: ds ++ rest) 1
  = (strip (d :: ds) ++ rest, length (strip (d :: ds))).
Proof.
  intros [Hd Hds]%Forall_cons Hr.
  apply (num_run_gen _ d [d] ds rest); [done|done| |done|by left].
  cbn. rewrite length_app. lia.
Qed.

Lemma full_run_split d v :
  is_digit d = true ->
  exists ds rest, d :: v = (d :: ds) ++ rest /\ digits (d :: ds) /\ no_digit_head rest.
Proof.
  intros Hd. destruct (digit_run_split (length v) d v Hd) as (ds & rest & E & Hds & Hl & Hr).
  destruct ds as [|x ds]; [cbn in Hl; lia|]. injection E as <- E.
  exists ds, rest. split; [by rewrite E|]. split; [done|].
  destruct Hr as [|Hr]; [done|]. destruct rest as [|y rest]; [done|].
  exfalso. subst v. rewrite length_app in Hr. cbn in Hr. lia.
Qed.

Lemma strip_length ds : (length (strip ds) <= length ds)%nat.
Proof.
  induction ds as [|d ds IH]; [done|]. destruct ds as [|e ds]; [done|].
  rewrite strip_cons. case_match; cbn in *; lia.
Qed.

Definition is_lt (c : comparison) : bool := match c with Lt => true | _ => false end.

(** With more fuel than [a] has bytes the loop answers, and the answer is the
    comparison of the tokens. *)
Lemma natsort_loop_spec fuel a b :
  (length a < fuel)%nat ->
  natsort_loop fuel a b = Some (is_lt (tokens_cmp (tokens a) (tokens b))).
Proof.
  revert a b. induction fuel as [|fuel IH]; intros a b Hf; [lia|].
  destruct a as [|x a], b as [|y b].
  - done.
  - cbn. destruct (is_digit y); [|done]. by destruct (tokens b) as [|[] ?].
  - cbn. destruct (is_digit x); [|done]. by destruct (tokens a) as [|[] ?].
  - cbn [natsort_loop]. destruct (is_digit x) eqn:Hx, (is_digit y) eqn:Hy; cbn [andb].
    + destruct (full_run_split x a Hx) as (ds & ra & Ea & Hda & Hra).
      destruct (full_run_split y b Hy) as (es & rb & Eb & Hdb & Hrb).
      rewrite Ea, Eb. change ((x :: ds) ++ ra) with (x :: ds ++ ra).
      change ((y :: es) ++ rb) with (y :: es ++ rb).
      rewrite !num_run_spec by done.
      change (x :: ds ++ ra) with ((x :: ds) ++ ra). change (y :: es ++ rb) with ((y :: es) ++ rb).
      rewrite !tokens_run by done. cbn [tokens_cmp token_cmp].
      destruct (strip_spec (x :: ds) Hda ltac:(done)) as (S1 & S2 & S3 & <-).
      destruct (strip_spec (y :: es) Hdb ltac:(done)) as (T1 & T2 & T3 & <-).
      rewrite digits_cmp by done. rewrite !take_app_length, !drop_app_length.
      destruct (Nat.compare_spec (length (strip (x :: ds))) (length (strip (y :: es)))) as [E|E|E].
      * rewrite E, Nat.ltb_irrefl. destruct (bytes_cmp _ _); [|done..].
        apply IH. pose proof (f_equal length Ea) as El. cbn in El, Hf.
        rewrite length_app in El. lia.
      * by rewrite (proj2 (Nat.ltb_lt _ _)).
      * rewrite (proj2 (Nat.ltb_ge _ _)) by lia. by rewrite (proj2 (Nat.ltb_lt _ _)).
    + destruct (Z.eqb_spec (b2z x) (b2z y)) as [E|].
      { apply b2z_inj in E. congruence. }
      cbn. rewrite Hx, Hy. by destruct (tokens a) as [|[] ?].
    + destruct (Z.eqb_spec (b2z x) (b2z y)) as [E|].
      { apply b2z_inj in E. congruence. }
      cbn. rewrite Hx, Hy. by destruct (tokens b) as [|[] ?].
    + cbn [tokens]. rewrite Hx, Hy. cbn [tokens_cmp token_cmp].
      destruct (Z.eqb_spec (b2z x) (b2z y)) as [->|E].
      * rewrite Z.compare_refl. apply IH. cbn in Hf. lia.
      * f_equal. destruct (Z.compare_spec (b2z x) (b2z y)); [done|..]; cbn; lia.
Qed.

(** ** The order of token lists *)

Lemma token_cmp_trans x y z c :
  token_cmp x y = c -> token_cmp y z = c -> token_cmp x z = c.
Proof.
  destruct x, y, z; cbn; try congruence; intros <-;
    repeat match goal with |- context [Z.compare ?a ?b] =>
      destruct (Z.compare_spec a b) end; try congruence; lia.
Qed.
Lemma token_cmp_antisym x y : token_cmp y x = CompOpp (token_cmp x y).
Proof. destruct x, y; cbn; try done; apply Z.compare_antisym. Qed.
Lemma token_cmp_Eq_l x y z : token_cmp x y = Eq -> token_cmp x z = token_cmp y z.
Proof.
  destruct x, y, z; cbn; try done; intros E%Z.compare_eq_iff; by rewrite E.
Qed.
Lemma token_cmp_Eq_r x y z : token_cmp y z = Eq -> token_cmp x y = token_cmp x z.
Proof.
  destruct x, y, z; cbn; try done; intros E%Z.compare_eq_iff; by rewrite E.
Qed.

Lemma tokens_cmp_refl s : tokens_cmp s s = Eq.
Proof.
  induction s as [|x s IH]; [done|]. cbn.
  by destruct x; cbn; rewrite Z.compare_refl.
Qed.
Lemma tokens_cmp_antisym s t : tokens_cmp t s = CompOpp (tokens_cmp s t).
Proof.
  revert t. induction s as [|x s IH]; intros [|y t]; try done. cbn.
  rewrite (token_cmp_antisym x y). destruct (token_cmp x y); [apply IH|done..].
Qed.
Lemma tokens_cmp_Eq_l s t u : tokens_cmp s t = Eq -> tokens_cmp s u = tokens_cmp t u.
Proof.
  revert t u. induction s as [|x s IH]; intros [|y t] [|z u]; try done. cbn.
  destruct (token_cmp x y) eqn:E; [|done..]. intros H.
  rewrite (token_cmp_Eq_l x y z E). destruct (token_cmp y z); [by apply IH|done..].
Qed.
Lemma tokens_cmp_trans s t u :
  tokens_cmp s t = Lt -> tokens_cmp t u = Lt -> tokens_cmp s u = Lt.
Proof.
  revert t u. induction s as [|x s IH]; intros [|y t] [|z u]; try done. cbn.
  destruct (token_cmp x y) eqn:E1; [|intros _|done].
  - rewrite (token_cmp_Eq_l x y z E1). destruct (token_cmp y z); [apply IH|done..].
  - destruct (token_cmp y z) eqn:E2; [intros _|intros _|done].
    + by rewrite <-(token_cmp_Eq_r x y z E2), E1.
    + by rewrite (token_cmp_trans x y z Lt).
Qed.

(** ** [sort.Sort] *)

(** What [sort.Sort] needs of [Less]. *)
Record StrictWeak {A} (less : A -> A -> bool) : Prop := {
  sw_irrefl x : less x x = false;
  sw_trans x y z : less x y = true -> less y z = true -> less x z = true;
  sw_incomp x y z :
    less x y = false -> less y x = false -> less y z = false -> less z y = false ->
    less x z = false /\ less z x = false;
}.

(** [sort.Sort] on a slice of strings with the given [Less]: Go documents a
    sorted permutation, and no stability. *)
Class GoSort := sort_Sort : (bytes -> bytes -> bool) -> list bytes -> list bytes.
Class GoSortSpec `{GoSort} : Prop := {
  Sort_perm less l : sort_Sort less l ≡ₚ l;
  Sort_sorted less l : StrictWeak less ->
    Sorted (fun x y => less y x = false) (sort_Sort less l);
}.

Section natSort.
Context `{GoSort}.
Definition natSort (l : list bytes) : list bytes := sort_Sort natsortCompare l.
End natSort.

(** ** Properties *)

(** [natsortCompare] answers, and its answer is the natural order: tokens
    compared from the left, numbers by value (leading zeros do not count),
    every other byte before a number, a proper prefix first. *)
Theorem natsortCompare_spec a b :
  natsortCompare a b = is_lt (tokens_cmp (tokens a) (tokens b)).
Proof. unfold natsortCompare. by rewrite natsort_loop_spec by lia. Qed.

Lemma is_lt_true c : is_lt c = true <-> c = Lt.
Proof. by destruct c. Qed.

(** [natsortSlice.Less] is a strict weak order on all strings, the contract
    of [sort.Sort]. *)
Theorem natsortCompare_strict_weak : StrictWeak natsortCompare.
Proof.
  split.
  - intros x. by rewrite natsortCompare_spec, tokens_cmp_refl.
  - intros x y z. rewrite !natsortCompare_spec, !is_lt_true. apply tokens_cmp_trans.
  - intros x y z. rewrite !natsortCompare_spec.
    rewrite (tokens_cmp_antisym (tokens x) (tokens y)), (tokens_cmp_antisym (tokens y) (tokens z)),
      (tokens_cmp_antisym (tokens x) (tokens z)).
    destruct (tokens_cmp (tokens x) (tokens y)) eqn:E1; try done.
    rewrite (tokens_cmp_Eq_l _ _ (tokens z) E1).
    by destruct (tokens_cmp (tokens y) (tokens z)).
Qed.

Lemma natSort_order `{GoSortSpec} l :
  natSort l ≡ₚ l /\ Sorted (fun x y => tokens_cmp (tokens x) (tokens y) <> Gt) (natSort l).
Proof.
  split; [apply Sort_perm|].
  eapply Sorted_mono; [|exact (Sort_sorted natsortCompare l natsortCompare_strict_weak)].
  cbv beta. intros x y E. rewrite natsortCompare_spec, tokens_cmp_antisym in E.
  by destruct (tokens_cmp (tokens x) (tokens y)).
Qed.

(** [natSort] returns the same names in natural order; on plain names this is
    the order of their keys in the [p2p] bucket. *)
Theorem natSort_sorted `{GoSortSpec} l :
  natSort l ≡ₚ l /\
  Sorted (fun x y => tokens_cmp (tokens x) (tokens y) <> Gt) (natSort l) /\
  (Forall (fun v => plain_name v = true) l ->
   Sorted (fun x y => bytes_cmp (collatedVersion x) (collatedVersion y) <> Gt) (natSort l)).
Proof.
  destruct (natSort_order l) as [Hp Hs]. split; [done|]. split; [done|]. intros Hplain.
  rewrite <-Hp in Hplain. clear Hp. induction Hs as [|x l' Hs' IH Hd]; [constructor|].
  apply Forall_cons in Hplain as [Hx Hpl]. constructor; [by apply IH|].
  destruct Hd as [|y l'' Hy]; constructor. apply Forall_cons in Hpl as [Hy' _].
  by rewrite collated_cmp.
Qed.

(** ** Insertion sort: Go's algorithm for at most 12 elements *)

Fixpoint insert_sorted (less : bytes -> bytes -> bool) (x : bytes) (l : list bytes) :=
  match l with
  | [] => [x]
  | y :: l => if less x y then x :: y :: l else y :: insert_sorted less x l
  end.
Definition insertion_sort less (l : list bytes) : list bytes :=
  foldr (insert_sorted less) [] l.

Lemma insert_sorted_perm less x l : insert_sorted less x l ≡ₚ x :: l.
Proof.
  induction l as [|y l IH]; cbn; [done|]. case_match; [done|].
  rewrite IH. constructor.
Qed.

Lemma insert_sorted_sorted less x l :
  StrictWeak less ->
  Sorted (fun x y => less y x = false) l ->
  Sorted (fun x y => less y x = false) (insert_sorted less x l).
Proof.
  intros Hw. induction 1 as [|y l Hs IH Hd]; cbn; [by repeat constructor|].
  destruct (less x y) eqn:E.
  - constructor; [by constructor|]. constructor.
    destruct (less y x) eqn:E2; [|done].
    by rewrite <-(sw_irrefl less Hw x), (sw_trans less Hw x y x).
  - constructor; [done|]. destruct Hd as [|z l Hz]; cbn; [by constructor|].
    case_match; by constructor.
Qed.

Instance insertion_GoSort : GoSort := insertion_sort.
Instance insertion_GoSortSpec : GoSortSpec.
Proof.
  split; unfold sort_Sort, insertion_GoSort, insertion_sort.
  - intros less l. induction l as [|x l IH]; [done|]. cbn.
    by rewrite insert_sorted_perm, IH.
  - intros less l Hw. induction l as [|x l IH]; [constructor|].
    by apply insert_sorted_sorted.
Qed.

Lemma natSort_sorted_witness :
  let l := [str "a.libs.5.1.3"; str "a.libs.5.0.1"] in
  natSort l ≡ₚ l /\
  Sorted (fun x y => tokens_cmp (tokens x) (tokens y) <> Gt) (natSort l) /\
  (Forall (fun v => plain_name v = true) l ->
   Sorted (fun x y => bytes_cmp (collatedVersion x) (collatedVersion y) <> Gt) (natSort l)).
Proof. intros l. apply (natSort_sorted l). Defined.
