(* ===== verification/GoTime.v ===== *)
(** * GoTime: the version stamp of a database

    [time.Unix(sec, nsec).UTC().Format("20060102150405")], used by [index] and
    [ExportAndUpload].  The calendar is the proleptic Gregorian one, computed
    by eras of 400 years; the seconds wrap as an [int64]. *)

From S2P Require Import Prelude GoLib Collate.
Local Open Scope Z_scope.

(** ** Decimal digits, as [appendInt] writes them *)

Definition digit (z : Z) : byte := z2b (48 + z).

(** The [n] low decimal digits of [z]. *)
Fixpoint dec_fixed (n : nat) (z : Z) : bytes :=
  match n with O => [] | S n => dec_fixed n (z / 10) ++ [digit (z mod 10)] end.

Fixpoint dec_len (fuel : nat) (z : Z) : nat :=
  match fuel with
  | O => 1
  | S fuel => if z <? 10 then 1%nat else S (dec_len fuel (z / 10))
  end.

(** [strconv.Itoa], for a value below [10^20]. *)
Definition Itoa (z : Z) : bytes :=
  if z <? 0 then Byte.x2d :: dec_fixed (dec_len 20 (- z)) (- z)
  else dec_fixed (dec_len 20 z) z.

(** [appendInt(b, z, width)] of package [time]. *)
Definition append_int (width : nat) (z : Z) : bytes :=
  if z <? 0 then Byte.x2d :: dec_fixed (max width (dec_len 20 (- z))) (- z)
  else dec_fixed (max width (dec_len 20 z)) z.

(** ** The calendar *)

Definition era_date (doe : Z) : Z * Z * Z :=
  let yoe := (doe - doe / 1460 + doe / 36524 - doe / 146096) / 365 in
  let doy := doe - (365 * yoe + yoe / 4 - yoe / 100) in
  let mp := (5 * doy + 2) / 153 in
  let d := doy - (153 * mp + 2) / 5 + 1 in
  if mp <? 10 then (yoe, mp + 3, d) else (yoe + 1, mp - 9, d).

(** Year, month and day of a day counted from 1970-01-01. *)
Definition civil (days : Z) : Z * Z * Z :=
  let z := days + 719468 in
  let '(y, m, d) := era_date (z mod 146097) in (y + 400 * (z / 146097), m, d).

(** [time.Unix]: the seconds after [nsec] is brought into [0, 1e9). *)
Definition Unix_sec (sec nsec : Z) : Z := i64 (sec + nsec / 1000000000).

Definition Stamp (sec nsec : Z) : bytes :=
  let s := Unix_sec sec nsec in
  let '(y, m, d) := civil (s / 86400) in
  let t := s mod 86400 in
  append_int 4 y ++ append_int 2 m ++ append_int 2 d ++
  append_int 2 (t / 3600) ++ append_int 2 (t / 60 mod 60) ++ append_int 2 (t mod 60).

Example Stamp_epoch : Stamp 0 0 = str "19700101000000". Proof. reflexivity. Qed.
Example Stamp_leap : Stamp 951782400 0 = str "20000229000000". Proof. reflexivity. Qed.
Example Stamp_2022 : Stamp 1654048543 999999999 = str "20220601015543". Proof. reflexivity. Qed.
Example Stamp_negative : Stamp (-1) 0 = str "19691231235959". Proof. reflexivity. Qed.

(** ** Digits *)

Lemma digit_value z : 0 <= z < 10 -> b2z (digit z) = 48 + z.
Proof. intros ?. unfold digit. rewrite b2z_z2b. apply Z.mod_small. lia. Qed.

Lemma digit_is_digit z : 0 <= z < 10 -> is_digit (digit z) = true.
Proof. intros H. unfold is_digit. rewrite digit_value by done. lia. Qed.

Lemma length_dec_fixed n z : length (dec_fixed n z) = n.
Proof.
  revert z. induction n as [|n IH]; intros z; [done|]. cbn. rewrite length_app, IH. cbn. lia.
Qed.

Lemma dec_fixed_digits n z : digits (dec_fixed n z).
Proof.
  revert z. induction n as [|n IH]; intros z; cbn; [constructor|].
  apply Forall_app. split; [apply IH|]. constructor; [|constructor].
  apply digit_is_digit, Z.mod_pos_bound. lia.
Qed.

Lemma digits_value_app a b :
  digits_value (a ++ b) = digits_value a * 10 ^ Z.of_nat (length b) + digits_value b.
Proof. unfold digits_value at 1. rewrite foldl_app. apply digits_value_acc. Qed.

Lemma dec_fixed_value n z : 0 <= z < 10 ^ Z.of_nat n -> digits_value (dec_fixed n z) = z.
Proof.
  revert z. induction n as [|n IH]; intros z Hz; [cbn in *; lia|].
  rewrite Nat2Z.inj_succ, Z.pow_succ_r in Hz by lia. cbn [dec_fixed].
  rewrite digits_value_app, IH by (split; [apply Z.div_pos; lia|apply Z.div_lt_upper_bound; lia]).
  pose proof (Z.mod_pos_bound z 10 ltac:(lia)). unfold digits_value. cbn [foldl length].
  rewrite digit_value by done. pose proof (Z.div_mod z 10 ltac:(lia)). lia.
Qed.

Lemma dec_len_le fuel n z :
  (0 < n)%nat -> 0 <= z < 10 ^ Z.of_nat n -> (dec_len fuel z <= n)%nat.
Proof.
  revert n z. induction fuel as [|fuel IH]; intros n z Hn Hz; cbn; [lia|].
  destruct (Z.ltb_spec z 10); [lia|]. destruct n as [|[|n]]; [lia|cbn in Hz; lia|].
  apply le_n_S, IH; [lia|]. rewrite (Nat2Z.inj_succ (S n)), Z.pow_succ_r in Hz by lia.
  split; [apply Z.div_pos; lia|apply Z.div_lt_upper_bound; lia].
Qed.

Lemma append_int_fixed n z :
  (0 < n)%nat -> 0 <= z < 10 ^ Z.of_nat n -> append_int n z = dec_fixed n z.
Proof.
  intros Hn Hz. unfold append_int. destruct (Z.ltb_spec z 0); [lia|].
  pose proof (dec_len_le 20 n z Hn Hz). by rewrite Nat.max_l.
Qed.

(** ** Days are ordered by their dates *)

Definition date_num (ymd : Z * Z * Z) : Z :=
  let '(y, m, d) := ymd in y * 10000 + m * 100 + d.

Definition date_ok (ymd : Z * Z * Z) : bool :=
  let '(_, m, d) := ymd in (1 <=? m) && (m <=? 12) && (1 <=? d) && (d <=? 31).

(** The first day of a year of the era, years starting on March 1st. *)
Definition year_start (y : Z) : Z := 365 * y + y / 4 - y / 100 + y / 400.

Definition pre_year (doe : Z) : Z := doe - doe / 1460 + doe / 36524 - doe / 146096.

Definition month_day (doy : Z) : Z * Z :=
  let mp := (5 * doy + 2) / 153 in (mp, doy - (153 * mp + 2) / 5 + 1).

Definition md_ok (n : nat) : bool :=
  let '(mp, d) := month_day (Z.of_nat n) in
  let '(mp', d') := month_day (Z.of_nat n + 1) in
  (0 <=? mp) && (mp <=? 11) && (1 <=? d) && (d <=? 31) && (d' <=? 31) &&
  (mp * 100 + d <? mp' * 100 + d').

Definition year_ok (n : nat) : bool :=
  let y := Z.of_nat n in
  (pre_year (year_start y) / 365 =? y) && (pre_year (year_start (y + 1) - 1) / 365 =? y) &&
  (year_start (y + 1) - year_start y <=? 366).

Lemma forallb_seq f n k : forallb f (seq 0 n) = true -> (k < n)%nat -> f k = true.
Proof. intros H Hk. rewrite forallb_forall in H. apply H, in_seq. lia. Qed.

Lemma md_all : forallb md_ok (seq 0 366) = true.
Proof. vm_compute. reflexivity. Qed.
Lemma year_all : forallb year_ok (seq 0 400) = true.
Proof. vm_compute. reflexivity. Qed.

Lemma md_range doy : 0 <= doy < 366 -> md_ok (Z.to_nat doy) = true.
Proof. intros H. apply (forallb_seq _ 366 _ md_all). lia. Qed.

Lemma year_range y : 0 <= y < 400 ->
  pre_year (year_start y) / 365 = y /\ pre_year (year_start (y + 1) - 1) / 365 = y /\
  year_start (y + 1) - year_start y <= 366.
Proof.
  intros H. pose proof (forallb_seq _ 400 (Z.to_nat y) year_all ltac:(lia)) as Hy.
  unfold year_ok in Hy. rewrite Z2Nat.id in Hy by lia. lia.
Qed.

Lemma pre_year_step x : 0 <= x -> x + 1 < 146097 -> pre_year x <= pre_year (x + 1).
Proof.
  intros H0 H1. unfold pre_year.
  assert ((x + 1) / 36524 <= x / 36524 + 1) by (zify; Z.div_mod_to_equations; lia).
  pose proof (Z.div_le_mono x (x + 1) 36524 ltac:(lia) ltac:(lia)).
  destruct (decide (x + 1 = 146096)) as [E|].
  - assert (x = 146095) as -> by lia. vm_compute. congruence.
  - assert ((x + 1) / 146096 = 0) as -> by (apply Z.div_small; lia).
    assert ((x + 1) / 1460 <= x / 1460 + 1) by (zify; Z.div_mod_to_equations; lia).
    rewrite (Z.div_small x 146096) by lia. lia.
Qed.

Lemma pre_year_mono a b : 0 <= a -> a <= b -> b < 146097 -> pre_year a <= pre_year b.
Proof.
  intros Ha Hab. replace b with (a + Z.of_nat (Z.to_nat (b - a))) by lia.
  induction (Z.to_nat (b - a)) as [|n IH]; intros Hb; [rewrite Z.add_0_r; lia|].
  etrans; [apply IH; lia|].
  replace (a + Z.of_nat (S n)) with (a + Z.of_nat n + 1) by lia. apply pre_year_step; lia.
Qed.

(** The era day [x] lies in the year [y] the formula gives. *)
Lemma era_year x : 0 <= x < 146097 ->
  exists y, 0 <= y < 400 /\ year_start y <= x < year_start (y + 1) /\ pre_year x / 365 = y.
Proof.
  intros Hx. assert (exists y, 0 <= y < 400 /\ year_start y <= x < year_start (y + 1)) as (y & Hy & Hr).
  { assert (forall n, (n <= 400)%nat -> x < year_start (Z.of_nat n) ->
      exists y, 0 <= y < 400 /\ year_start y <= x < year_start (y + 1)) as Hn.
    { induction n as [|n IH]; intros Hn Hlt; [change (year_start (Z.of_nat 0)) with 0 in Hlt; lia|].
      destruct (decide (x < year_start (Z.of_nat n))); [apply IH; [lia|done]|].
      exists (Z.of_nat n). rewrite Nat2Z.inj_succ in Hlt. unfold Z.succ in Hlt. lia. }
    apply (Hn 400%nat); [lia|]. change (year_start (Z.of_nat 400)) with 146097. lia. }
  destruct (year_range y Hy) as (E1 & E2 & _). exists y. split; [done|]. split; [done|].
  assert (0 <= year_start y).
  { unfold year_start. pose proof (Z.div_pos y 4). pose proof (Z.div_pos y 400).
    pose proof (Z.div_le_upper_bound y 100 y). lia. }
  assert (year_start (y + 1) <= 146097).
  { unfold year_start. Z.div_mod_to_equations. lia. }
  pose proof (pre_year_mono (year_start y) x ltac:(lia) ltac:(lia) ltac:(lia)) as H1.
  pose proof (pre_year_mono x (year_start (y + 1) - 1) ltac:(lia) ltac:(lia) ltac:(lia)) as H2.
  apply (Z.div_le_mono _ _ 365) in H1, H2; lia.
Qed.

Lemma era_date_year x y :
  0 <= y < 400 -> year_start y <= x < year_start (y + 1) -> pre_year x / 365 = y ->
  let '(mp, d) := month_day (x - year_start y) in
  era_date x = if mp <? 10 then (y, mp + 3, d) else (y + 1, mp - 9, d).
Proof.
  intros Hy Hx E. unfold era_date, month_day. fold (pre_year x). rewrite E.
  replace (x - (365 * y + y / 4 - y / 100)) with (x - year_start y); [done|].
  unfold year_start. rewrite (Z.div_small y 400) by lia. lia.
Qed.

Definition shifted_num (y : Z) (md : Z * Z) : Z := y * 10000 + md.1 * 100 + md.2 + 300.

Lemma era_date_num x y :
  0 <= y < 400 -> year_start y <= x < year_start (y + 1) -> pre_year x / 365 = y ->
  date_ok (era_date x) = true /\
  date_num (era_date x)
  = (let md := month_day (x - year_start y) in
     if md.1 <? 10 then shifted_num y md else shifted_num y md + 8800).
Proof.
  intros Hy Hx E. pose proof (era_date_year x y Hy Hx E) as Hd.
  destruct (year_range y Hy) as (_ & _ & Hl).
  pose proof (md_range (x - year_start y) ltac:(lia)) as Hm. unfold md_ok in Hm.
  rewrite Z2Nat.id in Hm by lia. destruct (month_day (x - year_start y)) as [mp d].
  destruct (month_day (x - year_start y + 1)) as [mp' d']. rewrite Hd. cbn.
  unfold shifted_num. cbn. destruct (Z.ltb_spec mp 10); cbn; split; lia.
Qed.

Lemma era_date_ok x : 0 <= x < 146097 -> date_ok (era_date x) = true.
Proof.
  intros Hx. destruct (era_year x Hx) as (y & Hy & Hr & E).
  by destruct (era_date_num x y Hy Hr E).
Qed.

Lemma year_start_mono a b : a <= b -> year_start a <= year_start b.
Proof. intros Hab. unfold year_start. Z.div_mod_to_equations. lia. Qed.

Lemma era_step x : 0 <= x < 146096 ->
  date_num (era_date x) < date_num (era_date (x + 1)).
Proof.
  intros Hx. destruct (era_year x) as (y & Hy & Hr & E); [lia|].
  destruct (era_year (x + 1)) as (y' & Hy' & Hr' & E'); [lia|].
  destruct (era_date_num x y Hy Hr E) as [_ ->].
  destruct (era_date_num (x + 1) y' Hy' Hr' E') as [_ ->].
  destruct (year_range y Hy) as (_ & _ & Hl).
  pose proof (md_range (x - year_start y) ltac:(lia)) as Hm. unfold md_ok in Hm.
  rewrite Z2Nat.id in Hm by lia.
  destruct (decide (y' = y)) as [->|Hne].
  - replace (x + 1 - year_start y) with (x - year_start y + 1) by lia.
    destruct (month_day (x - year_start y)) as [mp d].
    destruct (month_day (x - year_start y + 1)) as [mp' d']. unfold shifted_num. cbn.
    destruct (Z.ltb_spec mp 10), (Z.ltb_spec mp' 10); lia.
  - assert (y' = y + 1) as ->.
    { destruct (decide (y' < y)) as [Hlt|].
      - pose proof (year_start_mono (y' + 1) y). lia.
      - destruct (decide (y + 1 < y')) as [Hlt|]; [|lia].
        pose proof (year_start_mono (y + 1 + 1) y').
        assert (year_start (y + 1) < year_start (y + 1 + 1)); [|lia].
        unfold year_start. Z.div_mod_to_equations. lia. }
    pose proof (year_start_mono y (y + 1)).
    replace (x + 1 - year_start (y + 1)) with 0 by lia.
    change (month_day 0) with (0, 1).
    destruct (month_day (x - year_start y)) as [mp d].
    destruct (month_day (x - year_start y + 1)) as [mp' d']. unfold shifted_num. cbn.
    destruct (Z.ltb_spec mp 10); lia.
Qed.

Lemma date_num_civil days :
  date_num (civil days)
  = date_num (era_date ((days + 719468) mod 146097)) + 4000000 * ((days + 719468) / 146097).
Proof. unfold civil. destruct (era_date _) as [[y m] d]. cbn. lia. Qed.

Lemma civil_ok days : date_ok (civil days) = true.
Proof.
  unfold civil. pose proof (era_date_ok ((days + 719468) mod 146097)) as H.
  destruct (era_date _) as [[y m] d]. cbn in *. apply H, Z.mod_pos_bound. lia.
Qed.

Lemma civil_step days : date_num (civil days) < date_num (civil (days + 1)).
Proof.
  rewrite !date_num_civil. set (z := days + 719468).
  replace (days + 1 + 719468) with (z + 1) by lia.
  pose proof (Z.mod_pos_bound z 146097 ltac:(lia)). pose proof (Z.div_mod z 146097 ltac:(lia)).
  destruct (decide (z mod 146097 = 146096)) as [E|].
  - assert (z + 1 = 146097 * (z / 146097 + 1) + 0) as Ez by lia.
    rewrite <-(Z.div_unique_pos (z + 1) 146097 (z / 146097 + 1) 0) by lia.
    rewrite <-(Z.mod_unique_pos (z + 1) 146097 (z / 146097 + 1) 0) by lia.
    rewrite E. assert (date_num (era_date 146096) < date_num (era_date 0) + 4000000) by reflexivity.
    lia.
  - assert (z + 1 = 146097 * (z / 146097) + (z mod 146097 + 1)) as Ez by lia.
    rewrite <-(Z.div_unique_pos (z + 1) 146097 (z / 146097) (z mod 146097 + 1)) by lia.
    rewrite <-(Z.mod_unique_pos (z + 1) 146097 (z / 146097) (z mod 146097 + 1)) by lia.
    pose proof (era_step (z mod 146097) ltac:(lia)). lia.
Qed.

Lemma civil_mono a b : a < b -> date_num (civil a) < date_num (civil b).
Proof.
  intros Hab. replace b with (a + Z.of_nat (S (Z.to_nat (b - a - 1)))) by lia.
  induction (Z.to_nat (b - a - 1)) as [|n IH].
  - replace (a + Z.of_nat 1) with (a + 1) by lia. apply civil_step.
  - etrans; [exact IH|]. replace (a + Z.of_nat (S (S n))) with (a + Z.of_nat (S n) + 1) by lia.
    apply civil_step.
Qed.

Lemma civil_mono_le a b : a <= b -> date_num (civil a) <= date_num (civil b).
Proof.
  intros H. destruct (decide (a = b)) as [->|]; [lia|]. apply Z.lt_le_incl, civil_mono. lia.
Qed.

(** ** Stamps are ordered as the times *)

Definition stamp_num (s : Z) : Z :=
  let t := s mod 86400 in
  date_num (civil (s / 86400)) * 1000000 + t / 3600 * 10000 + t / 60 mod 60 * 100 + t mod 60.

(** The first second of year 1 and the first of year 10000. *)
Definition year1 : Z := -62135596800.
Definition year10000 : Z := 253402300800.

Lemma civil_year_range s y m d :
  year1 <= s < year10000 -> civil (s / 86400) = (y, m, d) -> 1 <= y < 10000.
Proof.
  intros Hs E.
  assert (s / 86400 < 2932897) by (apply Z.div_lt_upper_bound; unfold year10000 in *; lia).
  assert (-719162 <= s / 86400) by (apply Z.div_le_lower_bound; unfold year1 in *; lia).
  pose proof (civil_mono_le (s / 86400) 2932896 ltac:(lia)) as H1.
  pose proof (civil_mono_le (-719162) (s / 86400) ltac:(lia)) as H2.
  rewrite E in H1, H2. pose proof (civil_ok (s / 86400)) as Hk. rewrite E in Hk.
  change (date_num (civil 2932896)) with 99991231 in H1.
  change (date_num (civil (-719162))) with 10101 in H2. cbn in H1, H2, Hk. lia.
Qed.

Lemma Stamp_num sec nsec s :
  s = Unix_sec sec nsec -> year1 <= s < year10000 ->
  digits (Stamp sec nsec) /\ length (Stamp sec nsec) = 14%nat /\
  digits_value (Stamp sec nsec) = stamp_num s.
Proof.
  intros Es Hs. unfold Stamp, stamp_num. rewrite <-Es.
  destruct (civil (s / 86400)) as [[y m] d] eqn:E.
  pose proof (civil_year_range s y m d Hs E) as Hy.
  pose proof (civil_ok (s / 86400)) as Hk. rewrite E in Hk. cbn in Hk.
  pose proof (Z.mod_pos_bound s 86400 ltac:(lia)) as Ht. set (t := s mod 86400) in *.
  pose proof (Z.mod_pos_bound (t / 60) 60 ltac:(lia)).
  pose proof (Z.mod_pos_bound t 60 ltac:(lia)).
  assert (0 <= t / 3600 < 24) by
    (split; [apply Z.div_pos; lia|apply Z.div_lt_upper_bound; lia]).
  rewrite !append_int_fixed by (cbn; lia).
  split; [do 5 (apply Forall_app; split; [apply dec_fixed_digits|]); apply dec_fixed_digits|].
  split; [by rewrite !length_app, !length_dec_fixed|].
  rewrite !digits_value_app, !length_app, !length_dec_fixed, !dec_fixed_value by (cbn; lia).
  cbn. lia.
Qed.

Lemma stamp_num_lt s t : s < t -> stamp_num s < stamp_num t.
Proof.
  intros Hst. unfold stamp_num.
  pose proof (Z.div_mod s 86400 ltac:(lia)). pose proof (Z.div_mod t 86400 ltac:(lia)).
  pose proof (Z.mod_pos_bound s 86400 ltac:(lia)) as Hs.
  pose proof (Z.mod_pos_bound t 86400 ltac:(lia)) as Ht.
  set (a := s mod 86400) in *. set (b := t mod 86400) in *.
  assert (forall x, 0 <= x < 86400 ->
    exists h mi sc, x = 3600 * h + 60 * mi + sc /\ 0 <= h < 24 /\ 0 <= mi < 60 /\ 0 <= sc < 60 /\
      x / 3600 = h /\ x / 60 mod 60 = mi /\ x mod 60 = sc) as Hsplit.
  { clear. intros x Hx. exists (x / 3600), (x / 60 mod 60), (x mod 60).
    pose proof (Z.div_mod x 60 ltac:(lia)). pose proof (Z.div_mod (x / 60) 60 ltac:(lia)).
    rewrite (Z.div_div x 60 60) in H0 by lia. change (60 * 60) with 3600 in H0.
    pose proof (Z.mod_pos_bound x 60 ltac:(lia)). pose proof (Z.mod_pos_bound (x / 60) 60 ltac:(lia)).
    repeat split; lia. }
  destruct (Hsplit a Hs) as (h & mi & sc & Ea & ? & ? & ? & -> & -> & ->).
  destruct (Hsplit b Ht) as (h' & mi' & sc' & Eb & ? & ? & ? & -> & -> & ->).
  destruct (decide (s / 86400 < t / 86400)) as [Hlt|].
  - pose proof (civil_mono _ _ Hlt). lia.
  - assert (s / 86400 = t / 86400) as -> by (apply Z.le_antisymm; [apply Z.div_le_mono; lia|lia]).
    lia.
Qed.

(** A stamp is short, whatever the time. *)
Lemma length_append_int_le n z : (length (append_int n z) <= max n 21 + 1)%nat.
Proof.
  assert (forall fuel y, (dec_len fuel y <= S fuel)%nat) as Hd.
  { induction fuel as [|fuel IH]; intros y; cbn; [lia|]. case_match; [lia|]. apply le_n_S, IH. }
  unfold append_int. pose proof (Hd 20%nat z). pose proof (Hd 20%nat (- z)).
  case_match; cbn [length]; rewrite length_dec_fixed; lia.
Qed.

Lemma length_Stamp_le sec nsec : (length (Stamp sec nsec) <= 132)%nat.
Proof.
  unfold Stamp. destruct (civil _) as [[y m] d]. rewrite !length_app.
  pose proof (length_append_int_le 4 y). pose proof (length_append_int_le 2 m).
  pose proof (length_append_int_le 2 d).
  set (t := Unix_sec sec nsec mod 86400).
  pose proof (length_append_int_le 2 (t / 3600)). pose proof (length_append_int_le 2 (t / 60 mod 60)).
  pose proof (length_append_int_le 2 (t mod 60)). lia.
Qed.

(** version stamps sort as the times they come from: for two times of the
    years 1 to 9999 the later one has the greater stamp in byte order, and the
    same second the same stamp; so two exports a second apart never share a
    version. *)
Theorem Stamp_order sec1 nsec1 sec2 nsec2 :
  year1 <= Unix_sec sec1 nsec1 < year10000 -> year1 <= Unix_sec sec2 nsec2 < year10000 ->
  bytes_cmp (Stamp sec1 nsec1) (Stamp sec2 nsec2)
  = Z.compare (Unix_sec sec1 nsec1) (Unix_sec sec2 nsec2).
Proof.
  intros H1 H2.
  destruct (Stamp_num _ _ _ eq_refl H1) as (D1 & L1 & V1).
  destruct (Stamp_num _ _ _ eq_refl H2) as (D2 & L2 & V2).
  rewrite <-digits_same_length, V1, V2 by (done || congruence).
  destruct (Z.compare_spec (Unix_sec sec1 nsec1) (Unix_sec sec2 nsec2)) as [->|Hlt|Hgt].
  - apply Z.compare_refl.
  - by apply Z.compare_lt_iff, stamp_num_lt.
  - by apply Z.compare_gt_iff, stamp_num_lt.
Qed.

Lemma Stamp_order_witness :
  bytes_cmp (Stamp 1654048543 999999999) (Stamp 1654048543 1000000000) = Lt.
Proof. rewrite Stamp_order; [reflexivity|vm_compute; split; congruence..]. Defined.
