(* ===== verification/OsArch.v ===== *)
(** * OsArch: [apkgdb/osarch.go]

    The OS and architecture enumerations, their parsing and printing. *)

From S2P Require Import Prelude GoLib.
Local Open Scope Z_scope.

(** [type OS uint32] and [type Arch uint32], with the [iota] constants. *)
Abbreviation OS := Z.
Abbreviation Arch := Z.

Definition AnyOS : OS := 0.
Definition Linux : OS := 1.
Definition Darwin : OS := 2.
Definition Windows : OS := 3.
Definition BadOS : OS := 0xffffffff.

Definition AnyArch : Arch := 0.
Definition X86 : Arch := 1.
Definition AMD64 : Arch := 2.
Definition ARM : Arch := 3.
Definition ARM64 : Arch := 4.
Definition RiscV64 : Arch := 5.
Definition BadArch : Arch := 0xffffffff.

Record ArchOS := { ao_OS : OS; ao_Arch : Arch }.

#[export] Instance ArchOS_eq_dec : EqDecision ArchOS.
Proof. solve_decision. Defined.
#[export] Program Instance ArchOS_countable : Countable ArchOS :=
  inj_countable (fun a => (ao_OS a, ao_Arch a))
    (fun p => Some {| ao_OS := p.1; ao_Arch := p.2 |}) _.
Next Obligation. by intros []. Qed.

Definition dot : byte := Byte.x2e.

Definition ParseOS (os : bytes) : OS :=
  if decide (os = str "any") then AnyOS
  else if decide (os = str "linux") then Linux
  else if decide (os = str "darwin") then Darwin
  else if decide (os = str "windows") then Windows
  else BadOS.

Definition ParseArch (arch : bytes) : Arch :=
  if decide (arch = str "any") then AnyArch
  else if decide (arch = str "386") then X86
  else if decide (arch = str "amd64") then AMD64
  else if decide (arch = str "arm") then ARM
  else if decide (arch = str "arm64") then ARM64
  else if decide (arch = str "riscv64") then RiscV64
  else BadArch.

Definition BadArchOS : ArchOS := {| ao_OS := BadOS; ao_Arch := BadArch |}.

Definition ParseArchOS (archos : bytes) : ArchOS :=
  match IndexByte archos dot with
  | None | Some O => BadArchOS
  | Some pos =>
      let os := ParseOS (take pos archos) in
      let arch := ParseArch (drop (S pos) archos) in
      if (os =? BadOS) || (arch =? BadArch) then BadArchOS
      else {| ao_OS := os; ao_Arch := arch |}
  end.

Definition OS_String (os : OS) : bytes :=
  if os =? AnyOS then str "any"
  else if os =? Linux then str "linux"
  else if os =? Darwin then str "darwin"
  else if os =? Windows then str "windows"
  else str "unknown".

Definition Arch_String (arch : Arch) : bytes :=
  if arch =? AnyArch then str "any"
  else if arch =? X86 then str "386"
  else if arch =? AMD64 then str "amd64"
  else if arch =? ARM then str "arm"
  else if arch =? ARM64 then str "arm64"
  else if arch =? RiscV64 then str "riscv64"
  else str "unknown".

Definition ArchOS_String (a : ArchOS) : bytes :=
  OS_String (ao_OS a) ++ dot :: Arch_String (ao_Arch a).

Definition IsValid (a : ArchOS) : bool :=
  negb (ao_OS a =? BadOS) && negb (ao_Arch a =? BadArch).

(** ** Lemmas *)

Lemma ParseOS_String_inv s : ParseOS s <> BadOS -> OS_String (ParseOS s) = s.
Proof. unfold ParseOS. repeat (case_decide; [by subst|]). done. Qed.
Lemma ParseArch_String_inv s : ParseArch s <> BadArch -> Arch_String (ParseArch s) = s.
Proof. unfold ParseArch. repeat (case_decide; [by subst|]). done. Qed.

Lemma ParseOS_String os : 0 <= os <= 3 -> ParseOS (OS_String os) = os.
Proof.
  intros H. assert (os = 0 \/ os = 1 \/ os = 2 \/ os = 3) as [->|[->|[->| ->]]] by lia;
    vm_compute; done.
Qed.
Lemma ParseArch_String a : 0 <= a <= 5 -> ParseArch (Arch_String a) = a.
Proof.
  intros H. assert (a = 0 \/ a = 1 \/ a = 2 \/ a = 3 \/ a = 4 \/ a = 5)
    as [->|[->|[->|[->|[->| ->]]]]] by lia; vm_compute; done.
Qed.
Lemma ParseOS_range s : ParseOS s = BadOS \/ 0 <= ParseOS s <= 3.
Proof. unfold ParseOS. repeat (case_decide; [right; vm_compute; split; congruence|]). by left. Qed.
Lemma ParseArch_range s : ParseArch s = BadArch \/ 0 <= ParseArch s <= 5.
Proof. unfold ParseArch. repeat (case_decide; [right; vm_compute; split; congruence|]). by left. Qed.
Lemma OS_String_no_dot os : dot ∉ OS_String os.
Proof.
  unfold OS_String. repeat case_match;
    rewrite list_elem_of_In; vm_compute; intuition congruence.
Qed.
Lemma OS_String_not_nil os : OS_String os <> [].
Proof. unfold OS_String. by repeat case_match. Qed.

(** [ParseArchOS] inverts [ArchOS.String] on the enumerated platforms, and
    accepts nothing but the printed form of a platform. *)
Theorem ParseArchOS_String a s :
  (0 <= ao_OS a <= 3 /\ 0 <= ao_Arch a <= 5 -> ParseArchOS (ArchOS_String a) = a) /\
  (IsValid (ParseArchOS s) = true -> ArchOS_String (ParseArchOS s) = s).
Proof.
  split.
  - intros [Ho Ha]. unfold ParseArchOS, ArchOS_String.
    rewrite IndexByte_app by apply OS_String_no_dot.
    pose proof (OS_String_not_nil (ao_OS a)).
    destruct (length (OS_String (ao_OS a))) as [|n] eqn:En.
    { by apply length_zero_iff_nil in En. }
    rewrite <-En, take_sep, drop_sep.
    rewrite ParseOS_String, ParseArch_String by done.
    unfold BadOS, BadArch. rewrite !(proj2 (Z.eqb_neq _ _)) by lia. by destruct a.
  - unfold ParseArchOS. destruct (IndexByte s dot) as [[|n]|] eqn:E; [done| |done].
    apply IndexByte_spec in E as [E _].
    destruct (Z.eqb_spec (ParseOS (take (S n) s)) BadOS); [done|].
    destruct (Z.eqb_spec (ParseArch (drop (S (S n)) s)) BadArch); [done|].
    cbn [orb]. intros _. unfold ArchOS_String. cbn [ao_OS ao_Arch].
    rewrite ParseOS_String_inv, ParseArch_String_inv by done. by symmetry.
Qed.

Lemma ParseArchOS_String_witness :
  ParseArchOS (ArchOS_String {| ao_OS := Linux; ao_Arch := ARM64 |})
  = {| ao_OS := Linux; ao_Arch := ARM64 |} /\
  ArchOS_String (ParseArchOS (str "darwin.amd64")) = str "darwin.amd64".
Proof.
  split.
  - apply (ParseArchOS_String {| ao_OS := Linux; ao_Arch := ARM64 |} []).
    vm_compute. repeat split; congruence.
  - apply (ParseArchOS_String BadArchOS). vm_compute. reflexivity.
Defined.
