(* ===== verification/Bolt.v ===== *)
(** * Bolt: the interface of [go.etcd.io/bbolt]

    bbolt is outside the repository: the class [BoltOps] lists the operations
    the code calls, [BoltSpec] the documented behaviour the proofs rely on, in
    terms of an abstract view of the file (a map from bucket names to maps), and
    [MapBolt] is an executable implementation used for evaluation. *)

From S2P Require Import Prelude GoLib.
Local Open Scope Z_scope.

Abbreviation kv := (bytes * bytes)%type.
Abbreviation view := (gmap bytes (gmap bytes bytes)).

Class BoltOps := {
  bdb : Type;                                  (* the data of one file *)
  bolt_empty : bdb;
  has_bucket : bdb -> bytes -> bool;           (* tx.Bucket(name) != nil *)
  CreateBucketIfNotExists : bytes -> bdb -> outcome bdb;
  Get : bdb -> bytes -> bytes -> option bytes; (* bucket, key; None is nil *)
  Put : bytes -> bytes -> bytes -> bdb -> outcome bdb;
  Delete : bytes -> bytes -> bdb -> outcome bdb;
  Entries : bdb -> bytes -> list kv;           (* what ForEach visits, in order *)
  cursor : Type;
  Seek : bdb -> bytes -> bytes -> cursor * option kv;
  Prev : cursor -> cursor * option kv;
  Next : cursor -> cursor * option kv;
  TxSize : bdb -> Z;
}.

Definition MaxKeySize : Z := 32768.
Definition MaxValueSize : Z := 2147483646.

Definition valid_key (k : bytes) : bool :=
  (0 <? Z.of_nat (length k)) && (Z.of_nat (length k) <=? MaxKeySize).
Definition valid_value (v : bytes) : bool := Z.of_nat (length v) <=? MaxValueSize.

(** Index of the first entry whose key is not below [k]. *)
Fixpoint lower_bound (l : list kv) (k : bytes) : nat :=
  match l with
  | [] => O
  | e :: l => if bytes_ltb e.1 k then S (lower_bound l k) else O
  end.

Class BoltSpec `{BoltOps} := {
  contents : bdb -> view;
  (* [c] stands at index [i] of [l]; [i = length l] is past the last entry *)
  cursor_at : cursor -> list kv -> nat -> Prop;
  contents_empty : contents bolt_empty = ∅;
  has_bucket_spec d b : has_bucket d b = bool_decide (is_Some (contents d !! b));
  Get_spec d b k : Get d b k = contents d !! b ≫= lookup k;
  Create_spec d b : b <> [] ->
    exists d', CreateBucketIfNotExists b d = Ok d' /\
      contents d' = <[b := default ∅ (contents d !! b)]> (contents d);
  Put_spec d b k v m : contents d !! b = Some m ->
    valid_key k = true -> valid_value v = true ->
    exists d', Put b k v d = Ok d' /\ contents d' = <[b := <[k := v]> m]> (contents d);
  Put_invalid d b k v : valid_key k && valid_value v = false ->
    exists e, Put b k v d = Err e;
  Delete_spec d b k m : contents d !! b = Some m ->
    exists d', Delete b k d = Ok d' /\ contents d' = <[b := delete k m]> (contents d);
  Entries_spec d b m : contents d !! b = Some m ->
    Entries d b ≡ₚ map_to_list m /\ StronglySorted (fun e f => bytes_lt e.1 f.1) (Entries d b);
  Seek_spec d b k : is_Some (contents d !! b) ->
    let i := lower_bound (Entries d b) k in
    exists c, Seek d b k = (c, Entries d b !! i) /\ cursor_at c (Entries d b) i;
  Prev_first c l : cursor_at c l 0 -> exists c', Prev c = (c', None);
  Prev_spec c l i : cursor_at c l (S i) ->
    exists c', Prev c = (c', l !! i) /\ cursor_at c' l i;
  Next_spec c l i : cursor_at c l i ->
    exists c', Next c = (c', l !! S i) /\ ((S i < length l)%nat -> cursor_at c' l (S i));
}.

(** [tx.CreateBucketIfNotExists] for each name, stopping at the first error. *)
Section create_all.
Context `{BoltOps}.
Fixpoint CreateBuckets (names : list bytes) (d : bdb) : outcome bdb :=
  match names with
  | [] => Ok d
  | b :: names => d ← CreateBucketIfNotExists b d; CreateBuckets names d
  end.
End create_all.

(** ** Lookups through the interface *)

Section lemmas.
Context `{BoltSpec}.

(** The value under a key of a bucket of the view. *)
Definition vlookup (w : view) (b k : bytes) : option bytes := w !! b ≫= lookup k.

Lemma Get_vlookup d b k : Get d b k = vlookup (contents d) b k.
Proof. apply Get_spec. Qed.

Lemma Get_Put_eq d b k v d' m :
  contents d !! b = Some m -> contents d' = <[b := <[k := v]> m]> (contents d) ->
  Get d' b k = Some v.
Proof. intros Hb E. rewrite Get_spec, E, lookup_insert_eq. cbn. apply lookup_insert_eq. Qed.

Lemma Get_Put_ne d b k v d' m b' k' :
  contents d !! b = Some m -> contents d' = <[b := <[k := v]> m]> (contents d) ->
  (b', k') <> (b, k) -> Get d' b' k' = Get d b' k'.
Proof.
  intros Hb E Hne. rewrite !Get_spec, E. destruct (decide (b' = b)) as [->|].
  - rewrite lookup_insert_eq, Hb. cbn. apply lookup_insert_ne. congruence.
  - by rewrite lookup_insert_ne.
Qed.

Lemma Entries_lookup d b m k v :
  contents d !! b = Some m -> (k, v) ∈ Entries d b <-> m !! k = Some v.
Proof.
  intros Hb. destruct (Entries_spec d b m Hb) as [Hp _].
  by rewrite Hp, elem_of_map_to_list.
Qed.
End lemmas.

(** ** Seek then Prev *)

(** The entry with the greatest key below [k]. *)
Definition last_below (l : list kv) (k : bytes) : option kv :=
  match lower_bound l k with O => None | S i => l !! i end.

Definition sorted_kv (l : list kv) : Prop :=
  StronglySorted (fun e f => bytes_lt e.1 f.1) l.

Lemma lower_bound_le l k : (lower_bound l k <= length l)%nat.
Proof. induction l as [|e l IH]; cbn; [done|]. case_match; lia. Qed.

Lemma lower_bound_below l k i e :
  (i < lower_bound l k)%nat -> l !! i = Some e -> bytes_lt e.1 k.
Proof.
  revert i. induction l as [|f l IH]; intros i Hi He; [done|]. cbn in Hi.
  destruct (bytes_ltb f.1 k) eqn:E; [|lia]. apply bytes_ltb_lt in E.
  destruct i; cbn in He; [by simplify_eq|]. apply (IH i); [lia|done].
Qed.

Lemma lower_bound_above l k i e :
  sorted_kv l -> (lower_bound l k <= i)%nat -> l !! i = Some e -> ~ bytes_lt e.1 k.
Proof.
  intros Hs. revert i. induction Hs as [|f l Hs IH Hf]; intros i Hi He Hlt; [done|].
  cbn in Hi. destruct (bytes_ltb f.1 k) eqn:E.
  - destruct i; [lia|]. by apply (IH i); [lia|..].
  - assert (~ bytes_lt f.1 k) as Hn by (rewrite <-bytes_ltb_lt; congruence).
    destruct i; cbn in He; simplify_eq; [done|].
    apply Hn. rewrite Forall_lookup in Hf. by trans e.1; [eapply Hf|].
Qed.

Lemma last_below_Some l k e :
  sorted_kv l -> last_below l k = Some e ->
  e ∈ l /\ bytes_lt e.1 k /\
  forall f, f ∈ l -> bytes_lt f.1 k -> f = e \/ bytes_lt f.1 e.1.
Proof.
  intros Hs. unfold last_below. destruct (lower_bound l k) as [|i] eqn:Ei; [done|].
  intros He. split; [by eapply list_elem_of_lookup_2|]. split.
  { eapply lower_bound_below; [|done]. lia. }
  intros f [j Hj]%list_elem_of_lookup Hlt.
  destruct (Nat.lt_trichotomy j i) as [Hji|[->|Hji]].
  - right. clear -Hs Hj He Hji. revert i j Hj He Hji.
    induction Hs as [|g l Hs IH Hg]; intros i j Hj He Hji; [done|].
    destruct i as [|i]; [lia|]. cbn in He. destruct j as [|j].
    + cbn in Hj; simplify_eq. rewrite Forall_lookup in Hg. by eapply Hg.
    + eapply IH; [done..|lia].
  - left. congruence.
  - exfalso. eapply lower_bound_above; [done| |exact Hj|done]. lia.
Qed.

Lemma last_below_None l k f :
  sorted_kv l -> last_below l k = None -> f ∈ l -> ~ bytes_lt f.1 k.
Proof.
  intros Hs. unfold last_below. destruct (lower_bound l k) as [|i] eqn:Ei.
  - intros _ [j Hj]%list_elem_of_lookup. eapply lower_bound_above; [done| |done]. lia.
  - intros He%lookup_ge_None. pose proof (lower_bound_le l k). lia.
Qed.

Section seek_prev.
Context `{BoltSpec}.

(** [c.Seek(k); k, v := c.Prev()] *)
Definition SeekPrev (d : bdb) (b k : bytes) : option kv :=
  let '(c, _) := Seek d b k in snd (Prev c).

Lemma SeekPrev_spec d b k :
  is_Some (contents d !! b) -> SeekPrev d b k = last_below (Entries d b) k.
Proof.
  intros Hb. unfold SeekPrev, last_below.
  destruct (Seek_spec d b k Hb) as (c & -> & Hc).
  destruct (lower_bound (Entries d b) k) as [|i].
  - by destruct (Prev_first c _ Hc) as [c' ->].
  - by destruct (Prev_spec c _ _ Hc) as (c' & -> & _).
Qed.
End seek_prev.

(** ** An executable implementation *)

Module MapBolt.
Definition kv_le (e f : kv) : Prop := e.1 = f.1 \/ bytes_lt e.1 f.1.
Instance kv_le_dec : RelDecision kv_le.
Proof. intros e f. unfold kv_le. apply _. Defined.
Instance kv_le_total : Total kv_le.
Proof.
  intros e f. unfold kv_le. destruct (bytes_lt_total e.1 f.1) as [|[|]]; auto.
Qed.
Instance kv_le_trans : Transitive kv_le.
Proof.
  intros e f g [E|E] [F|F]; [left; by trans f.1|right..].
  - by rewrite E.
  - by rewrite <-F.
  - by trans f.1.
Qed.

Definition entries (d : view) (b : bytes) : list kv :=
  match d !! b with None => [] | Some m => merge_sort kv_le (map_to_list m) end.

#[export] Instance ops : BoltOps := {|
  bdb := view;
  bolt_empty := ∅;
  has_bucket d b := bool_decide (is_Some (d !! b));
  CreateBucketIfNotExists b d :=
    if decide (b = []) then Err (ErrNew (str "bucket name required"))
    else Ok (<[b := default ∅ (d !! b)]> d);
  Get d b k := d !! b ≫= lookup k;
  Put b k v d :=
    if valid_key k && valid_value v then
      match d !! b with
      | None => Panic
      | Some m => Ok (<[b := <[k := v]> m]> d)
      end
    else Err (ErrNew (str "key required"));
  Delete b k d :=
    match d !! b with None => Panic | Some m => Ok (<[b := delete k m]> d) end;
  Entries := entries;
  cursor := list kv * nat;
  Seek d b k := let l := entries d b in let i := lower_bound l k in ((l, i), l !! i);
  Prev c := match snd c with O => (c, None) | S i => ((fst c, i), fst c !! i) end;
  Next c := ((fst c, S (snd c)), fst c !! S (snd c));
  TxSize d := Z.of_nat (size d) * 4096;
|}.

Lemma entries_sorted (m : gmap bytes bytes) : sorted_kv (merge_sort kv_le (map_to_list m)).
Proof.
  assert (NoDup ((merge_sort kv_le (map_to_list m)).*1)) as Hnd.
  { rewrite merge_sort_Permutation. apply NoDup_fst_map_to_list. }
  pose proof (StronglySorted_merge_sort kv_le (map_to_list m)) as Hs.
  unfold sorted_kv. induction Hs as [|e l Hs IH Hf]; [constructor|].
  cbn in Hnd. apply NoDup_cons in Hnd as [Hn Hnd]. constructor; [by apply IH|].
  rewrite Forall_forall in Hf |- *. intros f Hin. destruct (Hf f Hin) as [E|]; [|done].
  exfalso. apply Hn. rewrite E. by apply (list_elem_of_fmap_2 fst).
Qed.

#[export] Instance spec : BoltSpec.
Proof.
  unshelve econstructor.
  - exact (fun d => d).
  - exact (fun c l i => c = (l, i)).
  - done.
  - done.
  - done.
  - intros d b Hb. cbn. rewrite decide_False by done. eauto.
  - intros d b k v m Hm Hk Hv. cbn in *. rewrite Hk, Hv, Hm. cbn. eauto.
  - intros d b k v Hkv. cbn. rewrite Hkv. eauto.
  - intros d b k m Hm. cbn in *. rewrite Hm. eauto.
  - intros d b m Hm. cbn in *. unfold entries. rewrite Hm.
    split; [apply merge_sort_Permutation|apply entries_sorted].
  - intros d b k _. cbn. eauto.
  - intros c l ->. cbn. eauto.
  - intros c l i ->. cbn. eauto.
  - intros c l i ->. cbn. eauto.
Defined.
End MapBolt.
