(* ===== verification/Store.v ===== *)
(** * Store: the state of a database and its write path

    [apkgdb/db.go] (the [DB] struct), [write.go], and bbolt transactions over
    it.  A computation on one database is an [ST DB]. *)

From S2P Require Import Prelude GoLib OsArch Bolt.
Local Open Scope Z_scope.

(** ** Outside the repository: the LLRB tree

    [github.com/petar/GoLLRB]: the items are packages, ordered by their first
    inode number ([Package.Less], [unsignedPkg.Less]). *)

(** A [*Package] or an [*unsignedPkg], by heap location. *)
Inductive pkgref := RefPkg (l : nat) | RefUnsigned (l : nat).
Record item := { item_Value : Z; item_ref : pkgref }.

#[export] Instance pkgref_eq_dec : EqDecision pkgref.
Proof. solve_decision. Defined.
#[export] Instance item_eq_dec : EqDecision item.
Proof. solve_decision. Defined.

(** [Package.Less], [pkgindex.Less]: the order the tree is built with. *)
Definition item_Less (x than : item) : bool := item_Value x <? item_Value than.

Class LlrbOps := {
  llrb : Type;
  llrb_New : llrb;
  ReplaceOrInsert : llrb -> item -> llrb;
  (* DescendLessOrEqual(pkgindex(z), f) with an f that stops at once *)
  DescendFirst : llrb -> Z -> option item;
}.

(** Its documented behaviour, over the abstract map from values to items. *)
Class LlrbSpec `{LlrbOps} := {
  llrb_items : llrb -> gmap Z item;
  llrb_New_items : llrb_items llrb_New = ∅;
  ReplaceOrInsert_items t i :
    llrb_items (ReplaceOrInsert t i) = <[item_Value i := i]> (llrb_items t);
  DescendFirst_Some t z i : DescendFirst t z = Some i ->
    llrb_items t !! item_Value i = Some i /\ item_Value i <= z /\
    forall v j, llrb_items t !! v = Some j -> v <= z -> v <= item_Value i;
  DescendFirst_None t z : DescendFirst t z = None ->
    forall v j, llrb_items t !! v = Some j -> z < v;
}.

(** ** The [DB] struct *)

Record DBConf := {
  db_prefix : bytes; db_path : bytes; db_name : bytes;
  db_os : bytes; db_arch : bytes;
  db_osV : OS; db_archV : Arch;
}.

Inductive bolt_mode := ReadOnly | ReadWrite.
#[export] Instance bolt_mode_eq_dec : EqDecision bolt_mode.
Proof. solve_decision. Defined.

Section Store.
Context `{BoltOps, LlrbOps}.

(** [dbptr] is [None] when nil; [file] is the data of the file the database
    opens; [locked] is whether the write lock [dbrw] is held; [faults] are the
    outcomes of the coming operating-system calls (open, commit), [None] or the
    end of the list being a success; [closed] is whether the channel [done] is
    closed; [outbox] logs the calls of [notifyInode]. *)
Record DB := {
  conf : DBConf;
  dbptr : option bolt_mode;
  file : bdb;
  locked : bool;
  faults : list (option error);
  closed : bool;
  ino : llrb;
  refcnt : Z;
  parent : option nat;
  nextI : Z;
  pkgI : gmap bytes Z;
  sub : gmap ArchOS nat;
  ntgt : option nat;
  ldso : bytes;
  channel : bytes;
  outbox : list (Z * Z * bytes);
}.

Definition set_dbptr v (d : DB) : DB := {|
  conf := conf d; dbptr := v; file := file d; locked := locked d;
  faults := faults d; closed := closed d; ino := ino d; refcnt := refcnt d;
  parent := parent d; nextI := nextI d; pkgI := pkgI d; sub := sub d;
  ntgt := ntgt d; ldso := ldso d; channel := channel d; outbox := outbox d |}.
Definition set_file v (d : DB) : DB := {|
  conf := conf d; dbptr := dbptr d; file := v; locked := locked d;
  faults := faults d; closed := closed d; ino := ino d; refcnt := refcnt d;
  parent := parent d; nextI := nextI d; pkgI := pkgI d; sub := sub d;
  ntgt := ntgt d; ldso := ldso d; channel := channel d; outbox := outbox d |}.
Definition set_locked v (d : DB) : DB := {|
  conf := conf d; dbptr := dbptr d; file := file d; locked := v;
  faults := faults d; closed := closed d; ino := ino d; refcnt := refcnt d;
  parent := parent d; nextI := nextI d; pkgI := pkgI d; sub := sub d;
  ntgt := ntgt d; ldso := ldso d; channel := channel d; outbox := outbox d |}.
Definition set_faults v (d : DB) : DB := {|
  conf := conf d; dbptr := dbptr d; file := file d; locked := locked d;
  faults := v; closed := closed d; ino := ino d; refcnt := refcnt d;
  parent := parent d; nextI := nextI d; pkgI := pkgI d; sub := sub d;
  ntgt := ntgt d; ldso := ldso d; channel := channel d; outbox := outbox d |}.
Definition set_closed v (d : DB) : DB := {|
  conf := conf d; dbptr := dbptr d; file := file d; locked := locked d;
  faults := faults d; closed := v; ino := ino d; refcnt := refcnt d;
  parent := parent d; nextI := nextI d; pkgI := pkgI d; sub := sub d;
  ntgt := ntgt d; ldso := ldso d; channel := channel d; outbox := outbox d |}.
Definition set_ino v (d : DB) : DB := {|
  conf := conf d; dbptr := dbptr d; file := file d; locked := locked d;
  faults := faults d; closed := closed d; ino := v; refcnt := refcnt d;
  parent := parent d; nextI := nextI d; pkgI := pkgI d; sub := sub d;
  ntgt := ntgt d; ldso := ldso d; channel := channel d; outbox := outbox d |}.
Definition set_refcnt v (d : DB) : DB := {|
  conf := conf d; dbptr := dbptr d; file := file d; locked := locked d;
  faults := faults d; closed := closed d; ino := ino d; refcnt := v;
  parent := parent d; nextI := nextI d; pkgI := pkgI d; sub := sub d;
  ntgt := ntgt d; ldso := ldso d; channel := channel d; outbox := outbox d |}.
Definition set_parent v (d : DB) : DB := {|
  conf := conf d; dbptr := dbptr d; file := file d; locked := locked d;
  faults := faults d; closed := closed d; ino := ino d; refcnt := refcnt d;
  parent := v; nextI := nextI d; pkgI := pkgI d; sub := sub d;
  ntgt := ntgt d; ldso := ldso d; channel := channel d; outbox := outbox d |}.
Definition set_nextI v (d : DB) : DB := {|
  conf := conf d; dbptr := dbptr d; file := file d; locked := locked d;
  faults := faults d; closed := closed d; ino := ino d; refcnt := refcnt d;
  parent := parent d; nextI := v; pkgI := pkgI d; sub := sub d;
  ntgt := ntgt d; ldso := ldso d; channel := channel d; outbox := outbox d |}.
Definition set_pkgI v (d : DB) : DB := {|
  conf := conf d; dbptr := dbptr d; file := file d; locked := locked d;
  faults := faults d; closed := closed d; ino := ino d; refcnt := refcnt d;
  parent := parent d; nextI := nextI d; pkgI := v; sub := sub d;
  ntgt := ntgt d; ldso := ldso d; channel := channel d; outbox := outbox d |}.
Definition set_sub v (d : DB) : DB := {|
  conf := conf d; dbptr := dbptr d; file := file d; locked := locked d;
  faults := faults d; closed := closed d; ino := ino d; refcnt := refcnt d;
  parent := parent d; nextI := nextI d; pkgI := pkgI d; sub := v;
  ntgt := ntgt d; ldso := ldso d; channel := channel d; outbox := outbox d |}.
Definition set_ntgt v (d : DB) : DB := {|
  conf := conf d; dbptr := dbptr d; file := file d; locked := locked d;
  faults := faults d; closed := closed d; ino := ino d; refcnt := refcnt d;
  parent := parent d; nextI := nextI d; pkgI := pkgI d; sub := sub d;
  ntgt := v; ldso := ldso d; channel := channel d; outbox := outbox d |}.
Definition set_ldso v (d : DB) : DB := {|
  conf := conf d; dbptr := dbptr d; file := file d; locked := locked d;
  faults := faults d; closed := closed d; ino := ino d; refcnt := refcnt d;
  parent := parent d; nextI := nextI d; pkgI := pkgI d; sub := sub d;
  ntgt := ntgt d; ldso := v; channel := channel d; outbox := outbox d |}.
Definition set_channel v (d : DB) : DB := {|
  conf := conf d; dbptr := dbptr d; file := file d; locked := locked d;
  faults := faults d; closed := closed d; ino := ino d; refcnt := refcnt d;
  parent := parent d; nextI := nextI d; pkgI := pkgI d; sub := sub d;
  ntgt := ntgt d; ldso := ldso d; channel := v; outbox := outbox d |}.
Definition set_outbox v (d : DB) : DB := {|
  conf := conf d; dbptr := dbptr d; file := file d; locked := locked d;
  faults := faults d; closed := closed d; ino := ino d; refcnt := refcnt d;
  parent := parent d; nextI := nextI d; pkgI := pkgI d; sub := sub d;
  ntgt := ntgt d; ldso := ldso d; channel := channel d; outbox := v |}.

(** ** Operating-system calls and locking *)

Definition os_call : ST DB unit := fun d =>
  match faults d with
  | [] => (Ok tt, d)
  | None :: fs => (Ok tt, set_faults fs d)
  | Some e :: fs => (Err e, set_faults fs d)
  end.

(** [d.dbrw.Lock()]: waiting for a lock the caller already holds never ends. *)
Definition dbrw_Lock : ST DB unit := fun d =>
  if locked d then (Panic, d) else (Ok tt, set_locked true d).
Definition dbrw_Unlock : ST DB unit := fun d =>
  if locked d then (Ok tt, set_locked false d) else (Panic, d).

(** [d.dbrw.Lock(); defer d.dbrw.Unlock(); m] *)
Definition with_Lock {A} (m : ST DB A) : ST DB A :=
  dbrw_Lock;; defer_st m (set_locked false).

(** [d.dbrw.RLock(); defer d.dbrw.RUnlock()] around a read. *)
Definition with_RLock {A} (f : DB -> outcome A) (d : DB) : outcome A :=
  if locked d then Panic else f d.

(** ** bbolt transactions *)

Definition ErrDatabaseReadOnly : error := ErrNew (str "database is in read-only mode").

(** [d.dbptr.Update(fn)]: the data changes only if [fn] and the commit succeed. *)
Definition Update {A} (fn : ST bdb A) : ST DB A := fun d =>
  match dbptr d with
  | None => (Panic, d)
  | Some ReadOnly => (Err ErrDatabaseReadOnly, d)
  | Some ReadWrite =>
      match fn (file d) with
      | (Ok a, f) =>
          match os_call d with
          | (Ok _, d) => (Ok a, set_file f d)
          | (Err e, d) => (Err e, d)
          | (Panic, d) => (Panic, d)
          end
      | (Err e, _) => (Err e, d)
      | (Panic, _) => (Panic, d)
      end
  end.

(** [d.dbptr.View(fn)], after the caller's nil check. *)
Definition View {A} (fn : bdb -> outcome A) (d : DB) : outcome A :=
  match dbptr d with None => Panic | Some _ => fn (file d) end.

Definition in_tx (f : bdb -> outcome bdb) : ST bdb unit := fun b =>
  match f b with
  | Ok b' => (Ok tt, b')
  | Err e => (Err e, b)
  | Panic => (Panic, b)
  end.
Definition tx_create (name : bytes) : ST bdb unit := in_tx (CreateBucketIfNotExists name).
Definition tx_put (name k v : bytes) : ST bdb unit := in_tx (Put name k v).
(** [b.Delete(k)]; [b] may be nil, which panics. *)
Definition tx_delete (name k : bytes) : ST bdb unit :=
  b ← get_st; if has_bucket b name then in_tx (Delete name k) else lift_st Panic.

(** ** [write.go] *)

Definition writeStart : ST DB unit :=
  dbrw_Lock;;
  err ← try_st os_call;                   (* bolt.Open(.., 0600, nil) *)
  match err with
  | Some err =>
      err2 ← try_st os_call;              (* bolt.Open(.., ReadOnly) *)
      match err2 with
      | Some _ => upd_st (set_dbptr None);; dbrw_Unlock;; err_st err
      | None => upd_st (set_dbptr (Some ReadOnly));; dbrw_Unlock;; err_st err
      end
  | None => upd_st (set_dbptr (Some ReadWrite))
  end.

Definition writeEnd : ST DB unit :=
  err ← try_st os_call;                   (* bolt.Open(.., ReadOnly) *)
  match err with
  | Some _ => upd_st (set_dbptr None);; dbrw_Unlock
  | None => upd_st (set_dbptr (Some ReadOnly));; dbrw_Unlock
  end.

(** [if err := d.writeStart(); err != nil { return err }; defer d.writeEnd(); m] *)
Definition with_write {A} (m : ST DB A) : ST DB A :=
  writeStart;; defer_st m (fun d => snd (writeEnd d)).

(** ** Lemmas: what a write leaves behind *)

(** Everything but the handle, the data, the lock and the pending faults. *)
Definition same_meta (d d' : DB) : Prop :=
  conf d' = conf d /\ closed d' = closed d /\ ino d' = ino d /\ refcnt d' = refcnt d /\
  parent d' = parent d /\ nextI d' = nextI d /\ pkgI d' = pkgI d /\ sub d' = sub d /\
  ntgt d' = ntgt d /\ ldso d' = ldso d /\ channel d' = channel d /\ outbox d' = outbox d.

#[export] Instance same_meta_preorder : PreOrder same_meta.
Proof.
  split; unfold same_meta; [by intros ?|].
  intros x y z Hxy Hyz. intuition congruence.
Qed.

Lemma os_call_spec d :
  exists o d', os_call d = (o, d') /\ o <> Panic /\ same_meta d d' /\
    dbptr d' = dbptr d /\ file d' = file d /\ locked d' = locked d /\
    (faults d = [] -> o = Ok tt /\ faults d' = []).
Proof.
  unfold os_call. destruct (faults d) as [|[e|] fs] eqn:E; eexists _, _;
    (split; [reflexivity|]); unfold same_meta; cbn; rewrite ?E;
    repeat split; try done; congruence.
Qed.

Lemma writeStart_spec d :
  locked d = false ->
  exists o d', writeStart d = (o, d') /\ o <> Panic /\ same_meta d d' /\ file d' = file d /\
    (o = Ok tt -> locked d' = true /\ dbptr d' = Some ReadWrite) /\
    (o <> Ok tt -> locked d' = false /\ dbptr d' <> Some ReadWrite) /\
    (faults d = [] -> o = Ok tt /\ faults d' = []).
Proof.
  intros Hl. unfold writeStart, dbrw_Lock, try_st. munfold. rewrite Hl.
  destruct (os_call_spec (set_locked true d)) as ([[]|e|] & d1 & -> & Hp1 & M1 & P1 & F1 & L1 & Z1);
    [..|done].
  - eexists _, _. split; [reflexivity|]. cbn. repeat split; try done; try apply M1.
    by apply Z1.
  - destruct (os_call_spec d1) as (o2 & d2 & E2 & Hp2 & M2 & P2 & F2 & L2 & Z2).
    assert (same_meta d d2) as M by (etrans; [exact M1|exact M2]).
    destruct o2 as [[]|e2|]; [..|done]; rewrite E2; unfold dbrw_Unlock; cbn;
      rewrite L2, L1; cbn; eexists _, _; (split; [reflexivity|]);
      (split; [done|]); (split; [exact M|]); cbn; rewrite ?F2, ?F1; cbn;
      repeat split; try done; naive_solver.
Qed.

Lemma writeEnd_spec d :
  locked d = true ->
  exists d', writeEnd d = (Ok tt, d') /\ same_meta d d' /\ file d' = file d /\
    locked d' = false /\ dbptr d' <> Some ReadWrite /\
    (faults d = [] -> dbptr d' = Some ReadOnly /\ faults d' = []).
Proof.
  intros Hl. unfold writeEnd, try_st. munfold.
  destruct (os_call_spec d) as ([[]|e|] & d1 & -> & Hp1 & M1 & P1 & F1 & L1 & Z1); [..|done];
    unfold dbrw_Unlock; cbn; rewrite L1, Hl; eexists; (split; [reflexivity|]);
    (split; [exact M1|]); cbn; repeat split; try done; naive_solver.
Qed.

(** A transaction leaves the lock as it was. *)
Lemma Update_locked {A} (fn : ST bdb A) d : locked (snd (Update fn d)) = locked d.
Proof.
  unfold Update. destruct (dbptr d) as [[]|]; [done| |done].
  destruct (fn (file d)) as [[]]; [|done..].
  destruct (os_call_spec d) as ([[]| |] & d2 & E2 & ? & ? & ? & ? & L2 & _); by rewrite E2.
Qed.

(** A body that keeps the write lock gives a write that releases it. *)
Lemma with_write_spec {A} (m : ST DB A) d :
  locked d = false ->
  (forall d1, locked d1 = true -> locked (snd (m d1)) = true) ->
  (exists e d', with_write m d = (Err e, d') /\ same_meta d d' /\ file d' = file d /\
     locked d' = false /\ dbptr d' <> Some ReadWrite /\ faults d <> []) \/
  (exists d1 o d2 d3,
     writeStart d = (Ok tt, d1) /\ same_meta d d1 /\ file d1 = file d /\
     locked d1 = true /\ dbptr d1 = Some ReadWrite /\ (faults d = [] -> faults d1 = []) /\
     m d1 = (o, d2) /\ with_write m d = (o, d3) /\ same_meta d2 d3 /\ file d3 = file d2 /\
     locked d3 = false /\ dbptr d3 <> Some ReadWrite /\
     (faults d2 = [] -> dbptr d3 = Some ReadOnly /\ faults d3 = [])).
Proof.
  intros Hl Hm. destruct (writeStart_spec d Hl) as (o & d1 & E & Hp & M & F & Hok & Hno & Hf).
  unfold with_write. munfold. rewrite E. destruct o as [[]|e|]; [|left|done].
  - right. destruct (Hok eq_refl) as [L1 P1]. specialize (Hm d1 L1).
    destruct (m d1) as [o d2] eqn:Em. cbn in Hm.
    destruct (writeEnd_spec d2 Hm) as (d3 & E3 & M3 & F3 & L3 & P3 & Z3).
    exists d1, o, d2, d3. rewrite E3. repeat split; try done; try apply M; try apply M3;
      naive_solver.
  - destruct Hno as [L1 P1]; [done|]. exists e, d1. repeat split; try done; try apply M.
    intros Hz. by destruct (Hf Hz).
Qed.

Lemma Update_spec {A} (fn : ST bdb A) d :
  dbptr d = Some ReadWrite ->
  exists o d', Update fn d = (o, d') /\ same_meta d d' /\ locked d' = locked d /\
    match o with
    | Ok a => fn (file d) = (Ok a, file d')
    | Err _ => file d' = file d /\ (faults d = [] -> fst (fn (file d)) = o)
    | Panic => file d' = file d /\ fst (fn (file d)) = Panic
    end /\ (faults d = [] -> faults d' = []).
Proof.
  intros Hp. unfold Update. rewrite Hp. destruct (fn (file d)) as [[a|e|] f] eqn:Ef.
  - destruct (os_call_spec d) as ([[]|e|] & d1 & E & ? & M & P1 & F1 & L1 & Z1); [..|done];
      rewrite E; eexists _, _; (split; [reflexivity|]); cbn; (split; [exact M|]);
      repeat split; try done; naive_solver.
  - eexists _, _. split; [reflexivity|]. by repeat split.
  - eexists _, _. split; [reflexivity|]. by repeat split.
Qed.

(** The outcome of one write transaction: the lock is free again, nothing but
    the data changed, the data is the transaction's or what it was before, and
    without faults the transaction's outcome is the caller's. *)
Lemma write_tx_spec {A} (fn : ST bdb A) d :
  locked d = false ->
  exists o d', with_write (Update fn) d = (o, d') /\ same_meta d d' /\
    locked d' = false /\ dbptr d' <> Some ReadWrite /\
    match o with
    | Ok a => fn (file d) = (Ok a, file d')
    | Err _ => file d' = file d
    | Panic => file d' = file d /\ fst (fn (file d)) = Panic
    end /\
    (faults d = [] -> o = fst (fn (file d)) /\ dbptr d' = Some ReadOnly /\ faults d' = []).
Proof.
  intros Hl. destruct (with_write_spec (Update fn) d Hl) as
    [(e & d' & E & M & F & L & P & Z)|(d1 & o & d2 & d3 & _ & M1 & F1 & L1 & P1 & Z1 & E2 & E3 & M3 & F3 & L3 & P3 & Z3)].
  - intros d1 L1. unfold Update. destruct (dbptr d1) as [[]|]; try done.
    destruct (fn (file d1)) as [[]]; try done.
    destruct (os_call_spec d1) as ([[]| |] & d2 & E & ? & ? & ? & ? & L & _);
      rewrite E; cbn; congruence.
  - exists (Err e), d'. repeat split; try done; try apply M; naive_solver.
  - destruct (Update_spec fn d1 P1) as (o' & d2' & E & M2 & L2 & Hc & Z2).
    rewrite E2 in E. injection E as <- <-. exists o, d3.
    split; [done|]. split; [by etrans; [exact M1|etrans; [exact M2|exact M3]]|].
    repeat split; try done.
    + destruct o; rewrite F3; rewrite F1 in Hc; naive_solver.
    + destruct o; rewrite F1 in Hc; try naive_solver. by rewrite Hc.
    + apply Z3. auto.
    + apply Z3. auto.
Qed.
End Store.

(** ** Transactions, bucket by bucket *)

Section buckets.
Context `{BoltSpec}.

Definition has (b : bdb) (n : bytes) : Prop := is_Some (contents b !! n).
(** The content of a bucket, empty when there is none. *)
Definition bk (b : bdb) (n : bytes) : gmap bytes bytes := default ∅ (contents b !! n).

Lemma Get_bk b n k : Get b n k = bk b n !! k.
Proof. rewrite Get_spec. unfold bk. by destruct (contents b !! n). Qed.

Lemma has_bucket_has b n : has_bucket b n = true <-> has b n.
Proof. rewrite has_bucket_spec. apply bool_decide_eq_true. Qed.

Lemma has_all b names : forallb (has_bucket b) names = true -> Forall (has b) names.
Proof.
  rewrite forallb_forall, Forall_forall. intros Hf n Hn.
  by apply has_bucket_has, Hf, list_elem_of_In.
Qed.

Lemma bk_has b n k v : bk b n !! k = Some v -> has b n.
Proof. unfold bk, has. destruct (contents b !! n); [eauto|done]. Qed.

(** [b'] is [b] with [f] applied to one bucket. *)
Definition bucket_changed (n : bytes) (f : gmap bytes bytes -> gmap bytes bytes)
    (b b' : bdb) : Prop :=
  (forall m, bk b' m = if decide (m = n) then f (bk b n) else bk b m) /\
  (forall m, has b m -> has b' m).

Lemma contents_changed n f b b' :
  contents b' = <[n := f (bk b n)]> (contents b) -> bucket_changed n f b b'.
Proof.
  intros E. split; intros m; unfold bk at 1 || unfold has; rewrite E.
  - case_decide; subst; [by rewrite lookup_insert_eq|by rewrite lookup_insert_ne].
  - destruct (decide (m = n)) as [->|]; [by rewrite lookup_insert_eq|by rewrite lookup_insert_ne].
Qed.

Lemma tx_create_ok n b :
  n <> [] ->
  exists b', tx_create n b = (Ok tt, b') /\ bucket_changed n id b b' /\ has b' n.
Proof.
  intros Hn. unfold tx_create, in_tx. destruct (Create_spec b n Hn) as (b' & -> & E).
  exists b'. split; [done|]. split; [by apply contents_changed|].
  unfold has. rewrite E, lookup_insert_eq. eauto.
Qed.

Lemma tx_put_cases n k v b o b' :
  has b n -> tx_put n k v b = (o, b') ->
  (o = Ok tt /\ valid_key k = true /\ valid_value v = true /\ bucket_changed n (insert k v) b b')
  \/ (exists e, o = Err e /\ b' = b).
Proof.
  intros [m Hm]. unfold tx_put, in_tx. destruct (valid_key k && valid_value v) eqn:E.
  - apply andb_true_iff in E as [Hk Hv].
    destruct (Put_spec b n k v m Hm Hk Hv) as (b1 & -> & E). intros [= <- <-]. left.
    do 3 (split; [done|]). apply contents_changed. unfold bk. by rewrite Hm.
  - destruct (Put_invalid b n k v E) as [e ->]. intros [= <- <-]. right. eauto.
Qed.

Lemma tx_put_ok n k v b :
  has b n -> valid_key k = true -> valid_value v = true ->
  exists b', tx_put n k v b = (Ok tt, b') /\ bucket_changed n (insert k v) b b'.
Proof.
  intros [m Hm] Hk Hv. unfold tx_put, in_tx.
  destruct (Put_spec b n k v m Hm Hk Hv) as (b1 & -> & E). exists b1. split; [done|].
  apply contents_changed. unfold bk. by rewrite Hm.
Qed.

Lemma tx_delete_ok n k b :
  has b n -> exists b', tx_delete n k b = (Ok tt, b') /\ bucket_changed n (delete k) b b'.
Proof.
  intros Hh. unfold tx_delete, in_tx. munfold. rewrite (proj2 (has_bucket_has b n) Hh).
  destruct Hh as [m Hm]. destruct (Delete_spec b n k m Hm) as (b' & -> & E).
  exists b'. split; [done|]. apply contents_changed. unfold bk. by rewrite Hm.
Qed.

Lemma tx_delete_panics n k b : ~ has b n -> tx_delete n k b = (Panic, b).
Proof.
  intros Hh. unfold tx_delete. munfold.
  destruct (has_bucket b n) eqn:E; [|done]. by apply has_bucket_has in E.
Qed.

(** A write followed by the rest of a transaction. *)
Lemma put_then {A} n k v (rest : ST bdb A) b o b' :
  has b n -> (tx_put n k v ;; rest) b = (o, b') ->
  (exists err, o = Err err) \/
  exists b1, bucket_changed n (insert k v) b b1 /\ rest b1 = (o, b').
Proof.
  intros Hh. munfold. destruct (tx_put n k v b) as [o1 b1] eqn:E.
  destruct (tx_put_cases _ _ _ _ _ _ Hh E) as [(-> & _ & _ & C)|(e & -> & _)].
  - intros Hr. right. eauto.
  - intros [= <- <-]. left. eauto.
Qed.

Lemma changed_eq n f b b' : bucket_changed n f b b' -> bk b' n = f (bk b n).
Proof. intros [E _]. by rewrite E, decide_True. Qed.
Lemma changed_ne n f b b' m : bucket_changed n f b b' -> m <> n -> bk b' m = bk b m.
Proof. intros [E _] Hm. by rewrite E, decide_False. Qed.
Lemma changed_has n f b b' m : bucket_changed n f b b' -> has b m -> has b' m.
Proof. intros [_ E]. apply E. Qed.
End buckets.
