(* ===== verification/Pins.v ===== *)
(** * Pins: version pins of a release channel ([apkgdb/pin.go])

    A pin is one entry of the bucket ["pins"], keyed by the channel, a zero
    byte and the package prefix.  The write operations are transactions of
    [Store]; the reads take the read lock. *)

From S2P Require Import Prelude GoLib OsArch Bolt Store.
Local Open Scope Z_scope.

(** ** Definitions *)

Definition pinKey (channel prefix : bytes) : bytes := channel ++ Byte.x00 :: prefix.

Definition pinsBucket : bytes := str "pins".

Section Pins.
Context `{BoltOps, LlrbOps}.

(** The transactions, and below the reads, that run with the lock held. *)
Definition set_pin_tx (channel prefix version : bytes) : ST bdb unit :=
  tx_create pinsBucket;;
  tx_put pinsBucket (pinKey channel prefix) version.
Definition SetPin (channel prefix version : bytes) : ST DB unit :=
  with_write (Update (set_pin_tx channel prefix version)).

Definition delete_pin_tx (channel prefix : bytes) : ST bdb unit :=
  b ← get_st;
  if has_bucket b pinsBucket
  then in_tx (Delete pinsBucket (pinKey channel prefix))
  else mret tt.
Definition DeletePin (channel prefix : bytes) : ST DB unit :=
  with_write (Update (delete_pin_tx channel prefix)).

(** An error of the view leaves the result as it was, here empty. *)
Definition get_pin (channel prefix : bytes) (d : DB) : outcome bytes :=
  match dbptr d with
  | None => Ok []
  | Some _ =>
      View (fun b =>
        if has_bucket b pinsBucket
        then Ok (default [] (Get b pinsBucket (pinKey channel prefix)))
        else Ok []) d
  end.
Definition GetPin (channel prefix : bytes) : DB -> outcome bytes :=
  with_RLock (get_pin channel prefix).

(** The cursor loop of [ListPins]: from [e] on, while the key has the prefix. *)
Fixpoint list_pins (fuel : nat) (pfx : bytes) (c : cursor) (e : option kv)
    (result : gmap bytes bytes) : gmap bytes bytes :=
  match fuel, e with
  | O, _ | _, None => result
  | S fuel, Some (k, v) =>
      if negb (HasPrefix k pfx) then result
      else let result := <[drop (length pfx) k := v]> result in
           let '(c, e) := Next c in list_pins fuel pfx c e result
  end.

(** [None] is the nil map returned when the database is not open. *)
Definition pins_list (channel : bytes) (d : DB) : outcome (option (gmap bytes bytes)) :=
  match dbptr d with
  | None => Ok None
  | Some _ =>
      View (fun b =>
        if has_bucket b pinsBucket then
          let pfx := channel ++ [Byte.x00] in
          let '(c, e) := Seek b pinsBucket pfx in
          Ok (Some (list_pins (S (length (Entries b pinsBucket))) pfx c e ∅))
        else Ok (Some ∅)) d
  end.
Definition ListPins (channel : bytes) : DB -> outcome (option (gmap bytes bytes)) :=
  with_RLock (pins_list channel).

(** [lookupPinTx], inside the caller's transaction. *)
Definition lookupPinTx (ch : bytes) (b : bdb) (name : bytes) : bytes :=
  if bool_decide (ch = []) || bool_decide (ch = str "latest") then []
  else if has_bucket b pinsBucket
  then default [] (Get b pinsBucket (pinKey ch name))
  else [].
End Pins.

(** ** Lemmas *)

Lemma pinKey_inj c1 p1 c2 p2 :
  Byte.x00 ∉ c1 -> Byte.x00 ∉ c2 -> pinKey c1 p1 = pinKey c2 p2 -> c1 = c2 /\ p1 = p2.
Proof.
  unfold pinKey. intros H1 H2 E.
  pose proof (IndexByte_app c1 p1 _ H1) as I1. pose proof (IndexByte_app c2 p2 _ H2) as I2.
  rewrite E, I2 in I1. injection I1 as I1. by apply app_inj_1 in E as [-> [= ->]].
Qed.

Lemma pinKey_prefix c p q : q = c ++ [Byte.x00] -> pinKey c p = q ++ p.
Proof. intros ->. unfold pinKey. by rewrite <-app_assoc. Qed.

Section lemmas.
Context `{BoltSpec, LlrbOps}.

(** The pins of a file, as a map from keys. *)
Definition pins_of (b : bdb) : gmap bytes bytes := default ∅ (contents b !! pinsBucket).

Lemma GetPin_pins channel prefix d m :
  locked d = false -> dbptr d = Some m ->
  GetPin channel prefix d = Ok (default [] (pins_of (file d) !! pinKey channel prefix)).
Proof.
  intros Hl Hp. unfold GetPin, get_pin, with_RLock, View, pins_of. rewrite Hl, Hp, has_bucket_spec, Get_spec.
  case_bool_decide as Hb.
  - by destruct (contents (file d) !! pinsBucket) eqn:E; [|by destruct Hb].
  - destruct (contents (file d) !! pinsBucket) eqn:E; [by destruct Hb|]. done.
Qed.

(** The transaction of [SetPin] on the view. *)
Lemma set_pin_tx_spec channel prefix version b :
  valid_key (pinKey channel prefix) && valid_value version = true ->
  exists b', set_pin_tx channel prefix version b = (Ok tt, b') /\
    contents b' = <[pinsBucket := <[pinKey channel prefix := version]> (pins_of b)]> (contents b).
Proof.
  intros [Hk Hv]%andb_true_iff. unfold set_pin_tx, tx_create, tx_put, in_tx. munfold.
  destruct (Create_spec b pinsBucket ltac:(done)) as (b1 & -> & E1).
  destruct (Put_spec b1 pinsBucket (pinKey channel prefix) version
              (default ∅ (contents b !! pinsBucket))) as (b2 & -> & E2); [|done..|].
  { rewrite E1. apply lookup_insert_eq. }
  exists b2. split; [done|]. rewrite E2, E1. apply insert_insert_eq.
Qed.

Definition add_pin (pfx : bytes) (m : gmap bytes bytes) (e : kv) : gmap bytes bytes :=
  <[drop (length pfx) e.1 := e.2]> m.

(** The loop collects the run of entries that have the prefix. *)
Fixpoint take_prefixed (pfx : bytes) (l : list kv) : list kv :=
  match l with
  | [] => []
  | e :: l => if HasPrefix e.1 pfx then e :: take_prefixed pfx l else []
  end.

Lemma list_pins_take pfx l fuel c i acc :
  cursor_at c l i -> (length l - i < fuel)%nat ->
  list_pins fuel pfx c (l !! i) acc
  = foldl (add_pin pfx) acc (take_prefixed pfx (drop i l)).
Proof.
  revert c i acc. induction fuel as [|fuel IH]; intros c i acc Hc Hf; [lia|].
  destruct (l !! i) as [[k v]|] eqn:E; cbn.
  - rewrite (drop_S _ _ _ E). cbn. destruct (HasPrefix k pfx); [|done]. cbn.
    destruct (Next_spec c l i Hc) as (c' & -> & Hc').
    apply lookup_lt_Some in E.
    destruct (decide (S i < length l)%nat) as [Hlt|].
    + apply IH; [by apply Hc'|lia].
    + rewrite (proj2 (lookup_ge_None l (S i))) by lia.
      rewrite (drop_ge l (S i)) by lia. by destruct fuel.
  - apply lookup_ge_None in E. by rewrite drop_ge.
Qed.

(** In a sorted list the entries with a prefix are one run, which starts at the
    lower bound of the prefix. *)
Lemma lower_bound_cons e l k :
  lower_bound (e :: l) k = if bytes_ltb e.1 k then S (lower_bound l k) else O.
Proof. done. Qed.

Lemma prefix_not_lt k pfx : HasPrefix k pfx = true -> ~ bytes_lt k pfx.
Proof.
  intros [t ->]%HasPrefix_spec. unfold bytes_lt.
  rewrite <-(app_nil_r pfx) at 2. rewrite bytes_cmp_app. by destruct t.
Qed.

Lemma between_prefix a b pfx :
  ~ bytes_lt a pfx -> bytes_lt a b -> HasPrefix b pfx = true -> HasPrefix a pfx = true.
Proof.
  revert a b. induction pfx as [|p pfx IH]; intros a b Ha Hab Hb; [by destruct a|].
  destruct b as [|y b]; [done|]. cbn in Hb. case_decide; [|done]. subst y.
  destruct a as [|x a]; [by destruct Ha|].
  unfold bytes_lt in *. cbn in Ha, Hab |- *.
  destruct (Z.compare_spec (b2z x) (b2z p)) as [E| |]; [|by destruct Ha|done].
  apply b2z_inj in E as ->. rewrite decide_True by done. eauto.
Qed.

Lemma take_prefixed_elem pfx l e :
  sorted_kv l ->
  e ∈ take_prefixed pfx (drop (lower_bound l pfx) l) <-> e ∈ l /\ HasPrefix e.1 pfx = true.
Proof.
  induction 1 as [|f l Hs IH Hf]; [cbn; rewrite elem_of_nil; tauto|].
  rewrite lower_bound_cons. destruct (bytes_ltb f.1 pfx) eqn:E.
  - cbn [drop]. rewrite IH, elem_of_cons. apply bytes_ltb_lt in E.
    split; [tauto|]. intros [[->|] Hp]; [|done]. by apply prefix_not_lt in Hp.
  - assert (~ bytes_lt f.1 pfx) as Hn by (rewrite <-bytes_ltb_lt; congruence).
    assert (forall l', Forall (fun g => bytes_lt f.1 g.1) l' -> sorted_kv l' ->
      e ∈ take_prefixed pfx l' <-> e ∈ l' /\ HasPrefix e.1 pfx = true) as Hrun.
    { clear -Hn. intros l' Hf. induction 1 as [|g l' Hs IH Hg]; [cbn; rewrite elem_of_nil; tauto|].
      cbn. apply Forall_cons in Hf as [Hfg Hf].
      destruct (HasPrefix g.1 pfx) eqn:Eg; [rewrite !elem_of_cons, IH by done; naive_solver|].
      rewrite elem_of_nil, elem_of_cons. split; [done|]. intros [[->|Hin] Hp]; [congruence|].
      rewrite Forall_forall in Hg. enough (HasPrefix g.1 pfx = true) by congruence.
      eapply (between_prefix g.1 e.1); [|by apply Hg|done]. intros Hlt. apply Hn. by trans g.1. }
    cbn [drop take_prefixed]. destruct (HasPrefix f.1 pfx) eqn:Ef.
    + rewrite !elem_of_cons, Hrun by done. naive_solver.
    + rewrite elem_of_nil, elem_of_cons. split; [done|]. intros [[->|Hin] Hp]; [congruence|].
      rewrite Forall_forall in Hf. enough (HasPrefix f.1 pfx = true) by congruence.
      eapply (between_prefix f.1 e.1); [done|by apply Hf|done].
Qed.

Lemma take_prefixed_NoDup pfx l : NoDup l.*1 -> NoDup (take_prefixed pfx l).*1.
Proof.
  assert (forall e l, e ∈ take_prefixed pfx l -> e ∈ l) as Hin.
  { clear. intros e l. induction l as [|f l IH]; cbn; [done|]. destruct (HasPrefix f.1 pfx).
    - rewrite !elem_of_cons. tauto.
    - by intros ?%elem_of_nil. }
  induction l as [|e l IH]; cbn; [done|]. intros [Hn Hnd]%NoDup_cons.
  destruct (HasPrefix e.1 pfx); [|constructor]. cbn. apply NoDup_cons. split; [|auto].
  intros (f & Ef & Hf)%list_elem_of_fmap. apply Hn. rewrite Ef.
  apply list_elem_of_fmap_2, Hin, Hf.
Qed.

Lemma foldl_insert_lookup (pfx : bytes) (l : list kv) (acc : gmap bytes bytes) (p v : bytes) :
  NoDup l.*1 -> Forall (fun e => HasPrefix e.1 pfx = true) l ->
  (foldl (add_pin pfx) acc l) !! p = Some v <->
  ((pfx ++ p)%list, v) ∈ l \/ (((pfx ++ p)%list ∉ l.*1) /\ acc !! p = Some v).
Proof.
  revert acc. induction l as [|[k w] l IH]; intros acc Hnd Hp; cbn.
  { rewrite !elem_of_nil. tauto. }
  apply NoDup_cons in Hnd as [Hn Hnd]. apply Forall_cons in Hp as [Hk Hp].
  rewrite (IH _ Hnd Hp). cbn in Hk. apply HasPrefix_spec in Hk as [t ->].
  unfold add_pin. cbn in Hn |- *. rewrite drop_app_length, !elem_of_cons. destruct (decide (t = p)) as [->|Hne].
  - rewrite lookup_insert_eq. split.
    + intros [Hin|[_ [= ->]]]; [auto|]. by left; left.
    + intros [[[= ->]|Hin]|[Hx _]]; [by right| |naive_solver].
      left. done.
  - rewrite lookup_insert_ne by done.
    assert (pfx ++ p <> pfx ++ t) by (intros E%app_inv_head; congruence).
    naive_solver.
Qed.
End lemmas.

(** ** Properties *)

Section properties.
Context `{BoltSpec, LlrbOps}.

(** A pin write changes one entry of one bucket. *)
Definition pins_changed (f : gmap bytes bytes -> gmap bytes bytes) (b b' : bdb) : Prop :=
  pins_of b' = f (pins_of b) /\
  forall name, name <> pinsBucket -> contents b' !! name = contents b !! name.

(** C30: [SetPin] is all or nothing under any failures of the operating
    system: the lock is released and the database is not left open for writing
    on every way out; on success exactly the entry of the pin changed, and a
    later [GetPin] of it returns the version; on an error the data is what it
    was; without failures it succeeds. *)
Theorem SetPin_atomic channel prefix version d :
  locked d = false ->
  valid_key (pinKey channel prefix) && valid_value version = true ->
  exists o d', SetPin channel prefix version d = (o, d') /\ same_meta d d' /\
    locked d' = false /\ dbptr d' <> Some ReadWrite /\
    match o with
    | Ok _ =>
        pins_changed (insert (pinKey channel prefix) version) (file d) (file d') /\
        (dbptr d' <> None -> GetPin channel prefix d' = Ok version)
    | Err _ => file d' = file d
    | Panic => False
    end /\
    (faults d = [] -> o = Ok tt /\ dbptr d' = Some ReadOnly).
Proof.
  intros Hl Hkv.
  destruct (set_pin_tx_spec channel prefix version (file d) Hkv) as (b' & Eb & Hb).
  destruct (write_tx_spec (set_pin_tx channel prefix version) d Hl)
    as (o & d' & E & M & L & P & Hf & Z). rewrite Eb in Hf, Z.
  exists o, d'. split; [exact E|]. split; [done|]. split; [done|]. split; [done|].
  split; [|intros Hz; by destruct (Z Hz) as (-> & -> & _)].
  destruct o as [[]|e|]; [|done|].
  - injection Hf as Hf. rewrite <-Hf in *. 
    assert (pins_of b' = <[pinKey channel prefix := version]> (pins_of (file d))) as Hp
      by (unfold pins_of at 1; by rewrite Hb, lookup_insert_eq).
    split; [split; [done|]|].
    + intros name Hn. rewrite Hb. by rewrite lookup_insert_ne.
    + destruct (dbptr d') as [m|] eqn:Em; [|done]. intros _.
      rewrite (GetPin_pins _ _ _ m) by done. by rewrite <-Hf, Hp, lookup_insert_eq.
  - by destruct Hf.
Qed.

(** The transaction of [DeletePin] on the view. *)
Lemma delete_pin_tx_spec channel prefix b :
  exists b', delete_pin_tx channel prefix b = (Ok tt, b') /\
    pins_changed (delete (pinKey channel prefix)) b b'.
Proof.
  unfold delete_pin_tx, in_tx. munfold. rewrite has_bucket_spec.
  destruct (contents b !! pinsBucket) as [m|] eqn:Em.
  - rewrite bool_decide_true by eauto.
    destruct (Delete_spec b _ (pinKey channel prefix) m Em) as (b' & -> & Hb).
    exists b'. split; [done|]. unfold pins_changed, pins_of. rewrite Hb.
    split; [by rewrite lookup_insert_eq, Em|]. intros name Hn. by rewrite lookup_insert_ne.
  - rewrite bool_decide_false by (by intros [? ?]). exists b. split; [done|].
    unfold pins_changed, pins_of. rewrite Em. split; [|done].
    symmetry. apply (delete_empty (M:=gmap bytes)).
Qed.

(** [DeletePin] has the same guarantees; it removes exactly the entry of
    the pin, also when there is no ["pins"] bucket or no such pin, and a later
    [GetPin] returns the empty string. *)
Theorem DeletePin_atomic channel prefix d :
  locked d = false ->
  exists o d', DeletePin channel prefix d = (o, d') /\ same_meta d d' /\
    locked d' = false /\ dbptr d' <> Some ReadWrite /\
    match o with
    | Ok _ =>
        pins_changed (delete (pinKey channel prefix)) (file d) (file d') /\
        (dbptr d' <> None -> GetPin channel prefix d' = Ok [])
    | Err _ => file d' = file d
    | Panic => False
    end /\
    (faults d = [] -> o = Ok tt /\ dbptr d' = Some ReadOnly).
Proof.
  intros Hl.
  destruct (delete_pin_tx_spec channel prefix (file d)) as (b' & Eb & Hp & Ho).
  destruct (write_tx_spec (delete_pin_tx channel prefix) d Hl) as (o & d' & E & M & L & P & Hf & Z). rewrite Eb in Hf, Z.
  exists o, d'. do 4 (split; [done|]).
  split; [|intros Hz; by destruct (Z Hz) as (-> & -> & _)].
  destruct o as [[]|e|]; [|done|by destruct Hf].
  injection Hf as ->. split; [done|].
  destruct (dbptr d') as [m|] eqn:Em; [|done]. intros _.
  by rewrite (GetPin_pins _ _ _ m), Hp, lookup_delete_eq.
Qed.

(** Neither touches another bucket, whatever the outcome. *)
Lemma SetPin_frame channel prefix version d o d' name :
  locked d = false -> SetPin channel prefix version d = (o, d') -> name <> pinsBucket ->
  contents (file d') !! name = contents (file d) !! name.
Proof.
  intros Hl E Hn.
  destruct (write_tx_spec (set_pin_tx channel prefix version) d Hl)
    as (o2 & d2 & E2 & _ & _ & _ & Hf & _).
  change (with_write (Update (set_pin_tx channel prefix version)) d = (o, d')) in E.
  rewrite E in E2. injection E2 as <- <-. destruct o as [[]|e|]; [|by rewrite Hf|by destruct Hf as [-> _]].
  revert Hf. unfold set_pin_tx, tx_create, tx_put, in_tx. munfold.
  destruct (Create_spec (file d) pinsBucket ltac:(done)) as (b1 & -> & E1).
  destruct (valid_key (pinKey channel prefix) && valid_value version) eqn:Hkv.
  - apply andb_true_iff in Hkv as [Hk Hv].
    destruct (Put_spec b1 pinsBucket (pinKey channel prefix) version
                (default ∅ (contents (file d) !! pinsBucket))) as (b2 & -> & E2); [|done..|].
    { rewrite E1. apply lookup_insert_eq. }
    intros [= <-]. by rewrite E2, E1, !lookup_insert_ne.
  - by destruct (Put_invalid b1 pinsBucket _ _ Hkv) as [err ->].
Qed.

Lemma DeletePin_frame channel prefix d o d' name :
  locked d = false -> DeletePin channel prefix d = (o, d') -> name <> pinsBucket ->
  contents (file d') !! name = contents (file d) !! name.
Proof.
  intros Hl E Hn. unfold DeletePin in E.
  destruct (write_tx_spec (delete_pin_tx channel prefix) d Hl) as (o2 & d2 & E2 & _ & _ & _ & Hf & _).
  rewrite E in E2. injection E2 as <- <-. destruct o as [[]|e|]; [|by rewrite Hf|by destruct Hf as [-> _]].
  revert Hf. unfold delete_pin_tx, in_tx. munfold. destruct (has_bucket (file d) pinsBucket) eqn:Eh; [|by intros [= <-]].
  apply has_bucket_has in Eh as [m Hm].
  destruct (Delete_spec _ _ (pinKey channel prefix) _ Hm) as (b' & -> & Eb).
  intros [= <-]. by rewrite Eb, lookup_insert_ne.
Qed.

(** [ListPins] returns exactly the pins [GetPin] sees on the channel: its
    map at a prefix is the entry under the pin's key, whatever other channels
    the bucket holds; the cursor loop ends within the number of entries. *)
Theorem ListPins_lookup channel d m :
  locked d = false -> dbptr d = Some m ->
  exists pins, ListPins channel d = Ok (Some pins) /\
    forall prefix,
      pins !! prefix = pins_of (file d) !! pinKey channel prefix /\
      GetPin channel prefix d = Ok (default [] (pins !! prefix)).
Proof.
  intros Hl Hd.
  enough (exists pins, ListPins channel d = Ok (Some pins) /\
    forall prefix, pins !! prefix = pins_of (file d) !! pinKey channel prefix)
    as (pins & E & Hp).
  { exists pins. split; [done|]. intros prefix. split; [done|].
    by rewrite (GetPin_pins _ _ _ m), Hp. }
  unfold ListPins, pins_list, with_RLock, View, pins_of. rewrite Hl, Hd, has_bucket_spec.
  destruct (contents (file d) !! pinsBucket) as [b|] eqn:Eb; [|by eexists].
  rewrite bool_decide_true by eauto. set (pfx := channel ++ [Byte.x00]).
  destruct (Seek_spec (file d) pinsBucket pfx) as (c & -> & Hc); [eauto|].
  destruct (Entries_spec _ _ _ Eb) as [Hperm Hs].
  eexists; split; [reflexivity|]. intros prefix. cbn [default].
  rewrite (list_pins_take _ _ _ _ _ _ Hc) by lia.
  set (l := Entries (file d) pinsBucket) in *.
  assert (NoDup (take_prefixed pfx (drop (lower_bound l pfx) l)).*1) as Hnd.
  { assert (NoDup l.*1) as Hl' by (rewrite Hperm; apply NoDup_fst_map_to_list).
    apply take_prefixed_NoDup. rewrite fmap_drop. eapply sublist_NoDup; [exact Hl'|].
    apply sublist_drop. }
  apply option_eq. intros v. rewrite foldl_insert_lookup; [|done|].
  - rewrite lookup_empty, take_prefixed_elem by done.
    unfold pinKey. rewrite <-(Entries_lookup (file d) pinsBucket b) by done.
    replace (pfx ++ prefix) with (channel ++ Byte.x00 :: prefix)
      by (unfold pfx; by rewrite <-app_assoc). cbn [fst].
    split; [intros [[]|[]]; done|]. intros Hin. left. split; [done|].
    apply HasPrefix_spec. exists prefix. unfold pfx. by rewrite <-app_assoc.
  - apply Forall_forall. intros e He. by apply take_prefixed_elem in He as [_ He].
Qed.
End properties.

(** ** Concrete instance, for evaluation *)

(** A database over [MapBolt] with the default settings of [NewOsArch]. *)
Module Sample.
#[local] Existing Instance MapBolt.ops.
(** A map from values to packages; the search goes through all of it. *)
Fixpoint greatest_le (z : Z) (l : list (Z * pkgref)) : option (Z * pkgref) :=
  match l with
  | [] => None
  | e :: l =>
      match greatest_le z l with
      | Some f => if (e.1 <=? z) && (f.1 <? e.1) then Some e else Some f
      | None => if e.1 <=? z then Some e else None
      end
  end.
Definition descend (t : gmap Z pkgref) (z : Z) : option item :=
  match greatest_le z (map_to_list t) with
  | Some (v, r) => Some {| item_Value := v; item_ref := r |}
  | None => None
  end.
Definition items_of (t : gmap Z pkgref) : gmap Z item :=
  map_imap (fun k r => Some {| item_Value := k; item_ref := r |}) t.
Instance list_llrb : LlrbOps := {|
  llrb := gmap Z pkgref;
  llrb_New := ∅;
  ReplaceOrInsert t i := <[item_Value i := item_ref i]> t;
  DescendFirst := descend;
|}.

Lemma greatest_le_spec z l :
  match greatest_le z l with
  | Some e => e ∈ l /\ e.1 <= z /\ forall f, f ∈ l -> f.1 <= z -> f.1 <= e.1
  | None => forall f, f ∈ l -> z < f.1
  end.
Proof.
  induction l as [|e l IH]; cbn; [by intros f ?%elem_of_nil|].
  destruct (greatest_le z l) as [g|].
  - destruct IH as (Hg & Hgz & Hmax).
    destruct (Z.leb_spec e.1 z); destruct (Z.ltb_spec g.1 e.1); cbn;
      repeat split; rewrite ?elem_of_cons; try tauto; try lia;
      intros f [->|Hf]%elem_of_cons Hz; try lia; specialize (Hmax f Hf Hz); lia.
  - destruct (Z.leb_spec e.1 z).
    + split; [by left|]. split; [done|]. intros f [->|Hf]%elem_of_cons Hz; [lia|].
      specialize (IH f Hf). lia.
    + intros f [->|Hf]%elem_of_cons; [done|]. by apply IH.
Qed.

Lemma items_of_lookup t v i :
  items_of t !! v = Some i <-> item_Value i = v /\ t !! v = Some (item_ref i).
Proof.
  unfold items_of. rewrite map_lookup_imap, bind_Some. split.
  - by intros (r & Hr & [= <-]).
  - intros [<- Hr]. exists (item_ref i). split; [done|]. by destruct i.
Qed.

Lemma items_of_insert t i :
  items_of (<[item_Value i := item_ref i]> t) = <[item_Value i := i]> (items_of t).
Proof.
  apply map_eq. intros k. unfold items_of. rewrite map_lookup_imap.
  destruct (decide (k = item_Value i)) as [->|Hne].
  - rewrite !lookup_insert_eq. cbn. by destruct i.
  - by rewrite !lookup_insert_ne, map_lookup_imap.
Qed.

Lemma descend_Some t z i : descend t z = Some i ->
  items_of t !! item_Value i = Some i /\ item_Value i <= z /\
  forall v j, items_of t !! v = Some j -> v <= z -> v <= item_Value i.
Proof.
  unfold descend. pose proof (greatest_le_spec z (map_to_list t)) as Hs.
  destruct (greatest_le z (map_to_list t)) as [[k r]|]; [|done].
  destruct Hs as (Hin & Hz & Hmax). apply elem_of_map_to_list in Hin. intros [= <-]. cbn in *.
  split; [by apply items_of_lookup|]. split; [done|]. intros v j [<- Hj]%items_of_lookup Hv.
  by apply (Hmax (item_Value j, item_ref j)); [apply elem_of_map_to_list|].
Qed.

Lemma descend_None t z : descend t z = None ->
  forall v j, items_of t !! v = Some j -> z < v.
Proof.
  unfold descend. pose proof (greatest_le_spec z (map_to_list t)) as Hs.
  destruct (greatest_le z (map_to_list t)) as [[k r]|]; [done|].
  intros _ v j [<- Hj]%items_of_lookup.
  by apply (Hs (item_Value j, item_ref j)), elem_of_map_to_list.
Qed.

Instance list_llrb_spec : LlrbSpec := {|
  llrb_items := items_of;
  llrb_New_items := eq_refl;
  ReplaceOrInsert_items := items_of_insert;
  DescendFirst_Some := descend_Some;
  DescendFirst_None := descend_None;
|}.

Definition sample_conf : DBConf := {|
  db_prefix := str "https://data.apkg.net/"; db_path := str "/var/lib/apkg";
  db_name := str "main"; db_os := str "linux"; db_arch := str "amd64";
  db_osV := Linux; db_archV := AMD64 |}.

Definition db : DB := {|
  conf := sample_conf; dbptr := Some ReadOnly; file := (∅ : view); locked := false; faults := [];
  closed := false; ino := (∅ : gmap Z pkgref); refcnt := 0; parent := None; nextI := 1000;
  pkgI := ∅; sub := ∅; ntgt := None; ldso := []; channel := []; outbox := [] |}.
End Sample.

Lemma SetPin_atomic_witness :
  exists o d', @SetPin MapBolt.ops Sample.list_llrb (str "stable") (str "sys-libs.zlib") (str "1.2") Sample.db
    = (o, d') /\ o = Ok tt.
Proof.
  destruct (@SetPin_atomic MapBolt.ops MapBolt.spec Sample.list_llrb
              (str "stable") (str "sys-libs.zlib") (str "1.2") Sample.db)
    as (o & d' & E & _ & _ & _ & _ & Z); [reflexivity|vm_compute; reflexivity|].
  exists o, d'. split; [exact E|]. apply Z. reflexivity.
Defined.

Lemma DeletePin_atomic_witness :
  exists o d', @DeletePin MapBolt.ops Sample.list_llrb (str "stable") (str "sys-libs.zlib") Sample.db
    = (o, d') /\ o = Ok tt.
Proof.
  destruct (@DeletePin_atomic MapBolt.ops MapBolt.spec Sample.list_llrb
              (str "stable") (str "sys-libs.zlib") Sample.db)
    as (o & d' & E & _ & _ & _ & _ & Z); [reflexivity|].
  exists o, d'. split; [exact E|]. apply Z. reflexivity.
Defined.

Lemma ListPins_lookup_witness :
  exists pins, @ListPins MapBolt.ops Sample.list_llrb (str "stable") Sample.db = Ok (Some pins).
Proof.
  destruct (@ListPins_lookup MapBolt.ops MapBolt.spec Sample.list_llrb (str "stable") Sample.db ReadOnly)
    as (pins & E & _); [reflexivity..|]. exists pins. exact E.
Defined.
