(* ===== verification/Ldso.v ===== *)
(** * Ldso: the generated [ld.so.cache] and package metadata

    [apkgdb/ldso.go] ([buildLdso] and the inode that serves the result),
    [apkgdb/meta.go], and the call it makes to [notifyInode].  JSON and the
    [ldcache] format are outside the repository's code and are parameters. *)

From S2P Require Import Prelude GoLib OsArch Bolt Store.
Local Open Scope Z_scope.

(** ** [meta.go] *)

Record PackageMetaFile := { mf_Mode : Z; mf_Size : Z; mf_Symlink : bytes }.

(** [LDSO] is [None] when nil; the pointers of [Provides] may be nil. *)
Record PackageMeta := {
  BaseName : bytes; FullName : bytes; MetaName : bytes; Names : list bytes;
  MetaVersion : bytes; MetaArch : bytes; MetaOS : bytes;
  BlockSize : Z; Blocks : Z;
  Category : bytes; Subcat : bytes; Hash : bytes;
  Inodes : Z;
  LDSO : option bytes;
  Provides : gmap bytes (option PackageMetaFile);
  MetaSize : Z;
  Virtual : gmap bytes (gmap bytes bytes);
  Created : list Z;
}.

(** ** Outside the repository: ldcache and JSON *)

Class Ldcache := {
  ldEntry : Type;
  ld_Key : ldEntry -> bytes;
  ld_Value : ldEntry -> bytes;
  ld_Read : bytes -> outcome (list ldEntry);       (* ldcache.Read(..).Entries *)
  ld_Write : list ldEntry -> outcome bytes;        (* New, the entries, sort, WriteTo *)
}.

(** [json.Unmarshal] sets the pointer also when it returns an error, so the
    pointer and the error are both results. *)
Class Json `{Ldcache} := {
  Unmarshal_meta : bytes -> option PackageMeta * option error;
  Marshal_entry : ldEntry -> bytes;
  Unmarshal_entry : bytes -> outcome (option ldEntry);
}.

(** The order in which [range] visits a map. *)
Class GoRange := range_map : forall V : Type, gmap bytes V -> list (bytes * V).
Class GoRangeSpec `{GoRange} : Prop :=
  range_map_perm V (m : gmap bytes V) : range_map V m ≡ₚ map_to_list m.

(** ** [buildLdso] *)

Definition ErrDatabaseClosed : error := ErrNew (str "database is closed").
Definition ldsoBucket : bytes := str "ldso".

Section buildLdso.
Context `{BoltOps, LlrbOps, Ldcache, !Json, GoRange}.

(** The call [d.notifyInode(ino, offt, data)], whose result is ignored; the
    log is delivered by [World.notifyInode]. *)
Definition notify_call (ino offt : Z) (data : bytes) (d : DB) : DB :=
  set_outbox (outbox d ++ [(ino, offt, data)]) d.

(** The [ForEach] callback; [json] may leave the pointer nil ("null"), and
    reading its key then panics. *)
Fixpoint ldso_entries (l : list kv) (entries : gmap bytes ldEntry)
    : outcome (gmap bytes ldEntry) :=
  match l with
  | [] => Ok entries
  | (_, v) :: l =>
      e ← Unmarshal_entry v;
      match e with
      | None => Panic
      | Some e => ldso_entries l (<[ld_Key e := e]> entries)
      end
  end.

Definition buildLdso : ST DB unit := fun d =>
  match dbptr d with
  | None => (Err ErrDatabaseClosed, d)
  | Some _ =>
      let view := View (fun b =>
        if has_bucket b ldsoBucket then ldso_entries (Entries b ldsoBucket) ∅ else Ok ∅) d in
      match entries ← view; ld_Write (snd <$> range_map ldEntry entries) with
      | Ok buf => (Ok tt, notify_call 2 0 buf (set_ldso buf d))
      | Err e => (Err e, d)
      | Panic => (Panic, d)
      end
  end.
End buildLdso.

(** ** The inode of [ld.so.cache] *)

Definition FOPEN_KEEP_CACHE : Z := 2.

Module ldsoIno.
Definition Mode : Z := 0x124.                  (* 0444 *)
Definition IsDir : bool := false.
Definition Size (ldso : bytes) : Z := Z.of_nat (length ldso).

(** [ReadAt(p, off)] with a buffer of [n] bytes; slicing at a negative offset
    panics. *)
Definition ReadAt (ldso : bytes) (n : nat) (off : Z) : outcome bytes :=
  if Z.of_nat (length ldso) <=? off then Err ErrEOF
  else if off <? 0 then Panic
  else Ok (take n (drop (Z.to_nat off) ldso)).

Definition Readlink : outcome bytes := Err ErrInvalid.
Definition Open (flags : Z) : outcome Z := Ok FOPEN_KEEP_CACHE.
Definition OpenDir : outcome Z := Err ErrInvalid.
Definition ReadDir : outcome unit := Err ErrInvalid.
Definition AddRef (count : Z) : Z := 1.
Definition DelRef (count : Z) : Z := 0.
Definition Lookup (name : bytes) : outcome Z := Err ErrInvalid.
End ldsoIno.

(** ** What [buildLdso] leaves behind *)

(** Everything but the generated file and the notifications. *)
Definition same_but_ldso `{BoltOps, LlrbOps} (d d' : DB) : Prop :=
  conf d' = conf d /\ closed d' = closed d /\ ino d' = ino d /\ refcnt d' = refcnt d /\
  parent d' = parent d /\ nextI d' = nextI d /\ pkgI d' = pkgI d /\ sub d' = sub d /\
  ntgt d' = ntgt d /\ channel d' = channel d.

#[export] Instance same_but_ldso_preorder `{BoltOps, LlrbOps} : PreOrder same_but_ldso.
Proof.
  split; unfold same_but_ldso; [by intros ?|]. intros x y z Hxy Hyz. intuition congruence.
Qed.

Lemma same_meta_but_ldso `{BoltOps, LlrbOps} d d' : same_meta d d' -> same_but_ldso d d'.
Proof. unfold same_meta, same_but_ldso. intuition. Qed.

Lemma buildLdso_frame `{BoltOps, LlrbOps, Ldcache, !Json, GoRange} d o d' :
  buildLdso d = (o, d') ->
  same_but_ldso d d' /\ file d' = file d /\ dbptr d' = dbptr d /\ locked d' = locked d /\
  faults d' = faults d /\
  match o with
  | Ok _ => outbox d' = outbox d ++ [(2, 0, ldso d')]
  | _ => d' = d
  end.
Proof.
  unfold buildLdso. destruct (dbptr d) eqn:Ed; [|intros [= <- <-]; by rewrite Ed].
  destruct (mbind _ _) as [buf|e|]; intros [= <- <-]; cbn; rewrite ?Ed; done.
Qed.

(** ** Concrete instances, for evaluation *)

Module SampleLd.
#[export] Instance ldcache : Ldcache := {|
  ldEntry := bytes * bytes;
  ld_Key := fst;
  ld_Value := snd;
  ld_Read l := Ok [(l, l)];
  ld_Write es := Ok (concat (map fst es));
|}.
(** A "JSON" in which the metadata is its own cache, and an entry a key with an
    equal value. *)
#[export] Instance json : Json := {|
  Unmarshal_meta m := (Some {|
    BaseName := []; FullName := []; MetaName := []; Names := []; MetaVersion := [];
    MetaArch := []; MetaOS := []; BlockSize := 0; Blocks := 0; Category := []; Subcat := [];
    Hash := []; Inodes := 0; LDSO := Some m; Provides := ∅; MetaSize := 0; Virtual := ∅;
    Created := [] |}, None);
  Marshal_entry e := e.1;
  Unmarshal_entry v := Ok (Some (v, v));
|}.
#[export] Instance range : GoRange := fun V m => map_to_list m.
#[export] Instance range_spec : GoRangeSpec.
Proof. intros V m. reflexivity. Qed.
End SampleLd.
