(* ===== verification/Index.v ===== *)
(** * Index: the database file format, reading side ([apkgdb/index.go])

    [index] checks a downloaded file (header, data hash, signature) and stores
    its packages and pins in one write transaction; [AddPackage] and
    [RemovePackage] change the same buckets.  The file is its content; a
    [Seek] restarts the reader at the given offset of it. *)

From S2P Require Import Prelude GoLib Sha256 Sig Collate OsArch Bolt Store GoTime Pins Ldso.
Local Open Scope Z_scope.

(** ** Buckets and stored values *)

Definition infoBucket : bytes := str "info".
Definition p2pBucket : bytes := str "p2p".
Definition pkgBucket : bytes := str "pkg".
Definition headerBucket : bytes := str "header".
Definition sigBucket : bytes := str "sig".
Definition metaBucket : bytes := str "meta".
Definition pathBucket : bytes := str "path".
Definition versionKey : bytes := str "version".

(** The buckets [index] creates, in its order, and those of [AddPackage]. *)
Definition indexBuckets : list bytes :=
  [infoBucket; p2pBucket; pkgBucket; headerBucket; sigBucket; metaBucket; pathBucket;
   ldsoBucket; pinsBucket].
Definition addBuckets : list bytes :=
  [p2pBucket; pkgBucket; headerBucket; sigBucket; metaBucket; pathBucket].

(** A package as the database stores it. *)
Record pkgEntry := {
  e_hash : bytes; e_size : Z; e_inodes : Z; e_name : bytes; e_path : bytes;
  e_header : bytes; e_sig : bytes; e_meta : bytes;
}.

Definition p2p_value (e : pkgEntry) : bytes :=
  e_hash e ++ be_put 8 (e_inodes e) ++ e_name e.
Definition pkg_value (e : pkgEntry) : bytes :=
  Byte.x00 :: be_put 8 (e_size e) ++ replicate 8 Byte.x00 ++ be_put 8 (e_inodes e) ++ e_name e.

(** ** The header of the file *)

Definition errNotApkgdb : error := ErrNew (str "not a apkgdb file").
Definition errDbVersion : error := ErrNew (str "unsupported db version").
Definition errDbName : error := ErrNew (str "invalid database").
Definition errDataHash : error := ErrNew (str "invalid data hash").
Definition errPkgType : error := ErrNew (str "invalid data in db (invalid package type)").
Definition errPinType : error := ErrNew (str "invalid data in db (unexpected type after packages)").

Record dbHeader := {
  h_flags : Z; h_sec : Z; h_nsec : Z; h_os : Z; h_arch : Z; h_count : Z;
  h_dataOff : Z; h_dataLen : Z; h_dataHash : bytes;
}.

(** [binary.Read] into a slice of [k] integers of [n] bytes: one read. *)
Fixpoint split_be (n k : nat) (b : bytes) : list Z :=
  match k with O => [] | S k => be_get (take n b) :: split_be n k (drop n b) end.
Definition ReadBEs (n k : nat) : reader (list Z) := split_be n k <$> ReadFull (n * k).
Definition at_ (l : list Z) (i : nat) : Z := nth i l 0.

(** The bytes up to the first zero. *)
Definition trim_nul (b : bytes) : bytes :=
  match IndexByte b Byte.x00 with Some i => take i b | None => b end.

Definition read_header (want : bytes) : reader dbHeader :=
  sig ← ReadFull 4;
  lift_st (check (bool_decide (sig = str "APDB")) errNotApkgdb);;
  version ← ReadBE 4;
  lift_st (check (version =? 1) errDbVersion);;
  flags ← ReadBE 8;
  createdA ← ReadBEs 8 2;
  osarchcnt ← ReadBEs 4 3;
  name ← ReadFull 32;
  lift_st (check (bool_decide (trim_nul name = want)) errDbName);;
  dataLoc ← ReadBEs 4 2;
  dataHash ← ReadFull 32;
  mret {| h_flags := flags; h_sec := i64 (at_ createdA 0); h_nsec := i64 (at_ createdA 1);
          h_os := at_ osarchcnt 0; h_arch := at_ osarchcnt 1; h_count := at_ osarchcnt 2;
          h_dataOff := at_ dataLoc 0; h_dataLen := at_ dataLoc 1; h_dataHash := dataHash |}.

(** The [len] bytes of [f] at [off]. *)
Definition field (off len : nat) (f : bytes) : bytes := take len (drop off f).

(** The [n] bytes of the file at [off]; [CopyN] fails when there are fewer. *)
Definition section_at (f : bytes) (off n : Z) : bytes :=
  take (Z.to_nat n) (drop (Z.to_nat off) f).

Section check_file.
Context `{Ed25519}.

(** The checks of [index] before it writes: the header and the data section. *)
Definition check_file (want f : bytes) : outcome (dbHeader * bytes) :=
  h ← fst (read_header want f);
  let data := section_at f (h_dataOff h) (h_dataLen h) in
  check (Z.of_nat (length data) =? h_dataLen h) ErrEOF;;
  check (bool_decide (h_dataHash h = Sum256 data)) errDataHash;;
  headerData ← fst (ReadFull 196 f);
  _ ← VerifyDb headerData (drop 196 f);
  Ok (h, data).
End check_file.

(** ** The packages of the data section *)

Definition read_pkg : reader pkgEntry :=
  t ← ReadBE 1;
  lift_st (check (t =? 0) errPkgType);;
  hash ← ReadFull 32;
  size ← ReadBE 8;
  inodes ← ReadBE 4;
  name ← ReadVarblob 256;
  path ← ReadVarblob 256;
  rawHeader ← ReadVarblob 256;
  rawSig ← ReadVarblob SignatureSize;
  rawMeta ← ReadVarblob (1024 * 1024);
  mret {| e_hash := hash; e_size := size; e_inodes := inodes; e_name := name; e_path := path;
          e_header := rawHeader; e_sig := rawSig; e_meta := rawMeta |}.

Section Index.
Context `{BoltOps, LlrbOps, Ldcache, !Json, GoRange, Ed25519}.

(** The entries of the package's own [ld.so.cache], when the metadata has one
    that parses. *)
Fixpoint store_ldso (l : list ldEntry) : ST bdb unit :=
  match l with
  | [] => mret tt
  | e :: l => tx_put ldsoBucket (ld_Value e) (Marshal_entry e);; store_ldso l
  end.

Definition meta_ldso (rawMeta : bytes) : outcome (list ldEntry) :=
  match fst (Unmarshal_meta rawMeta) with
  | Some meta =>
      match LDSO meta with
      | Some l => match ld_Read l with Ok es => Ok es | Err _ => Ok [] | Panic => Panic end
      | None => Ok []
      end
  | None => Ok []
  end.

(** The five writes both [index] and [AddPackage] make, in the code's order. *)
Definition put_pkg (e : pkgEntry) : ST bdb unit :=
  tx_put p2pBucket (collatedVersion (e_name e)) (p2p_value e);;
  tx_put pkgBucket (e_hash e) (pkg_value e);;
  tx_put headerBucket (e_hash e) (e_header e);;
  tx_put sigBucket (e_hash e) (e_sig e);;
  tx_put metaBucket (e_hash e) (e_meta e);;
  tx_put pathBucket (e_hash e) (e_path e).

(** One round of the package loop: a hash already present is skipped. *)
Definition store_pkg (e : pkgEntry) : ST bdb unit :=
  b ← get_st;
  match Get b pkgBucket (e_hash e) with
  | Some _ => mret tt
  | None =>
      put_pkg e;;
      l ← lift_st (meta_ldso (e_meta e));
      store_ldso l
  end.

(** The loop over the [n] packages; the result is what is left to read. *)
Fixpoint index_packages (n : nat) (r : bytes) : ST bdb bytes :=
  match n with
  | O => mret r
  | S n =>
      match read_pkg r with
      | (Ok e, r) => store_pkg e;; index_packages n r
      | (Err err, _) => err_st err
      | (Panic, _) => lift_st Panic
      end
  end.

(** ** The pins that follow, up to the end of the section *)

Definition read_pin : reader (bytes * bytes * bytes) :=
  pinChannel ← ReadVarblob 256;
  pinPrefix ← ReadVarblob 256;
  pinVersion ← ReadVarblob 256;
  mret (pinChannel, pinPrefix, pinVersion).

(** Each round reads at least one byte: [S (length r)] rounds are enough. *)
Fixpoint index_pins (fuel : nat) (r : bytes) : ST bdb unit :=
  match fuel with
  | O => mret tt
  | S fuel =>
      match ReadBE 1 r with
      | (Ok t, r) =>
          if negb (t =? 1) then err_st errPinType
          else match read_pin r with
               | (Ok (ch, pfx, v), r) => tx_put pinsBucket (pinKey ch pfx) v;; index_pins fuel r
               | (Err err, _) => err_st err
               | (Panic, _) => lift_st Panic
               end
      | (_, _) => mret tt
      end
  end.

(** ** [index] *)

Fixpoint create_buckets (names : list bytes) : ST bdb unit :=
  match names with [] => mret tt | b :: names => tx_create b;; create_buckets names end.

Definition index_tx (h : dbHeader) (data : bytes) : ST bdb unit :=
  create_buckets indexBuckets;;
  r ← index_packages (Z.to_nat (h_count h)) data;
  index_pins (S (length r)) r;;
  tx_put infoBucket versionKey (Stamp (h_sec h) (h_nsec h)).

(** What [index] does once the file is checked. *)
Definition index_write (h : dbHeader) (data : bytes) : ST DB unit :=
  with_write (Update (index_tx h data);; buildLdso).

Definition index (f : bytes) : ST DB unit :=
  d ← get_st;
  hd ← lift_st (check_file (db_name (conf d)) f);
  index_write hd.1 hd.2.

(** ** [AddPackage] and [RemovePackage] *)

Definition errAlreadyInDb : error := ErrNew (str "package already in database").

(** The part of a [*Package] that [OpenPackage] fills and [AddPackage] reads. *)
Record pkgInfo := {
  p_hash : bytes; p_size : Z; p_inodes : Z; p_name : bytes;
  p_rawHeader : bytes; p_rawSig : bytes; p_rawMeta : bytes;
}.

Definition entry_of (rpath : bytes) (p : pkgInfo) : pkgEntry := {|
  e_hash := p_hash p; e_size := p_size p; e_inodes := p_inodes p; e_name := p_name p;
  e_path := rpath; e_header := p_rawHeader p; e_sig := p_rawSig p; e_meta := p_rawMeta p |}.

Definition add_tx (rpath : bytes) (p : pkgInfo) : ST bdb unit :=
  create_buckets addBuckets;;
  b ← get_st;
  match Get b pkgBucket (p_hash p) with
  | Some _ => err_st errAlreadyInDb
  | None => put_pkg (entry_of rpath p)
  end.

Definition AddPackage (rpath : bytes) (p : pkgInfo) : ST DB unit :=
  with_write (Update (add_tx rpath p)).

(** The bucket may be nil, and deleting from it then panics. *)
Definition RemovePackage (name : bytes) : ST DB unit :=
  with_write (Update (tx_delete p2pBucket (collatedVersion name))).
End Index.

(** Facts about closed bucket names. *)
Ltac bucket_dec := refine (bool_decide_unpack _ _); vm_compute; exact I.

(** ** The invariant of the package buckets *)

Section invariant.
Context `{BoltSpec}.

Definition wf_entry (e : pkgEntry) : Prop :=
  length (e_hash e) = 32%nat /\ 0 <= e_size e < two64 /\ 0 <= e_inodes e < two64.

(** The five buckets keyed by the hash agree with the entry. *)
Definition stored (b : bdb) (e : pkgEntry) : Prop :=
  bk b pkgBucket !! e_hash e = Some (pkg_value e) /\
  bk b headerBucket !! e_hash e = Some (e_header e) /\
  bk b sigBucket !! e_hash e = Some (e_sig e) /\
  bk b metaBucket !! e_hash e = Some (e_meta e) /\
  bk b pathBucket !! e_hash e = Some (e_path e).

(** Every entry of the name index is a whole package: it stands under the
    collation key of its name, and the buckets keyed by its hash hold the rest. *)
Definition db_wf (b : bdb) : Prop :=
  (forall k v, bk b p2pBucket !! k = Some v ->
    exists e, wf_entry e /\ k = collatedVersion (e_name e) /\ v = p2p_value e /\ stored b e) /\
  (has b p2pBucket -> Forall (has b) addBuckets).

(** ** Writes, bucket by bucket *)

Lemma create_buckets_ok names b :
  Forall (fun n => n <> []) names ->
  exists b', create_buckets names b = (Ok tt, b') /\ (forall m, bk b' m = bk b m) /\
    (forall m, has b m -> has b' m) /\ Forall (has b') names.
Proof.
  revert b. induction names as [|n names IH]; intros b Hn; [exists b; repeat split; eauto|].
  apply Forall_cons in Hn as [Hn Hns]. cbn [create_buckets]. munfold.
  destruct (tx_create_ok n b Hn) as (b1 & -> & Hc & Hb1).
  destruct (IH b1 Hns) as (b' & -> & Hs & Hh & Ha). exists b'. split; [done|].
  split; [intros m; rewrite Hs; destruct Hc as [E _]; rewrite E; by case_decide; subst|].
  split; [intros m Hm; by apply Hh, (changed_has _ _ _ _ _ Hc)|].
  constructor; [by apply Hh|done].
Qed.

(** [b'] is [b] with the entry written, and possibly the bucket [extra]
    changed. *)
Definition pkg_put (extra : list bytes) (e : pkgEntry) (b b' : bdb) : Prop :=
  bk b' p2pBucket = <[collatedVersion (e_name e) := p2p_value e]> (bk b p2pBucket) /\
  bk b' pkgBucket = <[e_hash e := pkg_value e]> (bk b pkgBucket) /\
  bk b' headerBucket = <[e_hash e := e_header e]> (bk b headerBucket) /\
  bk b' sigBucket = <[e_hash e := e_sig e]> (bk b sigBucket) /\
  bk b' metaBucket = <[e_hash e := e_meta e]> (bk b metaBucket) /\
  bk b' pathBucket = <[e_hash e := e_path e]> (bk b pathBucket) /\
  (forall m, m ∉ extra ++ addBuckets -> bk b' m = bk b m) /\
  (forall m, has b m -> has b' m).

Lemma put_pkg_cases e b o b' :
  Forall (has b) addBuckets -> put_pkg e b = (o, b') ->
  (o = Ok tt /\ pkg_put [] e b b') \/ exists err, o = Err err.
Proof.
  unfold addBuckets, put_pkg. intros Hh. rewrite !Forall_cons in Hh.
  destruct Hh as (H1 & H2 & H3 & H4 & H5 & H6 & _). intros E.
  apply put_then in E as [?|(b1 & [C1 K1] & E)]; [by right| |auto].
  apply put_then in E as [?|(b2 & [C2 K2] & E)]; [by right| |auto].
  apply put_then in E as [?|(b3 & [C3 K3] & E)]; [by right| |auto].
  apply put_then in E as [?|(b4 & [C4 K4] & E)]; [by right| |auto].
  apply put_then in E as [?|(b5 & [C5 K5] & E)]; [by right| |auto 10].
  apply tx_put_cases in E as [(-> & _ & _ & [C6 K6])|(? & -> & _)]; [|eauto|auto 10].
  left. split; [done|].
  unfold pkg_put. repeat split; [..|intros m Hm|eauto 10];
    rewrite ?C6, ?C5, ?C4, ?C3, ?C2, ?C1; repeat (first [rewrite decide_True by reflexivity|rewrite decide_False by discriminate]); try done.
  unfold addBuckets in Hm. cbn [app] in Hm. rewrite !not_elem_of_cons in Hm.
  destruct Hm as (? & ? & ? & ? & ? & ? & _).
  by rewrite !decide_False.
Qed.

Lemma db_wf_put extra e b b' :
  wf_entry e -> db_wf b -> Forall (has b) addBuckets ->
  bk b pkgBucket !! e_hash e = None -> pkg_put extra e b b' -> db_wf b'.
Proof.
  intros He [Hw _] Hh Hn (P1 & P2 & P3 & P4 & P5 & P6 & _ & K). split.
  - intros k v. rewrite P1, lookup_insert_Some. unfold stored. setoid_rewrite P2.
    setoid_rewrite P3. setoid_rewrite P4. setoid_rewrite P5. setoid_rewrite P6.
    intros [[<- <-]|[Hk Hv]].
    + exists e. by rewrite !lookup_insert_eq.
    + destruct (Hw k v Hv) as (e0 & W0 & Ek & Ev & S0). exists e0.
      assert (e_hash e <> e_hash e0) by (intros Eh; destruct S0 as [S0 _]; congruence).
      by rewrite !lookup_insert_ne.
  - intros _. eapply Forall_impl; [exact Hh|exact K].
Qed.

Lemma db_wf_same b b' :
  db_wf b -> (forall m, m ∈ addBuckets -> bk b' m = bk b m) ->
  Forall (has b') addBuckets -> db_wf b'.
Proof.
  intros [Hw _] Hs Hh. split; [|done]. intros k v.
  rewrite Hs by (unfold addBuckets; set_solver). intros Hv.
  destruct (Hw k v Hv) as (e & We & Ek & Ev & Se). exists e. do 3 (split; [done|]).
  unfold stored. by rewrite !Hs by (unfold addBuckets; set_solver).
Qed.
End invariant.

(** ** The loops of [index] *)

Section loops.
Context `{BoltSpec, LlrbOps, Ldcache, !Json, GoRange}.

Fixpoint read_pkgs (n : nat) : reader (list pkgEntry) :=
  match n with
  | O => mret []
  | S n => e ← read_pkg; es ← read_pkgs n; mret (e :: es)
  end.

(** A list of packages indexed in order: known hashes are skipped. *)
Inductive indexed : list pkgEntry -> bdb -> bdb -> Prop :=
  | indexed_nil b : indexed [] b b
  | indexed_skip e es b b' :
      is_Some (bk b pkgBucket !! e_hash e) -> indexed es b b' -> indexed (e :: es) b b'
  | indexed_put e es b b1 b' :
      bk b pkgBucket !! e_hash e = None -> pkg_put [ldsoBucket] e b b1 ->
      indexed es b1 b' -> indexed (e :: es) b b'.

Lemma store_ldso_cases l b o b' :
  has b ldsoBucket -> store_ldso l b = (o, b') ->
  (exists err, o = Err err) \/
  (o = Ok tt /\ (forall m, m <> ldsoBucket -> bk b' m = bk b m) /\ (forall m, has b m -> has b' m)).
Proof.
  revert b. induction l as [|e l IH]; intros b Hh; [intros [= <- <-]; auto|].
  cbn [store_ldso]. intros E. apply put_then in E as [?|(b1 & C & E)]; [by left| |done].
  apply IH in E as [?|(-> & Hs & K)]; [by left| |by eapply changed_has].
  right. split; [done|]. split; [|intros m Hm; by apply K; eapply changed_has].
  intros m Hm. rewrite Hs by done. by eapply changed_ne.
Qed.

Lemma store_pkg_Ok e b b' :
  Forall (has b) indexBuckets -> store_pkg e b = (Ok tt, b') ->
  (is_Some (bk b pkgBucket !! e_hash e) /\ b' = b) \/
  (bk b pkgBucket !! e_hash e = None /\ pkg_put [ldsoBucket] e b b').
Proof.
  intros Hh. unfold store_pkg. munfold. rewrite Get_bk.
  destruct (bk b pkgBucket !! e_hash e) as [v|] eqn:Ev; [intros [= <-]; left; eauto|].
  intros E. right. split; [done|]. revert E. destruct (put_pkg e b) as [o1 b1] eqn:E1.
  apply put_pkg_cases in E1 as [[-> P]|[? ->]]; [|done|].
  2: { unfold addBuckets. unfold indexBuckets in Hh. rewrite !Forall_cons in *. intuition. }
  destruct (meta_ldso (e_meta e)) as [l| |]; try done.
  destruct P as (P1 & P2 & P3 & P4 & P5 & P6 & Po & K).
  destruct (store_ldso l b1) as [o2 b2] eqn:E2. intros [= -> ->].
  apply store_ldso_cases in E2 as [[? ?]|(_ & Hs & K2)]; [done| |].
  2: { apply K. unfold indexBuckets in Hh. rewrite !Forall_cons in Hh. tauto. }
  unfold pkg_put. rewrite !Hs by discriminate.
  repeat split; try done; [|eauto]. intros m Hm.
  rewrite Hs by (intros ->; apply Hm; set_solver). apply Po. set_solver.
Qed.

Lemma read_pkg_Ok r e r' :
  read_pkg r = (Ok e, r') ->
  wf_entry e /\ e_inodes e < two32 /\ (length r' < length r)%nat /\
  Z.of_nat (length (e_name e)) <= 256 /\ Z.of_nat (length (e_path e)) <= 256 /\
  Z.of_nat (length (e_header e)) <= 256 /\ Z.of_nat (length (e_sig e)) <= SignatureSize /\
  Z.of_nat (length (e_meta e)) <= 1024 * 1024.
Proof.
  unfold read_pkg, ReadBE. munfold. 
  destruct (ReadFull 1 r) as [[t| |] r1] eqn:E1; try done.
  destruct (check _ _) as [[]| |]; try done.
  destruct (ReadFull 32 r1) as [[hash| |] r2] eqn:E2; try done.
  destruct (ReadFull 8 r2) as [[size| |] r3] eqn:E3; try done.
  destruct (ReadFull 4 r3) as [[inodes| |] r4] eqn:E4; try done.
  destruct (ReadVarblob 256 r4) as [[name| |] r5] eqn:E5; try done.
  destruct (ReadVarblob 256 r5) as [[path| |] r6] eqn:E6; try done.
  destruct (ReadVarblob 256 r6) as [[hd| |] r7] eqn:E7; try done.
  destruct (ReadVarblob SignatureSize r7) as [[sg| |] r8] eqn:E8; try done.
  destruct (ReadVarblob (1024 * 1024) r8) as [[meta| |] r9] eqn:E9; try done.
  intros [= <- <-]. unfold wf_entry. cbn [e_hash e_size e_inodes e_name e_path e_header e_sig e_meta].
  apply ReadFull_Ok in E1 as [-> L1], E2 as [-> L2], E3 as [-> L3], E4 as [-> L4].
  pose proof (be_get_range size) as Hs. pose proof (be_get_range inodes) as Hi.
  rewrite L3 in Hs. rewrite L4 in Hi.
  pose proof (ReadVarblob_consumes _ _ _ _ E5). pose proof (ReadVarblob_consumes _ _ _ _ E6).
  pose proof (ReadVarblob_consumes _ _ _ _ E7). pose proof (ReadVarblob_consumes _ _ _ _ E8).
  pose proof (ReadVarblob_consumes _ _ _ _ E9).
  apply ReadVarblob_len in E5, E6, E7, E8, E9; [|done..].
  rewrite !length_app. unfold two64, two32. cbn in Hs, Hi. lia.
Qed.

Lemma pkg_put_has extra e b b' names :
  pkg_put extra e b b' -> Forall (has b) names -> Forall (has b') names.
Proof. intros (_ & _ & _ & _ & _ & _ & _ & K) Hh. eapply Forall_impl; [exact Hh|exact K]. Qed.

(** The package loop parses a list of packages and indexes it. *)
Lemma index_packages_Ok n r b r' b' :
  Forall (has b) indexBuckets -> index_packages n r b = (Ok r', b') ->
  exists es, read_pkgs n r = (Ok es, r') /\ indexed es b b' /\ Forall (has b') indexBuckets.
Proof.
  revert r b. induction n as [|n IH]; intros r b Hh.
  { intros [= <- <-]. exists []. repeat split; [|done]. constructor. }
  cbn [index_packages read_pkgs]. munfold.
  destruct (read_pkg r) as [[e| |] r1]; [|done..].
  destruct (store_pkg e b) as [[[]| |] b1] eqn:E; [|done..]. intros E2.
  apply store_pkg_Ok in E as [[Hs ->]|[Hn P]]; [| |done].
  - destruct (IH r1 b Hh E2) as (es & -> & Hi & Ha). exists (e :: es).
    split; [done|]. split; [by constructor|done].
  - destruct (IH r1 b1 (pkg_put_has _ _ _ _ _ P Hh) E2) as (es & -> & Hi & Ha).
    exists (e :: es). split; [done|]. split; [by eapply indexed_put|done].
Qed.

Lemma read_pkgs_wf n r es r' :
  read_pkgs n r = (Ok es, r') -> length es = n /\ Forall wf_entry es.
Proof.
  revert r es. induction n as [|n IH]; intros r es; cbn [read_pkgs]; munfold.
  { intros [= <- <-]. split; [done|constructor]. }
  destruct (read_pkg r) as [[e| |] r1] eqn:E; [|done..].
  destruct (read_pkgs n r1) as [[es'| |] r2] eqn:E2; [|done..].
  intros [= <- <-]. destruct (IH _ _ E2) as [<- Hf]. apply read_pkg_Ok in E as [E _].
  split; [done|]. by constructor.
Qed.

(** A bucket the loop does not write keeps its content, and an indexed hash is
    in the database. *)
Lemma indexed_frame es b b' :
  indexed es b b' ->
  (forall m, m ∉ ldsoBucket :: addBuckets -> bk b' m = bk b m) /\
  (forall m, has b m -> has b' m) /\
  (forall h, is_Some (bk b pkgBucket !! h) -> bk b' pkgBucket !! h = bk b pkgBucket !! h).
Proof.
  induction 1 as [b|e es b b' Hs Hi IH|e es b b1 b' Hn P Hi IH]; [done|done|].
  destruct P as (P1 & P2 & P3 & P4 & P5 & P6 & Po & K), IH as (I1 & I2 & I3).
  split; [intros m Hm; rewrite I1 by done; by apply Po|].
  split; [auto|]. intros h [v Hv].
  assert (bk b1 pkgBucket !! h = bk b pkgBucket !! h) as E.
  { rewrite P2, lookup_insert_ne; [done|]. intros <-. congruence. }
  rewrite I3; [done|]. rewrite E. eauto.
Qed.

Lemma indexed_present es b b' e :
  indexed es b b' -> e ∈ es -> is_Some (bk b' pkgBucket !! e_hash e).
Proof.
  induction 1 as [b|e0 es b b' Hs Hi IH|e0 es b b1 b' Hn P Hi IH].
  - by intros ?%elem_of_nil.
  - intros [->|Hin]%elem_of_cons; [|auto].
    destruct (indexed_frame _ _ _ Hi) as (_ & _ & E). rewrite E; done.
  - intros [->|Hin]%elem_of_cons; [|auto].
    destruct (indexed_frame _ _ _ Hi) as (_ & _ & E). destruct P as (_ & P & _).
    assert (is_Some (bk b1 pkgBucket !! e_hash e0)) as Hs
      by (rewrite P, lookup_insert_eq; eauto).
    rewrite E; done.
Qed.

Lemma indexed_wf es b b' :
  indexed es b b' -> Forall wf_entry es -> Forall (has b) addBuckets -> db_wf b -> db_wf b'.
Proof.
  induction 1 as [b|e es b b' Hs Hi IH|e es b b1 b' Hn P Hi IH]; [done| |];
    intros [He Hes]%Forall_cons Hh Hw; [by apply IH|].
  apply IH; [done|by eapply pkg_put_has|by eapply db_wf_put].
Qed.

(** ** The pin loop *)

Definition pin := (bytes * bytes * bytes)%type.
Definition put_pin (m : gmap bytes bytes) (p : pin) : gmap bytes bytes :=
  <[pinKey p.1.1 p.1.2 := p.2]> m.

Fixpoint read_pins (fuel : nat) (r : bytes) : outcome (list pin) :=
  match fuel with
  | O => Ok []
  | S fuel =>
      match ReadBE 1 r with
      | (Ok t, r) =>
          if negb (t =? 1) then Err errPinType
          else match read_pin r with
               | (Ok p, r) => ps ← read_pins fuel r; Ok (p :: ps)
               | (Err e, _) => Err e
               | (Panic, _) => Panic
               end
      | _ => Ok []
      end
  end.

Lemma read_pin_consumes r p r' : read_pin r = (Ok p, r') -> (length r' < length r)%nat.
Proof.
  unfold read_pin. munfold.
  destruct (ReadVarblob 256 r) as [[a| |] r1] eqn:E1; [|done..].
  destruct (ReadVarblob 256 r1) as [[c| |] r2] eqn:E2; [|done..].
  destruct (ReadVarblob 256 r2) as [[v| |] r3] eqn:E3; [|done..].
  intros [= _ <-]. apply ReadVarblob_consumes in E1, E2, E3. lia.
Qed.

(** More fuel than bytes changes nothing: the loop ends with the data. *)
Lemma read_pins_fuel f1 f2 r :
  (length r < f1)%nat -> (length r < f2)%nat -> read_pins f1 r = read_pins f2 r.
Proof.
  revert f2 r. induction f1 as [|f1 IH]; intros [|f2] r L1 L2; try lia. cbn [read_pins].
  unfold ReadBE. munfold. destruct (ReadFull 1 r) as [[t| |] r1] eqn:E; [|done..].
  apply ReadFull_Ok in E as [-> Hl]. rewrite length_app in *.
  destruct (negb (be_get t =? 1)); [done|].
  destruct (read_pin r1) as [[p| |] r2] eqn:Ep; [|done..]. apply read_pin_consumes in Ep.
  rewrite (IH f2) by lia. done.
Qed.

Lemma index_pins_Ok fuel r b b' :
  has b pinsBucket -> index_pins fuel r b = (Ok tt, b') ->
  exists ps, read_pins fuel r = Ok ps /\ bk b' pinsBucket = foldl put_pin (bk b pinsBucket) ps /\
    (forall m, m <> pinsBucket -> bk b' m = bk b m) /\ (forall m, has b m -> has b' m).
Proof.
  revert r b. induction fuel as [|fuel IH]; intros r b Hh; cbn [index_pins read_pins].
  { intros [= <-]. exists []. done. }
  unfold ReadBE. munfold. destruct (ReadFull 1 r) as [[t| |] r1]; [|intros [= <-]; by exists []..].
  destruct (negb (be_get t =? 1)); [done|].
  destruct (read_pin r1) as [[[[ch pfx] v]| |] r2]; [|done..]. intros E.
  apply put_then in E as [[? ?]|(b1 & C & E)]; [done| |done].
  apply IH in E as (ps & -> & Hp & Hs & K); [|by eapply changed_has].
  exists ((ch, pfx, v) :: ps). split; [done|]. split; [|split].
  - rewrite Hp. by rewrite (changed_eq _ _ _ _ C).
  - intros m Hm. rewrite Hs by done. by eapply changed_ne.
  - intros m Hm. by apply K, (changed_has _ _ _ _ _ C).
Qed.

(** ** The whole transaction *)

(** What a committed [index] did: it created the buckets, indexed the packages
    of the data section and the pins behind them, and set the version. *)
Definition index_effect (h : dbHeader) (data : bytes) (b b' : bdb) : Prop :=
  exists b0 b1 es r ps,
    (forall m, bk b0 m = bk b m) /\ Forall (has b0) indexBuckets /\
    read_pkgs (Z.to_nat (h_count h)) data = (Ok es, r) /\ indexed es b0 b1 /\
    read_pins (S (length r)) r = Ok ps /\
    bk b' pinsBucket = foldl put_pin (bk b pinsBucket) ps /\
    bk b' infoBucket = <[versionKey := Stamp (h_sec h) (h_nsec h)]> (bk b infoBucket) /\
    (forall m, m <> pinsBucket -> m <> infoBucket -> bk b' m = bk b1 m) /\
    (forall m, has b1 m -> has b' m).

Lemma indexBuckets_nonempty : Forall (fun n => n <> []) indexBuckets.
Proof. repeat constructor; discriminate. Qed.
Lemma addBuckets_nonempty : Forall (fun n => n <> []) addBuckets.
Proof. repeat constructor; discriminate. Qed.

Lemma index_tx_Ok h data b b' : index_tx h data b = (Ok tt, b') -> index_effect h data b b'.
Proof.
  unfold index_tx. munfold.
  destruct (create_buckets_ok indexBuckets b indexBuckets_nonempty) as (b0 & -> & Hs0 & K0 & Hh0).
  destruct (index_packages _ data b0) as [[r| |] b1] eqn:E1; [|done..].
  apply index_packages_Ok in E1 as (es & Er & Hi & Hh1); [|done].
  destruct (index_pins _ r b1) as [[[]| |] b2] eqn:E2; [|done..].
  assert (has b1 pinsBucket /\ has b1 infoBucket) as [Hp Hv].
  { unfold indexBuckets in Hh1. rewrite !Forall_cons in Hh1. tauto. }
  apply index_pins_Ok in E2 as (ps & Ep & Eb2 & Hs2 & K2); [|done].
  intros E3. apply tx_put_cases in E3 as [(_ & _ & _ & C)|(? & ? & _)]; [|done|by apply K2].
  destruct (indexed_frame _ _ _ Hi) as (F & _ & _).
  assert (bk b1 pinsBucket = bk b pinsBucket /\ bk b1 infoBucket = bk b infoBucket) as [Fp Fi].
  { rewrite <-!Hs0. split; apply F; bucket_dec. }
  exists b0, b1, es, r, ps. do 5 (split; [done|]).
  split; [rewrite (changed_ne _ _ _ _ _ C) by discriminate; by rewrite Eb2, Fp|].
  split; [rewrite (changed_eq _ _ _ _ C), Hs2 by discriminate; by rewrite Fi|].
  split.
  - intros m Hm Hm'. rewrite (changed_ne _ _ _ _ _ C) by done. by apply Hs2.
  - intros m Hm. by apply (changed_has _ _ _ _ _ C), K2.
Qed.

Lemma index_effect_wf h data b b' : index_effect h data b b' -> db_wf b -> db_wf b'.
Proof.
  intros (b0 & b1 & es & r & ps & Hs & Hh & Er & Hi & _ & _ & _ & Ho & K) Hw.
  assert (Forall (has b0) addBuckets) as Ha.
  { unfold indexBuckets, addBuckets in *. rewrite !Forall_cons in *. tauto. }
  assert (db_wf b1) as Hw1.
  { eapply indexed_wf; [exact Hi|by eapply read_pkgs_wf|done|].
    apply (db_wf_same b); [done|intros; apply Hs|done]. }
  apply (db_wf_same b1); [done| |].
  - intros m Hm. apply Ho; intros ->; revert Hm; bucket_dec.
  - destruct (indexed_frame _ _ _ Hi) as (_ & K1 & _). eapply Forall_impl; [exact Ha|auto].
Qed.
End loops.

(** ** The checks before the write: the header by its offsets in the file *)

Lemma field_over (p r : bytes) off len :
  (length p <= off)%nat -> field off len (p ++ r) = field (off - length p) len r.
Proof. intros. unfold field. by rewrite drop_app_ge by done. Qed.
Lemma field_here (p r : bytes) len : length p = len -> field 0 len (p ++ r) = p.
Proof. intros <-. unfold field. by rewrite drop_0, take_app_length. Qed.
Lemma field_in (p r : bytes) off len :
  (off + len <= length p)%nat -> field off len (p ++ r) = field off len p.
Proof.
  intros. unfold field. rewrite drop_app_le by lia. rewrite take_app_le; [done|].
  rewrite length_drop. lia.
Qed.

Lemma read_header_fields want f h r :
  read_header want f = (Ok h, r) ->
  field 0 4 f = str "APDB" /\ be_get (field 4 4 f) = 1 /\ trim_nul (field 44 32 f) = want /\
  (h_flags h = be_get (field 8 8 f) /\
   h_sec h = i64 (be_get (field 16 8 f)) /\ h_nsec h = i64 (be_get (field 24 8 f)) /\
   h_os h = be_get (field 32 4 f) /\ h_arch h = be_get (field 36 4 f) /\
   h_count h = be_get (field 40 4 f) /\
   h_dataOff h = be_get (field 76 4 f) /\ h_dataLen h = be_get (field 80 4 f)) /\
  h_dataHash h = field 84 32 f.
Proof.
  unfold read_header, ReadBE, ReadBEs. munfold.
  destruct (ReadFull 4 f) as [[sg| |] r0] eqn:E0; [|done..].
  destruct (check (bool_decide _) _) as [[]| |] eqn:C0; [|done..].
  destruct (ReadFull 4 r0) as [[v| |] r1] eqn:E1; [|done..].
  destruct (check (be_get v =? 1) _) as [[]| |] eqn:C1; [|done..].
  destruct (ReadFull 8 r1) as [[fl| |] r2] eqn:E2; [|done..].
  destruct (ReadFull (8 * 2) r2) as [[cr| |] r3] eqn:E3; [|done..].
  destruct (ReadFull (4 * 3) r3) as [[os| |] r4] eqn:E4; [|done..].
  destruct (ReadFull 32 r4) as [[nm| |] r5] eqn:E5; [|done..].
  destruct (check (bool_decide (trim_nul nm = want)) _) as [[]| |] eqn:C2; [|done..].
  destruct (ReadFull (4 * 2) r5) as [[dl| |] r6] eqn:E6; [|done..].
  destruct (ReadFull 32 r6) as [[dh| |] r7] eqn:E7; [|done..].
  intros [= <- <-].
  apply check_Ok in C0, C1, C2. apply bool_decide_eq_true in C0, C2. apply Z.eqb_eq in C1.
  apply ReadFull_Ok in E0 as [-> L0], E1 as [-> L1], E2 as [-> L2], E3 as [-> L3],
    E4 as [-> L4], E5 as [-> L5], E6 as [-> L6], E7 as [-> L7].
  cbn [h_flags h_sec h_nsec h_os h_arch h_count h_dataOff h_dataLen h_dataHash at_ nth split_be].
  rewrite !drop_drop.
  repeat (match goal with
          | |- context [field ?o ?n (?p ++ ?r)] => rewrite (field_over p r o n) by lia
          end; rewrite ?L0, ?L1, ?L2, ?L3, ?L4, ?L5, ?L6, ?L7; cbn [Nat.sub Nat.mul Nat.add]).
  rewrite ?(field_in cr), ?(field_in os), ?(field_in dl) by lia.
  by rewrite !field_here by done.
Qed.

(** C3: only authenticated data is indexed.  A file is accepted only when its
    bytes 0-3 are the magic [APDB], bytes 4-7 the version 1, and bytes 44-75,
    up to the first zero, the name [want] of this database; every number the
    rest of [index] uses is then the one at its place in the first 116 bytes;
    the data section is complete, is what these numbers delimit, and has the
    SHA-256 hash of bytes 84-115; and the first 196 bytes carry a signature,
    under a key of the trusted database signers, that Ed25519 accepts. *)
Theorem check_file_sound `{Ed25519Spec} want f h data :
  check_file want f = Ok (h, data) ->
  (196 <= length f)%nat /\
  field 0 4 f = str "APDB" /\ be_get (field 4 4 f) = 1 /\ trim_nul (field 44 32 f) = want /\
  (h_flags h = be_get (field 8 8 f) /\
   h_sec h = i64 (be_get (field 16 8 f)) /\ h_nsec h = i64 (be_get (field 24 8 f)) /\
   h_os h = be_get (field 32 4 f) /\ h_arch h = be_get (field 36 4 f) /\
   h_count h = be_get (field 40 4 f) /\
   h_dataOff h = be_get (field 76 4 f) /\ h_dataLen h = be_get (field 80 4 f)) /\
  data = field (Z.to_nat (h_dataOff h)) (Z.to_nat (h_dataLen h)) f /\
  Z.of_nat (length data) = h_dataLen h /\
  Sum256 data = field 84 32 f /\
  exists pub blob signer,
    ed25519_Verify pub (field 0 196 f) blob = Ok true /\
    Z.of_nat (length pub) = PublicKeySize /\
    trustedDbSig !! RawURLEncode pub = Some signer.
Proof.
  unfold check_file. munfold. destruct (read_header want f) as [[h0| |] r] eqn:Eh; [|done..].
  cbn [fst]. destruct (check (_ =? _) _) as [[]| |] eqn:El; [|done..].
  destruct (check (bool_decide _) _) as [[]| |] eqn:Ec; [|done..].
  apply check_Ok in El, Ec. apply bool_decide_eq_true in Ec. apply Z.eqb_eq in El.
  destruct (ReadFull 196 f) as [[hd| |] r1] eqn:Ef; [|done..]. cbn [fst].
  destruct (VerifyDb hd (drop 196 f)) as [res| |] eqn:Ev; [|done..].
  intros [= <- <-]. apply ReadFull_Ok in Ef as [-> Hl].
  split; [rewrite length_app; lia|].
  apply read_header_fields in Eh as (Fm & Fv & Fn & Fs & Fh).
  do 4 (split; [done|]). split; [done|]. split; [done|]. split; [by rewrite <-Fh|].
  rewrite (field_here hd r1) by done.
  unfold VerifyDb in Ev.
  destruct (verify hd trustedDbSig (drop 196 (hd ++ r1))) as [o r2] eqn:Evf.
  cbn in Ev. subst o. apply verify_accepts in Evf as (pub & blob & Lp & _ & Hv & Hk & Hn & _).
  exists pub, blob, (Name res). split; [done|]. split; [done|]. by rewrite <-Hk.
Qed.

Section properties.
Context `{BoltSpec, LlrbOps, Ldcache, !Json, GoRange, Ed25519}.

Lemma locked_update_build (fn : ST bdb unit) d :
  locked d = true -> locked (snd ((Update fn;; buildLdso) d)) = true.
Proof.
  intros L. munfold. destruct (Update fn d) as [o d1] eqn:E.
  pose proof (Update_locked fn d) as L1. rewrite E, L in L1. cbn in L1.
  destruct o; [|done..]. destruct (buildLdso d1) as [o2 d2] eqn:E2.
  apply buildLdso_frame in E2. cbn. intuition congruence.
Qed.

Lemma index_cases f d o d' :
  locked d = false -> index f d = (o, d') ->
  match check_file (db_name (conf d)) f with
  | Err e => o = Err e /\ d' = d
  | Panic => o = Panic /\ d' = d
  | Ok (h, data) =>
      locked d' = false /\ same_but_ldso d d' /\
      (index_effect h data (file d) (file d') \/ file d' = file d /\ o <> Ok tt)
  end.
Proof.
  intros Hl. unfold index. munfold.
  destruct (check_file (db_name (conf d)) f) as [[h data]|e|]; [|intros [= <- <-]; done..].
  cbn [fst snd]. fold (@mbind (ST DB) _). intros E.
  destruct (with_write_spec (Update (index_tx h data);; buildLdso) d Hl (locked_update_build _))
    as [(e & d1 & E1 & M & F & L & _)|(d1 & o1 & d2 & d3 & _ & M1 & F1 & L1 & P1 & _ & E2 & E3 & M3 & F3 & L3 & _)].
  - change (with_write (Update (index_tx h data);; buildLdso) d = (o, d')) in E.
    rewrite E1 in E. injection E as <- <-.
    split; [done|]. split; [by apply same_meta_but_ldso|]. right. done.
  - change (with_write (Update (index_tx h data);; buildLdso) d = (o, d')) in E.
    rewrite E3 in E. injection E as -> ->. split; [done|].
    destruct (Update_spec (index_tx h data) d1 P1) as (ou & d1' & Eu & Mu & Lu & Cu & _).
    revert E2. munfold. rewrite Eu. intros E2.
    assert (same_but_ldso d d1') as Sm.
    { etrans; apply same_meta_but_ldso; [exact M1|exact Mu]. }
    destruct ou as [[]|e|].
    + apply buildLdso_frame in E2 as (S2 & F2 & _).
      split; [etrans; [exact Sm|etrans; [exact S2|by apply same_meta_but_ldso]]|].
      left. rewrite F3, F2. rewrite F1 in Cu. by apply index_tx_Ok.
    + injection E2 as <- <-. split; [etrans; [exact Sm|by apply same_meta_but_ldso]|].
      right. destruct Cu as [Cu _]. split; [congruence|done].
    + injection E2 as <- <-. split; [etrans; [exact Sm|by apply same_meta_but_ldso]|].
      right. destruct Cu as [Cu _]. split; [congruence|done].
Qed.

(** C16: [index] is all or nothing on the stored data, under any failures of
    the operating system.  A file that fails a check leaves the database
    exactly as it was; otherwise the data is either untouched, and [index]
    fails, or the result of the whole transaction, in which every package and
    pin of the data section and the version of the header are in; the lock is
    released on every way out, and success means the data was stored. *)
Theorem index_atomic f d o d' :
  locked d = false -> index f d = (o, d') ->
  match check_file (db_name (conf d)) f with
  | Err e => o = Err e /\ d' = d
  | Panic => o = Panic /\ d' = d
  | Ok (h, data) =>
      locked d' = false /\ same_but_ldso d d' /\
      (index_effect h data (file d) (file d') \/ file d' = file d /\ o <> Ok tt)
  end.
Proof. apply index_cases. Qed.

(** An entry within the size limits of bbolt. *)
Definition entry_fits (e : pkgEntry) : bool :=
  valid_key (collatedVersion (e_name e)) && valid_key (e_hash e) && valid_value (p2p_value e) &&
  valid_value (pkg_value e) && valid_value (e_header e) && valid_value (e_sig e) &&
  valid_value (e_meta e) && valid_value (e_path e).

Lemma put_ok_then {A} n k v (rest : ST bdb A) b P :
  has b n -> valid_key k = true -> valid_value v = true ->
  (forall b1, (forall m, has b m -> has b1 m) -> exists b', rest b1 = (P, b')) ->
  exists b', (tx_put n k v;; rest) b = (P, b').
Proof.
  intros Hh Hk Hv Hr. munfold. destruct (tx_put_ok n k v b Hh Hk Hv) as (b1 & -> & C).
  apply Hr. intros m. by eapply changed_has.
Qed.

Lemma put_pkg_ok e b :
  Forall (has b) addBuckets -> entry_fits e = true ->
  exists b', put_pkg e b = (Ok tt, b') /\ pkg_put [] e b b'.
Proof.
  intros Hh. unfold entry_fits. rewrite !andb_true_iff.
  intros [[[[[[[F1 F2] F3] F4] F5] F6] F7] F8].
  assert (exists b', put_pkg e b = (Ok tt, b')) as [b' E].
  { pose proof Hh as Hh2. unfold addBuckets in Hh2. rewrite !Forall_cons in Hh2.
    destruct Hh2 as (H1' & H2' & H3' & H4' & H5' & H6' & _). unfold put_pkg.
    do 5 (apply put_ok_then; [auto|done|done|]; intros ? ?).
    destruct (tx_put_ok pathBucket (e_hash e) (e_path e) b4) as (b' & -> & _); eauto 10. }
  exists b'. split; [done|]. apply put_pkg_cases in E as [[_ P]|[? ?]]; done.
Qed.

Lemma AddPackage_cases rpath p d :
  locked d = false ->
  exists o d', AddPackage rpath p d = (o, d') /\ locked d' = false /\ same_meta d d' /\
    match o with
    | Ok _ =>
        bk (file d) pkgBucket !! p_hash p = None /\
        pkg_put [] (entry_of rpath p) (file d) (file d') /\ Forall (has (file d')) addBuckets
    | Err _ => file d' = file d
    | Panic => False
    end /\
    (faults d = [] -> is_Some (bk (file d) pkgBucket !! p_hash p) -> o = Err errAlreadyInDb) /\
    (faults d = [] -> bk (file d) pkgBucket !! p_hash p = None ->
     entry_fits (entry_of rpath p) = true -> o = Ok tt).
Proof.
  intros Hl. unfold AddPackage.
  destruct (create_buckets_ok addBuckets (file d) addBuckets_nonempty) as (b0 & E0 & Hs & K & Hh).
  assert (forall o b', add_tx rpath p (file d) = (o, b') ->
    match o with
    | Ok _ => bk (file d) pkgBucket !! p_hash p = None /\
        pkg_put [] (entry_of rpath p) (file d) b' /\ Forall (has b') addBuckets
    | Err _ => True | Panic => False end /\
    (is_Some (bk (file d) pkgBucket !! p_hash p) -> o = Err errAlreadyInDb) /\
    (bk (file d) pkgBucket !! p_hash p = None ->
     entry_fits (entry_of rpath p) = true -> o = Ok tt)) as Htx.
  { intros o b'. unfold add_tx. munfold. rewrite E0, Get_bk, Hs.
    destruct (bk (file d) pkgBucket !! p_hash p) as [v|] eqn:Ev.
    - intros [= <- <-]. split; [done|]. split; [done|]. done.
    - intros E. pose proof E as E1.
      apply put_pkg_cases in E1 as [[-> P]|[err ->]]; [| |done].
      + split; [|split; [by intros [? ?]|done]]. split; [done|].
        split; [|by eapply pkg_put_has]. unfold pkg_put in *. rewrite !Hs in P.
        destruct P as (P1 & P2 & P3 & P4 & P5 & P6 & Po & Kp). repeat split; try done; [|auto].
        intros m Hm. by rewrite Po, Hs.
      + split; [done|]. split; [by intros [? ?]|]. intros _ Hf.
        destruct (put_pkg_ok _ b0 Hh Hf) as (b2 & E2 & _). congruence. }
  destruct (write_tx_spec (add_tx rpath p) d Hl) as (o & d' & E & M & L & _ & Hf & Z).
  destruct (add_tx rpath p (file d)) as [ot bt] eqn:Et. destruct (Htx _ _ eq_refl) as (T1 & T2 & T3).
  exists o, d'. split; [done|]. split; [done|]. split; [done|]. split; [|split].
  - destruct o as [[]|e|]; [|done|].
    + injection Hf as -> ->. done.
    + destruct Hf as [_ Hf]. cbn in Hf. by subst ot.
  - intros Hz Hs2. destruct (Z Hz) as [-> _]. cbn. auto.
  - intros Hz Hn Hfit. destruct (Z Hz) as [-> _]. cbn. auto.
Qed.

(** [AddPackage] stores a package that is not there yet, whole and under
    the key of its name, and changes nothing else; a hash already in the
    database is refused and any failure leaves the data as it was; the write
    lock is free afterwards.  Without failures of the operating system a
    package within the limits of the store is always added. *)
Theorem AddPackage_spec rpath p d :
  locked d = false ->
  exists o d', AddPackage rpath p d = (o, d') /\ locked d' = false /\ same_meta d d' /\
    match o with
    | Ok _ =>
        bk (file d) pkgBucket !! p_hash p = None /\
        pkg_put [] (entry_of rpath p) (file d) (file d') /\ Forall (has (file d')) addBuckets
    | Err _ => file d' = file d
    | Panic => False
    end /\
    (faults d = [] -> is_Some (bk (file d) pkgBucket !! p_hash p) -> o = Err errAlreadyInDb) /\
    (faults d = [] -> bk (file d) pkgBucket !! p_hash p = None ->
     entry_fits (entry_of rpath p) = true -> o = Ok tt).
Proof. apply AddPackage_cases. Qed.

(** [RemovePackage] takes exactly the key of the name out of the name
    index and keeps the buckets keyed by the hash, so that the same package
    can not be added again afterwards; on a database without the ["p2p"]
    bucket it panics, with the lock released and the data unchanged. *)
Theorem RemovePackage_spec name d :
  locked d = false -> faults d = [] ->
  exists o d', RemovePackage name d = (o, d') /\ locked d' = false /\ same_meta d d' /\
    (has (file d) p2pBucket ->
       o = Ok tt /\ bucket_changed p2pBucket (delete (collatedVersion name)) (file d) (file d')) /\
    (~ has (file d) p2pBucket -> o = Panic /\ file d' = file d) /\
    (forall rpath p, is_Some (bk (file d) pkgBucket !! p_hash p) ->
       fst (AddPackage rpath p d') = Err errAlreadyInDb).
Proof.
  intros Hl Hz. unfold RemovePackage.
  destruct (write_tx_spec (tx_delete p2pBucket (collatedVersion name)) d Hl)
    as (o & d' & E & M & L & _ & Hf & Z). destruct (Z Hz) as (Eo & _ & Z').
  exists o, d'. do 3 (split; [done|]).
  assert (has (file d) p2pBucket ->
    o = Ok tt /\ bucket_changed p2pBucket (delete (collatedVersion name)) (file d) (file d')) as A1.
  { intros Hh. destruct (tx_delete_ok p2pBucket (collatedVersion name) _ Hh) as (b' & Eb & C).
    rewrite Eb in Eo, Hf. cbn in Eo. subst o. split; [done|]. by injection Hf as <-. }
  assert (~ has (file d) p2pBucket -> o = Panic /\ file d' = file d) as A2.
  { intros Hh. rewrite tx_delete_panics in Eo, Hf by done. cbn in Eo. subst o.
    split; [done|]. by destruct Hf. }
  do 2 (split; [done|]). intros rpath p Hp.
  destruct (AddPackage_cases rpath p d' L) as (o2 & d2 & E2 & _ & _ & _ & R & _).
  rewrite E2. cbn. apply R; [done|].
  assert (bk (file d') pkgBucket = bk (file d) pkgBucket) as ->; [|done].
  destruct (has_bucket (file d) p2pBucket) eqn:Eh.
  - apply has_bucket_has in Eh. destruct (A1 Eh) as [_ C]. by rewrite (changed_ne _ _ _ _ _ C).
  - destruct A2 as [_ ->]; [|done]. intros Hh%has_bucket_has. congruence.
Qed.

(** The invariant depends on these buckets only. *)
Lemma db_wf_frame b b' :
  (forall m, m <> pinsBucket -> contents b' !! m = contents b !! m) -> db_wf b -> db_wf b'.
Proof.
  intros Hc [Hw Hh].
  assert (forall m, m <> pinsBucket -> bk b' m = bk b m) as Hb
    by (intros m Hm; unfold bk; by rewrite Hc).
  split.
  - intros k v. rewrite Hb by discriminate. intros Hv.
    destruct (Hw k v Hv) as (e & We & Ek & Ev & Se). exists e. do 3 (split; [done|]).
    unfold stored. by rewrite !Hb by discriminate.
  - unfold has in *. rewrite Hc by discriminate. intros Hp. apply Hh in Hp.
    rewrite Forall_forall in Hp |- *. intros m Hm. rewrite Hc; [by apply Hp|].
    intros ->. revert Hm. bucket_dec.
Qed.

Lemma AddPackage_wf rpath p d o d' :
  locked d = false -> db_wf (file d) -> wf_entry (entry_of rpath p) ->
  AddPackage rpath p d = (o, d') -> db_wf (file d').
Proof.
  intros Hl Hw He E. destruct (AddPackage_cases rpath p d Hl) as (o2 & d2 & E2 & _ & _ & Ho & _).
  rewrite E in E2. injection E2 as <- <-. destruct o as [[]|e|]; [|by rewrite Ho|done].
  destruct Ho as (Hn & P & Hh). split; [|done]. destruct Hw as [Hw _].
  destruct P as (P1 & P2 & P3 & P4 & P5 & P6 & _ & _). intros k v.
  rewrite P1, lookup_insert_Some. unfold stored. setoid_rewrite P2. setoid_rewrite P3.
  setoid_rewrite P4. setoid_rewrite P5. setoid_rewrite P6.
  intros [[<- <-]|[Hk Hv]]; [exists (entry_of rpath p); by rewrite !lookup_insert_eq|].
  destruct (Hw k v Hv) as (e0 & W0 & Ek & Ev & S0). exists e0.
  assert (e_hash (entry_of rpath p) <> e_hash e0)
    by (intros Eh; destruct S0 as [S0 _]; cbn in Eh; congruence).
  by rewrite !lookup_insert_ne.
Qed.

Lemma RemovePackage_wf name d o d' :
  locked d = false -> db_wf (file d) -> RemovePackage name d = (o, d') -> db_wf (file d').
Proof.
  intros Hl Hw. unfold RemovePackage. intros E.
  destruct (write_tx_spec (tx_delete p2pBucket (collatedVersion name)) d Hl)
    as (o2 & d2 & E2 & _ & _ & _ & Hf & _). rewrite E in E2. injection E2 as <- <-.
  destruct o as [[]|e|]; [|by rewrite Hf|by destruct Hf as [-> _]].
  destruct (has_bucket (file d) p2pBucket) eqn:Eh.
  - apply has_bucket_has in Eh.
    destruct (tx_delete_ok p2pBucket (collatedVersion name) _ Eh) as (b' & Eb & C).
    rewrite Eb in Hf. injection Hf as <-. destruct Hw as [Hw Hh]. split.
    + intros k v. rewrite (changed_eq _ _ _ _ C). intros [_ Hv]%lookup_delete_Some.
      destruct (Hw k v Hv) as (e & We & Ek & Ev & Se). exists e. do 3 (split; [done|]).
      unfold stored. by rewrite !(changed_ne _ _ _ _ _ C) by discriminate.
    + intros _. eapply Forall_impl; [by apply Hh|]. intros m Hm. by eapply changed_has.
  - assert (~ has (file d) p2pBucket) as Hn by (intros Hh%has_bucket_has; congruence).
    by rewrite tx_delete_panics in Hf.
Qed.

Lemma index_wf f d o d' :
  locked d = false -> db_wf (file d) -> index f d = (o, d') -> db_wf (file d').
Proof.
  intros Hl Hw E. apply index_cases in E; [|done]. destruct (check_file _ f) as [[h data]| |];
    [|by destruct E as [_ ->]..].
  destruct E as (_ & _ & [Hi|[-> _]]); [by eapply index_effect_wf|done].
Qed.

Lemma db_wf_empty : db_wf bolt_empty.
Proof.
  split; [|intros [? Hx]; by rewrite contents_empty in Hx].
  intros k v. unfold bk. by rewrite contents_empty.
Qed.

Lemma SetPin_wf channel prefix version d o d' :
  locked d = false -> db_wf (file d) -> SetPin channel prefix version d = (o, d') -> db_wf (file d').
Proof. intros Hl Hw E. eapply db_wf_frame; [|done]. intros m Hm. by eapply SetPin_frame. Qed.

Lemma DeletePin_wf channel prefix d o d' :
  locked d = false -> db_wf (file d) -> DeletePin channel prefix d = (o, d') -> db_wf (file d').
Proof. intros Hl Hw E. eapply db_wf_frame; [|done]. intros m Hm. by eapply DeletePin_frame. Qed.

(** C17: the invariant [db_wf] (every name of the index leads to a complete
    package stored under its hash) holds of an empty database and is preserved
    by every operation that writes, whatever its outcome. *)
Theorem db_wf_preserved :
  db_wf bolt_empty /\
  forall d o d', locked d = false -> db_wf (file d) ->
    (exists f, index f d = (o, d')) \/
    (exists rpath p, wf_entry (entry_of rpath p) /\ AddPackage rpath p d = (o, d')) \/
    (exists name, RemovePackage name d = (o, d')) \/
    (exists channel prefix version, SetPin channel prefix version d = (o, d')) \/
    (exists channel prefix, DeletePin channel prefix d = (o, d')) ->
    db_wf (file d').
Proof.
  split; [apply db_wf_empty|]. intros d o d' Hl Hw
    [(f & E)|[(rpath & p & He & E)|[(name & E)|[(ch & pfx & v & E)|(ch & pfx & E)]]]].
  - by eapply index_wf.
  - by eapply AddPackage_wf.
  - by eapply RemovePackage_wf.
  - by eapply SetPin_wf.
  - by eapply DeletePin_wf.
Qed.
End properties.
