(* ===== verification/Export.v ===== *)
(** * Export: the database file format, writing side ([apkgdb/export.go])

    [ExportAndUpload] writes the packages and pins of the database to a file,
    fills in and signs its header, indexes the result as a check, and uploads
    it.  The main theorem is the round trip with [Index]. *)

From S2P Require Import Prelude GoLib GoPath Sha256 Sig Collate OsArch Bolt Store GoTime Pins Ldso Index.
Local Open Scope Z_scope.

(** ** The data section *)

Section exporting.
Context `{BoltOps, LlrbOps, Ldcache, !Json, GoRange, Ed25519}.

(** [b.Get(k)] of a bucket that may be nil; a missing key reads as empty. *)
Definition must_Get (b : bdb) (name k : bytes) : outcome bytes :=
  if has_bucket b name then Ok (default [] (Get b name k)) else Panic.

Definition export_pkg (b : bdb) (v : bytes) : outcome bytes :=
  h ← slice 0 32 v;
  pkg ← must_Get b pkgBucket h;
  size ← slice 1 9 pkg;
  inodes ← slice (17 + 4) 25 pkg;
  path ← must_Get b pathBucket h;
  header ← must_Get b headerBucket h;
  sig ← must_Get b sigBucket h;
  meta ← must_Get b metaBucket h;
  Ok ([Byte.x00] ++ h ++ size ++ inodes ++
      WriteVarblob (drop 25 pkg) ++ WriteVarblob path ++ WriteVarblob header ++
      WriteVarblob sig ++ WriteVarblob meta).

(** The bytes of the packages and their number, a [uint32]. *)
Fixpoint export_pkgs (b : bdb) (l : list kv) (count : Z) : outcome (bytes * Z) :=
  match l with
  | [] => Ok ([], count)
  | (_, v) :: l =>
      p ← export_pkg b v;
      rest ← export_pkgs b l (u32 (count + 1));
      Ok (p ++ rest.1, rest.2)
  end.

(** A pin; the type byte is written before the key is known to be well formed. *)
Definition export_pin (e : kv) : bytes :=
  [Byte.x01] ++
  match IndexByte e.1 Byte.x00 with
  | None => []
  | Some sep =>
      WriteVarblob (take sep e.1) ++ WriteVarblob (drop (S sep) e.1) ++ WriteVarblob e.2
  end.

Definition export_data (b : bdb) : outcome (bytes * Z) :=
  if has_bucket b p2pBucket then
    pk ← export_pkgs b (Entries b p2pBucket) 0;
    Ok (pk.1 ++ (if has_bucket b pinsBucket
                 then concat (map export_pin (Entries b pinsBucket)) else []), pk.2)
  else Panic.

(** ** The header *)

Definition emptyHash : bytes :=
  be_put 32 0xe3b0c44298fc1c149afbf4c8996fb92427ae41e4649b934ca495991b7852b855.

(** [copy(make([]byte, n), v)] *)
Definition pad_to (n : nat) (v : bytes) : bytes :=
  take n (v ++ replicate n Byte.x00).

Definition errHeaderLen : error := ErrNew (str "invalid header length").

Definition header0 (c : DBConf) (sec nsec : Z) : bytes :=
  str "APDB" ++ be_put 4 1 ++ be_put 8 0 ++ be_put 8 sec ++ be_put 8 nsec ++
  be_put 4 (ParseOS (db_os c)) ++ be_put 4 (ParseArch (db_arch c)) ++ be_put 4 0 ++
  pad_to 32 (db_name c) ++
  be_put 4 (196 + SignatureSize) ++ be_put 4 0 ++ emptyHash ++
  be_put 4 0 ++ be_put 4 0 ++ emptyHash ++ be_put 4 0 ++ be_put 4 0 ++ emptyHash.

(** [f.Seek(off, SeekStart); f.Write(v)] *)
Definition write_at (off : nat) (v f : bytes) : bytes :=
  take off f ++ v ++ drop (off + length v) f.

(** The file [ExportAndUpload] builds, from the first write to the signature. *)
Definition export_file (k : HsmKey) (c : DBConf) (sec nsec : Z) (b : bdb) : outcome bytes :=
  let f := header0 c sec nsec in
  check (Z.of_nat (length f) =? 196) errHeaderLen;;
  let f := f ++ replicate (Z.to_nat SignatureSize) Byte.x00 in
  dc ← export_data b;
  let f := f ++ dc.1 in
  let pos := Z.of_nat (length f) in
  let finalHash := Sum256 dc.1 in
  let f := write_at 40 (be_put 4 dc.2) f in
  let start := be_get (take 4 (drop 76 f)) in
  let f := write_at 80 (be_put 4 (u32 (pos - start))) f in
  let f := write_at 84 finalHash f in
  let header := take 196 f in
  sigB ← Sign k header;
  _ ← VerifyDb header sigB;
  Ok (write_at 196 sigB f).

(** ** The whole operation *)

(** What leaves the process: files written and commands run, in order. *)
Inductive effect :=
  | WriteFile (fn content : bytes)
  | Exec (argv : list bytes).

Abbreviation xst := (DB * list effect)%type.

Definition on_db {A} (m : ST DB A) : ST xst A := fun s =>
  let '(o, d) := m s.1 in (o, (d, s.2)).
Definition emit (e : effect) : ST xst unit := fun s => (Ok tt, (s.1, s.2 ++ [e])).

(** [jwt.New(EdDSA)], the payload, the key id and [Sign]. *)
Variable jwt_Sign : gmap bytes bytes -> bytes -> HsmKey -> outcome bytes.

Definition newline : bytes := [Byte.x0a].

Definition export_commands (c : DBConf) (fn stamp : bytes) : list (list bytes) :=
  let s3pfxCf := str "s3:/" ++ path_Join [str "/azusa/db"; db_name c; db_os c; db_arch c] in
  let cp := [str "aws"; str "s3"; str "--profile"; str "cf"; str "cp"; str "--cache-control"] in
  [ cp ++ [str "max-age=31536000"; fn; s3pfxCf ++ str "/" ++ stamp ++ str ".bin"];
    cp ++ [str "max-age=60"; path_Join [db_path c; str "/LATEST.txt"];
           s3pfxCf ++ str "/LATEST.txt"];
    cp ++ [str "max-age=60"; str "--content-type"; str "text/plain";
           path_Join [db_path c; str "LATEST.jwt"]; s3pfxCf ++ str "/LATEST.jwt"] ].

Fixpoint run_all (cmds : list (list bytes)) : ST xst unit :=
  match cmds with
  | [] => mret tt
  | c :: cmds => emit (Exec c);; on_db os_call;; run_all cmds
  end.

(** Up to the check: [on_db os_call] stands for the file operations that may
    fail; the read lock is held while the data section is written. *)
Definition export_write (k : HsmKey) (c : DBConf) (sec nsec : Z) (fn : bytes) : ST xst bytes :=
  on_db os_call;;                                   (* os.Create(fn), header *)
  f ← on_db (fun d => (with_RLock (View (export_file k c sec nsec)) d, d));
  on_db os_call;;                                   (* patches, f.Close() *)
  emit (WriteFile fn f);;
  on_db os_call;;                                   (* os.Open(fn) *)
  mret f.

(** After the check. *)
Definition export_publish (k : HsmKey) (c : DBConf) (fn stamp : bytes) : ST xst unit :=
  on_db os_call;;                                   (* LATEST.txt *)
  emit (WriteFile (path_Join [db_path c; str "LATEST.txt"]) (stamp ++ newline));;
  sig_pub ← lift_st (PublicBlob k);
  on_db os_call;;                                   (* os.Create(LATEST.jwt) *)
  token ← lift_st (jwt_Sign (list_to_map [(str "ver", stamp); (str "arch", db_arch c);
                                          (str "os", db_os c); (str "name", db_name c)])
                            (RawURLEncode sig_pub) k);
  on_db os_call;;                                   (* lat.Close() *)
  emit (WriteFile (path_Join [db_path c; str "LATEST.jwt"]) (token ++ newline));;
  run_all (export_commands c fn stamp).

Definition ExportAndUpload (k : HsmKey) (sec nsec : Z) : ST xst unit :=
  s ← get_st;
  let c := conf s.1 in
  let stamp := Stamp sec nsec in
  let fn := path_Join [db_path c; stamp ++ str ".bin"] in
  f ← export_write k c sec nsec fn;
  on_db (index f);;
  export_publish k c fn stamp.
End exporting.

(** ** The data section reads back *)

Definition encode_pkg (e : pkgEntry) : bytes :=
  [Byte.x00] ++ e_hash e ++ be_put 8 (e_size e) ++ be_put 4 (e_inodes e) ++
  WriteVarblob (e_name e) ++ WriteVarblob (e_path e) ++ WriteVarblob (e_header e) ++
  WriteVarblob (e_sig e) ++ WriteVarblob (e_meta e).

Definition encode_pin (p : pin) : bytes :=
  [Byte.x01] ++ WriteVarblob p.1.1 ++ WriteVarblob p.1.2 ++ WriteVarblob p.2.

(** The limits of the file format. *)
Definition exportable (e : pkgEntry) : Prop :=
  wf_entry e /\ e_inodes e < two32 /\
  Z.of_nat (length (e_name e)) <= 256 /\ Z.of_nat (length (e_path e)) <= 256 /\
  Z.of_nat (length (e_header e)) <= 256 /\ Z.of_nat (length (e_sig e)) <= SignatureSize /\
  Z.of_nat (length (e_meta e)) <= 1024 * 1024.

Definition pin_ok (p : pin) : Prop :=
  (Byte.x00 ∉ p.1.1) /\ Z.of_nat (length p.1.1) <= 256 /\ Z.of_nat (length p.1.2) <= 256 /\
  Z.of_nat (length p.2) <= 256.

Lemma ReadBE_put n z rest :
  0 <= z < 256 ^ Z.of_nat n -> ReadBE n (be_put n z ++ rest) = (Ok z, rest).
Proof.
  intros Hz. unfold ReadBE. munfold. rewrite ReadFull_app by apply length_be_put.
  by rewrite be_get_put_small.
Qed.

Lemma read_pkg_encode e rest :
  exportable e -> read_pkg (encode_pkg e ++ rest) = (Ok e, rest).
Proof.
  intros ((Hh & Hs & Hi) & Hi4 & Hn & Hp & Hd & Hg & Hm). unfold encode_pkg, read_pkg.
  rewrite <-!app_assoc. munfold.
  change ([Byte.x00] ++ ?x) with (be_put 1 0 ++ x).
  rewrite (ReadBE_put 1) by lia. cbn [check Z.eqb].
  rewrite (ReadFull_app 32) by done.
  rewrite (ReadBE_put 8) by (unfold two64 in *; cbn; lia).
  rewrite (ReadBE_put 4) by (unfold two32 in *; cbn; lia).
  unfold two64, SignatureSize, PublicKeySize, Ed25519SignatureSize in *.
  rewrite !ReadVarblob_Write by (unfold two64, SignatureSize, PublicKeySize, Ed25519SignatureSize; lia).
  by destruct e.
Qed.

Lemma read_pkgs_encode es rest :
  Forall exportable es ->
  read_pkgs (length es) (concat (map encode_pkg es) ++ rest) = (Ok es, rest).
Proof.
  induction 1 as [|e es He _ IH]; [done|]. cbn [length map concat read_pkgs].
  rewrite <-app_assoc. munfold. by rewrite read_pkg_encode, IH.
Qed.

Lemma read_pin_encode p rest :
  pin_ok p -> read_pin (drop 1 (encode_pin p) ++ rest) = (Ok p, rest).
Proof.
  intros (_ & H1 & H2 & H3). unfold read_pin.
  change (drop 1 (encode_pin p)) with (WriteVarblob p.1.1 ++ WriteVarblob p.1.2 ++ WriteVarblob p.2).
  rewrite <-!app_assoc.
  munfold. rewrite !ReadVarblob_Write by (unfold two64; lia). by destruct p as [[? ?] ?].
Qed.

Lemma read_pins_encode ps fuel :
  Forall pin_ok ps -> (length ps < fuel)%nat -> read_pins fuel (concat (map encode_pin ps)) = Ok ps.
Proof.
  intros Hp. revert fuel. induction Hp as [|p ps Hp _ IH]; intros [|fuel] Hf; try (cbn in Hf; lia).
  { done. }
  cbn [map concat read_pins].
  change (encode_pin p) with ([Byte.x01] ++ drop 1 (encode_pin p)). rewrite <-app_assoc.
  change ([Byte.x01] ++ ?x) with (be_put 1 1 ++ x).
  rewrite (ReadBE_put 1) by lia. cbn [negb Z.eqb Pos.eqb].
  rewrite read_pin_encode by done. cbn in Hf. rewrite IH by lia. done.
Qed.

Lemma length_encode_pins ps : (length ps <= length (concat (map encode_pin ps)))%nat.
Proof.
  induction ps as [|p ps IH]; cbn; [lia|]. rewrite length_app. cbn. lia.
Qed.

Section data.
Context `{BoltSpec}.

(** The stored form of an entry is written as [encode_pkg]. *)
Lemma export_pkg_stored b e :
  exportable e -> Forall (has b) addBuckets -> stored b e ->
  export_pkg b (p2p_value e) = Ok (encode_pkg e).
Proof.
  intros ((Hh & Hs & Hi) & Hi4 & _) Hb (S1 & S2 & S3 & S4 & S5).
  unfold addBuckets in Hb. rewrite !Forall_cons in Hb. destruct Hb as (_ & B1 & B2 & B3 & B4 & B5 & _).
  unfold export_pkg, must_Get, p2p_value.
  rewrite (slice_mid [] (e_hash e) _ 0 32 eq_refl ltac:(lia)
             : slice 0 32 (e_hash e ++ be_put 8 (e_inodes e) ++ e_name e) = _).
  cbn [mbind outcome_bind]. rewrite !(proj2 (has_bucket_has b _)) by done.
  rewrite !Get_bk, S1, S2, S3, S4, S5. cbn [default from_option id mbind outcome_bind]. unfold pkg_value.
  pose proof (slice_mid [Byte.x00] (be_put 8 (e_size e))
    (replicate 8 Byte.x00 ++ be_put 8 (e_inodes e) ++ e_name e) 1 9 eq_refl eq_refl) as Esz.
  cbn [app] in Esz. rewrite Esz. clear Esz.
  change (be_put 8 (e_inodes e)) with (be_put (4 + 4) (e_inodes e)). rewrite be_put_app.
  set (big := Byte.x00 :: be_put 8 (e_size e) ++ replicate 8 Byte.x00 ++
                be_put 4 (e_inodes e / 256 ^ Z.of_nat 4)).
  assert (length big = 21%nat) as Lb
    by (subst big; cbn [length]; by rewrite !length_app, !length_be_put, length_replicate).
  replace (Byte.x00 :: be_put 8 (e_size e) ++ replicate 8 Byte.x00 ++
             (be_put 4 (e_inodes e / 256 ^ Z.of_nat 4) ++ be_put 4 (e_inodes e)) ++ e_name e)
    with (big ++ be_put 4 (e_inodes e) ++ e_name e)
    by (subst big; cbn [app]; by rewrite <-!app_assoc).
  rewrite (slice_mid big (be_put 4 (e_inodes e)) _ (17 + 4) 25) by (rewrite ?length_be_put; done).
  cbn [mbind outcome_bind].
  assert (drop 25 (big ++ be_put 4 (e_inodes e) ++ e_name e) = e_name e) as ->; [|done].
  rewrite app_assoc. apply drop_app_length'. by rewrite length_app, length_be_put, Lb.
Qed.

(** [es] is the content of the name index, in its order. *)
Definition listing (b : bdb) (es : list pkgEntry) : Prop :=
  Forall2 (fun x e => x = (collatedVersion (e_name e), p2p_value e) /\ stored b e)
    (Entries b p2pBucket) es.

Lemma listing_exists b :
  db_wf b -> has b p2pBucket -> exists es, listing b es /\ Forall wf_entry es.
Proof.
  intros [Hw _] [m Hm].
  assert (forall l, (forall k v, (k, v) ∈ l -> bk b p2pBucket !! k = Some v) ->
    exists es, Forall2 (fun x e => x = (collatedVersion (e_name e), p2p_value e) /\ stored b e) l es
      /\ Forall wf_entry es) as Hl.
  { induction l as [|[k v] l IH]; intros Hl; [exists []; split; constructor|].
    destruct (Hw k v) as (e & We & -> & -> & Se); [apply Hl; left|].
    destruct IH as (es & Hes & Wes); [intros k' v' Hin; apply Hl; by right|].
    exists (e :: es). split; by constructor. }
  apply Hl. intros k v Hin. unfold bk. rewrite Hm. by apply (Entries_lookup b p2pBucket m).
Qed.

Lemma export_pkgs_listing b l es count :
  Forall (has b) addBuckets -> Forall exportable es ->
  Forall2 (fun x e => x = (collatedVersion (e_name e), p2p_value e) /\ stored b e) l es ->
  0 <= count -> count + Z.of_nat (length es) < two32 ->
  export_pkgs b l count = Ok (concat (map encode_pkg es), count + Z.of_nat (length es)).
Proof.
  intros Hb Hx Hl. revert count. induction Hl as [|x e l es [-> Se] Hl IH]; intros count Hc Hn.
  { cbn. by rewrite Z.add_0_r. }
  apply Forall_cons in Hx as [He Hx]. cbn [export_pkgs map concat length] in *.
  rewrite export_pkg_stored by done. cbn [mbind outcome_bind].
  rewrite u32_small by lia. rewrite IH by (done || lia). cbn [mbind outcome_bind fst snd].
  do 2 f_equal. lia.
Qed.

(** The pins, read off the keys of the bucket. *)
Definition pin_of (e : kv) : option pin :=
  sep ← IndexByte e.1 Byte.x00; Some (take sep e.1, drop (S sep) e.1, e.2).

Definition pin_listing (b : bdb) (ps : list pin) : Prop :=
  Forall2 (fun e p => pin_of e = Some p /\ pin_ok p)
    (if has_bucket b pinsBucket then Entries b pinsBucket else []) ps.

Lemma export_pin_encode e p : pin_of e = Some p -> export_pin e = encode_pin p.
Proof.
  unfold pin_of, export_pin. destruct (IndexByte e.1 Byte.x00) as [sep|]; [|done].
  intros [= <-]. done.
Qed.

Lemma pin_of_key e p : pin_of e = Some p -> e = (pinKey p.1.1 p.1.2, p.2).
Proof.
  unfold pin_of. destruct (IndexByte e.1 Byte.x00) as [sep|] eqn:E; [|done].
  intros [= <-]. apply IndexByte_spec in E as [E _]. destruct e as [k v]. cbn in *.
  unfold pinKey. by rewrite E at 1.
Qed.

Lemma export_pins_listing b ps :
  pin_listing b ps ->
  (if has_bucket b pinsBucket then concat (map export_pin (Entries b pinsBucket)) else [])
  = concat (map encode_pin ps) /\ Forall pin_ok ps.
Proof.
  unfold pin_listing. intros Hl.
  assert (forall l, Forall2 (fun e p => pin_of e = Some p /\ pin_ok p) l ps ->
    concat (map export_pin l) = concat (map encode_pin ps) /\ Forall pin_ok ps) as Hc.
  { clear. induction 1 as [|e p l ps [Ep Hp] Hl [IH1 IH2]]; [done|].
    cbn [map concat].
    rewrite IH1, (export_pin_encode e p Ep). split; [done|by constructor]. }
  destruct (has_bucket b pinsBucket); [by apply Hc|]. by apply (Hc []).
Qed.

(** Putting the pins back gives the bucket they came from. *)
Lemma put_pins_lookup ps acc k v :
  NoDup (map (fun p : pin => pinKey p.1.1 p.1.2) ps) ->
  foldl put_pin acc ps !! k = Some v <->
  (k, v) ∈ map (fun p : pin => (pinKey p.1.1 p.1.2, p.2)) ps \/
  (k ∉ map (fun p : pin => pinKey p.1.1 p.1.2) ps) /\ acc !! k = Some v.
Proof.
  revert acc. induction ps as [|p ps IH]; intros acc Hnd; cbn [map foldl].
  { rewrite !elem_of_nil. tauto. }
  cbn [map] in Hnd. apply NoDup_cons in Hnd as [Hn Hnd]. rewrite IH by done.
  unfold put_pin. rewrite !elem_of_cons, lookup_insert_Some.
  assert (forall w, (pinKey p.1.1 p.1.2, w) ∈ map (fun p : pin => (pinKey p.1.1 p.1.2, p.2)) ps ->
    pinKey p.1.1 p.1.2 ∈ map (fun p : pin => pinKey p.1.1 p.1.2) ps) as Hin.
  { intros w (q & Eq & Hq)%list_elem_of_fmap. injection Eq as -> _.
    by apply (list_elem_of_fmap_2 (fun p : pin => pinKey p.1.1 p.1.2)). }
  destruct (decide (k = pinKey p.1.1 p.1.2)) as [->|Hne].
  - split; [intros [?|[? [[_ ->]|[? _]]]]; auto; done|].
    intros [[[= ->]|?]|[Hx _]]; [right; auto|auto|]. exfalso. apply Hx. by left.
  - split; [intros [?|[? [[? _]|[_ ?]]]]; auto; try done|].
    + right. split; [|done]. by intros [?|?].
    + intros [[[= ? _]|?]|[Hx ?]]; [done|auto|]. right. split; [by intros ?; apply Hx; right|].
      right. by split; [apply not_eq_sym|].
Qed.

Lemma put_pins_bucket b ps :
  pin_listing b ps -> foldl put_pin ∅ ps = bk b pinsBucket.
Proof.
  unfold pin_listing, bk. rewrite has_bucket_spec. destruct (contents b !! pinsBucket) as [m|] eqn:Em.
  - rewrite bool_decide_true by eauto. intros Hl. cbn [default from_option id].
    assert (Entries b pinsBucket = map (fun p : pin => (pinKey p.1.1 p.1.2, p.2)) ps) as El.
    { clear -Hl. induction Hl as [|e p l ps [Ep _] _ IH]; [done|]. cbn. f_equal; [|done].
      by apply pin_of_key. }
    destruct (Entries_spec b pinsBucket m Em) as [Hp _].
    assert (NoDup (map (fun p : pin => pinKey p.1.1 p.1.2) ps)) as Hnd.
    { assert (map (fun p : pin => pinKey p.1.1 p.1.2) ps = (Entries b pinsBucket).*1) as ->
        by (rewrite El; symmetry; apply (map_map (fun p : pin => (pinKey p.1.1 p.1.2, p.2)) fst)).
      rewrite Hp. apply NoDup_fst_map_to_list. }
    apply map_eq. intros k. apply option_eq. intros v.
    rewrite put_pins_lookup, lookup_empty, <-El by done.
    rewrite <-(Entries_lookup b pinsBucket m) by done. split; [intros [?|[_ ?]]; done|auto].
  - rewrite bool_decide_false by (by intros [? ?]). intros Hl. by inversion Hl.
Qed.
End data.

(** ** The header reads back *)

Lemma write_at_mid off a v old c :
  length a = off -> length old = length v -> write_at off v (a ++ old ++ c) = a ++ v ++ c.
Proof.
  intros <- Hv. unfold write_at. rewrite take_app_length. f_equal. f_equal.
  rewrite <-Hv, <-length_app, app_assoc. apply drop_app_length.
Qed.

Lemma trim_pad n v :
  (length v <= n)%nat -> Byte.x00 ∉ v -> trim_nul (pad_to n v) = v.
Proof.
  intros Hl Hn. unfold pad_to, trim_nul. rewrite take_app_ge by done.
  rewrite take_replicate, Nat.min_l by lia. set (m := (n - length v)%nat).
  destruct m as [|m]; cbn [replicate].
  - rewrite app_nil_r. by rewrite (proj2 (IndexByte_None v _) Hn).
  - rewrite IndexByte_app by done. apply take_app_length.
Qed.

Lemma length_pad_to n v : length (pad_to n v) = n.
Proof. unfold pad_to. rewrite length_take, length_app, length_replicate. lia. Qed.

(** The first 196 bytes of the file, once count, length and hash are filled in. *)
Definition final_header (c : DBConf) (sec nsec count len : Z) (hash : bytes) : bytes :=
  (str "APDB" ++ be_put 4 1 ++ be_put 8 0 ++ (be_put 8 sec ++ be_put 8 nsec) ++
   be_put 4 (ParseOS (db_os c)) ++ be_put 4 (ParseArch (db_arch c))) ++ be_put 4 count ++
  (pad_to 32 (db_name c) ++ be_put 4 (196 + SignatureSize)) ++ be_put 4 len ++ hash ++
  (be_put 4 0 ++ be_put 4 0 ++ emptyHash ++ be_put 4 0 ++ be_put 4 0 ++ emptyHash).

Lemma header0_final c sec nsec : header0 c sec nsec = final_header c sec nsec 0 0 emptyHash.
Proof. unfold header0, final_header. by rewrite <-!app_assoc. Qed.

Lemma length_final_header c sec nsec count len hash :
  length hash = 32%nat -> length (final_header c sec nsec count len hash) = 196%nat.
Proof.
  intros Hh. unfold final_header, emptyHash.
  rewrite !length_app, !length_be_put, length_pad_to, Hh. reflexivity.
Qed.

Lemma split_be_2 n a b :
  0 <= a < 256 ^ Z.of_nat n -> 0 <= b < 256 ^ Z.of_nat n ->
  split_be n 2 (be_put n a ++ be_put n b) = [a; b].
Proof.
  intros Ha Hb. cbn [split_be]. rewrite take_app_length' by (by rewrite length_be_put).
  rewrite drop_app_length' by (by rewrite length_be_put).
  rewrite take_ge by (rewrite length_be_put; lia). by rewrite !be_get_put_small.
Qed.

Lemma split_be_3 n a b c :
  0 <= a < 256 ^ Z.of_nat n -> 0 <= b < 256 ^ Z.of_nat n -> 0 <= c < 256 ^ Z.of_nat n ->
  split_be n 3 (be_put n a ++ be_put n b ++ be_put n c) = [a; b; c].
Proof.
  intros Ha Hb Hc. change (split_be n 3 ?l) with (be_get (take n l) :: split_be n 2 (drop n l)).
  rewrite take_app_length' by (by rewrite length_be_put). rewrite drop_app_length' by (by rewrite length_be_put).
  rewrite split_be_2 by done. by rewrite be_get_put_small.
Qed.

Lemma OS_range s : 0 <= ParseOS s < two32.
Proof. unfold ParseOS, two32. repeat case_decide; vm_compute; intuition congruence. Qed.
Lemma Arch_range s : 0 <= ParseArch s < two32.
Proof. unfold ParseArch, two32. repeat case_decide; vm_compute; intuition congruence. Qed.

Lemma read_header_final c sec nsec count len hash rest :
  Byte.x00 ∉ db_name c -> (length (db_name c) <= 32)%nat ->
  0 <= sec < two63 -> 0 <= nsec < two63 -> 0 <= count < two32 -> 0 <= len < two32 ->
  length hash = 32%nat ->
  exists h, fst (read_header (db_name c) (final_header c sec nsec count len hash ++ rest)) = Ok h /\
    h_sec h = sec /\ h_nsec h = nsec /\ h_count h = count /\
    h_dataOff h = 196 + SignatureSize /\ h_dataLen h = len /\ h_dataHash h = hash.
Proof.
  intros Hn Hl Hs Hns Hc Hlen Hh. pose proof (OS_range (db_os c)). pose proof (Arch_range (db_arch c)).
  unfold two63, two32 in *. unfold final_header, read_header, ReadBEs.
  rewrite <-!app_assoc. munfold.
  rewrite (ReadFull_app 4 (str "APDB")) by done. cbn [check bool_decide decide_rel].
  rewrite bool_decide_true by done. cbn [check].
  rewrite (ReadBE_put 4 1) by lia. cbn [check Z.eqb Pos.eqb]. rewrite (ReadBE_put 8 0) by lia.
  rewrite (app_assoc (be_put 8 sec)), (ReadFull_app (8 * 2))
    by (by rewrite length_app, !length_be_put).
  rewrite split_be_2 by lia.
  rewrite (app_assoc (be_put 4 (ParseArch _))), (app_assoc (be_put 4 (ParseOS _))),
    (ReadFull_app (4 * 3)) by (by rewrite !length_app, !length_be_put).
  rewrite split_be_3 by lia.
  rewrite (ReadFull_app 32) by apply length_pad_to.
  rewrite trim_pad by done. rewrite bool_decide_true by done. cbn [check].
  rewrite (app_assoc (be_put 4 (196 + _))), (ReadFull_app (4 * 2))
    by (by rewrite length_app, !length_be_put).
  rewrite split_be_2 by (unfold SignatureSize, PublicKeySize, Ed25519SignatureSize; lia).
  rewrite (ReadFull_app 32) by done. cbn [fst at_ nth].
  eexists. split; [reflexivity|]. cbn. rewrite !i64_small by (unfold two63; lia).
  by repeat split.
Qed.

(** Filling in one field of the header. *)
Lemma patch_count c sec nsec count0 count len hash rest :
  write_at 40 (be_put 4 count) (final_header c sec nsec count0 len hash ++ rest)
  = final_header c sec nsec count len hash ++ rest.
Proof.
  unfold final_header. set (A := str "APDB" ++ _). set (B := (pad_to 32 _ ++ _) ++ _).
  rewrite <-!(app_assoc A). rewrite <-!(app_assoc (be_put 4 _)).
  apply write_at_mid; [subst A; by rewrite !length_app, !length_be_put|by rewrite !length_be_put].
Qed.

Lemma header_start c sec nsec count len hash rest :
  be_get (take 4 (drop 76 (final_header c sec nsec count len hash ++ rest)))
  = 196 + SignatureSize.
Proof.
  unfold final_header. set (A := str "APDB" ++ _). set (B := be_put 4 len ++ _).
  rewrite <-!(app_assoc A), <-!(app_assoc (be_put 4 _)), <-!(app_assoc (pad_to 32 _)).
  rewrite (app_assoc A), (app_assoc (A ++ _)).
  rewrite drop_app_length' by (subst A; by rewrite !length_app, !length_be_put, length_pad_to).
  rewrite <-!(app_assoc (be_put 4 _)). rewrite take_app_length' by (by rewrite length_be_put).
  apply be_get_put_small. vm_compute. intuition congruence.
Qed.

Lemma patch_len c sec nsec count len0 len hash rest :
  write_at 80 (be_put 4 len) (final_header c sec nsec count len0 hash ++ rest)
  = final_header c sec nsec count len hash ++ rest.
Proof.
  unfold final_header. set (A := str "APDB" ++ _). set (B := pad_to 32 _ ++ _).
  rewrite !(app_assoc A), !(app_assoc (A ++ _)). set (A' := (A ++ _) ++ B).
  rewrite <-!(app_assoc A'), <-!(app_assoc (be_put 4 _)).
  apply write_at_mid; [|by rewrite !length_be_put].
  subst A' B A. by rewrite !length_app, !length_be_put, length_pad_to.
Qed.

Lemma patch_hash c sec nsec count len hash0 hash rest :
  length hash0 = 32%nat -> length hash = 32%nat ->
  write_at 84 hash (final_header c sec nsec count len hash0 ++ rest)
  = final_header c sec nsec count len hash ++ rest.
Proof.
  intros H0 Hh. unfold final_header. set (A := str "APDB" ++ _). set (B := pad_to 32 _ ++ _).
  rewrite !(app_assoc A), !(app_assoc (A ++ _)), !(app_assoc ((A ++ _) ++ B)).
  set (A' := ((A ++ _) ++ B) ++ _).
  rewrite <-!(app_assoc A'), <-!(app_assoc hash0), <-!(app_assoc hash).
  apply write_at_mid; [|by rewrite H0, Hh].
  subst A' B A. by rewrite !length_app, !length_be_put, length_pad_to.
Qed.

(** A key that signs as Ed25519 keys do, with the given public key. *)
Definition key_works `{Ed25519} (k : HsmKey) (pub : bytes) : Prop :=
  PublicBlob k = Ok pub /\ Z.of_nat (length pub) = PublicKeySize /\
  forall hd, exists blob, KeySign k hd = Ok blob /\
    Z.of_nat (length blob) = Ed25519SignatureSize /\ ed25519_Verify pub hd blob = Ok true.

(** ** The file passes the checks *)

Lemma export_file_checks `{BoltSpec} `{Ed25519} k c sec nsec b pub signer data count :
  key_works k pub -> trustedDbSig !! RawURLEncode pub = Some signer ->
  Byte.x00 ∉ db_name c -> (length (db_name c) <= 32)%nat ->
  0 <= sec < two63 -> 0 <= nsec < two63 ->
  export_data b = Ok (data, count) -> 0 <= count < two32 ->
  196 + SignatureSize + Z.of_nat (length data) < two32 ->
  exists f h, export_file k c sec nsec b = Ok f /\ check_file (db_name c) f = Ok (h, data) /\
    h_sec h = sec /\ h_nsec h = nsec /\ h_count h = count.
Proof.
  intros (Hpub & Hlp & Hkey) Htr Hn Hl Hs Hns Hd Hc Hlen.
  set (len := Z.of_nat (length data)) in *.
  set (hd := final_header c sec nsec count len (Sum256 data)).
  destruct (Hkey hd) as (blob & Hsign & Hlb & Hv).
  destruct (Sign_works k hd pub blob trustedDbSig signer [] Hpub Hlp Hsign Hlb Hv Htr)
    as (sg & Esg & Lsg & Vsg). rewrite app_nil_r in Vsg.
  destruct (Sign_works k hd pub blob trustedDbSig signer data Hpub Hlp Hsign Hlb Hv Htr)
    as (sg' & Esg' & _ & Vdb). rewrite Esg in Esg'. injection Esg' as <-.
  assert (length hd = 196%nat) as Lhd by apply length_final_header, length_Sum256.
  set (space := replicate (Z.to_nat SignatureSize) Byte.x00).
  assert (length space = length sg) as Lsp.
  { subst space. rewrite length_replicate. lia. }
  destruct (read_header_final c sec nsec count len (Sum256 data) (sg ++ data))
    as (h & Eh & H1' & H2' & H3' & H4' & H5' & H6'); try done; try lia; [apply length_Sum256|].
  exists (hd ++ sg ++ data), h. split; [|split; [|done]].
  - unfold export_file. rewrite header0_final.
    rewrite length_final_header by reflexivity. cbn [check Z.eqb Z.of_nat Pos.of_succ_nat].
    munfold. change (Z.of_nat 196 =? 196) with true. cbn [check]. rewrite Hd. cbn [fst snd].
    fold space. rewrite <-app_assoc.
    rewrite patch_count, header_start, patch_len, patch_hash by (done || apply length_Sum256).
    assert (u32 (Z.of_nat (length (final_header c sec nsec 0 0 emptyHash ++ space ++ data))
                 - (196 + SignatureSize)) = len) as ->.
    { rewrite !length_app, length_final_header by done. rewrite Lsp.
      replace (Z.of_nat (196 + (length sg + length data)) - (196 + SignatureSize)) with len by lia.
      apply u32_small. vm_compute SignatureSize in *. lia. }
    fold hd. assert (take 196 (hd ++ space ++ data) = hd) as -> by (by rewrite take_app_length').
    rewrite Esg. unfold VerifyDb. rewrite Vsg. cbn [fst]. f_equal.
    apply write_at_mid; done.
  - unfold check_file. fold hd in Eh. rewrite Eh. munfold. rewrite H4', H5', H6'.
    assert (section_at (hd ++ sg ++ data) (196 + SignatureSize) len = data) as ->.
    { unfold section_at. rewrite app_assoc.
      rewrite drop_app_length' by (rewrite length_app; lia).
      apply take_ge. lia. }
    fold len. rewrite Z.eqb_refl. cbn [check]. rewrite bool_decide_true by done. cbn [check].
    rewrite ReadFull_app by done. cbn [fst].
    rewrite drop_app_length' by done. unfold VerifyDb. by rewrite Vdb.
Qed.

(** ** Indexing what was exported *)

Section roundtrip.
Context `{BoltSpec, LlrbOps, Ldcache, !Json, GoRange, Ed25519}.

(** A package within the limits of the store, whose own [ld.so.cache] entries,
    if it has any, are as well. *)
Definition importable (e : pkgEntry) : Prop :=
  entry_fits e = true /\
  exists l, meta_ldso (e_meta e) = Ok l /\
    Forall (fun x => valid_key (ld_Value x) && valid_value (Marshal_entry x) = true) l.

Lemma store_ldso_ok l b :
  has b ldsoBucket ->
  Forall (fun x => valid_key (ld_Value x) && valid_value (Marshal_entry x) = true) l ->
  exists b', store_ldso l b = (Ok tt, b').
Proof.
  intros Hh Hl. revert b Hh. induction Hl as [|x l Hx _ IH]; intros b Hh; [by exists b|].
  apply andb_true_iff in Hx as [Hk Hv]. cbn [store_ldso].
  apply put_ok_then; [done..|]. intros b1 K. by apply IH, K.
Qed.

Lemma store_pkg_ok e b :
  Forall (has b) indexBuckets -> importable e -> bk b pkgBucket !! e_hash e = None ->
  exists b', store_pkg e b = (Ok tt, b') /\ pkg_put [ldsoBucket] e b b'.
Proof.
  intros Hh [Hf (l & El & Hl)] Hn.
  assert (Forall (has b) addBuckets /\ has b ldsoBucket) as [Ha Hd].
  { unfold indexBuckets, addBuckets in *. rewrite !Forall_cons in *. tauto. }
  assert (exists b', store_pkg e b = (Ok tt, b')) as [b' E].
  { unfold store_pkg. munfold. rewrite Get_bk, Hn.
    destruct (put_pkg_ok e b Ha Hf) as (b1 & -> & (_ & _ & _ & _ & _ & _ & _ & K)).
    rewrite El. apply store_ldso_ok; [by apply K|done]. }
  exists b'. split; [done|]. apply store_pkg_Ok in E as [[[? ?] _]|[_ P]]; [congruence|done|done].
Qed.

Lemma pkg_value_name e : drop 25 (pkg_value e) = e_name e.
Proof.
  unfold pkg_value. change (Byte.x00 :: ?x) with ([Byte.x00] ++ x).
  rewrite !app_assoc. apply drop_app_length'.
  by rewrite !length_app, !length_be_put, length_replicate.
Qed.

Definition entry_kv (e : pkgEntry) : kv := (collatedVersion (e_name e), p2p_value e).

(** Fresh packages: all are stored, and the name index gets their keys. *)
Lemma index_packages_fresh es b rest :
  Forall (has b) indexBuckets -> Forall exportable es -> Forall importable es ->
  NoDup (map e_hash es) -> Forall (fun e => bk b pkgBucket !! e_hash e = None) es ->
  exists b', index_packages (length es) (concat (map encode_pkg es) ++ rest) b = (Ok rest, b') /\
    Forall (has b') indexBuckets /\
    (forall m, m ∉ ldsoBucket :: addBuckets -> bk b' m = bk b m) /\
    bk b' p2pBucket = foldl (fun m e => <[(entry_kv e).1 := (entry_kv e).2]> m) (bk b p2pBucket) es /\
    Forall (stored b') es /\
    (forall e, e_hash e ∉ map e_hash es -> stored b e -> stored b' e).
Proof.
  intros Hh Hx Hi. revert b Hh. induction Hx as [|e es He Hx IH]; intros b Hh Hnd Hf.
  { exists b. do 4 (split; [done|]). by split. }
  apply Forall_cons in Hi as [Hie Hi], Hf as [Hfe Hf]. cbn [map] in Hnd.
  apply NoDup_cons in Hnd as [Hne Hnd]. cbn [length map concat index_packages].
  rewrite <-app_assoc, read_pkg_encode by done. munfold.
  destruct (store_pkg_ok e b Hh Hie Hfe) as (b1 & -> & P). pose proof P as P0.
  destruct P as (P1 & P2 & P3 & P4 & P5 & P6 & Po & K).
  destruct (IH Hi b1) as (b' & E & Hh' & Fr & Ep & St & Pr); [by eapply pkg_put_has|done| |].
  { rewrite Forall_forall in Hf |- *. intros x Hin. rewrite P2, lookup_insert_ne; [by apply Hf|].
    intros Eh. apply Hne. rewrite Eh. by apply (list_elem_of_fmap_2 e_hash). }
  exists b'. split; [done|]. split; [done|]. split; [intros m Hm; rewrite Fr by done; by apply Po|].
  split; [by rewrite Ep, P1|].
  assert (forall x, e_hash x ∉ map e_hash es -> stored b1 x -> stored b' x) as Pr' by done.
  split.
  - constructor; [|done]. apply Pr'; [done|]. unfold stored.
    by rewrite P2, P3, P4, P5, P6, !lookup_insert_eq.
  - intros x Hx' Sx. cbn [map] in Hx'. apply not_elem_of_cons in Hx' as [Hxe Hx'].
    apply Pr'; [done|]. unfold stored in *.
    by rewrite P2, P3, P4, P5, P6, !lookup_insert_ne.
Qed.

Lemma index_pins_ok ps b fuel :
  has b pinsBucket -> Forall pin_ok ps -> (length ps < fuel)%nat ->
  exists b', index_pins fuel (concat (map encode_pin ps)) b = (Ok tt, b') /\
    (forall m, has b m -> has b' m).
Proof.
  intros Hh Hp. revert b fuel Hh. induction Hp as [|p ps Hp _ IH]; intros b [|fuel] Hh Hf;
    try (cbn in Hf; lia).
  { by exists b. }
  cbn [map concat index_pins].
  change (encode_pin p) with ([Byte.x01] ++ drop 1 (encode_pin p)). rewrite <-app_assoc.
  change ([Byte.x01] ++ ?x) with (be_put 1 1 ++ x).
  rewrite (ReadBE_put 1) by lia. cbn [negb Z.eqb Pos.eqb]. rewrite read_pin_encode by done.
  destruct p as [[ch pfx] v]. destruct Hp as (_ & L1 & L2 & L3). cbn [fst snd] in *. munfold.
  destruct (tx_put_ok pinsBucket (pinKey ch pfx) v b Hh) as (b1 & -> & C).
  { unfold valid_key, pinKey, MaxKeySize. rewrite length_app. cbn [length]. apply andb_true_iff.
    split; [apply Z.ltb_lt|apply Z.leb_le]; lia. }
  { unfold valid_value, MaxValueSize. lia. }
  cbn in Hf. destruct (IH b1 fuel) as (b' & -> & K); [by eapply changed_has|lia|].
  exists b'. split; [done|]. intros m Hm. by apply K, (changed_has _ _ _ _ _ C).
Qed.

Lemma foldl_insert_kv (es : list pkgEntry) (acc : gmap bytes bytes) k v :
  NoDup (map (fun e => (entry_kv e).1) es) ->
  foldl (fun m e => <[(entry_kv e).1 := (entry_kv e).2]> m) acc es !! k = Some v <->
  (k, v) ∈ map entry_kv es \/ (k ∉ map (fun e => (entry_kv e).1) es) /\ acc !! k = Some v.
Proof.
  revert acc. induction es as [|e es IH]; intros acc Hnd; cbn [map foldl].
  { rewrite !elem_of_nil. tauto. }
  cbn [map] in Hnd. apply NoDup_cons in Hnd as [Hn Hnd]. rewrite IH by done.
  rewrite !elem_of_cons, lookup_insert_Some.
  assert (forall w, ((entry_kv e).1, w) ∈ map entry_kv es ->
    (entry_kv e).1 ∈ map (fun e => (entry_kv e).1) es) as Hin.
  { intros w (q & Eq & Hq)%list_elem_of_fmap.
    replace (entry_kv e).1 with (entry_kv q).1 by (by rewrite <-Eq).
    by apply (list_elem_of_fmap_2 (fun e => (entry_kv e).1)). }
  destruct (decide (k = (entry_kv e).1)) as [->|Hne].
  - split.
    { intros [?|[? [[_ <-]|[? _]]]]; [by auto| |done]. left. left. by destruct (entry_kv e). }
    intros [[E|?]|[Hx _]]; [right; rewrite <-E; auto|auto|]. exfalso. apply Hx. by left.
  - split; [intros [?|[? [[? _]|[_ ?]]]]; auto; try done|].
    + right. split; [|done]. by intros [?|?].
    + intros [[E|?]|[Hx ?]]; [by rewrite <-E in Hne|auto|]. right.
      split; [by intros ?; apply Hx; right|]. right. by split; [apply not_eq_sym|].
Qed.

Lemma listing_keys b es :
  has b p2pBucket -> listing b es ->
  Entries b p2pBucket = map entry_kv es /\ NoDup (map (fun e => (entry_kv e).1) es) /\
  NoDup (map e_hash es) /\ Forall (stored b) es.
Proof.
  intros [m Hm] Hl. unfold listing in Hl.
  assert (Entries b p2pBucket = map entry_kv es /\ Forall (stored b) es) as [El Hs].
  { induction Hl as [|x e l es [-> Se] _ [IH1 IH2]]; [done|]. cbn. split; [by f_equal|by constructor]. }
  assert (NoDup (map (fun e => (entry_kv e).1) es)) as Hk.
  { destruct (Entries_spec b p2pBucket m Hm) as [Hp _].
    assert (map (fun e => (entry_kv e).1) es = (Entries b p2pBucket).*1) as ->
      by (rewrite El; symmetry; apply (map_map entry_kv fst)).
    rewrite Hp. apply NoDup_fst_map_to_list. }
  split; [done|]. split; [done|]. split; [|done].
  clear -Hk Hs. induction es as [|e es IH]; [constructor|]. cbn [map] in *.
  apply NoDup_cons in Hk as [Hn Hk]. apply Forall_cons in Hs as [Se Hs].
  apply NoDup_cons. split; [|by apply IH].
  intros (x & Ex & Hx)%list_elem_of_fmap. apply Hn.
  rewrite Forall_forall in Hs. destruct (Hs x Hx) as (Sx & _). destruct Se as (Se & _).
  assert (pkg_value e = pkg_value x) as Ev by (rewrite <-Ex in Sx; congruence).
  assert (e_name e = e_name x) as En by (rewrite <-!pkg_value_name; by f_equal).
  unfold entry_kv. cbn. rewrite En.
  by apply (list_elem_of_fmap_2 (fun e => (entry_kv e).1) es x).
Qed.

(** The name index is made of the packages listed. *)
Lemma foldl_listing b es :
  has b p2pBucket -> listing b es ->
  foldl (fun m e => <[(entry_kv e).1 := (entry_kv e).2]> m) ∅ es = bk b p2pBucket.
Proof.
  intros Hp2p Hl. destruct (listing_keys b es Hp2p Hl) as (El & Hkeys & _).
  apply map_eq. intros x. apply option_eq. intros v.
  rewrite foldl_insert_kv, lookup_empty, <-El by done.
  destruct Hp2p as [m Hm]. unfold bk. rewrite Hm. cbn [default from_option id].
  rewrite <-(Entries_lookup b p2pBucket m) by done. split; [intros [?|[_ ?]]; done|auto].
Qed.

(** The data section of an export. *)
Lemma export_data_listing b es ps :
  db_wf b -> has b p2pBucket -> listing b es -> pin_listing b ps -> Forall exportable es ->
  Z.of_nat (length es) < two32 ->
  export_data b = Ok (concat (map encode_pkg es) ++ concat (map encode_pin ps), Z.of_nat (length es)).
Proof.
  intros [_ Hall] Hp2p Hl Hpl Hx Hc. destruct (export_pins_listing b ps Hpl) as [Epins _].
  unfold export_data. rewrite (proj2 (has_bucket_has b p2pBucket) Hp2p).
  rewrite (export_pkgs_listing b _ es 0 (Hall Hp2p) Hx Hl) by lia. munfold. cbn [fst snd].
  by rewrite Epins.
Qed.

(** Indexing the data section of the export into an empty database. *)
Lemma index_tx_listing h es ps data :
  h_count h = Z.of_nat (length es) -> data = concat (map encode_pkg es) ++ concat (map encode_pin ps) ->
  Forall exportable es -> Forall importable es -> NoDup (map e_hash es) -> Forall pin_ok ps ->
  exists b', index_tx h data bolt_empty = (Ok tt, b') /\
    bk b' p2pBucket = foldl (fun m e => <[(entry_kv e).1 := (entry_kv e).2]> m) ∅ es /\
    bk b' pinsBucket = foldl put_pin ∅ ps /\
    bk b' infoBucket !! versionKey = Some (Stamp (h_sec h) (h_nsec h)) /\
    Forall (stored b') es.
Proof.
  intros Hc -> Hx Hi Hnd Hp. unfold index_tx. munfold.
  destruct (create_buckets_ok indexBuckets bolt_empty indexBuckets_nonempty)
    as (b0 & -> & Hs0 & _ & Hh0).
  assert (forall m, bk b0 m = ∅) as He.
  { intros m. rewrite Hs0. unfold bk. by rewrite contents_empty. }
  rewrite Hc, Nat2Z.id.
  destruct (index_packages_fresh es b0 (concat (map encode_pin ps)) Hh0 Hx Hi Hnd)
    as (b1 & -> & Hh1 & Fr & Ep & St & _).
  { apply Forall_forall. intros e _. by rewrite He. }
  rewrite He in Ep.
  assert (has b1 pinsBucket /\ has b1 infoBucket) as [Hpin Hinfo].
  { unfold indexBuckets in Hh1. rewrite !Forall_cons in Hh1. tauto. }
  pose proof (length_encode_pins ps) as Hlp.
  destruct (index_pins_ok ps b1 (S (length (concat (map encode_pin ps)))) Hpin Hp ltac:(lia))
    as (b2 & E2 & K2). rewrite E2.
  apply index_pins_Ok in E2 as (ps' & Er & Epin & Fr2 & _); [|done].
  rewrite read_pins_encode in Er by (done || lia). injection Er as <-.
  destruct (tx_put_ok infoBucket versionKey (Stamp (h_sec h) (h_nsec h)) b2 (K2 _ Hinfo))
    as (b3 & -> & C); [done| |].
  { apply Z.leb_le. pose proof (length_Stamp_le (h_sec h) (h_nsec h)). unfold MaxValueSize. lia. }
  exists b3. split; [done|].
  split; [rewrite (changed_ne _ _ _ _ _ C), Fr2 by discriminate; done|].
  split.
  { rewrite (changed_ne _ _ _ _ _ C), Epin by discriminate.
    rewrite Fr, He; [done|bucket_dec]. }
  split; [rewrite (changed_eq _ _ _ _ C); apply lookup_insert_eq|].
  eapply Forall_impl; [exact St|]. intros e Se. unfold stored in *.
  by rewrite !(changed_ne _ _ _ _ _ C), !Fr2 by discriminate.
Qed.

(** C15: the file format round trip.  For a consistent database within the
    limits of the format, exporting with a working key of a trusted signer
    gives a file that passes every check of [index], and indexing it into an
    empty database succeeds and reproduces the name index and the pins exactly,
    stores every listed package whole, and records the version stamp of the
    export. *)
Theorem export_roundtrip k c sec nsec b pub signer es ps :
  db_wf b -> has b p2pBucket -> listing b es -> pin_listing b ps ->
  Forall exportable es -> Forall importable es ->
  key_works k pub -> trustedDbSig !! RawURLEncode pub = Some signer ->
  Byte.x00 ∉ db_name c -> (length (db_name c) <= 32)%nat ->
  0 <= sec < two63 -> 0 <= nsec < two63 -> Z.of_nat (length es) < two32 ->
  196 + SignatureSize +
    Z.of_nat (length (concat (map encode_pkg es) ++ concat (map encode_pin ps))) < two32 ->
  exists f h data b', export_file k c sec nsec b = Ok f /\
    check_file (db_name c) f = Ok (h, data) /\
    index_tx h data bolt_empty = (Ok tt, b') /\
    bk b' p2pBucket = bk b p2pBucket /\ bk b' pinsBucket = bk b pinsBucket /\
    bk b' infoBucket !! versionKey = Some (Stamp sec nsec) /\ Forall (stored b') es.
Proof.
  intros Hw Hp2p Hl Hpl Hx Hi Hk Htr Hn Hln Hs Hns Hc Hlen.
  destruct (export_pins_listing b ps Hpl) as [_ Hpo].
  destruct (listing_keys b es Hp2p Hl) as (El & Hkeys & Hnd & Hst).
  pose proof (export_data_listing b es ps Hw Hp2p Hl Hpl Hx Hc) as Ed.
  destruct (export_file_checks k c sec nsec b pub signer _ _ Hk Htr Hn Hln Hs Hns Ed)
    as (f & h & Ef & Eck & Hsec & Hnsec & Hcnt); [lia..|].
  destruct (index_tx_listing h es ps _ Hcnt eq_refl Hx Hi Hnd Hpo) as (b' & Et & E1 & E2 & E3 & E4).
  exists f, h, (concat (map encode_pkg es) ++ concat (map encode_pin ps)), b'.
  do 3 (split; [done|]).
  split; [|split; [by rewrite E2, (put_pins_bucket b)|by rewrite <-Hsec, <-Hnsec]].
  by rewrite E1, (foldl_listing b es).
Qed.
End roundtrip.

(** ** The upload *)

Section upload.
Context `{BoltSpec, LlrbOps, Ldcache, !Json, GoRange, Ed25519}.
Variable jwt_Sign : gmap bytes bytes -> bytes -> HsmKey -> outcome bytes.

Abbreviation xst := (DB * list effect)%type.

Definition not_exec (e : effect) : Prop := match e with Exec _ => False | _ => True end.

(** Steps that leave the data, the settings and the lock alone, and add only
    effects that satisfy [P]. *)
Definition quiet (P : effect -> Prop) {A} (m : ST xst A) : Prop :=
  forall s o s', m s = (o, s') ->
  file s'.1 = file s.1 /\ conf s'.1 = conf s.1 /\ locked s'.1 = locked s.1 /\
  exists l, s'.2 = s.2 ++ l /\ Forall P l.

Lemma quiet_os_call P : quiet P (on_db os_call).
Proof.
  intros s o s'. unfold on_db.
  destruct (os_call_spec s.1) as (o1 & d1 & -> & _ & M & _ & F & L & _). intros [= <- <-].
  cbn. split; [done|]. split; [apply M|]. split; [done|]. exists []. by rewrite app_nil_r.
Qed.

Lemma quiet_emit (P : effect -> Prop) e : P e -> quiet P (emit e).
Proof. intros Hp s o s'. unfold emit. intros [= <- <-]. cbn. eauto 10. Qed.

Lemma quiet_lift P {A} (o : outcome A) : quiet P (lift_st o).
Proof. intros s o' s' [= <- <-]. repeat split. exists []. by rewrite app_nil_r. Qed.

Lemma quiet_bind P {A B} (m : ST xst A) (f : A -> ST xst B) :
  quiet P m -> (forall a, quiet P (f a)) -> quiet P (m ≫= f).
Proof.
  intros Hm Hf s o s' [(a & s1 & E1 & E2)|(om & E1 & _)]%bind_cases; [|by eapply Hm].
  destruct (Hm _ _ _ E1) as (F1 & C1 & L1 & l1 & W1 & P1).
  destruct (Hf _ _ _ _ E2) as (F2 & C2 & L2 & l2 & W2 & P2).
  repeat split; [congruence..|]. exists (l1 ++ l2). rewrite W2, W1, app_assoc.
  split; [done|]. by apply Forall_app.
Qed.

Lemma quiet_run_all cmds : quiet (fun _ => True) (run_all cmds).
Proof.
  induction cmds as [|c cmds IH]; [apply (quiet_lift _ (Ok tt))|]. cbn [run_all].
  apply quiet_bind; [by apply quiet_emit|intros _].
  apply quiet_bind; [apply quiet_os_call|by intros _].
Qed.

Lemma quiet_export_write k c sec nsec fn : quiet not_exec (export_write k c sec nsec fn).
Proof.
  unfold export_write. apply quiet_bind; [apply quiet_os_call|intros _].
  apply quiet_bind; [|intros f].
  { intros s o s'. unfold on_db. intros [= <- <-]. cbn. repeat split.
    exists []. by rewrite app_nil_r. }
  apply quiet_bind; [apply quiet_os_call|intros _].
  apply quiet_bind; [by apply quiet_emit|intros _].
  apply quiet_bind; [apply quiet_os_call|intros _]. apply (quiet_lift _ (Ok f)).
Qed.

(** A write that succeeds has logged the file it returns. *)
Lemma export_write_logged k c sec nsec fn s f s' :
  export_write k c sec nsec fn s = (Ok f, s') -> WriteFile fn f ∈ s'.2.
Proof.
  unfold export_write.
  intros [(? & s1 & _ & E)|(om & _ & _ & ?)]%bind_cases; [|done]. revert E.
  intros [(f0 & s2 & _ & E)|(om & _ & _ & ?)]%bind_cases; [|done]. revert E.
  intros [(? & s3 & _ & E)|(om & _ & _ & ?)]%bind_cases; [|done]. revert E.
  intros [(? & s4 & E4 & E)|(om & _ & _ & ?)]%bind_cases; [|done]. revert E.
  intros [(? & s5 & E5 & E)|(om & _ & _ & ?)]%bind_cases; [|done].
  injection E as -> <-. injection E4 as _ <-.
  apply (quiet_os_call not_exec) in E5 as (_ & _ & _ & l & -> & _). cbn. set_solver.
Qed.

Lemma quiet_export_publish k c fn stamp : quiet (fun _ => True) (export_publish jwt_Sign k c fn stamp).
Proof.
  unfold export_publish. apply quiet_bind; [apply quiet_os_call|intros _].
  apply quiet_bind; [by apply quiet_emit|intros _]. apply quiet_bind; [apply quiet_lift|intros pub].
  apply quiet_bind; [apply quiet_os_call|intros _]. apply quiet_bind; [apply quiet_lift|intros tok].
  apply quiet_bind; [apply quiet_os_call|intros _]. apply quiet_bind; [by apply quiet_emit|intros _].
  apply quiet_run_all.
Qed.

(** C32: nothing is uploaded that the database's own [index] has not accepted.
    When [ExportAndUpload] has run any command, the file it wrote passed every
    check of [index] and the data it holds was stored; and when it fails
    before that, no command was run. *)
Theorem upload_checked k sec nsec d o d' log :
  locked d = false ->
  ExportAndUpload jwt_Sign k sec nsec (d, []) = (o, (d', log)) ->
  Forall not_exec log \/
  exists f h data,
    WriteFile (path_Join [db_path (conf d); Stamp sec nsec ++ str ".bin"]) f ∈ log /\
    check_file (db_name (conf d)) f = Ok (h, data) /\
    index_effect h data (file d) (file d').
Proof.
  intros Hl. unfold ExportAndUpload. set (fn := path_Join _).
  intros [(s0 & s0' & E0 & E)|(om & E0 & Ho & _)]%bind_cases; [|by injection E0 as <- _].
  injection E0 as <- <-. cbn [fst] in E. fold fn in E. revert E.
  intros [(f & s1 & E1 & E)|(om & E1 & _)]%bind_cases.
  2: { apply quiet_export_write in E1 as (_ & _ & _ & l & W & Hn). cbn in W. subst log. by left. }
  pose proof (export_write_logged _ _ _ _ _ _ _ _ E1) as Hlog.
  apply quiet_export_write in E1 as (F1 & C1 & L1 & l1 & W1 & N1). cbn in F1, C1, L1, W1.
  revert E. intros [([] & s2 & E2 & E)|(om & E2 & Ho & _)]%bind_cases.
  2: { left. revert E2. unfold on_db. destruct (index f s1.1) as [o2 d2].
       intros [= _ _ <-]. cbn. by rewrite W1. }
  right. revert E2. unfold on_db. destruct (index f s1.1) as [o2 d2] eqn:Ei. intros [= -> <-].
  apply index_cases in Ei; [|congruence]. rewrite C1 in Ei.
  destruct (check_file (db_name (conf d)) f) as [[h data]| |] eqn:Ec; [|by destruct Ei..].
  destruct Ei as (_ & _ & [Hi|[_ ?]]); [|done].
  apply quiet_export_publish in E as (F2 & _ & _ & l2 & W2 & _). cbn in F2, W2.
  exists f, h, data. split; [subst log; set_solver|]. split; [done|].
  by rewrite F2, <-F1.
Qed.
End upload.

(** ** Concrete instance, for evaluation *)

Module SampleExport.
#[local] Existing Instance MapBolt.ops.
#[local] Existing Instance MapBolt.spec.
#[local] Existing Instance Sample.list_llrb.
#[local] Existing Instance SampleLd.ldcache.
#[local] Existing Instance SampleLd.json.
#[local] Existing Instance SampleLd.range.
#[local] Existing Instance Toy.toy_ed25519.
#[local] Existing Instance Toy.toy_ed25519_spec.

Definition entry : pkgEntry := {|
  e_hash := be_put 32 77; e_size := 40960; e_inodes := 3;
  e_name := str "sys-libs.zlib.libs.1.2.13.linux.amd64"; e_path := str "sys-libs/zlib.apkg";
  e_header := str "header"; e_sig := str "sig"; e_meta := str "libz.so.1" |}.
Definition the_pin : pin := (str "stable", str "sys-libs.zlib.libs", str "1.2").

Definition base : @bdb MapBolt.ops := snd (create_buckets indexBuckets bolt_empty).
Definition with_pkg : @bdb MapBolt.ops := snd (put_pkg entry base).
Definition data : @bdb MapBolt.ops :=
  snd (tx_put pinsBucket (pinKey (str "stable") (str "sys-libs.zlib.libs")) (str "1.2") with_pkg).

Definition exported : bytes :=
  match export_file (Toy.key Toy.db_kid) Sample.sample_conf 1654048543 0 data with
  | Ok f => f | _ => [] end.

Lemma data_wf : db_wf data.
Proof.
  assert (Forall (has base) addBuckets) as Hb by (apply has_all; vm_compute; reflexivity).
  assert (db_wf base) as H0.
  { split; [|done]. intros k v. replace (bk base p2pBucket) with (∅ : gmap bytes bytes)
      by (vm_compute; reflexivity). by rewrite lookup_empty. }
  assert (db_wf with_pkg) as H1.
  { destruct (put_pkg_ok entry base Hb) as (b' & E & P); [vm_compute; reflexivity|].
    replace with_pkg with b' by (unfold with_pkg; by rewrite E).
    assert (wf_entry entry) as We by (vm_compute; intuition congruence).
    assert (bk base pkgBucket !! e_hash entry = None) as Hn by (vm_compute; reflexivity).
    pose proof (db_wf_put [] entry base b' We H0 Hb Hn P) as W.
    exact W. }
  assert (Forall (has data) addBuckets) as Hd by (apply has_all; vm_compute; reflexivity).
  refine (db_wf_same with_pkg data H1 _ Hd). intros m Hm.
  destruct (tx_put_ok pinsBucket (pinKey (str "stable") (str "sys-libs.zlib.libs")) (str "1.2") with_pkg)
    as (b' & E & C); [apply has_bucket_has|..|]; [vm_compute; reflexivity..|].
  replace data with b' by (unfold data; by rewrite E).
  apply (changed_ne _ _ _ _ _ C). intros ->. revert Hm. bucket_dec.
Qed.

Lemma key_ok : key_works (Toy.key Toy.db_kid) (Toy.pub_of Toy.db_kid).
Proof.
  split; [vm_compute; reflexivity|]. split; [vm_compute; reflexivity|].
  intros hd. exists (Toy.sig_of (Toy.pub_of Toy.db_kid)).
  split; [reflexivity|]. split; vm_compute; reflexivity.
Qed.
Lemma entry_exportable : exportable entry.
Proof. vm_compute. intuition congruence. Qed.
Lemma entry_importable : importable entry.
Proof.
  split; [vm_compute; reflexivity|].
  exists [(str "libz.so.1", str "libz.so.1")]. split; [reflexivity|]. by constructor.
Qed.
Lemma data_stored : stored data entry.
Proof. repeat split; vm_compute; reflexivity. Qed.
Lemma data_listing : listing data [entry].
Proof.
  unfold listing. replace (Entries data p2pBucket) with [(collatedVersion (e_name entry), p2p_value entry)]
    by (vm_compute; reflexivity).
  constructor; [|constructor]. split; [reflexivity|apply data_stored].
Qed.
Lemma data_pins : pin_listing data [the_pin].
Proof.
  unfold pin_listing. replace (has_bucket data pinsBucket) with true by (vm_compute; reflexivity).
  replace (Entries data pinsBucket) with [(pinKey (str "stable") (str "sys-libs.zlib.libs"), str "1.2")]
    by (vm_compute; reflexivity).
  constructor; [|constructor]. split; [vm_compute; reflexivity|].
  split; [bucket_dec|]. vm_compute. intuition congruence.
Qed.
Lemma name_ok : Byte.x00 ∉ db_name Sample.sample_conf.
Proof. bucket_dec. Qed.
End SampleExport.

Lemma export_roundtrip_witness :
  exists f h data b',
    @export_file MapBolt.ops Toy.toy_ed25519 (Toy.key Toy.db_kid) Sample.sample_conf 1654048543 0
      SampleExport.data = Ok f /\
    @check_file Toy.toy_ed25519 (str "main") f = Ok (h, data) /\
    @index_tx MapBolt.ops SampleLd.ldcache SampleLd.json h data bolt_empty = (Ok tt, b') /\
    @bk MapBolt.ops MapBolt.spec b' p2pBucket = @bk MapBolt.ops MapBolt.spec SampleExport.data p2pBucket.
Proof.
  destruct (@export_roundtrip MapBolt.ops MapBolt.spec SampleLd.ldcache SampleLd.json Toy.toy_ed25519
    (Toy.key Toy.db_kid) Sample.sample_conf 1654048543 0 SampleExport.data (Toy.pub_of Toy.db_kid)
    (str "Mark Karpeles <magicaltux@gmail.com>") [SampleExport.entry] [SampleExport.the_pin]
    SampleExport.data_wf) as (f & h & dt & b' & E1 & E2 & E3 & E4 & _).
  - apply has_bucket_has. vm_compute. reflexivity.
  - exact SampleExport.data_listing.
  - exact SampleExport.data_pins.
  - constructor; [exact SampleExport.entry_exportable|constructor].
  - constructor; [exact SampleExport.entry_importable|constructor].
  - exact SampleExport.key_ok.
  - vm_compute. reflexivity.
  - exact SampleExport.name_ok.
  - vm_compute. lia.
  - vm_compute. intuition congruence.
  - vm_compute. intuition congruence.
  - vm_compute. reflexivity.
  - vm_compute. reflexivity.
  - exists f, h, dt, b'. split; [exact E1|]. split; [exact E2|]. split; [exact E3|exact E4].
Defined.

(** The checks on the exported file. *)
Lemma check_file_sound_witness :
  exists h data,
    @check_file Toy.toy_ed25519 (str "main") SampleExport.exported = Ok (h, data) /\
    field 0 4 SampleExport.exported = str "APDB" /\
    trim_nul (field 44 32 SampleExport.exported) = str "main" /\
    h_count h = 1 /\ Sum256 data = field 84 32 SampleExport.exported.
Proof.
  destruct (@check_file Toy.toy_ed25519 (str "main") SampleExport.exported) as [[h d]|e|] eqn:E.
  - destruct (@check_file_sound Toy.toy_ed25519 Toy.toy_ed25519_spec _ _ h d E)
      as (_ & Hm & _ & Hn & (_ & _ & _ & _ & _ & Hc & _) & _ & _ & Hs & _).
    exists h, d. split; [reflexivity|]. split; [exact Hm|]. split; [exact Hn|]. split; [|exact Hs].
    rewrite Hc. vm_compute. reflexivity.
  - exfalso. revert E. vm_compute. discriminate.
  - exfalso. revert E. vm_compute. discriminate.
Defined.

Lemma index_atomic_witness :
  exists h dt o d',
    @check_file Toy.toy_ed25519 (str "main") SampleExport.exported = Ok (h, dt) /\
    @index MapBolt.ops Sample.list_llrb SampleLd.ldcache SampleLd.json SampleLd.range
      Toy.toy_ed25519 SampleExport.exported Sample.db = (o, d') /\
    locked d' = false.
Proof.
  destruct (@check_file Toy.toy_ed25519 (str "main") SampleExport.exported) as [[h dt]|e|] eqn:E.
  - destruct (@index MapBolt.ops Sample.list_llrb SampleLd.ldcache SampleLd.json SampleLd.range
      Toy.toy_ed25519 SampleExport.exported Sample.db) as [o d'] eqn:Ei.
    exists h, dt, o, d'. split; [reflexivity|]. split; [reflexivity|].
    pose proof (@index_atomic MapBolt.ops MapBolt.spec Sample.list_llrb SampleLd.ldcache SampleLd.json
      SampleLd.range Toy.toy_ed25519 SampleExport.exported Sample.db o d' eq_refl Ei) as W.
    change (db_name (conf Sample.db)) with (str "main") in W. rewrite E in W. exact (proj1 W).
  - exfalso. revert E. vm_compute. discriminate.
  - exfalso. revert E. vm_compute. discriminate.
Defined.

Definition sample_info : pkgInfo := {|
  p_hash := be_put 32 78; p_size := 4096; p_inodes := 2; p_name := str "a.b.core.1.linux.amd64";
  p_rawHeader := str "h"; p_rawSig := str "s"; p_rawMeta := str "m" |}.

Lemma AddPackage_spec_witness :
  exists o d', @AddPackage MapBolt.ops Sample.list_llrb (str "a/b.apkg") sample_info Sample.db = (o, d') /\
    o = Ok tt.
Proof.
  destruct (@AddPackage_spec MapBolt.ops MapBolt.spec Sample.list_llrb (str "a/b.apkg") sample_info Sample.db)
    as (o & d' & E & _ & _ & _ & _ & Z); [reflexivity|].
  exists o, d'. split; [exact E|]. apply Z; vm_compute; reflexivity.
Defined.

Lemma RemovePackage_spec_witness :
  exists o d', @RemovePackage MapBolt.ops Sample.list_llrb (e_name SampleExport.entry)
      (set_file SampleExport.data Sample.db) = (o, d') /\ o = Ok tt.
Proof.
  destruct (@RemovePackage_spec MapBolt.ops MapBolt.spec Sample.list_llrb (e_name SampleExport.entry)
              (set_file SampleExport.data Sample.db)) as (o & d' & E & _ & _ & Z & _); [reflexivity..|].
  exists o, d'. split; [exact E|]. apply Z. apply has_bucket_has. vm_compute. reflexivity.
Defined.

Lemma db_wf_preserved_witness :
  exists o d', @AddPackage MapBolt.ops Sample.list_llrb (str "a/b.apkg") sample_info
      (set_file SampleExport.data Sample.db) = (o, d') /\
    @db_wf MapBolt.ops MapBolt.spec (file d').
Proof.
  destruct (@AddPackage MapBolt.ops Sample.list_llrb (str "a/b.apkg") sample_info
              (set_file SampleExport.data Sample.db)) as [o d'] eqn:E.
  exists o, d'. split; [reflexivity|].
  apply (proj2 (@db_wf_preserved MapBolt.ops MapBolt.spec Sample.list_llrb SampleLd.ldcache
    SampleLd.json SampleLd.range Toy.toy_ed25519) (set_file SampleExport.data Sample.db) o d' eq_refl
    SampleExport.data_wf).
  right. left. exists (str "a/b.apkg"), sample_info. split; [|exact E].
  vm_compute. intuition congruence.
Defined.

Lemma upload_checked_witness :
  let r := @ExportAndUpload MapBolt.ops Sample.list_llrb SampleLd.ldcache SampleLd.json SampleLd.range
             Toy.toy_ed25519 (fun _ _ _ => Ok (str "jwt")) (Toy.key Toy.db_kid) 1654048543 0
             (set_file SampleExport.data Sample.db, []) in
  Forall not_exec (snd (snd r)) \/
  exists f, WriteFile (str "/var/lib/apkg/20220601015543.bin") f ∈ snd (snd r).
Proof.
  intros r. destruct r as [o [d' log]] eqn:E.
  destruct (@upload_checked MapBolt.ops MapBolt.spec Sample.list_llrb SampleLd.ldcache SampleLd.json
    SampleLd.range Toy.toy_ed25519 (fun _ _ _ => Ok (str "jwt")) (Toy.key Toy.db_kid) 1654048543 0
    (set_file SampleExport.data Sample.db) o d' log) as [Hn|(f & h & dt & Hw & _)];
    [reflexivity|exact E|left; exact Hn|].
  right. exists f. exact Hw.
Defined.
