(* ===== verification/Package.v ===== *)
(** * Package: package files ([apkgdb/package.go])

    The 124-byte header of an [.apkg] file, [OpenPackage] (a local file, for the
    indexer), the download and validation of a package on first use, and the
    reads through it.  The remote file, the SquashFS reader and JSON are
    parameters. *)

From S2P Require Import Prelude GoLib GoPath Sha256 Sig OsArch Bolt Store GoTime Pins Ldso Index.
Local Open Scope Z_scope.

(** ** Outside the repository *)

(** [github.com/KarpelesLab/squashfs]; a nil [*Superblock] is [None]. *)
Class Squashfs := {
  superblock : Type;
  sqInode : Type;
  sq_Open : bytes -> outcome superblock;                 (* squashfs.Open(fn) *)
  sq_New : (nat -> Z -> outcome bytes) -> Z -> outcome superblock;
                                                         (* New(p, InodeOffset(i)) *)
  sq_InodeCnt : superblock -> Z;
  sq_SetInodeOffset : option superblock -> Z -> option superblock;
                                                         (* None: it panics *)
  sq_GetInode : superblock -> Z -> outcome sqInode;
}.

(** [github.com/KarpelesLab/smartremote] and [os.MkdirAll]; the number is the
    attempt, as the network answers differently over time. *)
Class Remote := {
  rfile : Type;
  MkdirAll : nat -> bytes -> outcome unit;
  OpenTo : nat -> bytes -> bytes -> outcome rfile;
  SetSize : rfile -> Z -> rfile;
  rf_ReadAt : rfile -> nat -> Z -> outcome bytes;        (* full, or an error *)
}.

Record packageMetaInfo := {
  mi_FullName : bytes; mi_Inodes : Z; mi_Arch : bytes; mi_Os : bytes }.
Class PkgJson := Unmarshal_info : bytes -> outcome packageMetaInfo.

(** ** The header of a package file *)

Definition errNotAPKG : error := ErrNew (str "not a APKG file").
Definition errFileVersion : error := ErrNew (str "unsupported file version").
Definition errBadMetadata : error := ErrNew (str "corrupted metadata").
Definition errBadTable : error := ErrNew (str "corrupted hash table").
Definition errBadHeader : error := ErrNew (str "header invalid or corrupted").

Definition pkgHeaderLen : nat := 124.

Record apkgHeader := {
  a_flags : Z; a_sec : Z; a_nsec : Z;
  a_metaOff : Z; a_metaLen : Z; a_metaHash : bytes;
  a_tableOff : Z; a_tableLen : Z; a_tableHash : bytes;
  a_last : list Z;               (* signature offset, data offset (, block size) *)
}.

(** After the magic: [k] is the number of integers read at the end. *)
Definition read_apkg (k : nat) : reader apkgHeader :=
  version ← ReadBE 4;
  lift_st (check (version =? 1) errFileVersion);;
  flags ← ReadBE 8;
  ts ← ReadBEs 8 2;
  metadata ← ReadBEs 4 2;
  metadata_hash ← ReadFull 32;
  table ← ReadBEs 4 2;
  table_hash ← ReadFull 32;
  last_offt ← ReadBEs 4 k;
  mret {| a_flags := flags; a_sec := i64 (at_ ts 0); a_nsec := i64 (at_ ts 1);
          a_metaOff := at_ metadata 0; a_metaLen := at_ metadata 1; a_metaHash := metadata_hash;
          a_tableOff := at_ table 0; a_tableLen := at_ table 1; a_tableHash := table_hash;
          a_last := last_offt |}.

(** [f.ReadAt(make([]byte, n), off)] of an [os.File] holding [f]. *)
Definition file_ReadAt (f : bytes) (n : nat) (off : Z) : outcome bytes :=
  let v := take n (drop (Z.to_nat off) f) in
  if decide (length v < n)%nat then Err ErrEOF else Ok v.

Section Package.
Context `{Ed25519, Squashfs, Remote, PkgJson}.

Record Package := {
  pk_parent : nat; pk_startIno : Z; pk_hash : bytes; pk_size : Z; pk_inodes : Z;
  pk_name : bytes; pk_path : bytes;
  pk_rawHeader : bytes; pk_rawSig : bytes; pk_rawMeta : bytes;
  pk_flags : Z; pk_created : Z * Z;
  pk_dlDone : bool; pk_f : option rfile; pk_offset : Z; pk_blockSize : Z;
  pk_squash : option superblock;
}.

(** ** [OpenPackage] *)

Definition Meta (rawMeta : bytes) : outcome packageMetaInfo := Unmarshal_info rawMeta.

Definition OpenPackage (f : bytes) : outcome Package :=
  header ← file_ReadAt f pkgHeaderLen 0;
  check (bool_decide (take 4 header = str "APKG")) errNotAPKG;;
  h ← fst (read_apkg 2 (drop 4 header));
  sig ← file_ReadAt f (Z.to_nat SignatureSize) (at_ (a_last h) 0);
  _ ← VerifyPkg header sig;
  mt ← file_ReadAt f (Z.to_nat (a_metaLen h)) (a_metaOff h);
  check (bool_decide (Sum256 mt = a_metaHash h)) errBadMetadata;;
  ht ← file_ReadAt f (Z.to_nat (a_tableLen h)) (a_tableOff h);
  check (bool_decide (Sum256 ht = a_tableHash h)) errBadTable;;
  meta ← Meta mt;
  Ok {| pk_parent := 0; pk_startIno := 0; pk_hash := Sum256 header;
        pk_size := Z.of_nat (length f); pk_inodes := mi_Inodes meta;
        pk_name := mi_FullName meta; pk_path := [];
        pk_rawHeader := header; pk_rawSig := sig; pk_rawMeta := mt;
        pk_flags := a_flags h; pk_created := (a_sec h, a_nsec h);
        pk_dlDone := false; pk_f := None; pk_offset := 0; pk_blockSize := 0;
        pk_squash := None |}.

(** The fields [AddPackage] reads. *)
Definition info_of (p : Package) : pkgInfo := {|
  p_hash := pk_hash p; p_size := pk_size p; p_inodes := pk_inodes p; p_name := pk_name p;
  p_rawHeader := pk_rawHeader p; p_rawSig := pk_rawSig p; p_rawMeta := pk_rawMeta p |}.

(** ** Fields the download changes *)

Definition set_file_state (flags : Z) (created : Z * Z) (dlDone : bool) (f : option rfile)
    (offset blockSize : Z) (sq : option superblock) (p : Package) : Package := {|
  pk_parent := pk_parent p; pk_startIno := pk_startIno p; pk_hash := pk_hash p;
  pk_size := pk_size p; pk_inodes := pk_inodes p; pk_name := pk_name p; pk_path := pk_path p;
  pk_rawHeader := pk_rawHeader p; pk_rawSig := pk_rawSig p; pk_rawMeta := pk_rawMeta p;
  pk_flags := flags; pk_created := created; pk_dlDone := dlDone; pk_f := f;
  pk_offset := offset; pk_blockSize := blockSize; pk_squash := sq |}.

Definition set_header (h : apkgHeader) (p : Package) : Package :=
  set_file_state (a_flags h) (a_sec h, a_nsec h) (pk_dlDone p) (pk_f p) (pk_offset p)
    (pk_blockSize p) (pk_squash p) p.
Definition set_dlDone (v : bool) (p : Package) : Package :=
  set_file_state (pk_flags p) (pk_created p) v (pk_f p) (pk_offset p) (pk_blockSize p)
    (pk_squash p) p.
Definition set_f (v : option rfile) (p : Package) : Package :=
  set_file_state (pk_flags p) (pk_created p) (pk_dlDone p) v (pk_offset p) (pk_blockSize p)
    (pk_squash p) p.
Definition set_layout (off bs : Z) (p : Package) : Package :=
  set_file_state (pk_flags p) (pk_created p) (pk_dlDone p) (pk_f p) off bs (pk_squash p) p.
Definition set_squash (v : option superblock) (p : Package) : Package :=
  set_file_state (pk_flags p) (pk_created p) (pk_dlDone p) (pk_f p) (pk_offset p)
    (pk_blockSize p) v p.

(** The state of a download: the package, the attempts so far, the paths
    [os.Remove] was called on, and the reset timers still to fire. *)
Record dlState := {
  dl_pkg : Package; dl_tries : nat; dl_removed : list bytes; dl_timers : nat }.

Definition upd_pkg (f : Package -> Package) : ST dlState unit := fun s =>
  (Ok tt, {| dl_pkg := f (dl_pkg s); dl_tries := dl_tries s; dl_removed := dl_removed s;
             dl_timers := dl_timers s |}).
Definition log_remove (fn : bytes) : ST dlState unit := fun s =>
  (Ok tt, {| dl_pkg := dl_pkg s; dl_tries := dl_tries s; dl_removed := dl_removed s ++ [fn];
             dl_timers := dl_timers s |}).
Definition add_timer : ST dlState unit := fun s =>
  (Ok tt, {| dl_pkg := dl_pkg s; dl_tries := dl_tries s; dl_removed := dl_removed s;
             dl_timers := S (dl_timers s) |}).
Definition next_try : ST dlState nat := fun s =>
  (Ok (dl_tries s), {| dl_pkg := dl_pkg s; dl_tries := S (dl_tries s);
                       dl_removed := dl_removed s; dl_timers := dl_timers s |}).

(** ** [lpath], [ReadAt], [validate] *)

Definition lpath (c : DBConf) (p : Package) : bytes :=
  path_Join [db_path c; db_name c; pk_path p].

(** [p.f.ReadAt]; a nil file panics. *)
Definition f_ReadAt (n : nat) (off : Z) : ST dlState bytes := fun s =>
  match pk_f (dl_pkg s) with
  | None => (Panic, s)
  | Some f => (rf_ReadAt f n off, s)
  end.

(** [Package.ReadAt], the reader given to SquashFS. *)
Definition ReadAt (p : Package) (n : nat) (off : Z) : outcome bytes :=
  match pk_f p with
  | None => Err ErrInvalid
  | Some f => rf_ReadAt f n (i64 (off + pk_offset p))
  end.

Definition validate (c : DBConf) : ST dlState unit :=
  header ← f_ReadAt pkgHeaderLen 0;
  s ← get_st;
  (if decide (Sum256 header = pk_hash (dl_pkg s)) then mret tt
   else log_remove (lpath c (dl_pkg s));; err_st errBadHeader);;
  lift_st (check (bool_decide (take 4 header = str "APKG")) errNotAPKG);;
  h ← lift_st (fst (read_apkg 3 (drop 4 header)));
  upd_pkg (set_header h);;
  sig ← f_ReadAt 128 (at_ (a_last h) 0);
  _ ← lift_st (VerifyPkg header sig);
  upd_pkg (set_layout (at_ (a_last h) 1) (at_ (a_last h) 2)).

(** ** [doDl] and [ensureDl] *)

(** [strings.ReplaceAll(s, "+", "%2B")] *)
Definition escape_plus (s : bytes) : bytes :=
  concat (map (fun b => if decide (b = Byte.x2b) then str "%2B" else [b]) s).

Definition pkg_url (c : DBConf) (p : Package) : bytes :=
  db_prefix c ++ str "dist/" ++ db_name c ++ str "/" ++ escape_plus (pk_path p).

(** The errors are logged, not returned. *)
Definition doDl (c : DBConf) : ST dlState unit :=
  t ← next_try;
  s ← get_st;
  let lp := lpath c (dl_pkg s) in
  match MkdirAll t (path_Dir lp) with
  | Panic => lift_st Panic
  | Err _ => mret tt
  | Ok _ =>
      match OpenTo t (pkg_url c (dl_pkg s)) lp with
      | Panic => lift_st Panic
      | Err _ => mret tt
      | Ok f =>
          upd_pkg (set_f (Some (SetSize f (i64 (pk_size (dl_pkg s))))));;
          err ← try_st (validate c);
          match err with
          | Some _ =>
              add_timer;;                        (* resets dlDone in 10 seconds *)
              upd_pkg (set_f None)
          | None =>
              s ← get_st;
              match sq_New (ReadAt (dl_pkg s)) (pk_startIno (dl_pkg s)) with
              | Panic => lift_st Panic
              | Ok sq => upd_pkg (set_squash (Some sq))
              | Err _ => upd_pkg (set_f None);; upd_pkg (set_squash None)
              end
          end
      end
  end.

Definition ensureDl (c : DBConf) : ST dlState unit :=
  s ← get_st;
  if pk_dlDone (dl_pkg s) then mret tt
  else
    doDl c;;
    s ← get_st;
    match pk_squash (dl_pkg s) with
    | Some _ => upd_pkg (set_dlDone true)
    | None => mret tt
    end.

(** One of the goroutines of [doDl] wakes up. *)
Definition timer_fires : ST dlState unit := fun s =>
  match dl_timers s with
  | O => (Ok tt, s)
  | S n => (Ok tt, {| dl_pkg := set_dlDone false (dl_pkg s); dl_tries := dl_tries s;
                      dl_removed := dl_removed s; dl_timers := n |})
  end.
End Package.

(** ** Reading the header *)

Lemma file_ReadAt_Ok f n off v :
  0 <= off -> file_ReadAt f n off = Ok v ->
  v = section_at f off (Z.of_nat n) /\ length v = n.
Proof.
  intros Ho. unfold file_ReadAt, section_at. rewrite Nat2Z.id.
  case_decide as Hl; [done|]. intros [= <-]. split; [done|].
  rewrite length_take in *. lia.
Qed.

Lemma file_ReadAt_0 f n v :
  file_ReadAt f n 0 = Ok v -> v = take n f /\ (n <= length f)%nat.
Proof.
  intros E. apply file_ReadAt_Ok in E as [-> Hl]; [|done].
  unfold section_at in *. rewrite Nat2Z.id in *. change (drop (Z.to_nat 0) f) with f in *.
  rewrite length_take in Hl. split; [done|lia].
Qed.

Lemma at_range l i : Forall (fun z => 0 <= z) l -> 0 <= at_ l i.
Proof.
  intros Hl. unfold at_. destruct (nth_in_or_default i l 0) as [Hin|E]; [|lia].
  rewrite Forall_forall in Hl. apply Hl. by apply list_elem_of_In.
Qed.

Lemma split_be_nonneg n k b : Forall (fun z => 0 <= z) (split_be n k b).
Proof.
  revert b. induction k as [|k IH]; intros b; cbn [split_be]; constructor; [|apply IH].
  apply be_get_range.
Qed.

Lemma split_be_S n k b :
  split_be n (S k) b = split_be n k b ++ [be_get (take n (drop (n * k) b))].
Proof.
  revert b. induction k as [|k IH]; intros b.
  { cbn [split_be app]. by rewrite Nat.mul_0_r. }
  change (split_be n (S (S k)) b) with (be_get (take n b) :: split_be n (S k) (drop n b)).
  rewrite IH. cbn [split_be app]. rewrite drop_drop. by rewrite Nat.mul_succ_r, Nat.add_comm.
Qed.

Lemma split_be_take n k m b : (n * k <= m)%nat -> split_be n k (take m b) = split_be n k b.
Proof.
  revert m b. induction k as [|k IH]; intros m b Hm; [done|]. cbn [split_be].
  rewrite take_take, Nat.min_l by lia. f_equal. rewrite skipn_firstn_comm. apply IH. lia.
Qed.

(** The fields common to the two readers of the header. *)
Definition same_header (h h3 : apkgHeader) : Prop :=
  a_flags h3 = a_flags h /\ a_sec h3 = a_sec h /\ a_nsec h3 = a_nsec h /\
  at_ (a_last h3) 0 = at_ (a_last h) 0 /\ at_ (a_last h3) 1 = at_ (a_last h) 1.

(** A header [OpenPackage] can read, [validate] can read as well. *)
Lemma read_apkg_2_3 b h :
  length b = 120%nat -> fst (read_apkg 2 b) = Ok h ->
  exists h3, fst (read_apkg 3 b) = Ok h3 /\ same_header h h3 /\
    Forall (fun z => 0 <= z) (a_last h) /\ 0 <= a_metaOff h /\ 0 <= a_tableOff h /\
    0 <= a_metaLen h /\ 0 <= a_tableLen h.
Proof.
  intros Hb. unfold read_apkg, ReadBEs, ReadBE. munfold.
  destruct (ReadFull 4 b) as [[v| |] r1] eqn:E1; [|done..].
  destruct (check (be_get v =? 1) _) as [[]| |]; [|done..].
  destruct (ReadFull 8 r1) as [[fl| |] r2] eqn:E2; [|done..].
  destruct (ReadFull (8 * 2) r2) as [[ts| |] r3] eqn:E3; [|done..].
  destruct (ReadFull (4 * 2) r3) as [[md| |] r4] eqn:E4; [|done..].
  destruct (ReadFull 32 r4) as [[mh| |] r5] eqn:E5; [|done..].
  destruct (ReadFull (4 * 2) r5) as [[tb| |] r6] eqn:E6; [|done..].
  destruct (ReadFull 32 r6) as [[th| |] r7] eqn:E7; [|done..].
  destruct (ReadFull (4 * 2) r7) as [[la| |] r8] eqn:E8; [|done..].
  cbn [fst]. intros [= <-].
  apply ReadFull_Ok in E1 as [-> L1], E2 as [-> L2], E3 as [-> L3], E4 as [-> L4], E5 as [-> L5],
    E6 as [-> L6], E7 as [-> L7], E8 as [E8 L8].
  rewrite !length_app, L1, L2, L3, L4, L5, L6, L7 in Hb. cbn in Hb.
  assert (length r7 = (4 * 3)%nat) as L12 by (cbn; lia).
  rewrite <-(app_nil_r r7), (ReadFull_app (4 * 3)) by done.
  eexists. split; [reflexivity|].
  assert (split_be 4 2 r7 = split_be 4 2 la) as Es.
  { rewrite <-(split_be_take 4 2 8 r7) by lia. rewrite E8. by rewrite take_app_length' by done. }
  cbn [a_flags a_sec a_nsec a_last a_metaOff a_metaLen a_tableOff a_tableLen].
  split; [|split; [exact (split_be_nonneg 4 2 la)|]].
  - split; [done|]. split; [done|]. split; [done|].
    cbn [split_be] in Es. injection Es as Ea Eb. split; [exact Ea|exact Eb].
  - repeat split; first [exact (at_range _ 0 (split_be_nonneg 4 2 _))|exact (at_range _ 1 (split_be_nonneg 4 2 _))].
Qed.

Section sound.
Context `{Ed25519Spec, Squashfs, Remote, PkgJson}.

(** C5: what [OpenPackage] accepts.  The first 124 bytes are a header that a
    trusted package key signed; the metadata and the hash table the header
    points to have exactly the hashes it states; and the fields handed to
    [AddPackage] are those: the hash of the header, the size of the file, and
    name and inode count of the verified metadata. *)
Theorem OpenPackage_sound f p :
  OpenPackage f = Ok p ->
  (pkgHeaderLen <= length f)%nat /\
  pk_rawHeader p = take pkgHeaderLen f /\ take 4 f = str "APKG" /\
  pk_hash p = Sum256 (pk_rawHeader p) /\ pk_size p = Z.of_nat (length f) /\
  (exists res, accepted trustedPkgSig (pk_rawHeader p) res) /\
  exists h meta,
    fst (read_apkg 2 (drop 4 (pk_rawHeader p))) = Ok h /\
    pk_rawMeta p = section_at f (a_metaOff h) (a_metaLen h) /\
    Sum256 (pk_rawMeta p) = a_metaHash h /\
    Sum256 (section_at f (a_tableOff h) (a_tableLen h)) = a_tableHash h /\
    Unmarshal_info (pk_rawMeta p) = Ok meta /\
    pk_name p = mi_FullName meta /\ pk_inodes p = mi_Inodes meta.
Proof.
  unfold OpenPackage. rewrite !bind_Ok. intros (hd & Ehd & E). apply file_ReadAt_0 in Ehd as [-> Hlen].
  revert E. rewrite bind_Ok. intros ([] & Ec & E). apply check_Ok, bool_decide_eq_true in Ec.
  revert E. rewrite bind_Ok. intros (h & Eh & E).
  assert (length (drop 4 (take pkgHeaderLen f)) = 120%nat) as Hl
    by (rewrite length_drop, length_take; unfold pkgHeaderLen in *; lia).
  destruct (read_apkg_2_3 _ _ Hl Eh)
    as (_ & _ & _ & Hla & Hmo & Hto & Hml & Htl).
  revert E. rewrite bind_Ok. intros (sg & Esg & E).
  revert E. rewrite bind_Ok. intros (res & Ev & E).
  revert E. rewrite bind_Ok. intros (mt & Emt & E).
  revert E. rewrite bind_Ok. intros ([] & Em & E). apply check_Ok, bool_decide_eq_true in Em.
  revert E. rewrite bind_Ok. intros (ht & Eht & E).
  revert E. rewrite bind_Ok. intros ([] & Et & E). apply check_Ok, bool_decide_eq_true in Et.
  revert E. rewrite bind_Ok. intros (meta & Emeta & E). injection E as <-.
  apply file_ReadAt_Ok in Emt as [-> _], Eht as [-> _]; [|done..].
  rewrite Z2Nat.id in Em, Et, Emeta |- * by done.
  split; [done|]. split; [done|].
  split; [rewrite <-Ec, take_take, Nat.min_l by (unfold pkgHeaderLen; lia); done|].
  split; [done|]. split; [done|]. split.
  - unfold VerifyPkg in Ev. destruct (verify _ _ sg) as [o r] eqn:Evf. cbn in Ev. subst o.
    exists res. by eapply verify_accepts.
  - exists h, meta. done.
Qed.

(** What a download leaves alone. *)
Definition same_identity (p p' : Package) : Prop :=
  pk_parent p' = pk_parent p /\ pk_startIno p' = pk_startIno p /\ pk_hash p' = pk_hash p /\
  pk_size p' = pk_size p /\ pk_inodes p' = pk_inodes p /\ pk_name p' = pk_name p /\
  pk_path p' = pk_path p /\ pk_rawHeader p' = pk_rawHeader p /\ pk_rawSig p' = pk_rawSig p /\
  pk_rawMeta p' = pk_rawMeta p.

(** What [validate] establishes of the remote file. *)
Definition validated (f : rfile) (p : Package) : Prop :=
  exists header h res,
    rf_ReadAt f pkgHeaderLen 0 = Ok header /\ Sum256 header = pk_hash p /\
    take 4 header = str "APKG" /\ fst (read_apkg 3 (drop 4 header)) = Ok h /\
    accepted trustedPkgSig header res /\
    pk_offset p = at_ (a_last h) 1 /\ pk_blockSize p = at_ (a_last h) 2.

Lemma validate_cases c s o s' f :
  pk_f (dl_pkg s) = Some f -> validate c s = (o, s') ->
  same_identity (dl_pkg s) (dl_pkg s') /\ pk_f (dl_pkg s') = Some f /\
  pk_squash (dl_pkg s') = pk_squash (dl_pkg s) /\ pk_dlDone (dl_pkg s') = pk_dlDone (dl_pkg s) /\
  dl_timers s' = dl_timers s /\ dl_tries s' = dl_tries s /\
  (o = Ok tt -> validated f (dl_pkg s')).
Proof.
  intros Hf. unfold validate, f_ReadAt, upd_pkg, log_remove. munfold. rewrite Hf.
  destruct (rf_ReadAt f pkgHeaderLen 0) as [header| |] eqn:Eh; [|intros [= <- <-]; by repeat split..].
  destruct (decide (Sum256 header = pk_hash (dl_pkg s))) as [Ehash|]; [|intros [= <- <-]; by repeat split].
  destruct (check _ errNotAPKG) as [[]| |] eqn:Ec; [|intros [= <- <-]; by repeat split..].
  apply check_Ok, bool_decide_eq_true in Ec.
  destruct (fst (read_apkg 3 (drop 4 header))) as [h| |] eqn:Er; [|intros [= <- <-]; by repeat split..].
  cbn. rewrite Hf.
  destruct (rf_ReadAt f 128 _) as [sg| |] eqn:Esg; [|intros [= <- <-]; by repeat split..].
  destruct (VerifyPkg header sg) as [res| |] eqn:Ev; [|intros [= <- <-]; by repeat split..].
  intros [= <- <-]. cbn. repeat split; try done. intros _.
  exists header, h, res. repeat split; try done.
  unfold VerifyPkg in Ev. destruct (verify _ _ sg) as [o r] eqn:Evf. cbn in Ev. subst o.
  by eapply verify_accepts.
Qed.

Lemma same_identity_refl p : same_identity p p.
Proof. by repeat split. Qed.

(** A package that is mounted: the open file was validated. *)
Definition mounted (p : Package) : Prop :=
  exists f sq, pk_f p = Some f /\ pk_squash p = Some sq /\ validated f p.

Lemma validated_squash f v p : validated f p -> validated f (set_squash v p).
Proof. done. Qed.

Lemma doDl_cases c s s' :
  doDl c s = (Ok tt, s') ->
  same_identity (dl_pkg s) (dl_pkg s') /\ pk_dlDone (dl_pkg s') = pk_dlDone (dl_pkg s) /\
  dl_tries s' = S (dl_tries s) /\
  (mounted (dl_pkg s') \/
   pk_squash (dl_pkg s') = None /\ pk_f (dl_pkg s') = None \/
   pk_squash (dl_pkg s') = pk_squash (dl_pkg s) /\
     (pk_f (dl_pkg s') = None \/ pk_f (dl_pkg s') = pk_f (dl_pkg s))).
Proof.
  unfold doDl, next_try, try_st, add_timer. munfold. cbn [dl_pkg dl_tries].
  destruct (MkdirAll _ _) as [[]|e|]; [|intros [= <-]; cbn; split; [apply same_identity_refl|]; auto 10|done].
  destruct (OpenTo _ _ _) as [f|e|]; [|intros [= <-]; cbn; split; [apply same_identity_refl|]; auto 10|done].
  unfold upd_pkg at 1. cbn [dl_pkg dl_tries dl_removed dl_timers].
  set (f2 := SetSize f _). set (s1 := {| dl_pkg := _ |}).
  destruct (validate c s1) as [o2 s2] eqn:Ev.
  destruct (validate_cases c s1 o2 s2 f2 eq_refl Ev) as (Hid & Hf & Hsq & Hdl & Ht & Htr & Hok).
  destruct o2 as [[]|e|]; [| |done].
  - destruct (sq_New _ _) as [sq|e|]; [| |done]; unfold upd_pkg; cbn;
      intros [= <-]; cbn; (split; [exact Hid|]); (split; [exact Hdl|]); (split; [exact Htr|]).
    + left. exists f2, sq. split; [done|]. split; [done|]. by apply validated_squash, Hok.
    + right. by left.
  - unfold upd_pkg. cbn. intros [= <-]. cbn. split; [exact Hid|]. split; [exact Hdl|].
    split; [exact Htr|]. right. right. by split; [|left].
Qed.

(** C31: a package that has never been downloaded is mounted only from a file
    that passed [validate]: its header has the hash the database lists and a
    trusted signature.  Otherwise it stays unmounted and the next access tries
    again; what identifies the package never changes. *)
Theorem ensureDl_mounts c s s' :
  pk_dlDone (dl_pkg s) = false -> pk_squash (dl_pkg s) = None ->
  ensureDl c s = (Ok tt, s') ->
  same_identity (dl_pkg s) (dl_pkg s') /\ dl_tries s' = S (dl_tries s) /\
  (mounted (dl_pkg s') /\ pk_dlDone (dl_pkg s') = true \/
   pk_squash (dl_pkg s') = None /\ pk_dlDone (dl_pkg s') = false).
Proof.
  intros Hd Hsq. unfold ensureDl. munfold. rewrite Hd.
  destruct (doDl c s) as [[[]| |] s1] eqn:E; [|done..].
  destruct (doDl_cases c s s1 E) as (Hid & Hdl & Htr & Hm).
  destruct (pk_squash (dl_pkg s1)) as [sq|] eqn:Es.
  - unfold upd_pkg. intros [= <-]. split; [exact Hid|]. split; [exact Htr|]. left.
    split; [|done]. destruct Hm as [Hm|[[? ?]|[? ?]]]; [exact Hm|congruence..].
  - intros [= <-]. split; [done|]. split; [done|]. right. split; [done|congruence].
Qed.

(** The reset of a failed download can unmount a package for good.  When
    the timer of an earlier failure has cleared [dlDone] of a mounted package
    and the next attempt fails to validate, the old superblock stays while the
    file is gone, so [ensureDl] marks the package as done: every read of it
    fails from then on, and no later call downloads it again. *)
Theorem ensureDl_stale c s sq f s1 e :
  pk_dlDone (dl_pkg s) = false -> pk_squash (dl_pkg s) = Some sq ->
  MkdirAll (dl_tries s) (path_Dir (lpath c (dl_pkg s))) = Ok tt ->
  OpenTo (dl_tries s) (pkg_url c (dl_pkg s)) (lpath c (dl_pkg s)) = Ok f ->
  validate c {| dl_pkg := set_f (Some (SetSize f (i64 (pk_size (dl_pkg s))))) (dl_pkg s);
                dl_tries := S (dl_tries s); dl_removed := dl_removed s; dl_timers := dl_timers s |}
  = (Err e, s1) ->
  exists s', ensureDl c s = (Ok tt, s') /\
    pk_squash (dl_pkg s') = Some sq /\ pk_dlDone (dl_pkg s') = true /\
    (forall n off, ReadAt (dl_pkg s') n off = Err ErrInvalid) /\
    ensureDl c s' = (Ok tt, s').
Proof.
  intros Hd Hsq Hmk Hop Hv.
  pose proof (fun E => validate_cases _ _ _ _ (SetSize f (i64 (pk_size (dl_pkg s)))) E Hv) as V.
  destruct (V eq_refl) as (_ & _ & Hsq1 & _). clear V.
  unfold ensureDl at 1, doDl, next_try, try_st, add_timer. munfold. rewrite Hd.
  cbn [dl_pkg dl_tries]. rewrite Hmk, Hop. unfold upd_pkg at 1.
  cbn [dl_pkg dl_tries dl_removed dl_timers]. rewrite Hv. unfold upd_pkg. cbn. rewrite Hsq1.
  cbn. rewrite Hsq. eexists. split; [reflexivity|].
  split; [cbn in *; congruence|]. by repeat split.
Qed.
End sound.

(** ** Concrete instance, for evaluation *)

(** A package file with empty hash table, metadata ["meta"] and a signature of
    the toy scheme; the network serves nothing first and this file later. *)
Module SamplePkg.
#[export] Instance squashfs : Squashfs := {|
  superblock := Z; sqInode := Z;
  sq_Open fn := Ok (Z.of_nat (length fn));
  sq_New r off := Ok off;
  sq_InodeCnt s := s;
  sq_SetInodeOffset s off := match s with Some _ => Some off | None => None end;
  sq_GetInode s i := Ok i;
|}.
#[export] Instance json : PkgJson := fun m => Ok {|
  mi_FullName := m; mi_Inodes := 5; mi_Arch := str "amd64"; mi_Os := str "linux" |}.

Definition header : bytes :=
  str "APKG" ++ be_put 4 1 ++ be_put 8 0 ++ be_put 8 1654048543 ++ be_put 8 0 ++
  be_put 4 124 ++ be_put 4 4 ++ Sum256 (str "meta") ++
  be_put 4 128 ++ be_put 4 0 ++ Sum256 [] ++ be_put 4 128 ++ be_put 4 512 ++ be_put 4 4096.
Definition signature : bytes :=
  match Sign (Toy.key Toy.pkg_kid) header with Ok s => s | _ => [] end.
Definition apkg : bytes :=
  header ++ str "meta" ++ signature ++ replicate 285 Byte.x00 ++ str "squash".

(** An even attempt gets an empty file, an odd one the package. *)
#[export] Instance remote : Remote := {|
  rfile := bytes;
  MkdirAll t d := Ok tt;
  OpenTo t url lp := Ok (if Nat.odd t then apkg else []);
  SetSize f n := f;
  rf_ReadAt := file_ReadAt;
|}.

Definition pkg : Package := {|
  pk_parent := 0; pk_startIno := 1000; pk_hash := Sum256 header; pk_size := 518; pk_inodes := 5;
  pk_name := str "meta"; pk_path := str "meta.apkg"; pk_rawHeader := header; pk_rawSig := signature;
  pk_rawMeta := str "meta"; pk_flags := 0; pk_created := (0, 0); pk_dlDone := false;
  pk_f := None; pk_offset := 0; pk_blockSize := 0; pk_squash := None |}.

(** The package after an earlier, successful download. *)
Definition mounted_pkg : Package := set_squash (Some (1000 : @superblock squashfs)) pkg.

Definition dl (tries timers : nat) (p : Package) : dlState := {|
  dl_pkg := p; dl_tries := tries; dl_removed := []; dl_timers := timers |}.
End SamplePkg.

Lemma OpenPackage_sound_witness :
  exists p, @OpenPackage Toy.toy_ed25519 SamplePkg.squashfs SamplePkg.remote SamplePkg.json
      SamplePkg.apkg = Ok p /\ pk_hash p = Sum256 (pk_rawHeader p).
Proof.
  destruct (@OpenPackage Toy.toy_ed25519 SamplePkg.squashfs SamplePkg.remote SamplePkg.json
              SamplePkg.apkg) as [p|e|] eqn:E.
  - exists p. split; [reflexivity|].
    destruct (@OpenPackage_sound Toy.toy_ed25519 Toy.toy_ed25519_spec SamplePkg.squashfs
                SamplePkg.remote SamplePkg.json SamplePkg.apkg p E) as (_ & _ & _ & Hh & _).
    exact Hh.
  - exfalso. revert E. vm_compute. discriminate.
  - exfalso. revert E. vm_compute. discriminate.
Defined.

Lemma ensureDl_mounts_witness :
  exists s', @ensureDl Toy.toy_ed25519 SamplePkg.squashfs SamplePkg.remote Sample.sample_conf
      (SamplePkg.dl 1 0 SamplePkg.pkg) = (Ok tt, s') /\ dl_tries s' = 2%nat.
Proof.
  assert (is_ok (fst (@ensureDl Toy.toy_ed25519 SamplePkg.squashfs SamplePkg.remote Sample.sample_conf
            (SamplePkg.dl 1 0 SamplePkg.pkg))) = true) as Hok by (vm_compute; reflexivity).
  destruct (@ensureDl Toy.toy_ed25519 SamplePkg.squashfs SamplePkg.remote Sample.sample_conf
              (SamplePkg.dl 1 0 SamplePkg.pkg)) as [[[]|e|] s'] eqn:E; [|discriminate Hok..].
  exists s'. split; [reflexivity|].
  destruct (@ensureDl_mounts Toy.toy_ed25519 Toy.toy_ed25519_spec SamplePkg.squashfs
              SamplePkg.remote Sample.sample_conf (SamplePkg.dl 1 0 SamplePkg.pkg) s' eq_refl eq_refl E)
    as (_ & Ht & _). exact Ht.
Defined.

Lemma ensureDl_stale_witness :
  exists s', @ensureDl Toy.toy_ed25519 SamplePkg.squashfs SamplePkg.remote Sample.sample_conf
      (SamplePkg.dl 2 0 SamplePkg.mounted_pkg) = (Ok tt, s') /\
    pk_dlDone (dl_pkg s') = true /\
    forall n off, @ReadAt SamplePkg.squashfs SamplePkg.remote (dl_pkg s') n off = Err ErrInvalid.
Proof.
  destruct (@ensureDl_stale Toy.toy_ed25519 Toy.toy_ed25519_spec SamplePkg.squashfs SamplePkg.remote
    Sample.sample_conf (SamplePkg.dl 2 0 SamplePkg.mounted_pkg) 1000 [] 
    (SamplePkg.dl 3 0 (@set_f SamplePkg.squashfs SamplePkg.remote (Some ([] : bytes)) SamplePkg.mounted_pkg)) ErrEOF)
    as (s' & E & _ & Hd & Hr & _); [reflexivity..|].
  exists s'. split; [exact E|]. split; [exact Hd|exact Hr].
Defined.
