(* ===== verification/Update.v ===== *)
(** * Update: fetching new database versions ([apkgdb/update.go])

    [download], [update], the body of [updateThread], and [CurrentVersion] of
    [db.go].  The HTTP client and the JWT library are parameters; one call of
    [download] sees one snapshot of the network, a function from URLs. *)

From S2P Require Import Prelude GoLib Sig OsArch Bolt Store GoTime Pins Ldso Index Export.
Local Open Scope Z_scope.

(** ** [bytes.TrimSpace] *)

(** The encodings of the runes with [unicode.IsSpace]. *)
Definition space_runes : list bytes := Eval vm_compute in
  map (fun b => [b]) [Byte.x09; Byte.x0a; Byte.x0b; Byte.x0c; Byte.x0d; Byte.x20] ++
  [[Byte.xc2; Byte.x85]; [Byte.xc2; Byte.xa0]; [Byte.xe1; Byte.x9a; Byte.x80]] ++
  map (fun i => [Byte.xe2; Byte.x80; z2b (128 + Z.of_nat i)]) (seq 0 11) ++
  [[Byte.xe2; Byte.x80; Byte.xa8]; [Byte.xe2; Byte.x80; Byte.xa9]; [Byte.xe2; Byte.x80; Byte.xaf];
   [Byte.xe2; Byte.x81; Byte.x9f]; [Byte.xe3; Byte.x80; Byte.x80]].

(** Each round removes at least one byte: [length s] rounds are enough. *)
Fixpoint trim_runes (fuel : nat) (runes : list bytes) (s : bytes) : bytes :=
  match fuel with
  | O => s
  | S fuel =>
      match List.find (HasPrefix s) runes with
      | Some w => trim_runes fuel runes (drop (length w) s)
      | None => s
      end
  end.
Definition TrimSpace (s : bytes) : bytes :=
  let s := trim_runes (length s) space_runes s in
  rev (trim_runes (length s) (map (@rev byte) space_runes) (rev s)).

(** ** Outside the repository *)

(** [github.com/KarpelesLab/jwt]: parsing, the key id of the header, the check
    of an EdDSA signature under a public key, and the claim ["ver"]. *)
Class Jwt := {
  jwtToken : Type;
  jwt_ParseString : bytes -> outcome jwtToken;
  GetKeyId : jwtToken -> bytes;
  jwt_VerifyEdDSA : bytes -> jwtToken -> outcome unit;
  jwt_ver : jwtToken -> bytes;
}.

(** [net/http]: the status and the body, read until its end or an error. *)
Record response := { StatusCode : Z; Body : bytes; BodyErr : option error }.
Definition network : Type := bytes -> outcome response.

Definition errLatest : error :=
  ErrNew (str "failed to fetch information on latest database version").
Definition errJwtKey : error := ErrNew (str "unknown key used for jwt signature").
Definition errJwtVersion : error := ErrNew (str "invalid version in signed jwt").
Definition errFetch : error := ErrNew (str "failed to fetch latest database").

(** [d.prefix + "db/" + d.name + "/" + d.os + "/" + d.arch + "/" + file] *)
Definition db_url (c : DBConf) (file : bytes) : bytes :=
  db_prefix c ++ str "db/" ++ db_name c ++ str "/" ++ db_os c ++ str "/" ++ db_arch c ++
  str "/" ++ file.

(** ** [CurrentVersion] *)

Section CurrentVersion.
Context `{BoltOps, LlrbOps}.

Definition current_version (d : DB) : outcome bytes :=
  match dbptr d with
  | None => Ok []
  | Some _ =>
      View (fun b =>
        if negb (has_bucket b p2pBucket) then Ok []
        else if negb (has_bucket b infoBucket) then Ok []
        else Ok (default [] (Get b infoBucket versionKey))) d
  end.
Definition CurrentVersion : DB -> outcome bytes := with_RLock current_version.
End CurrentVersion.

(** ** [download] *)

Section Update.
Context `{BoltOps, LlrbOps, Ldcache, !Json, GoRange, Ed25519, Jwt}.

(** The signed descriptor of the latest version; [None] for a new database. *)
Definition latest_version (net : network) (c : DBConf) : outcome (option bytes) :=
  resp ← net (db_url c (str "LATEST.jwt"));
  check (StatusCode resp =? 200) errLatest;;
  match BodyErr resp with
  | Some e => Err e
  | None =>
      let token := TrimSpace (Body resp) in
      if bool_decide (token = str "NEW") then Ok None
      else
        dec ← jwt_ParseString token;
        let kid := GetKeyId dec in
        check (negb (bool_decide (DbKeyName kid = []))) errJwtKey;;
        publicKey ← RawURLDecode kid;
        jwt_VerifyEdDSA publicKey dec;;
        let version := jwt_ver dec in
        check (negb (bool_decide (version = []))) errJwtVersion;;
        Ok (Some version)
  end.

Definition full_db (net : network) (c : DBConf) (version : bytes) : outcome response :=
  resp ← net (db_url c (version ++ str ".bin"));
  check (StatusCode resp =? 200) errFetch;;
  Ok resp.

(** The delta from [v] when there is a version and the server has one, else the
    whole database. *)
Definition fetch_db (net : network) (c : DBConf) (v version : bytes) : outcome response :=
  if bool_decide (v = []) then full_db net c version
  else
    resp ← net (db_url c (v ++ str "-" ++ version ++ str ".bin"));
    if StatusCode resp =? 200 then Ok resp else full_db net c version.

(** [io.Copy(out, resp.Body)] *)
Definition copy_body (resp : response) : ST DB bytes :=
  match BodyErr resp with
  | Some e => err_st e
  | None => os_call;; mret (Body resp)
  end.

(** The downloaded file goes through a temporary file, that is removed on every
    way out. *)
Definition install (resp : response) : ST DB bool :=
  os_call;;                                     (* os.CreateTemp *)
  out ← copy_body resp;
  os_call;;                                     (* out.Seek *)
  index out;;
  mret true.

Definition download (net : network) (v : bytes) : ST DB bool :=
  d ← get_st;
  latest ← lift_st (latest_version net (conf d));
  match latest with
  | None => mret false
  | Some version =>
      if negb (bool_decide (v = [])) && bool_decide (v = version) then mret false
      else
        resp ← lift_st (fetch_db net (conf d) v version);
        install resp
  end.

(** ** [update] and [updateThread] *)

Definition update (net : network) : ST DB unit := fun d =>
  match CurrentVersion d with
  | Ok v => (download net v;; mret tt) d
  | Err e => (Err e, d)
  | Panic => (Panic, d)
  end.

(** The errors are logged. *)
Definition logged_update (net : network) : ST DB unit :=
  _ ← try_st (update net); mret tt.

(** What the [select] of the loop receives, with the network at that time. *)
Inductive wakeup := WakeDone | WakeTick (net : network) | WakeUpd (net : network).

Fixpoint update_loop (ws : list wakeup) : ST DB unit :=
  match ws with
  | [] | WakeDone :: _ => mret tt
  | WakeTick net :: ws | WakeUpd net :: ws => logged_update net;; update_loop ws
  end.

Definition updateThread (updateReq : option network) (ws : list wakeup) : ST DB unit :=
  match updateReq with Some net => logged_update net | None => mret tt end;;
  update_loop ws.
End Update.

(** ** What an update can do *)

Section sound.
Context `{BoltSpec, LlrbOps, Ldcache, !Json, GoRange, Ed25519, Jwt}.

(** A complete body [f], served with status 200 under the URL of [name]. *)
Definition hosts (net : network) (c : DBConf) (name f : bytes) : Prop :=
  net (db_url c name) = Ok {| StatusCode := 200; Body := f; BodyErr := None |}.

(** [version] is announced: [LATEST.jwt] is a token with this version, signed by
    a trusted database key. *)
Definition announced (net : network) (c : DBConf) (version : bytes) : Prop :=
  exists body tok pub,
    hosts net c (str "LATEST.jwt") body /\ TrimSpace body <> str "NEW" /\
    jwt_ParseString (TrimSpace body) = Ok tok /\
    DbKeyName (GetKeyId tok) <> [] /\ RawURLDecode (GetKeyId tok) = Ok pub /\
    jwt_VerifyEdDSA pub tok = Ok tt /\ jwt_ver tok = version /\ version <> [].

(** [f] is offered as the data of [version] to a database at version [v]: it is
    the body of the delta between the two or, for an empty database or when the
    server has no such delta, of the whole version. *)
Definition offered (net : network) (c : DBConf) (v version f : bytes) : Prop :=
  v <> [] /\ hosts net c (v ++ str "-" ++ version ++ str ".bin") f \/
  (v = [] \/ exists resp, net (db_url c (v ++ str "-" ++ version ++ str ".bin")) = Ok resp /\
                 StatusCode resp <> 200) /\
  hosts net c (version ++ str ".bin") f.

Lemma latest_version_announced net c version :
  latest_version net c = Ok (Some version) <-> announced net c version.
Proof.
  unfold latest_version, announced, hosts. split.
  - rewrite bind_Ok. intros ([st body be] & Er & E).
    revert E. rewrite bind_Ok. cbn. intros ([] & Es & E). apply check_Ok, Z.eqb_eq in Es. subst st.
    destruct be; [done|]. case_bool_decide as Hnew; [done|].
    revert E. rewrite bind_Ok. intros (dec & Ed & E).
    revert E. rewrite bind_Ok. intros ([] & Ek & E).
    revert E. rewrite bind_Ok. intros (pub & Ep & E).
    revert E. rewrite bind_Ok. intros ([] & Ev & E).
    revert E. rewrite bind_Ok. intros ([] & En & [= <-]).
    apply check_Ok, negb_true_iff, bool_decide_eq_false in Ek, En. by exists body, dec, pub.
  - intros (body & tok & pub & Er & Hnew & Et & Ek & Ep & Ev & <- & Hn).
    munfold. rewrite Er. cbn [StatusCode Body BodyErr].
    change (check (200 =? 200) errLatest) with (Ok tt). cbv zeta.
    rewrite bool_decide_false by done. rewrite Et.
    rewrite (bool_decide_false (DbKeyName _ = [])) by done. cbn [negb check]. rewrite Ep, Ev.
    by rewrite bool_decide_false by done.
Qed.

(** The data changed by one file that passed every check of [index]. *)
Definition updated_by (c : DBConf) (f : bytes) (b b' : bdb) : Prop :=
  exists h data, check_file (db_name c) f = Ok (h, data) /\ index_effect h data b b'.

Lemma full_db_Ok net c version resp :
  full_db net c version = Ok resp ->
  net (db_url c (version ++ str ".bin")) = Ok resp /\ StatusCode resp = 200.
Proof.
  unfold full_db. rewrite bind_Ok. intros (r & E & E2). revert E2. rewrite bind_Ok.
  intros ([] & Ec & [= ->]). by apply check_Ok, Z.eqb_eq in Ec.
Qed.

Lemma fetch_db_offered net c v version st f :
  fetch_db net c v version = Ok {| StatusCode := st; Body := f; BodyErr := None |} ->
  offered net c v version f.
Proof.
  unfold fetch_db, offered, hosts. case_bool_decide as Hv.
  { intros [E Hs]%full_db_Ok. cbn in Hs. subst st. right. split; [by left|done]. }
  rewrite bind_Ok. intros (r & E & E2). destruct (Z.eqb_spec (StatusCode r) 200) as [Hs|Hs].
  - injection E2 as ->. cbn in Hs. subst st. by left.
  - apply full_db_Ok in E2 as [E2 Hs2]. cbn in Hs2. subst st. right. split; [|done].
    right. by exists r.
Qed.

Lemma install_cases resp d o d' :
  locked d = false -> install resp d = (o, d') ->
  locked d' = false /\ same_but_ldso d d' /\ o <> Ok false /\
  (file d' = file d /\ o <> Ok true \/
   BodyErr resp = None /\ updated_by (conf d) (Body resp) (file d) (file d')).
Proof.
  intros Hl. unfold install, copy_body. intros E.
  apply bind_cases in E as [([] & d1 & E1 & E)|(om & E1 & Hom & Ho)].
  all: destruct (os_call_spec d) as (o1 & d1' & E1' & _ & M1 & _ & F1 & L1 & _);
    rewrite E1' in E1; injection E1 as -> ->.
  2: { split; [congruence|]. split; [by apply same_meta_but_ldso|].
       split; [by intros ->|]. left. split; [done|]. by intros ->. }
  assert (same_but_ldso d d1) as S1 by by apply same_meta_but_ldso.
  destruct (BodyErr resp) as [e|] eqn:Eb.
  { munfold. injection E as <- <-. split; [congruence|]. split; [done|].
    split; [done|]. left. by split. }
  apply bind_cases in E as [(out & d2 & E2 & E)|(om & E2 & Hom & Ho)].
  all: munfold; destruct (os_call_spec d1) as (o2 & d2' & E2' & _ & M2 & _ & F2 & L2 & _);
    rewrite E2' in E2.
  2: { assert (d2' = d') as -> by (destruct o2; congruence).
       split; [congruence|]. split; [etrans; [exact S1|by apply same_meta_but_ldso]|].
       split; [by intros ->|]. left. split; [congruence|]. by intros ->. }
  assert (d2' = d2 /\ out = Body resp) as [-> ->] by (destruct o2; split; congruence).
  assert (same_but_ldso d d2) as S2 by (etrans; [exact S1|by apply same_meta_but_ldso]).
  destruct (os_call_spec d2) as (o3 & d3 & E3 & _ & M3 & _ & F3 & L3 & _). rewrite E3 in E.
  assert (same_but_ldso d d3) as S3 by (etrans; [exact S2|by apply same_meta_but_ldso]).
  assert (file d3 = file d) as F by congruence.
  assert (locked d3 = false) as L by congruence.
  destruct o3 as [[]|e|]; [|injection E as <- <-; repeat split; try done; try apply S3; left; by split..].
  destruct (index (Body resp) d3) as [o4 d4] eqn:E4.
  pose proof (index_cases (Body resp) d3 o4 d4 L E4) as W.
  assert (conf d3 = conf d) as Hc by apply S3. rewrite Hc, F in W.
  destruct (check_file (db_name (conf d)) (Body resp)) as [[h data]|e|] eqn:Ec.
  2,3: destruct W as [-> ->]; injection E as <- <-; repeat split; try done; try apply S3; left; by split.
  destruct W as (L4 & S4 & W).
  assert (d' = d4 /\ o <> Ok false /\ (o4 <> Ok tt -> o <> Ok true)) as (-> & Hn & Ho).
  { destruct o4 as [[]|e|]; injection E as <- <-; done. }
  split; [done|]. split; [etrans; [exact S3|exact S4]|]. split; [done|].
  destruct W as [W|[W1 W2]]; [right|left; auto]. split; [done|]. by exists h, data.
Qed.

Lemma download_cases net v d o d' :
  locked d = false -> download net v d = (o, d') ->
  locked d' = false /\ same_but_ldso d d' /\
  (o = Ok false -> d' = d) /\
  (file d' = file d /\ o <> Ok true \/
   exists version f, announced net (conf d) version /\ version <> v /\
     offered net (conf d) v version f /\ updated_by (conf d) f (file d) (file d')).
Proof.
  intros Hl. unfold download. munfold.
  destruct (latest_version net (conf d)) as [[version|]|e|] eqn:Ev;
    [|intros [= <- <-]; by repeat split; auto..].
  destruct (negb (bool_decide (v = [])) && bool_decide (v = version)) eqn:En;
    [intros [= <- <-]; by repeat split; auto|].
  destruct (fetch_db net (conf d) v version) as [[st f be]|e|] eqn:Ef;
    [|intros [= <- <-]; by repeat split; auto..].
  intros E. destruct (install_cases _ _ _ _ Hl E) as (L & S & Hn & [W|[Hb W]]).
  { split; [done|]. split; [done|]. split; [done|by left]. }
  split; [done|]. split; [done|]. split; [done|]. right. cbn in Hb, W. subst be.
  apply latest_version_announced in Ev. exists version, f. split; [done|].
  split; [|split; [by eapply fetch_db_offered|done]].
  intros ->. rewrite (bool_decide_true (v = v)), andb_true_r in En by done.
  apply negb_false_iff, bool_decide_eq_true in En.
  by destruct Ev as (? & ? & ? & _ & _ & _ & _ & _ & _ & _ & ?).
Qed.

(** C4: whatever the network answers, [download] changes the stored data only
    when [LATEST.jwt] is a token signed by a trusted database key that announces
    a version other than the current one, and then by the file the server has
    under the name of exactly that version (the delta to it, or the whole of it
    when there is none), when this file passed every check of [index]: the
    header, the hash and a trusted signature.  A result of [true] means that
    such a file was indexed, one of [false] leaves the database as it was, and
    the write lock is always released. *)
Theorem download_sound net v d o d' :
  locked d = false -> download net v d = (o, d') ->
  locked d' = false /\ same_but_ldso d d' /\
  (o = Ok false -> d' = d) /\
  (file d' = file d /\ o <> Ok true \/
   exists version f, announced net (conf d) version /\ version <> v /\
     offered net (conf d) v version f /\ updated_by (conf d) f (file d) (file d')).
Proof. apply download_cases. Qed.

(** Stored data reachable by accepted files only. *)
Inductive evolves (c : DBConf) : bdb -> bdb -> Prop :=
  | evolves_refl b : evolves c b b
  | evolves_step f b b' b'' : updated_by c f b b' -> evolves c b' b'' -> evolves c b b''.

Lemma evolves_trans c b b' b'' : evolves c b b' -> evolves c b' b'' -> evolves c b b''.
Proof. induction 1; [done|]. intros. econstructor; eauto. Qed.

Lemma evolves_wf c b b' : evolves c b b' -> db_wf b -> db_wf b'.
Proof.
  induction 1 as [|f b b' b'' (h & data & _ & Hi) _ IH]; [done|]. intros Hw.
  by apply IH, (index_effect_wf _ _ _ _ Hi).
Qed.

Definition kept (d d' : DB) : Prop :=
  same_but_ldso d d' /\ evolves (conf d) (file d) (file d') /\ locked d' = false.

Lemma kept_refl d : locked d = false -> kept d d.
Proof. intros. split; [done|]. split; [constructor|done]. Qed.

Lemma kept_trans d d1 d2 : kept d d1 -> kept d1 d2 -> kept d d2.
Proof.
  intros (S1 & E1 & L1) (S2 & E2 & L2). split; [by etrans|]. split; [|done].
  assert (conf d1 = conf d) as Hc by apply S1. rewrite Hc in E2. by eapply evolves_trans.
Qed.

Lemma logged_update_kept net d o d' :
  locked d = false -> logged_update net d = (o, d') -> kept d d' /\ (o = Ok tt \/ o = Panic).
Proof.
  intros Hl. unfold logged_update, try_st, update. munfold.
  assert (forall o1 d1, CurrentVersion d = o1 -> d1 = d -> kept d d1) as Hk
    by (intros ? ? _ ->; by apply kept_refl).
  destruct (CurrentVersion d) as [v|e|];
    [|intros [= <- <-]; split; [by eapply Hk|auto]..].
  destruct (download net v d) as [o1 d1] eqn:E.
  destruct (download_cases _ _ _ _ _ Hl E) as (L & S & _ & W).
  assert (kept d d1) as K.
  { split; [done|]. split; [|done]. destruct W as [[-> _]|(? & f & _ & _ & _ & Hu)]; [constructor|].
    econstructor; [exact Hu|constructor]. }
  destruct o1; intros [= <- <-]; auto.
Qed.

Lemma update_loop_kept ws d o d' :
  locked d = false -> update_loop ws d = (o, d') -> kept d d'.
Proof.
  revert d. induction ws as [|[|net|net] ws IH]; intros d Hl; cbn [update_loop];
    [intros [= <- <-]; by apply kept_refl..| |].
  all: intros E; apply bind_cases in E as [([] & d1 & E1 & E)|(om & E1 & _)];
    apply (logged_update_kept _ _ _ _ Hl) in E1 as [K _]; [|done].
  all: eapply kept_trans; [exact K|]; apply (IH d1); [apply K|exact E].
Qed.

Lemma updateThread_kept req ws d o d' :
  locked d = false -> updateThread req ws d = (o, d') -> kept d d'.
Proof.
  intros Hl E. apply bind_cases in E as [([] & d1 & E1 & E)|(om & E1 & Hom & _)].
  - assert (kept d d1) as K.
    { destruct req; [by eapply logged_update_kept|]. injection E1 as <-. by apply kept_refl. }
    eapply kept_trans; [exact K|]. eapply update_loop_kept; [apply K|exact E].
  - destruct req; [by eapply logged_update_kept|]. by injection E1 as <- <-.
Qed.

(** Whatever the update thread receives and whatever the network answers
    each time, the stored data only moves through files that passed the
    signature checks, so it stays well formed; the write lock is free whenever
    the thread waits. *)
Theorem updateThread_safe req ws d o d' :
  locked d = false -> updateThread req ws d = (o, d') ->
  locked d' = false /\ same_but_ldso d d' /\ evolves (conf d) (file d) (file d') /\
  (db_wf (file d) -> db_wf (file d')).
Proof.
  intros Hl E. destruct (updateThread_kept _ _ _ _ _ Hl E) as (S & Ev & L).
  split; [done|]. split; [done|]. split; [done|]. by apply evolves_wf with (conf d).
Qed.

Lemma CurrentVersion_stamp h data b d m :
  index_effect h data b (file d) -> dbptr d = Some m -> locked d = false ->
  CurrentVersion d = Ok (Stamp (h_sec h) (h_nsec h)).
Proof.
  intros (b0 & b1 & es & r & ps & _ & Hh & _ & Hi & _ & _ & Hv & _ & K) Hd Hl.
  destruct (indexed_frame _ _ _ Hi) as (_ & K1 & _).
  unfold indexBuckets in Hh. rewrite !Forall_cons in Hh. destruct Hh as (H1' & H2' & _).
  unfold CurrentVersion, current_version, with_RLock, View. rewrite Hl, Hd.
  rewrite (proj2 (has_bucket_has _ p2pBucket)) by auto.
  rewrite (proj2 (has_bucket_has _ infoBucket)) by auto. cbn [negb].
  by rewrite Get_bk, Hv, lookup_insert_eq.
Qed.

(** C34: updates converge.  When [LATEST.jwt] announces [version] and the server
    keeps its side, that is, what it offers as this version to the current
    database is stamped with it if [index] accepts it, a successful update
    leaves exactly that version current (if the database could be reopened),
    and updating again against the same network changes nothing. *)
Theorem update_converges net d d1 version :
  locked d = false ->
  announced net (conf d) version ->
  (forall v f h data, CurrentVersion d = Ok v -> offered net (conf d) v version f ->
    check_file (db_name (conf d)) f = Ok (h, data) -> Stamp (h_sec h) (h_nsec h) = version) ->
  update net d = (Ok tt, d1) -> dbptr d1 <> None ->
  CurrentVersion d1 = Ok version /\ update net d1 = (Ok tt, d1).
Proof.
  intros Hl Hann Hst E Hd. pose proof (proj2 (latest_version_announced _ _ _) Hann) as Hver.
  assert (CurrentVersion d1 = Ok version /\ conf d1 = conf d) as [Hc Hconf].
  { revert E. unfold update. destruct (CurrentVersion d) as [v| |] eqn:Ev; [|done..]. munfold.
    destruct (download net v d) as [o d2] eqn:E. destruct o as [b| |]; [|done..]. intros [= <-].
    destruct (download_cases _ _ _ _ _ Hl E) as (L & S & Hf & W).
    split; [|apply S]. destruct W as [[W Hn]|(ver & f & El & Hne & Hof & h & data & Hck & Hi)].
    - destruct b; [done|]. rewrite (Hf eq_refl). rewrite Ev. f_equal.
      revert E. unfold download. munfold. rewrite Hver.
      destruct (negb (bool_decide (v = [])) && bool_decide (v = version)) eqn:En.
      + intros _. by apply andb_true_iff in En as [_ ?%bool_decide_eq_true].
      + destruct (fetch_db net (conf d) v version) as [r| |]; [|done..]. intros Ei.
        by destruct (install_cases _ _ _ _ Hl Ei) as (_ & _ & ? & _).
    - apply latest_version_announced in El. rewrite Hver in El. injection El as <-. destruct (dbptr d2) as [m|] eqn:Em; [|done].
      rewrite (CurrentVersion_stamp h data (file d) d2 m Hi Em L). f_equal.
      by apply (Hst v f h data). }
  split; [done|]. unfold update. rewrite Hc. unfold download. munfold. rewrite Hconf, Hver.
  destruct Hann as (? & ? & ? & _ & _ & _ & _ & _ & _ & _ & Hn).
  rewrite bool_decide_false by done. by rewrite bool_decide_true by done.
Qed.
End sound.

(** ** Concrete instance, for evaluation *)

(** A token is its own version, signed with the database key; the network serves
    the exported sample database under every other name. *)
Module SampleUpd.
#[export] Instance jwt : Jwt := {|
  jwtToken := bytes;
  jwt_ParseString t := Ok t;
  GetKeyId _ := Toy.db_kid;
  jwt_VerifyEdDSA pub _ :=
    if bool_decide (pub = Toy.pub_of Toy.db_kid) then Ok tt else Err ErrInvalid;
  jwt_ver t := t;
|}.
Definition version : bytes := Stamp 1654048543 0.
Definition net : network := fun url => Ok {|
  StatusCode := 200;
  Body := if decide (url = db_url Sample.sample_conf (str "LATEST.jwt"))
          then version ++ [Byte.x0a] else SampleExport.exported;
  BodyErr := None |}.

(** A token for a version of 2099, while every file is still the one of 2022. *)
Definition later : bytes := str "20990101000000".
Definition stale_net : network := fun url => Ok {|
  StatusCode := 200;
  Body := if decide (url = db_url Sample.sample_conf (str "LATEST.jwt")) then later
          else SampleExport.exported;
  BodyErr := None |}.

(** What every URL but that of the token gives. *)
Lemma net_hosts url body :
  net url = Ok {| StatusCode := 200; Body := body; BodyErr := None |} ->
  body = version ++ [Byte.x0a] \/ body = SampleExport.exported.
Proof. intros [= <-]. destruct (decide _); auto. Qed.

Lemma exported_stamp h data :
  @check_file Toy.toy_ed25519 (str "main") SampleExport.exported = Ok (h, data) ->
  Stamp (h_sec h) (h_nsec h) = version.
Proof.
  assert (match @check_file Toy.toy_ed25519 (str "main") SampleExport.exported with
          | Ok (h, _) => bool_decide (Stamp (h_sec h) (h_nsec h) = version)
          | _ => false end = true) as Hs by (vm_compute; reflexivity).
  intros E. rewrite E in Hs. by apply bool_decide_eq_true in Hs.
Qed.

Lemma token_no_file :
  is_ok (@check_file Toy.toy_ed25519 (str "main") (version ++ [Byte.x0a])) = false.
Proof. vm_compute. reflexivity. Qed.

Definition update0 := @update MapBolt.ops Sample.list_llrb SampleLd.ldcache SampleLd.json
  SampleLd.range Toy.toy_ed25519 jwt.
End SampleUpd.

Lemma download_sound_witness :
  exists d' version f, @download MapBolt.ops Sample.list_llrb SampleLd.ldcache SampleLd.json
      SampleLd.range Toy.toy_ed25519 SampleUpd.jwt SampleUpd.net [] Sample.db = (Ok true, d') /\
    @announced SampleUpd.jwt SampleUpd.net Sample.sample_conf version /\
    offered SampleUpd.net Sample.sample_conf [] version f /\
    @updated_by MapBolt.ops MapBolt.spec Toy.toy_ed25519
      Sample.sample_conf f (file Sample.db) (file d').
Proof.
  assert (match fst (@download MapBolt.ops Sample.list_llrb SampleLd.ldcache SampleLd.json
      SampleLd.range Toy.toy_ed25519 SampleUpd.jwt SampleUpd.net [] Sample.db) with
      | Ok true => true | _ => false end = true) as Hok by (vm_compute; reflexivity).
  destruct (@download MapBolt.ops Sample.list_llrb SampleLd.ldcache SampleLd.json
      SampleLd.range Toy.toy_ed25519 SampleUpd.jwt SampleUpd.net [] Sample.db) as [[[]|e|] d'] eqn:E;
    [|discriminate Hok..].
  destruct (@download_sound MapBolt.ops MapBolt.spec Sample.list_llrb SampleLd.ldcache
    SampleLd.json SampleLd.range Toy.toy_ed25519 SampleUpd.jwt SampleUpd.net [] Sample.db (Ok true) d'
    eq_refl E) as (_ & _ & _ & [[_ []]|(version & f & Ha & _ & Ho & Hu)]); [reflexivity|].
  exists d', version, f. split; [reflexivity|]. split; [exact Ha|]. split; [exact Ho|exact Hu].
Defined.

(** What [download] does not check: the version the token announces against the
    stamp in the signed file.  A server can answer with any signed database it
    ever had, and the next round downloads it again. *)
Lemma stale_file_accepted :
  @announced SampleUpd.jwt SampleUpd.stale_net Sample.sample_conf SampleUpd.later /\
  exists d1, SampleUpd.update0 SampleUpd.stale_net Sample.db = (Ok tt, d1) /\
    CurrentVersion d1 = Ok SampleUpd.version /\ SampleUpd.version <> SampleUpd.later.
Proof.
  split; [apply latest_version_announced; vm_compute; reflexivity|].
  assert (match SampleUpd.update0 SampleUpd.stale_net Sample.db with
      | (Ok tt, d) => bool_decide (CurrentVersion d = Ok SampleUpd.version) | _ => false end = true)
    as Hok by (vm_compute; reflexivity).
  destruct (SampleUpd.update0 SampleUpd.stale_net Sample.db) as [[[]|e|] d1]; [|discriminate Hok..].
  apply bool_decide_eq_true in Hok. exists d1. split; [done|]. split; [done|].
  vm_compute. discriminate.
Qed.

Lemma updateThread_safe_witness :
  exists o d', @updateThread MapBolt.ops Sample.list_llrb SampleLd.ldcache SampleLd.json
      SampleLd.range Toy.toy_ed25519 SampleUpd.jwt (Some SampleUpd.net)
      [WakeUpd SampleUpd.net; WakeTick SampleUpd.net; WakeDone] Sample.db = (o, d') /\
    locked d' = false.
Proof.
  destruct (@updateThread MapBolt.ops Sample.list_llrb SampleLd.ldcache SampleLd.json
      SampleLd.range Toy.toy_ed25519 SampleUpd.jwt (Some SampleUpd.net)
      [WakeUpd SampleUpd.net; WakeTick SampleUpd.net; WakeDone] Sample.db) as [o d'] eqn:E.
  exists o, d'. split; [reflexivity|].
  exact (proj1 (@updateThread_safe MapBolt.ops MapBolt.spec Sample.list_llrb SampleLd.ldcache
    SampleLd.json SampleLd.range Toy.toy_ed25519 SampleUpd.jwt _ _ Sample.db o d' eq_refl E)).
Defined.

Lemma update_converges_witness :
  exists d1, SampleUpd.update0 SampleUpd.net Sample.db = (Ok tt, d1) /\
    SampleUpd.update0 SampleUpd.net d1 = (Ok tt, d1).
Proof.
  assert (is_ok (fst (SampleUpd.update0 SampleUpd.net Sample.db)) = true) as Hok
    by (vm_compute; reflexivity).
  assert (dbptr (snd (SampleUpd.update0 SampleUpd.net Sample.db)) = Some ReadOnly) as Hp
    by (vm_compute; reflexivity).
  destruct (SampleUpd.update0 SampleUpd.net Sample.db) as [[[]|e|] d1] eqn:E; [|discriminate Hok..].
  exists d1. split; [reflexivity|]. cbn in Hp.
  refine (proj2 (@update_converges MapBolt.ops MapBolt.spec Sample.list_llrb SampleLd.ldcache
    SampleLd.json SampleLd.range Toy.toy_ed25519 SampleUpd.jwt SampleUpd.net Sample.db d1
    SampleUpd.version eq_refl _ _ E _)).
  - apply latest_version_announced. vm_compute. reflexivity.
  - intros v f h data _ Ho Ec.
    assert (f = SampleUpd.version ++ [Byte.x0a] \/ f = SampleExport.exported) as [->| ->]
      by (destruct Ho as [[_ Hs]|[_ Hs]]; exact (SampleUpd.net_hosts _ _ Hs)).
    + pose proof SampleUpd.token_no_file as Hf. change (db_name (conf Sample.db)) with (str "main") in Ec.
      rewrite Ec in Hf. discriminate Hf.
    + exact (SampleUpd.exported_stamp h data Ec).
  - rewrite Hp. discriminate.
Defined.
