(* ===== verification/Unsigned.v ===== *)
(** * Unsigned: packages loaded from a directory ([apkgdb/unsigned.go])

    The registry of unsigned SquashFS files (flag [-load_unsigned]): names,
    registration by the directory watcher, lookup, and the lazily opened file.
    A [*unsignedPkg] is a location of the registry's heap, since it is shared
    between the registry and the inode tree. *)

From S2P Require Import Prelude GoLib GoPath Sig OsArch Natsort Bolt Store GoTime Pins Ldso Index Package.
Local Open Scope Z_scope.

(** ** Names *)

(** The part before the last dot and the part behind it. *)
Definition cut_last_dot (s : bytes) : option (bytes * bytes) :=
  match LastIndexByte s dot with
  | Some v => Some (take v s, drop (S v) s)
  | None => None
  end.

Definition squashfsSuffix : bytes := str ".squashfs".

(** [None] when [ok] is false. *)
Definition cleanUnsignedName (f : bytes) : option (bytes * ArchOS) :=
  if negb (HasSuffix f squashfsSuffix) then None
  else
    let name := TrimSuffix f squashfsSuffix in
    match cut_last_dot name with
    | None => None
    | Some (sname, arch) =>
        if ParseArch arch =? BadArch then None
        else match cut_last_dot sname with
             | None => None
             | Some (_, os) =>
                 if ParseOS os =? BadOS then None
                 else Some (name, {| ao_OS := ParseOS os; ao_Arch := ParseArch arch |})
             end
    end.

(** ** Unsigned packages *)

(** What a lookup in the file system returns, apart from the root. *)
Inductive pkgInode `{Squashfs} :=
  | InoSymlink (target : bytes)
  | InoSquash (i : sqInode).

Section Unsigned.
Context `{Squashfs}.

(** [u_load] is whether [load.Do] has run. *)
Record unsignedPkg := {
  u_fn : bytes; u_pkg : bytes; u_startIno : Z; u_inodes : Z; u_load : bool;
  u_squash : option superblock; u_err : option error;
}.

Definition unsigned_new (fn name : bytes) : unsignedPkg := {|
  u_fn := fn; u_pkg := name; u_startIno := 0; u_inodes := 0; u_load := false;
  u_squash := None; u_err := None |}.

(** [p.load.Do(p.open)] *)
Definition open (p : unsignedPkg) : outcome unsignedPkg :=
  if u_load p then Ok p
  else match sq_Open (u_fn p) with
       | Ok sq => Ok {| u_fn := u_fn p; u_pkg := u_pkg p; u_startIno := u_startIno p;
                        u_inodes := sq_InodeCnt sq; u_load := true;
                        u_squash := Some sq; u_err := None |}
       | Err e => Ok {| u_fn := u_fn p; u_pkg := u_pkg p; u_startIno := u_startIno p;
                        u_inodes := u_inodes p; u_load := true;
                        u_squash := None; u_err := Some e |}
       | Panic => Panic
       end.

Definition unsigned_handleLookup (ino : Z) : ST unsignedPkg pkgInode := fun p =>
  match open p with
  | Panic => (Panic, p)
  | Err e => (Err e, p)
  | Ok p =>
      (match u_err p with
       | Some e => Err e
       | None =>
           if ino =? u_startIno p then Ok (InoSymlink (u_pkg p))
           else match u_squash p with
                | None => Err ErrInvalid
                | Some sq =>
                    if ino <=? u_startIno p then Err ErrInvalid
                    else InoSquash <$> sq_GetInode sq (ino - u_startIno p)
                end
       end, p)
  end.

(** ** The registry: [unsignedMap] and the packages it points to *)

Record registry := {
  unsignedMap : option (gmap ArchOS (gmap bytes nat));
  u_heap : gmap nat unsignedPkg;
  u_next : nat;
}.

Definition set_unsigned (l : nat) (p : unsignedPkg) (r : registry) : registry := {|
  unsignedMap := unsignedMap r; u_heap := <[l := p]> (u_heap r); u_next := u_next r |}.

(** [initUnsigned] with the flag set; the scan runs on its own. *)
Definition initUnsigned (loadUnsigned : bool) (r : registry) : registry :=
  if negb loadUnsigned then r
  else {| unsignedMap := Some ∅; u_heap := u_heap r; u_next := u_next r |}.

(** [stat] is the outcome of [os.Stat], [true] for a regular file. *)
Definition addUnsignedFile (p f : bytes) (stat : outcome bool) (r : registry) : outcome registry :=
  match cleanUnsignedName f with
  | None => Ok r
  | Some (name, archos) =>
      match stat with
      | Panic => Panic
      | Err _ | Ok false => Ok r
      | Ok true =>
          match unsignedMap r with
          | None => Panic                       (* assignment to a nil map *)
          | Some m => Ok {|
              unsignedMap := Some (<[archos := <[name := u_next r]> (default ∅ (m !! archos))]> m);
              u_heap := <[u_next r := unsigned_new (path_Join [p; f]) name]> (u_heap r);
              u_next := S (u_next r) |}
          end
      end
  end.

Definition removeUnsignedFile (f : bytes) (r : registry) : registry :=
  match cleanUnsignedName f with
  | None => r
  | Some (name, archos) =>
      match unsignedMap r ≫= lookup archos with
      | None => r
      | Some m => {|
          unsignedMap := <[archos := delete name m]> <$> unsignedMap r;
          u_heap := u_heap r; u_next := u_next r |}
      end
  end.

(** An event of the watcher: three bits of its [Op], of which the loop tests the
    first two, and the result of the [os.Stat] that follows a creation. *)
Record event := {
  ev_Name : bytes; ev_Create : bool; ev_Remove : bool; ev_Rename : bool; ev_stat : outcome bool }.

Definition handle_event (p : bytes) (ev : event) (r : registry) : outcome registry :=
  r ← (if ev_Create ev then addUnsignedFile p (path_Base (ev_Name ev)) (ev_stat ev) r else Ok r);
  Ok (if ev_Remove ev then removeUnsignedFile (path_Base (ev_Name ev)) r else r).

(** An entry of [os.ReadDir]: its name, whether [Info] calls it a regular file,
    and whether [os.Stat] does, which follows symbolic links. *)
Record dirEntry := { de_Name : bytes; de_Info : outcome bool; de_stat : outcome bool }.

Fixpoint scan_files (p : bytes) (l : list dirEntry) (r : registry) : outcome registry :=
  match l with
  | [] => Ok r
  | f :: l =>
      match de_Info f with
      | Panic => Panic
      | Err _ => scan_files p l r
      | Ok regular =>
          if negb regular then scan_files p l r
          else r ← addUnsignedFile p (de_Name f) (de_stat f) r; scan_files p l r
      end
  end.
Fixpoint scan_events (p : bytes) (evs : list event) (r : registry) : outcome registry :=
  match evs with
  | [] => Ok r
  | ev :: evs => r ← handle_event p ev r; scan_events p evs r
  end.

(** [watch] is the outcome of [fsnotify.NewWatcher] and [watcher.Add], [l] what
    [os.ReadDir] lists, [evs] the events until the channel closes. *)
Definition unsignedScan (p : bytes) (watch : outcome unit) (l : list dirEntry) (evs : list event)
    (r : registry) : outcome registry :=
  match watch with
  | Panic => Panic
  | Err _ => Ok r
  | Ok _ => r ← scan_files p l r; scan_events p evs r
  end.

Context `{GoRange, GoSort}.

Definition listUnsigned (osV : OS) (arch : Arch) (r : registry) : list bytes :=
  match unsignedMap r ≫= lookup {| ao_OS := osV; ao_Arch := arch |} with
  | None => []
  | Some m => sort_Sort bytes_ltb (fst <$> range_map nat m)
  end.

(** The first package, in the order of [range], whose name starts with [name]. *)
Definition lookupUnsigned (osV : OS) (arch : Arch) (name : bytes) : ST registry (option nat) :=
  fun r =>
  match unsignedMap r ≫= lookup {| ao_OS := osV; ao_Arch := arch |} with
  | None => (Ok None, r)
  | Some m =>
      match List.find (fun e => HasPrefix e.1 name) (range_map nat m) with
      | None => (Ok None, r)
      | Some (_, l) =>
          match u_heap r !! l with
          | None => (Panic, r)
          | Some p =>
              match open p with
              | Ok p => (Ok (Some l), set_unsigned l p r)
              | Err e => (Err e, r)
              | Panic => (Panic, r)
              end
          end
      end
  end.
End Unsigned.

(** ** Names, as a relation *)

Lemma cut_last_dot_spec s a b :
  cut_last_dot s = Some (a, b) <-> s = a ++ dot :: b /\ dot ∉ b.
Proof.
  unfold cut_last_dot. split.
  - destruct (LastIndexByte s dot) as [v|] eqn:E; [|done]. intros [= <- <-].
    by apply LastIndexByte_spec.
  - intros [-> Hb]. rewrite LastIndexByte_app by done. by rewrite take_sep, drop_sep.
Qed.

Lemma ParseOS_valid s : ParseOS s <> BadOS <-> exists os, 0 <= os <= 3 /\ s = OS_String os.
Proof.
  split.
  - intros Hn. exists (ParseOS s). split; [by destruct (ParseOS_range s)|].
    by rewrite ParseOS_String_inv.
  - intros (os & Hr & ->). rewrite ParseOS_String by done. unfold BadOS. lia.
Qed.
Lemma ParseArch_valid s : ParseArch s <> BadArch <-> exists a, 0 <= a <= 5 /\ s = Arch_String a.
Proof.
  split.
  - intros Hn. exists (ParseArch s). split; [by destruct (ParseArch_range s)|].
    by rewrite ParseArch_String_inv.
  - intros (a & Hr & ->). rewrite ParseArch_String by done. unfold BadArch. lia.
Qed.

Lemma Arch_String_no_dot a : dot ∉ Arch_String a.
Proof.
  unfold Arch_String. repeat case_match; refine (bool_decide_unpack _ _); vm_compute; exact I.
Qed.

(** A known OS and architecture. *)
Definition known (ao : ArchOS) : Prop := 0 <= ao_OS ao <= 3 /\ 0 <= ao_Arch ao <= 5.

(** [cleanUnsignedName] accepts exactly the names
    [base.os.arch.squashfs] with a known OS and architecture, and returns the
    name without the extension and that pair. *)
Theorem cleanUnsignedName_spec f name ao :
  cleanUnsignedName f = Some (name, ao) <->
  f = name ++ squashfsSuffix /\ known ao /\ exists base, name = base ++ dot :: ArchOS_String ao.
Proof.
  unfold cleanUnsignedName. split.
  - destruct (HasSuffix f squashfsSuffix) eqn:Hs; [|done]. cbn [negb].
    apply HasSuffix_spec in Hs as [n ->]. rewrite TrimSuffix_app.
    destruct (cut_last_dot n) as [[s arch]|] eqn:E1; [|done].
    apply cut_last_dot_spec in E1 as [-> _].
    destruct (Z.eqb_spec (ParseArch arch) BadArch) as [|Ha]; [done|].
    destruct (cut_last_dot s) as [[b os]|] eqn:E2; [|done].
    apply cut_last_dot_spec in E2 as [-> _].
    destruct (Z.eqb_spec (ParseOS os) BadOS) as [|Ho]; [done|].
    apply ParseArch_valid in Ha as (a & Hra & ->). apply ParseOS_valid in Ho as (o & Hro & ->).
    rewrite ParseOS_String, ParseArch_String by done. intros [= <- <-].
    split; [done|]. split; [done|]. exists b. unfold ArchOS_String. cbn.
    by rewrite <-app_assoc.
  - intros (-> & [Ho Ha] & base & ->). rewrite (proj2 (HasSuffix_spec _ _)) by eauto. cbn [negb].
    rewrite TrimSuffix_app. unfold ArchOS_String.
    rewrite (proj2 (cut_last_dot_spec _ (base ++ dot :: OS_String (ao_OS ao)) (Arch_String (ao_Arch ao)))).
    2: { split; [by rewrite <-app_assoc|apply Arch_String_no_dot]. }
    rewrite ParseArch_String by done.
    rewrite (proj2 (Z.eqb_neq _ _)) by (unfold BadArch; lia).
    rewrite (proj2 (cut_last_dot_spec _ base (OS_String (ao_OS ao)))) by (split; [done|apply OS_String_no_dot]).
    rewrite ParseOS_String by done. rewrite (proj2 (Z.eqb_neq _ _)) by (unfold BadOS; lia).
    by destruct ao.
Qed.

(** ** The registry refines a set of file names *)

Section registry.
Context `{Squashfs}.

Definition reg_entry (m : gmap ArchOS (gmap bytes nat)) (ao : ArchOS) (name : bytes) : option nat :=
  m !! ao ≫= lookup name.

(** The registry of the directory [p] holding the files [fs]. *)
Definition represents (p : bytes) (fs : gset bytes) (r : registry) : Prop :=
  exists m, unsignedMap r = Some m /\
    (forall ao name, is_Some (reg_entry m ao name) <->
      name ++ squashfsSuffix ∈ fs /\ cleanUnsignedName (name ++ squashfsSuffix) = Some (name, ao)) /\
    (forall ao name l, reg_entry m ao name = Some l ->
      (l < u_next r)%nat /\ exists pk, u_heap r !! l = Some pk /\ u_pkg pk = name /\
        u_fn pk = path_Join [p; name ++ squashfsSuffix]).

(** What the calls make of the set. *)
Definition files_add (f : bytes) (stat : outcome bool) (fs : gset bytes) : gset bytes :=
  match stat with Ok true => {[ f ]} ∪ fs | _ => fs end.
Definition files_entry (fs : gset bytes) (e : dirEntry) : gset bytes :=
  match de_Info e with Ok true => files_add (de_Name e) (de_stat e) fs | _ => fs end.
Definition files_event (fs : gset bytes) (ev : event) : gset bytes :=
  let f := path_Base (ev_Name ev) in
  let fs := if ev_Create ev then files_add f (ev_stat ev) fs else fs in
  if ev_Remove ev then fs ∖ {[ f ]} else fs.

Lemma reg_entry_insert m ao name l ao' name' :
  reg_entry (<[ao := <[name := l]> (default ∅ (m !! ao))]> m) ao' name' =
  if decide (ao' = ao /\ name' = name) then Some l else reg_entry m ao' name'.
Proof.
  unfold reg_entry. destruct (decide (ao' = ao)) as [->|Hne].
  - rewrite lookup_insert_eq. cbn. destruct (decide (name' = name)) as [->|Hn].
    + by rewrite lookup_insert_eq, decide_True.
    + rewrite lookup_insert_ne, decide_False by naive_solver.
      destruct (m !! ao); cbn; [done|]. apply lookup_empty.
  - by rewrite lookup_insert_ne, decide_False by naive_solver.
Qed.

Lemma reg_entry_delete m ao name m0 ao' name' :
  m !! ao = Some m0 ->
  reg_entry (<[ao := delete name m0]> m) ao' name' =
  if decide (ao' = ao /\ name' = name) then None else reg_entry m ao' name'.
Proof.
  intros Hm. unfold reg_entry. destruct (decide (ao' = ao)) as [->|Hne].
  - rewrite lookup_insert_eq, Hm. cbn. destruct (decide (name' = name)) as [->|Hn].
    + by rewrite lookup_delete_eq, decide_True.
    + by rewrite lookup_delete_ne, decide_False by naive_solver.
  - by rewrite lookup_insert_ne, decide_False by naive_solver.
Qed.

Lemma clean_name f name ao : cleanUnsignedName f = Some (name, ao) -> f = name ++ squashfsSuffix.
Proof.
  unfold cleanUnsignedName. destruct (HasSuffix f squashfsSuffix) eqn:Hs; [|done]. cbn [negb].
  apply HasSuffix_spec in Hs as [n ->]. rewrite TrimSuffix_app.
  destruct (cut_last_dot n) as [[s arch]|]; [|done]. destruct (_ =? _); [done|].
  destruct (cut_last_dot s) as [[b os]|]; [|done]. destruct (_ =? _); [done|]. by intros [= -> _].
Qed.

Lemma represents_more p fs fs' r :
  represents p fs r ->
  (forall name ao, cleanUnsignedName (name ++ squashfsSuffix) = Some (name, ao) ->
    name ++ squashfsSuffix ∈ fs <-> name ++ squashfsSuffix ∈ fs') ->
  represents p fs' r.
Proof.
  intros (m & Hm & Hi & Hl) Hfs. exists m. split; [done|]. split; [|done].
  intros ao name. rewrite Hi. split; intros [Hin Hc]; (split; [|done]); by apply (Hfs name ao).
Qed.

Lemma add_represents p f stat fs r :
  represents p fs r -> stat <> Panic ->
  exists r', addUnsignedFile p f stat r = Ok r' /\ represents p (files_add f stat fs) r'.
Proof.
  intros R Hs. unfold addUnsignedFile. destruct (cleanUnsignedName f) as [[name ao]|] eqn:Ec.
  - destruct stat as [[]|e|]; [|by eexists..|done].
    destruct R as (m & -> & Hi & Hl). eexists. split; [reflexivity|].
    eexists. split; [reflexivity|]. cbn [u_next u_heap]. pose proof (clean_name _ _ _ Ec) as ->. split.
    + intros ao' name'. rewrite reg_entry_insert. cbn [files_add].
      case_decide as Hd.
      * destruct Hd as [-> ->]. split; [|by eauto]. intros _. split; [set_solver|done].
      * rewrite Hi, elem_of_union, elem_of_singleton. split; [tauto|].
        intros [[E|Hin] Hc]; [|done]. apply app_inv_tail in E as ->.
        rewrite Hc in Ec. injection Ec as ->. by destruct Hd.
    + intros ao' name' l. rewrite reg_entry_insert. case_decide as Hd.
      * destruct Hd as [-> ->]. intros [= <-]. split; [lia|].
        rewrite lookup_insert_eq. by eexists.
      * intros E. destruct (Hl _ _ _ E) as (Hlt & pk & Hpk & ?). split; [lia|].
        exists pk. by rewrite lookup_insert_ne by lia.
  - exists r. split; [done|]. eapply represents_more; [exact R|].
    intros name ao Hc. destruct stat as [[]|e|]; cbn [files_add]; [|done..].
    rewrite elem_of_union, elem_of_singleton. split; [tauto|]. intros [E|]; [|done]. rewrite E in Hc. congruence.
Qed.

Lemma remove_represents p f fs r :
  represents p fs r -> represents p (fs ∖ {[ f ]}) (removeUnsignedFile f r).
Proof.
  intros R. unfold removeUnsignedFile. destruct (cleanUnsignedName f) as [[name ao]|] eqn:Ec.
  - pose proof (clean_name _ _ _ Ec) as ->. destruct R as (m & Hm & Hi & Hl). rewrite Hm. cbn.
    assert (forall ao' name', name' ++ squashfsSuffix ∈ fs ∖ {[ name ++ squashfsSuffix ]} /\
        cleanUnsignedName (name' ++ squashfsSuffix) = Some (name', ao') <->
        is_Some (if decide (ao' = ao /\ name' = name) then None else reg_entry m ao' name')) as Hsame.
    { intros ao' name'. rewrite elem_of_difference, elem_of_singleton. case_decide as Hd.
      - destruct Hd as [-> ->]. split; [by intros [[_ ?] _]|by intros [? ?]].
      - rewrite Hi. split; [tauto|]. intros [Hin Hc]. split; [|done]. split; [done|].
        intros E. apply app_inv_tail in E as ->. rewrite Hc in Ec. injection Ec as ->. by destruct Hd. }
    destruct (m !! ao) as [m0|] eqn:Em; cbn.
    + eexists. split; [reflexivity|]. cbn. split.
      * intros ao' name'. by rewrite (reg_entry_delete _ _ _ _ _ _ Em), Hsame.
      * intros ao' name' l. rewrite (reg_entry_delete _ _ _ _ _ _ Em).
        case_decide; [done|]. apply Hl.
    + exists m. split; [done|]. split; [|done]. intros ao' name'. rewrite Hsame.
      case_decide as Hd; [|done]. destruct Hd as [-> ->]. unfold reg_entry. by rewrite Em.
  - eapply represents_more; [exact R|]. intros name ao Hc.
    rewrite elem_of_difference, elem_of_singleton. split; [|tauto]. intros ?. split; [done|].
    intros E. rewrite E in Hc. congruence.
Qed.

Lemma scan_files_represents p l fs r :
  represents p fs r -> Forall (fun e => de_Info e <> Panic /\ de_stat e <> Panic) l ->
  exists r', scan_files p l r = Ok r' /\ represents p (foldl files_entry fs l) r'.
Proof.
  intros R Hl. revert fs r R. induction Hl as [|e l [Hi Hs] Hl IH]; intros fs r R; cbn; [by exists r|].
  destruct (de_Info e) as [[]|err|] eqn:Ei; cbn [negb]; [|by apply IH; unfold files_entry; rewrite Ei..|done].
  destruct (add_represents p (de_Name e) (de_stat e) fs r R Hs) as (r' & -> & R'). cbn. apply IH.
  unfold files_entry. by rewrite Ei.
Qed.

Lemma scan_events_represents p evs fs r :
  represents p fs r -> Forall (fun ev => ev_stat ev <> Panic) evs ->
  exists r', scan_events p evs r = Ok r' /\ represents p (foldl files_event fs evs) r'.
Proof.
  intros R Hl. revert fs r R. induction Hl as [|ev evs Hs Hl IH]; intros fs r R; cbn; [by exists r|].
  unfold handle_event.
  assert (exists r1, (if ev_Create ev then addUnsignedFile p (path_Base (ev_Name ev)) (ev_stat ev) r
                      else Ok r) = Ok r1 /\
    represents p (if ev_Create ev then files_add (path_Base (ev_Name ev)) (ev_stat ev) fs else fs) r1)
    as (r1 & -> & R1).
  { destruct (ev_Create ev); [by apply add_represents|by exists r]. }
  cbn. apply IH. unfold files_event. destruct (ev_Remove ev); [by apply remove_represents|done].
Qed.

(** ** The directory *)

(** What a name of the directory is; [os.Stat] follows a link. *)
Inductive kind := Regular | Link (target : outcome bool) | Other.
#[export] Instance kind_eq_dec : EqDecision kind.
Proof. solve_decision. Defined.
Definition Stat_of (k : kind) : outcome bool :=
  match k with Regular => Ok true | Link target => target | Other => Ok false end.

(** A change of the directory: a name appears (or a regular file replaces it),
    has its content written, disappears, or is renamed to another directory or
    name (the new name appears by a change of its own). *)
Inductive dirChange :=
  | Created (f : bytes) (k : kind)
  | Written (f : bytes)
  | Removed (f : bytes)
  | MovedAway (f : bytes).

Definition apply_change (dir : gmap bytes kind) (c : dirChange) : gmap bytes kind :=
  match c with
  | Created f k => <[f := k]> dir
  | Written _ => dir
  | Removed f | MovedAway f => delete f dir
  end.

(** The regular files of the directory. *)
Definition regular_files (dir : gmap bytes kind) : gset bytes :=
  dom (filter (fun e => e.2 = Regular) dir).

(** The listing of the directory. *)
Definition lists (dir : gmap bytes kind) (l : list dirEntry) : Prop := forall e,
  e ∈ l <-> exists k, dir !! de_Name e = Some k /\
    de_Info e = Ok (match k with Regular => true | _ => false end) /\ de_stat e = Stat_of k.

Definition file_of (c : dirChange) : bytes :=
  match c with Created f _ | Written f | Removed f | MovedAway f => f end.
Definition touches (f : bytes) (c : dirChange) : Prop :=
  match c with Written _ => False | _ => file_of c = f end.

(** The event [fsnotify] gives for a change. *)
Definition event_for (c : dirChange) (ev : event) : Prop :=
  path_Base (ev_Name ev) = file_of c /\
  ev_Create ev = (match c with Created _ _ => true | _ => false end) /\
  ev_Remove ev = (match c with Removed _ => true | _ => false end) /\
  ev_Rename ev = (match c with MovedAway _ => true | _ => false end).

(** The events of the changes, in order.  They may be handled late: the
    [os.Stat] after a creation tells what the name is only when no later change
    touches it. *)
Fixpoint delivered (cs : list dirChange) (evs : list event) : Prop :=
  match cs, evs with
  | [], [] => True
  | c :: cs, ev :: evs =>
      event_for c ev /\ ev_stat ev <> Panic /\
      (match c with
       | Created f k => Forall (fun c' => ~ touches f c') cs -> ev_stat ev = Stat_of k
       | _ => True
       end) /\ delivered cs evs
  | _, _ => False
  end.

(** Only a regular file can take the place of another name. *)
Fixpoint possible (dir : gmap bytes kind) (cs : list dirChange) : Prop :=
  match cs with
  | [] => True
  | c :: cs =>
      (match c with Created f k => k = Regular \/ dir !! f = None | _ => True end) /\
      possible (apply_change dir c) cs
  end.

(** The changes the loop can follow: no package file is renamed away, and none
    is created as a symbolic link. *)
Definition followed (c : dirChange) : Prop :=
  match c with
  | MovedAway f | Created f (Link _) => cleanUnsignedName f = None
  | _ => True
  end.

(** The set the loop works on against the directory, for a package file [f]. *)
Definition tracks (dir : gmap bytes kind) (fs : gset bytes) (cs : list dirChange) : Prop :=
  forall f, cleanUnsignedName f <> None ->
    (dir !! f = None -> f ∉ fs) /\
    (Forall (fun c => ~ touches f c) cs -> f ∈ fs <-> dir !! f = Some Regular).

Lemma tracks_step dir fs c cs ev evs :
  tracks dir fs (c :: cs) -> possible dir (c :: cs) -> delivered (c :: cs) (ev :: evs) -> followed c ->
  tracks (apply_change dir c) (files_event fs ev) cs.
Proof.
  intros T [Hp _] ((Hf & Hc & Hr & _) & Hpan & Hst & _) Hfol f Hclean. destruct (T f Hclean) as [T1 T2].
  unfold files_event. rewrite Hf, Hc, Hr. destruct c as [g k|g|g|g]; cbn [file_of apply_change] in *.
  - destruct (decide (f = g)) as [->|Hne].
    + rewrite lookup_insert_eq. split; [done|]. intros Hu. rewrite (Hst Hu).
      destruct k as [|t|]; cbn [Stat_of files_add].
      * split; [done|set_solver].
      * by destruct Hclean.
      * destruct Hp as [?|Hn]; [done|]. split; [intros Hin; by destruct (T1 Hn)|done].
    + rewrite lookup_insert_ne by done.
      assert (f ∈ files_add g (ev_stat ev) fs <-> f ∈ fs) as Hs
        by (destruct (ev_stat ev) as [[]| |]; cbn [files_add]; set_solver).
      rewrite Hs. split; [done|]. intros Hu. apply T2. constructor; [cbn; congruence|done].
  - split; [done|]. intros Hu. apply T2. by constructor; [intros []|].
  - destruct (decide (f = g)) as [->|Hne].
    + rewrite lookup_delete_eq. split; [set_solver|]. intros _. split; [set_solver|done].
    + rewrite lookup_delete_ne by done. split; [set_solver|]. intros Hu.
      rewrite <-T2 by (constructor; [cbn; congruence|done]). set_solver.
  - assert (f <> g) as Hne by (intros ->; by destruct Hclean).
    rewrite lookup_delete_ne by done. split; [done|]. intros Hu. apply T2.
    constructor; [cbn; congruence|done].
Qed.

Lemma tracks_all dir fs cs evs :
  tracks dir fs cs -> possible dir cs -> delivered cs evs -> Forall followed cs ->
  tracks (foldl apply_change dir cs) (foldl files_event fs evs) [].
Proof.
  revert dir fs evs. induction cs as [|c cs IH]; intros dir fs [|ev evs] T Hp Hd Hf; try done.
  apply Forall_cons in Hf as [Hf Hfs]. cbn [foldl].
  apply IH; [by eapply tracks_step|apply Hp|apply Hd|done].
Qed.

Lemma foldl_files_entry l fs f :
  f ∈ foldl files_entry fs l <->
  f ∈ fs \/ exists e, e ∈ l /\ de_Name e = f /\ de_Info e = Ok true /\ de_stat e = Ok true.
Proof.
  revert fs. induction l as [|e l IH]; intros fs; cbn [foldl].
  { split; [by left|]. intros [?|(e & He & _)]; [done|by inversion He]. }
  rewrite IH. unfold files_entry. split.
  - intros [Hin|(e' & He' & ?)]; [|right; exists e'; split; [by right|done]].
    destruct (de_Info e) as [[]| |] eqn:Ei; try by left.
    destruct (de_stat e) as [[]| |] eqn:Es; cbn [files_add] in Hin; try by left.
    apply elem_of_union in Hin as [->%elem_of_singleton|?]; [|by left].
    right. exists e. split; [by left|done].
  - intros [Hin|(e' & [->|He']%elem_of_cons & Hn & Hi & Hs)].
    + left. destruct (de_Info e) as [[]| |]; try done. destruct (de_stat e) as [[]| |]; cbn; set_solver.
    + left. rewrite Hi, Hs. cbn. set_solver.
    + right. by exists e'.
Qed.

Lemma lists_tracks dir l cs : lists dir l -> tracks dir (foldl files_entry ∅ l) cs.
Proof.
  intros Hl f _. assert (f ∈ foldl files_entry ∅ l <-> dir !! f = Some Regular) as Hf.
  { rewrite foldl_files_entry. split.
    - intros [?|(e & He & <- & Hi & _)]; [set_solver|]. apply Hl in He as (k & Hk & Hi' & _).
      rewrite Hi in Hi'. by destruct k.
    - intros Hk. right. exists {| de_Name := f; de_Info := Ok true; de_stat := Ok true |}.
      split; [|done]. apply Hl. by exists Regular. }
  rewrite Hf. split; [by intros ->|done].
Qed.

Lemma lists_no_panic dir l :
  lists dir l -> (forall f t, dir !! f = Some (Link t) -> t <> Panic) ->
  Forall (fun e => de_Info e <> Panic /\ de_stat e <> Panic) l.
Proof.
  intros Hl Hlk. apply Forall_forall. intros e (k & Hk & Hi & Hs)%Hl. rewrite Hi, Hs.
  split; [done|]. destruct k as [|t|]; cbn; [done|by eapply Hlk|done].
Qed.

Lemma delivered_no_panic cs evs : delivered cs evs -> Forall (fun ev => ev_stat ev <> Panic) evs.
Proof.
  revert evs. induction cs as [|c cs IH]; intros [|ev evs] Hd; try done.
  destruct Hd as (_ & ? & _ & Hd). constructor; [done|by apply IH].
Qed.

Lemma regular_files_elem dir f : f ∈ regular_files dir <-> dir !! f = Some Regular.
Proof.
  unfold regular_files. rewrite elem_of_dom. split.
  - intros [k [Hk Hr]%map_lookup_filter_Some]. cbn in Hr. by subst k.
  - intros Hk. exists Regular. by apply map_lookup_filter_Some.
Qed.

Lemma represents_start p r0 : represents p ∅ (initUnsigned true r0).
Proof.
  exists ∅. split; [done|]. unfold reg_entry. split.
  - intros ao name. rewrite lookup_empty. cbn. split; [by intros [? ?]|set_solver].
  - intros ao name l'. by rewrite lookup_empty.
Qed.

(** C21: the registry follows the directory.  After the listing of a directory
    and the events of any changes of it, handled in order but possibly late, the
    registered packages are exactly the regular files then in the directory
    with a well-formed name; each entry points to a package with that name and
    that file's path, and the scan never fails.  This is for changes in which no
    package file is renamed away and none is created as a symbolic link: the
    loop does not see the first ([renamed_stays]) and takes the second for a
    file ([link_registered]); and for a watcher that could be set up. *)
Theorem unsignedScan_registry p dir l cs evs r0 :
  lists dir l -> (forall f t, dir !! f = Some (Link t) -> t <> Panic) ->
  possible dir cs -> delivered cs evs -> Forall followed cs ->
  exists r', unsignedScan p (Ok tt) l evs (initUnsigned true r0) = Ok r' /\
    represents p (regular_files (foldl apply_change dir cs)) r'.
Proof.
  intros Hl Hlk Hp Hd Hf. unfold unsignedScan.
  destruct (scan_files_represents p l ∅ _ (represents_start p r0) (lists_no_panic _ _ Hl Hlk)) as (r1 & -> & R1).
  cbn. destruct (scan_events_represents p evs _ r1 R1 (delivered_no_panic _ _ Hd)) as (r' & E & R).
  exists r'. split; [exact E|]. eapply represents_more; [exact R|]. intros name ao Hc.
  rewrite regular_files_elem.
  apply (tracks_all dir _ cs evs (lists_tracks dir l cs Hl) Hp Hd Hf); [congruence|constructor].
Qed.

(** ** Lookup *)

Context `{!GoRange, !GoRangeSpec}.

(** [lookupUnsigned] returns a package only when its registered name starts
    with the requested one on that OS and architecture, and by then the package
    has been opened; it returns none exactly when there is no such name. *)
Theorem lookupUnsigned_spec p fs osV arch name r o r' :
  represents p fs r -> lookupUnsigned osV arch name r = (o, r') ->
  let ao := {| ao_OS := osV; ao_Arch := arch |} in
  unsignedMap r' = unsignedMap r /\
  match o with
  | Ok (Some l) => exists pk, u_heap r' !! l = Some pk /\ u_load pk = true /\
      HasPrefix (u_pkg pk) name = true /\ u_pkg pk ++ squashfsSuffix ∈ fs /\
      cleanUnsignedName (u_pkg pk ++ squashfsSuffix) = Some (u_pkg pk, ao)
  | Ok None => r' = r /\ forall f n, f ∈ fs -> cleanUnsignedName f = Some (n, ao) ->
      HasPrefix n name = false
  | _ => True
  end.
Proof.
  intros (m & Hm & Hi & Hl) E ao. revert E. unfold lookupUnsigned. rewrite Hm. cbn. fold ao.
  assert (forall n, reg_entry m ao n = m !! ao ≫= lookup n) as He by done.
  destruct (m !! ao) as [m0|] eqn:Em.
  - destruct (List.find _ (range_map nat m0)) as [[n l]|] eqn:Ef.
    + apply List.find_some in Ef as [Hin Hp]. cbn in Hp.
      apply list_elem_of_In in Hin. rewrite (range_map_perm nat m0), elem_of_map_to_list in Hin.
      assert (reg_entry m ao n = Some l) as Hn by by rewrite He.
      destruct (Hl ao n l Hn) as (_ & pk & -> & Hpk & _).
      destruct (proj1 (Hi ao n) ltac:(by eexists)) as [Hfs Hc].
      unfold open. destruct (u_load pk) eqn:Hld.
      * intros [= <- <-]. split; [done|]. exists pk. cbn. rewrite lookup_insert_eq. by subst n.
      * destruct (sq_Open (u_fn pk)) as [sq|e|]; [..|by intros [= <- <-]];
          intros [= <- <-]; (split; [done|]); eexists; cbn; rewrite lookup_insert_eq;
          (split; [reflexivity|]); cbn; by subst n.
    + intros [= <- <-]. split; [done|]. split; [done|]. intros f n Hf Hc.
      pose proof (clean_name _ _ _ Hc) as ->.
      destruct (proj2 (Hi ao n) (conj Hf Hc)) as [l Hn]. rewrite He in Hn. cbn in Hn.
      assert ((n, l) ∈ range_map nat m0) as Hin by (by rewrite range_map_perm, elem_of_map_to_list).
      apply list_elem_of_In in Hin. by apply (List.find_none _ _ Ef) in Hin.
  - intros [= <- <-]. split; [done|]. split; [done|]. intros f n Hf Hc.
    pose proof (clean_name _ _ _ Hc) as ->.
    destruct (proj2 (Hi ao n) (conj Hf Hc)) as [l Hn]. rewrite He in Hn. done.
Qed.
End registry.

(** ** Concrete instance, for evaluation *)

Module SampleUnsigned.
Definition dir : bytes := str "/var/lib/apkg/unsigned".
Definition foo : bytes := str "sys-libs.foo.core.1.2.linux.amd64.squashfs".
Definition old : bytes := str "sys-libs.old.core.1.linux.amd64.squashfs".
Definition new : bytes := str "a.b.core.3.linux.amd64.squashfs".

(** A package, a link to one, and another file. *)
Definition start : gmap bytes kind :=
  <[foo := Regular]> (<[old := Link (Ok true)]> {[ str "README" := Regular ]}).
Definition files : list dirEntry := [
  {| de_Name := foo; de_Info := Ok true; de_stat := Ok true |};
  {| de_Name := old; de_Info := Ok false; de_stat := Ok true |};
  {| de_Name := str "README"; de_Info := Ok true; de_stat := Ok true |}].

(** A package appears, is written, and another is removed. *)
Definition changes : list dirChange := [Created new Regular; Written new; Removed foo].
Definition event_of (c : dirChange) : event := {|
  ev_Name := dir ++ str "/" ++ file_of c;
  ev_Create := match c with Created _ _ => true | _ => false end;
  ev_Remove := match c with Removed _ => true | _ => false end;
  ev_Rename := match c with MovedAway _ => true | _ => false end;
  ev_stat := match c with Created _ k => Stat_of k | _ => Ok true end |}.
Definition events : list event := event_of <$> changes.

Definition r0 : @registry SamplePkg.squashfs :=
  {| unsignedMap := None; u_heap := ∅; u_next := 0 |}.
Definition after (cs : list dirChange) : @registry SamplePkg.squashfs :=
  match @unsignedScan SamplePkg.squashfs dir (Ok tt) files (event_of <$> cs) (initUnsigned true r0) with
  | Ok r => r | _ => r0 end.
Definition r1 : @registry SamplePkg.squashfs := after [Created new Regular].
(** The names listed for one platform. *)
Definition names (r : @registry SamplePkg.squashfs) : list bytes :=
  @listUnsigned SamplePkg.squashfs SampleLd.range insertion_sort Linux AMD64 r.

Lemma start_lists : lists start files.
Proof.
  intros e. unfold files, start. rewrite !elem_of_cons. split.
  - intros [->|[->|[->|He]]]; [..|by inversion He]; cbn [de_Name de_Info de_stat].
    + exists Regular. by rewrite lookup_insert_eq.
    + exists (Link (Ok true)). rewrite lookup_insert_ne by (vm_compute; discriminate).
      by rewrite lookup_insert_eq.
    + exists Regular. rewrite !lookup_insert_ne by (vm_compute; discriminate).
      by rewrite lookup_singleton_eq.
  - destruct e as [f i st]; cbn [de_Name de_Info de_stat]. intros (k & Hk & -> & ->). revert Hk.
    rewrite !lookup_insert_Some, lookup_singleton_Some.
    intros [[<- <-]|[_ [[<- <-]|[_ [<- <-]]]]]; [by left|by right; left|by right; right; left].
Qed.
Lemma start_links f t : start !! f = Some (Link t) -> t <> Panic.
Proof.
  unfold start. rewrite !lookup_insert_Some, lookup_singleton_Some.
  intros [[_ ?]|[_ [[_ [= <-]]|[_ [_ ?]]]]]; done.
Qed.
Lemma changes_possible : possible start changes.
Proof. cbn. by split; [left|]. Qed.
Lemma changes_delivered : delivered changes events.
Proof. cbn. repeat split; discriminate. Qed.

(** A renamed file stays registered, although the directory no longer has it:
    the loop has no case for [fsnotify.Rename]. *)
Lemma renamed_stays :
  names (after [MovedAway foo]) = [str "sys-libs.foo.core.1.2.linux.amd64"] /\
  foldl apply_change start [MovedAway foo] !! foo = None.
Proof. split; vm_compute; reflexivity. Qed.

(** A link is left out of the initial scan, but registered when it appears
    later: [os.Stat] follows it. *)
Lemma link_registered :
  names (after [Created new (Link (Ok true))]) =
    [str "a.b.core.3.linux.amd64"; str "sys-libs.foo.core.1.2.linux.amd64"] /\
  old ∈ (de_Name <$> files).
Proof. split; [vm_compute; reflexivity|]. set_solver. Qed.
End SampleUnsigned.

Lemma unsignedScan_registry_witness :
  exists r', @unsignedScan SamplePkg.squashfs SampleUnsigned.dir (Ok tt) SampleUnsigned.files
      SampleUnsigned.events (initUnsigned true SampleUnsigned.r0) = Ok r' /\
    SampleUnsigned.names r' = [str "a.b.core.3.linux.amd64"] /\
    @represents SamplePkg.squashfs SampleUnsigned.dir
      (regular_files (foldl apply_change SampleUnsigned.start SampleUnsigned.changes)) r'.
Proof.
  destruct (@unsignedScan_registry SamplePkg.squashfs SampleUnsigned.dir SampleUnsigned.start
    SampleUnsigned.files SampleUnsigned.changes SampleUnsigned.events SampleUnsigned.r0) as (r' & E & R).
  - exact SampleUnsigned.start_lists.
  - exact SampleUnsigned.start_links.
  - exact SampleUnsigned.changes_possible.
  - exact SampleUnsigned.changes_delivered.
  - repeat constructor.
  - exists r'. split; [exact E|]. split; [|exact R].
    assert (match @unsignedScan SamplePkg.squashfs SampleUnsigned.dir (Ok tt) SampleUnsigned.files
        SampleUnsigned.events (initUnsigned true SampleUnsigned.r0) with
      | Ok r => SampleUnsigned.names r | _ => [] end = [str "a.b.core.3.linux.amd64"]) as Hn
      by (vm_compute; reflexivity).
    rewrite E in Hn. exact Hn.
Defined.

Lemma SampleUnsigned_r1_represents :
  exists fs, @represents SamplePkg.squashfs SampleUnsigned.dir fs SampleUnsigned.r1.
Proof.
  unfold SampleUnsigned.r1, SampleUnsigned.after, unsignedScan.
  destruct (scan_files_represents SampleUnsigned.dir SampleUnsigned.files _ _
    (represents_start SampleUnsigned.dir SampleUnsigned.r0)) as (r1 & -> & R1).
  { repeat constructor; discriminate. }
  cbn [mbind outcome_bind].
  destruct (scan_events_represents SampleUnsigned.dir
    (SampleUnsigned.event_of <$> [Created SampleUnsigned.new Regular]) _ _ R1) as (r2 & -> & R2).
  { repeat constructor; discriminate. }
  by eexists.
Qed.

Lemma lookupUnsigned_spec_witness :
  exists l r', @lookupUnsigned SamplePkg.squashfs SampleLd.range Linux AMD64
      (str "sys-libs.foo") SampleUnsigned.r1 = (Ok (Some l), r') /\
    exists pk, u_heap r' !! l = Some pk /\ HasPrefix (u_pkg pk) (str "sys-libs.foo") = true.
Proof.
  destruct SampleUnsigned_r1_represents as [fs R].
  destruct (@lookupUnsigned SamplePkg.squashfs SampleLd.range Linux AMD64
      (str "sys-libs.foo") SampleUnsigned.r1) as [o r'] eqn:E.
  assert (fst (@lookupUnsigned SamplePkg.squashfs SampleLd.range Linux AMD64
      (str "sys-libs.foo") SampleUnsigned.r1) = Ok (Some 0%nat)) as Ho by (vm_compute; reflexivity).
  rewrite E in Ho. cbn in Ho. subst o. exists 0%nat, r'. split; [reflexivity|].
  destruct (@lookupUnsigned_spec SamplePkg.squashfs SampleLd.range SampleLd.range_spec
    SampleUnsigned.dir fs Linux AMD64 (str "sys-libs.foo") SampleUnsigned.r1 _ r' R E)
    as (_ & pk & Hpk & _ & Hp & _).
  exists pk. split; [exact Hpk|exact Hp].
Defined.
