(* ===== verification/World.v ===== *)
(** * World: databases, packages and inode numbers

    The shared state of the daemon ([apkgdb/db.go], [sub.go], [lookup.go],
    [notify.go], the cache of [package.go]): databases, packages and unsigned
    packages are heap cells, so that the sharing of the source (the parent of a
    database, the global package cache, the inode tree of the parent) is kept.
    A database is created after its parent, so its location is greater. *)

From S2P Require Import Prelude GoLib GoPath Sig Collate Natsort OsArch Bolt Store GoTime Pins Ldso Index Export Package Update Unsigned.
Local Open Scope Z_scope.

Definition PKG_URL_PREFIX : bytes := str "https://data.apkg.net/".

(** What [NewOsArch] finds outside: the data of the file, when it exists, the
    errors of [bolt.Open], and the network. *)
Record environ `{BoltOps} := {
  env_file : bytes -> option bdb;
  env_open : option error;
  env_faults : list (option error);
  env_net : network;
}.

Section World.
Context `{BoltOps, LlrbOps, Ldcache, !Json, GoRange, GoSort, Ed25519, Jwt, Squashfs, Remote, PkgJson}.

Record World := {
  dbs : gmap nat DB;
  db_next : nat;
  pkgs : gmap nat dlState;
  pkg_next : nat;
  pkgCache : gmap bytes nat;
  reg : registry;
  loadUnsigned : bool;
  threads : list (nat * bool);         (* the calls of [go updateThread] *)
}.

Definition set_dbs v (w : World) : World := {|
  dbs := v; db_next := db_next w; pkgs := pkgs w; pkg_next := pkg_next w;
  pkgCache := pkgCache w; reg := reg w; loadUnsigned := loadUnsigned w; threads := threads w |}.
Definition set_pkg l v (w : World) : World := {|
  dbs := dbs w; db_next := db_next w; pkgs := <[l := v]> (pkgs w); pkg_next := pkg_next w;
  pkgCache := pkgCache w; reg := reg w; loadUnsigned := loadUnsigned w; threads := threads w |}.
Definition set_reg v (w : World) : World := {|
  dbs := dbs w; db_next := db_next w; pkgs := pkgs w; pkg_next := pkg_next w;
  pkgCache := pkgCache w; reg := v; loadUnsigned := loadUnsigned w; threads := threads w |}.

(** ** Dereferencing: a dangling or nil pointer panics *)

Definition get_db (l : nat) : ST World DB := fun w =>
  match dbs w !! l with Some d => (Ok d, w) | None => (Panic, w) end.
Definition upd_db (l : nat) (f : DB -> DB) : ST World unit := fun w =>
  match dbs w !! l with
  | Some d => (Ok tt, set_dbs (<[l := f d]> (dbs w)) w)
  | None => (Panic, w)
  end.
(** A method of the database at [l]. *)
Definition in_db {A} (l : nat) (m : ST DB A) : ST World A := fun w =>
  match dbs w !! l with
  | Some d => let '(o, d') := m d in (o, set_dbs (<[l := d']> (dbs w)) w)
  | None => (Panic, w)
  end.
Definition in_pkg {A} (l : nat) (m : ST dlState A) : ST World A := fun w =>
  match pkgs w !! l with
  | Some s => let '(o, s') := m s in (o, set_pkg l s' w)
  | None => (Panic, w)
  end.
Definition in_reg {A} (m : ST registry A) : ST World A := fun w =>
  let '(o, r) := m (reg w) in (o, set_reg r w).
Definition in_unsigned {A} (l : nat) (m : ST unsignedPkg A) : ST World A := fun w =>
  match u_heap (reg w) !! l with
  | Some p => let '(o, p') := m p in (o, set_reg (set_unsigned l p' (reg w)) w)
  | None => (Panic, w)
  end.

(** ** Inode numbers: the root of the chain of parents has the counter *)

Fixpoint alloc_loop (fuel : nat) (l : nat) (c : Z) : ST World Z :=
  match fuel with
  | O => lift_st Panic
  | S fuel =>
      d ← get_db l;
      match parent d with
      | Some p => alloc_loop fuel p c
      | None =>
          let r := nextI d in
          upd_db l (set_nextI (u64 (nextI d + c)));;
          mret r
      end
  end.
(** A parent's location is smaller: [S l] calls reach the root. *)
Definition allocInodes (l : nat) (c : Z) : ST World Z := alloc_loop (S l) l c.

Fixpoint next_loop (fuel : nat) (l : nat) : ST World Z :=
  match fuel with
  | O => lift_st Panic
  | S fuel =>
      d ← get_db l;
      match parent d with
      | Some p => next_loop fuel p
      | None => mret (nextI d)
      end
  end.
Definition nextInode (l : nat) : ST World Z := next_loop (S l) l.

(** The database whose tree holds the packages of [l]. *)
Definition tree_of (l : nat) (d : DB) : nat := default l (parent d).

Definition insert_item (l : nat) (i : item) : ST World unit :=
  upd_db l (fun d => set_ino (ReplaceOrInsert (ino d) i) d).

Definition pkgIno (l : nat) (pkg : bytes) : ST World Z :=
  pkgHash ← lift_st (slice 0 32 pkg);
  d ← get_db l;
  match pkgI d !! pkgHash with
  | Some v => mret v
  | None =>
      cnt ← lift_st (slice 32 40 pkg);
      v ← allocInodes l (u64 (be_get cnt + 1));
      upd_db l (fun d => set_pkgI (<[pkgHash := v]> (pkgI d)) d);;
      mret v
  end.

(** ** [getPkgTx]: the package for a hash, from the cache or the database *)

Definition new_pkg (p : Package) : ST World nat := fun w =>
  (Ok (pkg_next w), {|
    dbs := dbs w; db_next := db_next w;
    pkgs := <[pkg_next w := {| dl_pkg := p; dl_tries := 0; dl_removed := []; dl_timers := 0 |}]> (pkgs w);
    pkg_next := S (pkg_next w); pkgCache := <[pk_hash p := pkg_next w]> (pkgCache w);
    reg := reg w; loadUnsigned := loadUnsigned w; threads := threads w |}).

(** The record built from the buckets keyed by the hash. *)
Definition stored_pkg (l : nat) (b : bdb) (startIno : Z) (hash : bytes) : outcome Package :=
  check (has_bucket b pkgBucket) ErrInvalid;;
  let v := default [] (Get b pkgBucket hash) in
  check (negb (length v <? 25)%nat) ErrInvalid;;
  check (has_bucket b pathBucket && has_bucket b headerBucket && has_bucket b sigBucket &&
         has_bucket b metaBucket) ErrInvalid;;
  Ok {| pk_parent := l;
        pk_size := be_get (take 8 (drop 1 v));
        pk_startIno := startIno;
        pk_inodes := be_get (take 8 (drop 17 v));
        pk_name := drop 25 v;
        pk_path := default [] (Get b pathBucket hash);
        pk_hash := hash;
        pk_rawHeader := default [] (Get b headerBucket hash);
        pk_rawSig := default [] (Get b sigBucket hash);
        pk_rawMeta := default [] (Get b metaBucket hash);
        pk_flags := 0; pk_created := (0, 0); pk_dlDone := false; pk_f := None;
        pk_offset := 0; pk_blockSize := 0; pk_squash := None |}.

Definition getPkgTx (l : nat) (b : bdb) (startIno : Z) (hash : bytes) : ST World nat :=
  w ← get_st;
  match pkgCache w !! hash with
  | Some p => mret p
  | None =>
      pkg ← lift_st (stored_pkg l b startIno hash);
      p ← new_pkg pkg;
      d ← get_db l;
      insert_item (tree_of l d) {| item_Value := startIno; item_ref := RefPkg p |};;
      mret p
  end.

(** [SetInodeOffset] is called on the superblock, which is nil when the file
    could not be opened. *)
Definition pkgInoUnsigned (l u : nat) : ST World Z :=
  p ← in_unsigned u get_st;
  if negb (u_startIno p =? 0) then mret (u_startIno p)
  else
    v ← allocInodes l (u64 (u_inodes p + 1));
    in_unsigned u (upd_st (fun p => {|
      u_fn := u_fn p; u_pkg := u_pkg p; u_startIno := v; u_inodes := u_inodes p;
      u_load := u_load p; u_squash := u_squash p; u_err := u_err p |}));;
    sq ← lift_st (match sq_SetInodeOffset (u_squash p) v with Some sq => Ok sq | None => Panic end);
    in_unsigned u (upd_st (fun p => {|
      u_fn := u_fn p; u_pkg := u_pkg p; u_startIno := u_startIno p; u_inodes := u_inodes p;
      u_load := u_load p; u_squash := Some sq; u_err := u_err p |}));;
    d ← get_db l;
    insert_item (tree_of l d) {| item_Value := v; item_ref := RefUnsigned u |};;
    mret v.

(** ** Name lookup in one database *)

Definition ff : byte := Byte.xff.

(** The entry with the greatest key below [collatedVersion(pre) + 0xff], if its
    name continues [pre] after a dot. *)
Definition seek_version (b : bdb) (pre : bytes) : outcome (option bytes) :=
  match SeekPrev b p2pBucket (collatedVersion pre ++ [ff]) with
  | None => Ok None
  | Some (_, v) =>
      name ← slice 40 (length v) v;
      Ok (if HasPrefix name (pre ++ [dot]) then Some v else None)
  end.

Definition instantiate (l : nat) (b : bdb) (v : bytes) : ST World Z :=
  n ← pkgIno l v;
  hash ← lift_st (slice 0 32 v);
  _ ← getPkgTx l b n hash;
  mret n.

Definition tx_lookup (l : nat) (b : bdb) (name : bytes) : ST World Z :=
  if negb (has_bucket b p2pBucket) then err_st ErrNotExist
  else match Get b p2pBucket (collatedVersion name) with
  | Some v => n ← instantiate l b v; mret (u64 (n + 1))
  | None =>
      d ← get_db l;
      let pin := lookupPinTx (channel d) b name in
      pinned ← (if bool_decide (pin = []) then mret None
                else lift_st (seek_version b (name ++ dot :: pin)));
      match pinned with
      | Some v => instantiate l b v
      | None =>
          latest ← lift_st (seek_version b name);
          match latest with
          | Some v => instantiate l b v
          | None => err_st ErrNotExist
          end
      end
  end.

Definition internalLookup (l : nat) (name : bytes) : ST World Z :=
  match IndexByte name dot with
  | None => err_st ErrNotExist
  | Some _ =>
      d ← get_db l;
      u ← in_reg (lookupUnsigned (db_osV (conf d)) (db_archV (conf d)) name);
      match u with
      | Some u =>
          n ← pkgInoUnsigned l u;
          p ← in_unsigned u get_st;
          mret (if bool_decide (name = u_pkg p) then u64 (n + 1) else n)
      | None =>
          if locked d then lift_st Panic
          else match dbptr d with
               | None => err_st ErrDatabaseClosed
               | Some _ => tx_lookup l (file d) name
               end
      end
  end.

(** ** Databases: [New], [SubGet], channels, closing *)

Definition db_file_name (name os arch : bytes) : bytes :=
  name ++ str "." ++ os ++ str "." ++ arch ++ str ".db".

(** An existing file is opened read-only, a new one for writing. *)
Definition open_db (env : environ) (prefix name path os arch : bytes) : outcome DB :=
  match env_open env with
  | Some e => Err e
  | None =>
      let fn := path_Join [path; db_file_name name os arch] in
      Ok {| conf := {| db_prefix := prefix; db_path := path; db_name := name;
                       db_os := os; db_arch := arch;
                       db_osV := ParseOS os; db_archV := ParseArch arch |};
            dbptr := Some (match env_file env fn with Some _ => ReadOnly | None => ReadWrite end);
            file := default bolt_empty (env_file env fn);
            locked := false; faults := env_faults env; closed := false; ino := llrb_New;
            refcnt := 0; parent := None; nextI := 1000; pkgI := ∅; sub := ∅; ntgt := None;
            ldso := []; channel := []; outbox := [] |}
  end.

(** The new database before it is shared, and whether its thread starts with an
    update. *)
Definition init_db (env : environ) : ST DB bool :=
  _ ← try_st buildLdso;                          (* the error is ignored *)
  v ← (fun d => (CurrentVersion d, d));
  if bool_decide (v = []) then download (env_net env) [];; mret false
  else mret true.

Definition NewOsArch (env : environ) (prefix name path os arch : bytes) : ST World nat := fun w =>
  let w := set_reg (initUnsigned (loadUnsigned w) (reg w)) w in
  match open_db env prefix name path os arch with
  | Err e => (Err e, w)
  | Panic => (Panic, w)
  | Ok d =>
      match init_db env d with
      | (Err e, _) => (Err e, w)
      | (Panic, _) => (Panic, w)
      | (Ok updateReq, d) =>
          (Ok (db_next w), {|
             dbs := <[db_next w := d]> (dbs w); db_next := S (db_next w);
             pkgs := pkgs w; pkg_next := pkg_next w; pkgCache := pkgCache w; reg := reg w;
             loadUnsigned := loadUnsigned w;
             threads := threads w ++ [(db_next w, updateReq)] |})
      end
  end.

(** [New]: the platform of the build, unless the environment says otherwise. *)
Definition New (env : environ) (goos goarch env_GOOS env_GOARCH prefix name path : bytes)
    : ST World nat :=
  let os := if bool_decide (env_GOOS = []) then goos else env_GOOS in
  let arch := if bool_decide (env_GOARCH = []) then goarch else env_GOARCH in
  NewOsArch env prefix name path os arch.

Definition SubGet (env : environ) (l : nat) (s : ArchOS) : ST World nat :=
  d ← get_db l;
  if bool_decide (ao_OS s = db_osV (conf d)) && bool_decide (ao_Arch s = db_archV (conf d))
  then mret l
  else match sub d !! s with
       | Some db => mret db
       | None =>
           db ← NewOsArch env (db_prefix (conf d)) (db_name (conf d)) (db_path (conf d))
                  (OS_String (ao_OS s)) (Arch_String (ao_Arch s));
           upd_db db (set_parent (Some l));;
           upd_db db (set_channel (channel d));;
           upd_db l (fun d => set_sub (<[s := db]> (sub d)) d);;
           mret db
       end.

(** Go leaves the order of the result open. *)
Definition ListSubs (d : DB) : list ArchOS := fst <$> map_to_list (sub d).

Fixpoint upd_all (ls : list nat) (f : DB -> DB) : ST World unit :=
  match ls with [] => mret tt | l :: ls => upd_db l f;; upd_all ls f end.

Definition SetChannel (l : nat) (ch : bytes) : ST World unit :=
  upd_db l (set_channel ch);;
  d ← get_db l;
  upd_all (snd <$> map_to_list (sub d)) (set_channel ch).

(** Closing one database: closing a closed channel panics. *)
Definition close_body : ST DB unit :=
  d ← get_st;
  (if closed d then lift_st Panic else upd_st (set_closed true));;
  match dbptr d with
  | None => mret tt
  | Some _ => os_call                        (* d.dbptr.Close() *)
  end;;
  upd_st (set_dbptr None).
Definition close_db : ST DB unit := with_Lock close_body.

(** The sub-databases first; their errors are ignored. *)
Fixpoint close_loop (fuel : nat) (l : nat) : ST World unit :=
  match fuel with
  | O => lift_st Panic
  | S fuel =>
      d ← get_db l;
      foldr (fun e rest =>
          _ ← try_st (close_loop fuel e.2);
          upd_db l (fun d => set_sub (delete e.1 (sub d)) d);;
          rest) (mret tt) (map_to_list (sub d));;
      in_db l close_db
  end.
(** A sub-database's location is between its parent's and [db_next]. *)
Definition Close (l : nat) : ST World unit :=
  w ← get_st; close_loop (S (db_next w)) l.

(** ** Notifications *)

(** The target the calls of [notifyInode] on [l] reach: its own, or that of the
    closest ancestor that has one. *)
Fixpoint notify_loop (fuel : nat) (l : nat) : ST World (option nat) :=
  match fuel with
  | O => lift_st Panic
  | S fuel =>
      d ← get_db l;
      match ntgt d with
      | Some t => mret (Some t)
      | None =>
          match parent d with
          | None => mret None
          | Some p => notify_loop fuel p
          end
      end
  end.
Definition notifyInode (l : nat) : ST World (option nat) := notify_loop (S l) l.
Definition SetNotifyTarget (l t : nat) : ST World unit := upd_db l (set_ntgt (Some t)).

(** ** [Lookup] and [GetInode] *)

Definition with_fallback (l : nat) (name sname : bytes) : ST World Z := fun w =>
  match internalLookup l name w with
  | (Err ErrNotExist, w) => internalLookup l sname w
  | r => r
  end.

(** [None] when the name has no suffix of a known OS and architecture. *)
Definition split_suffix (name : bytes) : option (bytes * ArchOS) :=
  match cut_last_dot name with
  | None => None
  | Some (sname, arch) =>
      if ParseArch arch =? BadArch then None
      else match cut_last_dot sname with
           | None => None
           | Some (sname, os) =>
               if ParseOS os =? BadOS then None
               else Some (sname, {| ao_OS := ParseOS os; ao_Arch := ParseArch arch |})
           end
  end.

Definition Lookup (env : environ) (l : nat) (name : bytes) : ST World Z :=
  match LastIndexByte name dot with
  | None => err_st ErrNotExist
  | Some _ =>
      if bool_decide (name = str "ld.so.cache") then mret 2
      else match split_suffix name with
           | None => internalLookup l name
           | Some (sname, s) =>
               d ← get_db l;
               if bool_decide (db_osV (conf d) = ao_OS s) && bool_decide (db_archV (conf d) = ao_Arch s)
               then with_fallback l name sname
               else db ← SubGet env l s; with_fallback db name sname
           end
  end.

(** What [GetInode] returns: the root, the generated [ld.so.cache] with its
    content at that time, or an inode of a package. *)
Inductive fsInode :=
  | InoRoot (l : nat)
  | InoLdso (l : nat) (content : bytes)
  | InoPkg (i : pkgInode).

Definition handleLookup (c : DBConf) (reqino : Z) : ST dlState pkgInode :=
  s ← get_st;
  if reqino =? pk_startIno (dl_pkg s) then mret (InoSymlink (pk_name (dl_pkg s)))
  else
    ensureDl c;;
    s ← get_st;
    match pk_squash (dl_pkg s) with
    | None => err_st ErrInvalid
    | Some sq =>
        if reqino <=? pk_startIno (dl_pkg s) then err_st ErrInvalid
        else lift_st (InoSquash <$> sq_GetInode sq (reqino - pk_startIno (dl_pkg s)))
    end.

Definition GetInode (l : nat) (reqino : Z) : ST World fsInode :=
  if reqino =? 1 then mret (InoRoot l)
  else
    d ← get_db l;
    if reqino =? 2 then mret (InoLdso l (ldso d))
    else match DescendFirst (ino d) reqino with
    | None => err_st ErrInvalid
    | Some {| item_ref := RefPkg p |} =>
        s ← in_pkg p get_st;
        if reqino <? u64 (pk_startIno (dl_pkg s) + pk_inodes (dl_pkg s) + 1) then
          pd ← get_db (pk_parent (dl_pkg s));
          InoPkg <$> in_pkg p (handleLookup (conf pd) reqino)
        else err_st ErrInvalid
    | Some {| item_ref := RefUnsigned u |} =>
        p ← in_unsigned u get_st;
        if reqino <? u64 (u_startIno p + u_inodes p + 1) then
          InoPkg <$> in_unsigned u (unsigned_handleLookup reqino)
        else err_st ErrInvalid
    end.
End World.
