(* ===== verification/Locks.v ===== *)
(** * Locks: readers and writers of one database at once

    [Store.v] runs a read or a write of the database as a whole.  Here any number
    of them run at once, as the steps between which Go may switch: waiting for
    the lock [dbrw], taking it, each system call of [writeStart] and
    [writeEnd] ([apkgdb/write.go]), the body and giving the lock back.  The lock is
    a [sync.RWMutex]: a writer that waits keeps new readers out. *)

From S2P Require Import Prelude Threads GoLib Sig Collate OsArch Bolt Store GoTime Pins Ldso Index Export Package Update Unsigned World.
Local Open Scope Z_scope.

Section locks.
Context `{BoltOps, LlrbOps}.
Context {R : Type}.

(** ** Jobs and their steps *)

(** What is done under the read lock, between [writeStart] and [writeEnd]
    ([Writer true]), or under the write lock only, as [Close] does. *)
Inductive job := Reader (f : DB -> outcome R) | Writer (b : bool) (m : ST DB R).

(** A job on its own, as [Store.v] runs it. *)
Definition run_job (j : job) : ST DB R :=
  match j with
  | Reader f => fun d => (with_RLock f d, d)
  | Writer true m => with_write m
  | Writer false m => with_Lock m
  end.

(** Where a job is.  A writer: before [Lock]; waiting in it, with the internal
    mutex of the lock; before each [bolt.Open]; in its body; before the reopening
    of [writeEnd]; before [Unlock]. *)
Inductive pc :=
  | Idle
  | Reading | HasRead (o : outcome R)
  | Waiting | Opening | Reopening (e : error) | Working | Closing (o : outcome R) | Unlocking (o : outcome R)
  | Finished (o : outcome R).

Abbreviation thread := (job * pc)%type.

(** [m_w] is the writer with the internal mutex of the lock, waiting or not. *)
Record machine := { m_d : DB; m_w : option nat; m_th : list thread }.

Definition reading (th : thread) : bool :=
  match th.2 with Reading | HasRead _ => true | _ => false end.
Definition finished (th : thread) : bool := match th.2 with Finished _ => true | _ => false end.

(** The next step of the job [t]: where it goes, and the state then; [None] when it
    waits or is over. *)
Definition advance (s : machine) (t : nat) (th : thread) : option (pc * DB * option nat) :=
  let d := m_d s in
  let w := m_w s in
  match th with
  | (Reader f, Idle) => match w with None => Some (Reading, d, w) | Some _ => None end
  | (Reader f, Reading) => Some (HasRead (f d), d, w)
  | (Reader f, HasRead o) => Some (Finished o, d, w)
  | (Writer b m, Idle) => match w with None => Some (Waiting, d, Some t) | Some _ => None end
  | (Writer b m, Waiting) =>
      if existsb reading (m_th s) then None else Some (if b then Opening else Working, set_locked true d, w)
  | (Writer b m, Opening) =>
      match os_call d with
      | (Ok _, d) => Some (Working, set_dbptr (Some ReadWrite) d, w)
      | (Err e, d) => Some (Reopening e, d, w)
      | (Panic, _) => None
      end
  | (Writer b m, Reopening e) =>
      let '(o, d) := os_call d in
      Some (Unlocking (Err e), set_dbptr (if is_ok o then Some ReadOnly else None) d, w)
  | (Writer b m, Working) => let '(o, d) := m d in Some (if b then Closing o else Unlocking o, d, w)
  | (Writer b m, Closing o) =>
      let '(o', d) := os_call d in
      Some (Unlocking o, set_dbptr (if is_ok o' then Some ReadOnly else None) d, w)
  | (Writer b m, Unlocking o) => Some (Finished o, set_locked false d, None)
  | _ => None
  end.

Definition jstep (t : nat) (s : machine) : option machine :=
  th ← m_th s !! t;
  '(p, d, w) ← advance s t th;
  Some {| m_d := d; m_w := w; m_th := <[t := (th.1, p)]> (m_th s) |}.

Definition begin (d : DB) (js : list job) : machine :=
  {| m_d := d; m_w := None; m_th := (fun j => (j, Idle)) <$> js |}.

Definition steps : relation machine := rtc (fun s s' => exists t, jstep t s = Some s').

(** ** One after the other *)

(** The jobs of a list with their results, each run as a whole. *)
Inductive serial (js : list job) (d0 : DB) : list (nat * outcome R) -> DB -> Prop :=
  | serial_nil : serial js d0 [] d0
  | serial_snoc l d t j o d' :
      serial js d0 l d -> js !! t = Some j -> run_job j d = (o, d') ->
      serial js d0 (l ++ [(t, o)]) d'.

(** The bodies of writers keep the lock. *)
Definition proper (j : job) : Prop :=
  match j with
  | Reader _ => True
  | Writer _ m => forall d, locked d = true -> locked (snd (m d)) = true
  end.

(** What a writer has still to do. *)
Definition unlock_with (o : outcome R) : ST DB R := fun d => (o, set_locked false d).
Definition reopen (o : outcome R) : ST DB R := fun d =>
  let '(o', d) := os_call d in
  unlock_with o (set_dbptr (if is_ok o' then Some ReadOnly else None) d).
Definition rest (b : bool) (m : ST DB R) (p : pc) : ST DB R := fun d =>
  match p with
  | Waiting => run_job (Writer b m) d
  | Opening =>
      match os_call d with
      | (Ok _, d) => let '(o, d) := m (set_dbptr (Some ReadWrite) d) in
          if b then reopen o d else unlock_with o d
      | (Err e, d) => reopen (Err e) d
      | (Panic, d) => (Panic, d)
      end
  | Reopening e => reopen (Err e) d
  | Working => let '(o, d) := m d in if b then reopen o d else unlock_with o d
  | Closing o => reopen o d
  | Unlocking o => unlock_with o d
  | _ => (Panic, d)
  end.

Lemma rest_lock m d :
  (forall d, locked d = true -> locked (snd (m d)) = true) -> locked d = false ->
  rest true m Opening (set_locked true d) = with_write m d.
Proof.
  intros Hm Hl. unfold rest, with_write, writeStart, writeEnd, dbrw_Lock, dbrw_Unlock, reopen, unlock_with, try_st.
  munfold. rewrite Hl.
  destruct (os_call_spec (set_locked true d)) as (o1 & d1 & -> & Hp1 & _ & _ & _ & L1 & _).
  destruct o1 as [[]|e|]; [| |done].
  - cbn. specialize (Hm (set_dbptr (Some ReadWrite) d1)). cbn in Hm. rewrite L1 in Hm.
    destruct (m (set_dbptr (Some ReadWrite) d1)) as [o2 d2]. specialize (Hm eq_refl). cbn in Hm.
    destruct (os_call_spec d2) as (o3 & d3 & -> & Hp3 & _ & _ & _ & L3 & _).
    destruct o3 as [[]|e|]; [| |done]; cbn; rewrite L3, Hm; done.
  - destruct (os_call_spec d1) as (o2 & d2 & -> & Hp2 & _ & _ & _ & L2 & _).
    destruct o2 as [[]|e2|]; [| |done]; cbn; rewrite L2, L1; done.
Qed.

Lemma rest_first b m d :
  proper (Writer b m) -> locked d = false ->
  rest b m (if b then Opening else Working) (set_locked true d) = run_job (Writer b m) d.
Proof.
  destruct b; [by apply rest_lock|]. intros _ Hl. unfold rest, run_job, with_Lock, dbrw_Lock, unlock_with.
  munfold. rewrite Hl. by destruct (m (set_locked true d)).
Qed.

(** ** The invariant *)

(** A writer with the internal mutex. *)
Definition writing (th : thread) : bool :=
  match th.2 with
  | Waiting | Opening | Reopening _ | Working | Closing _ | Unlocking _ => true
  | _ => false
  end.
(** A job has a result once it has read or given the lock back. *)
Definition result (p : pc) : option (outcome R) :=
  match p with HasRead o | Finished o => Some o | _ => None end.
Definition fits (th : thread) : Prop :=
  match th with
  | (Reader _, p) => writing th = false
  | (Writer _ _, p) => reading th = false
  end.

(** What the writer with the mutex has done so far: nothing, while it waits;
    then nobody reads, and finishing gives what a whole run from [base] gives. *)
Definition progress (base : DB) (b : bool) (m : ST DB R) (p : pc) (s : machine) : Prop :=
  rest b m p (m_d s) = run_job (Writer b m) base /\
  (p = Waiting /\ m_d s = base \/
   p <> Waiting /\ locked (m_d s) = true /\ existsb reading (m_th s) = false).

Record linv (js : list job) (d0 : DB) (l : list (nat * outcome R)) (base : DB) (s : machine) : Prop := {
  li_serial : serial js d0 l base;
  li_jobs : (m_th s).*1 = js;
  li_free : locked base = false;
  li_nodup : NoDup l.*1;
  li_done : results (fun th => result th.2) l (m_th s);
  li_fits t th : m_th s !! t = Some th -> fits th;
  li_state : match m_w s with
    | None => m_d s = base /\ forall t th, m_th s !! t = Some th -> writing th = false
    | Some t => exists b m p, m_th s !! t = Some (Writer b m, p) /\ writing (Writer b m, p) = true /\
        (forall t' th', m_th s !! t' = Some th' -> writing th' = true -> t' = t) /\
        progress base b m p s
    end;
}.

Lemma begin_inv js d : locked d = false -> linv js d [] d (begin d js).
Proof.
  intros Hl. split; cbn; [constructor| |done|constructor| | |split; [done|]].
  - rewrite <-list_fmap_compose. by rewrite list_fmap_id.
  - intros t o. split; [by intros ?%elem_of_nil|]. intros (th & Ht & Hr).
    rewrite list_lookup_fmap in Ht. by destruct (js !! t); simplify_eq/=.
  - intros t th. rewrite list_lookup_fmap. by destruct (js !! t) as [[]|]; intros [= <-].
  - intros t th. rewrite list_lookup_fmap. by destruct (js !! t) as [[]|]; intros [= <-].
Qed.

Section step.
Context (js : list job) (d0 : DB) (Hjs : Forall proper js).

(** The threads after a step. *)
Lemma moved_fits s t j p p' :
  (forall t th, m_th s !! t = Some th -> fits th) -> m_th s !! t = Some (j, p) -> fits (j, p') ->
  forall t' th', <[t := (j, p')]> (m_th s) !! t' = Some th' -> fits th'.
Proof. intros Hf Ht Hp t' th'. rewrite list_lookup_insert_Some. intros [(<- & <- & _)|[_ ?]]; eauto. Qed.

Lemma moved_jobs s t j p p' :
  m_th s !! t = Some (j, p) -> (<[t := (j, p')]> (m_th s)).*1 = (m_th s).*1.
Proof. intros Ht. rewrite list_fmap_insert. apply list_insert_id. by rewrite list_lookup_fmap, Ht. Qed.

Lemma reading_exists s t th : m_th s !! t = Some th -> reading th = true -> existsb reading (m_th s) = true.
Proof. intros Ht Hr. apply existsb_exists. exists th. split; [|done]. apply list_elem_of_In. by eapply list_elem_of_lookup_2. Qed.

(** A reader sees the data as no writer has begun to change it. *)
Lemma reader_sees l base s t f p :
  linv js d0 l base s -> m_th s !! t = Some (Reader f, p) -> reading (Reader f, p) = true -> m_d s = base.
Proof.
  intros I Ht Hr. pose proof (li_state _ _ _ _ _ I) as Hst. destruct (m_w s) as [w|]; [|apply Hst].
  destruct Hst as (b & m & q & _ & _ & _ & _ & [[_ ?]|(_ & _ & Hno)]); [done|].
  by rewrite (reading_exists _ _ _ Ht Hr) in Hno.
Qed.

(** When a reader moves, a waiting writer still waits and a working one works. *)
Lemma reader_state l base s t f p p' :
  linv js d0 l base s -> m_th s !! t = Some (Reader f, p) -> reading (Reader f, p) = true ->
  writing (Reader f, p') = false ->
  match m_w s with
  | None => m_d s = base /\ forall t' th, <[t := (Reader f, p')]> (m_th s) !! t' = Some th -> writing th = false
  | Some w => exists b m q, <[t := (Reader f, p')]> (m_th s) !! w = Some (Writer b m, q) /\
      writing (Writer b m, q) = true /\
      (forall t' th', <[t := (Reader f, p')]> (m_th s) !! t' = Some th' -> writing th' = true -> t' = w) /\
      progress base b m q {| m_d := m_d s; m_w := m_w s; m_th := <[t := (Reader f, p')]> (m_th s) |}
  end.
Proof.
  intros I Ht Hr Hw'. pose proof (li_state _ _ _ _ _ I) as Hst. destruct (m_w s) as [w|] eqn:Ew.
  - destruct Hst as (b & m & q & Hq & Hw & Hone & Hrest & Hpr). exists b, m, q.
    assert (t <> w) by (intros ->; congruence).
    split; [by rewrite list_lookup_insert_ne|]. split; [done|]. split.
    + intros t' th'. rewrite list_lookup_insert_Some. intros [(<- & <- & _)|[_ ?]]; [congruence|eauto].
    + split; [done|]. destruct Hpr as [?|(_ & _ & Hno)]; [by left|].
      by rewrite (reading_exists _ _ _ Ht Hr) in Hno.
  - split; [apply Hst|]. intros t' th'. rewrite list_lookup_insert_Some.
    intros [(<- & <- & _)|[_ ?]]; [done|by eapply Hst].
Qed.

(** A reader's step. *)
Lemma reader_inv l base s t f p s' :
  linv js d0 l base s -> m_th s !! t = Some (Reader f, p) -> jstep t s = Some s' ->
  exists l', linv js d0 (l ++ l') base s'.
Proof.
  intros I Ht E. pose proof I as [Hser Hj Hfree Hnd Hdone Hfit Hst].
  unfold jstep in E. rewrite Ht in E. cbn in E. pose proof (Hfit _ _ Ht) as Hp.
  destruct p; try done; cbn in E.
  - (* RLock *)
    destruct (m_w s) eqn:Ew; [done|]. injection E as <-. exists []. rewrite app_nil_r.
    split; cbn; [done|by rewrite (moved_jobs _ _ _ Idle)|done|done| | |].
    + by apply (results_same _ l _ t (Reader f, Idle)).
    + by apply (moved_fits s t (Reader f) Idle Reading).
    + split; [apply Hst|]. intros t' th'. rewrite list_lookup_insert_Some.
      intros [(<- & <- & _)|[_ ?]]; [done|by eapply Hst].
  - (* the read *)
    injection E as <-. exists [(t, f (m_d s))].
    pose proof (reader_sees l base s t f Reading I Ht eq_refl) as Hd.
    split; cbn; [|by rewrite (moved_jobs _ _ _ Reading)|done| | | |].
    + apply (serial_snoc js d0 l base t (Reader f)); [done| |].
      * by rewrite <-Hj, list_lookup_fmap, Ht.
      * unfold run_job, with_RLock. by rewrite Hfree, Hd.
    + by apply (results_snoc_nodup (fun th => result th.2) l (m_th s) t (Reader f, Reading)).
    + by apply (results_add _ l _ t (Reader f, Reading)).
    + by apply (moved_fits s t (Reader f) Reading).
    + by apply (reader_state l base s t f Reading).
  - (* RUnlock *)
    injection E as <-. exists []. rewrite app_nil_r.
    split; cbn; [done|by rewrite (moved_jobs _ _ _ (HasRead o))|done|done| | |].
    + by apply (results_same _ l _ t (Reader f, HasRead o)).
    + by apply (moved_fits s t (Reader f) (HasRead o)).
    + by apply (reader_state l base s t f (HasRead o)).
Qed.

Lemma not_reading_insert (ths : list thread) t th :
  existsb reading ths = false -> reading th = false -> existsb reading (<[t := th]> ths) = false.
Proof.
  intros Hno Hr. apply not_true_iff_false. intros (x & Hin%list_elem_of_In & Hx)%existsb_exists.
  apply list_elem_of_lookup in Hin as [k Hk]. apply list_lookup_insert_Some in Hk as [(_ & -> & _)|[_ Hk]]; [congruence|].
  apply not_true_iff_false in Hno. apply Hno, existsb_exists. exists x. split; [|done].
  apply list_elem_of_In. by eapply list_elem_of_lookup_2.
Qed.

(** The writer with the mutex moves on without giving it back. *)
Lemma writer_moves l base s t b m p p' d' :
  linv js d0 l base s -> m_th s !! t = Some (Writer b m, p) -> m_w s = Some t ->
  writing (Writer b m, p) = true -> writing (Writer b m, p') = true -> p' <> Waiting ->
  existsb reading (m_th s) = false -> locked d' = true -> rest b m p' d' = run_job (Writer b m) base ->
  linv js d0 l base {| m_d := d'; m_w := Some t; m_th := <[t := (Writer b m, p')]> (m_th s) |}.
Proof.
  intros I Ht Ew Hp Hp' Hne Hno Hl Hrest. pose proof I as [Hser Hj Hfree Hnd Hdone Hfit Hst].
  rewrite Ew in Hst. destruct Hst as (b1 & m1 & p1 & _ & _ & Hone & _).
  split; cbn; [done|by rewrite (moved_jobs _ _ _ p)|done|done| | |].
  - apply (results_same _ l _ t (Writer b m, p)); [done..|]. by destruct p, p'.
  - apply (moved_fits s t (Writer b m) p); [done|done|]. by destruct p'.
  - exists b, m, p'. split; [by rewrite list_lookup_insert_eq by (by eapply lookup_lt_Some)|]. split; [done|]. split.
    + intros t' th'. rewrite list_lookup_insert_Some. intros [(<- & <- & _)|[_ ?]]; [done|eauto].
    + split; [done|]. right. split; [done|]. split; [done|]. cbn. apply not_reading_insert; [done|]. by destruct p'.
Qed.

Lemma bumped_locked o d d1 : os_call d = (o, d1) -> locked d1 = locked d.
Proof. destruct (os_call_spec d) as (o1 & d2 & -> & _ & _ & _ & _ & L & _). by intros [= _ <-]. Qed.

(** A writer that works: the one with the mutex, with the lock, alone. *)
Lemma writer_alone l base s t b m p :
  linv js d0 l base s -> m_th s !! t = Some (Writer b m, p) -> writing (Writer b m, p) = true -> p <> Waiting ->
  m_w s = Some t /\ existsb reading (m_th s) = false /\ locked (m_d s) = true /\
  rest b m p (m_d s) = run_job (Writer b m) base.
Proof.
  intros I Ht Hw Hne. pose proof (li_state _ _ _ _ _ I) as Hst. destruct (m_w s) as [w|].
  - destruct Hst as (b1 & m1 & p1 & Ht1 & _ & Hone & Hrest & Hpr). assert (t = w) as -> by by eapply Hone.
    rewrite Ht in Ht1. injection Ht1 as <- <- <-. destruct Hpr as [[? _]|(_ & Hl & Hno)]; done.
  - destruct Hst as [_ Hst]. by rewrite (Hst t _ Ht) in Hw.
Qed.

(** A writer's step. *)
Lemma writer_inv l base s t b m p s' :
  proper (Writer b m) ->
  linv js d0 l base s -> m_th s !! t = Some (Writer b m, p) -> jstep t s = Some s' ->
  exists l' base', linv js d0 (l ++ l') base' s'.
Proof.
  intros Hm I Ht E. pose proof I as [Hser Hj Hfree Hnd Hdone Hfit Hst].
  unfold jstep in E. rewrite Ht in E. cbn in E. pose proof (Hfit _ _ Ht) as Hp.
  destruct p; try done; cbn -[os_call existsb] in E.
  - (* into Lock *)
    destruct (m_w s) eqn:Ew; [done|]. injection E as <-. exists [], base. rewrite app_nil_r.
    destruct Hst as [Hd Hnow].
    split; cbn; [done|by rewrite (moved_jobs _ _ _ Idle)|done|done| | |].
    + by apply (results_same _ l _ t (Writer b m, Idle)).
    + by apply (moved_fits s t (Writer b m) Idle).
    + exists b, m, Waiting. split; [by rewrite list_lookup_insert_eq by (by eapply lookup_lt_Some)|].
      split; [done|]. split; [|split; [cbn; by rewrite Hd|by left]].
      intros t' th'. rewrite list_lookup_insert_Some. intros [(<- & <- & _)|[_ H1]]; [done|].
      intros H2. by rewrite (Hnow _ _ H1) in H2.
  - (* the lock *)
    destruct (existsb reading (m_th s)) eqn:Hno; [done|]. injection E as <-. exists [], base. rewrite app_nil_r.
    assert (m_w s = Some t /\ m_d s = base) as [Ew Hd].
    { destruct (m_w s) as [w|].
      - destruct Hst as (b1 & m1 & p1 & Ht1 & _ & Hone & _ & Hpr). assert (t = w) as -> by by eapply Hone.
        rewrite Ht in Ht1. injection Ht1 as <- <- <-. by destruct Hpr as [[_ ?]|[? _]].
      - destruct Hst as [_ Hst]. by discriminate (Hst t _ Ht). }
    rewrite Ew. apply (writer_moves l base s t b m Waiting); try done; [by destruct b..|].
    rewrite Hd. by apply rest_first.
  - (* bolt.Open for writing *)
    destruct (writer_alone _ _ _ _ _ _ _ I Ht eq_refl ltac:(done)) as (Ew & Hno & Hl & Hrest).
    cbn [rest] in Hrest. destruct (os_call (m_d s)) as [o d] eqn:Eo. pose proof (bumped_locked _ _ _ Eo) as Hl'.
    rewrite Ew in E. exists [], base. rewrite app_nil_r.
    destruct o as [[]|e|]; [..|done]; injection E as <-;
      (apply (writer_moves l base s t b m Opening); [done..|cbn; congruence|exact Hrest]).
  - (* bolt.Open for reading, after a failure *)
    destruct (writer_alone _ _ _ _ _ _ _ I Ht eq_refl ltac:(done)) as (Ew & Hno & Hl & Hrest).
    cbn [rest] in Hrest. unfold reopen in Hrest. destruct (os_call (m_d s)) as [o d] eqn:Eo.
    pose proof (bumped_locked _ _ _ Eo) as Hl'.
    rewrite Ew in E. exists [], base. rewrite app_nil_r. injection E as <-.
    apply (writer_moves l base s t b m (Reopening e)); [done..|cbn; congruence|exact Hrest].
  - (* the body *)
    destruct (writer_alone _ _ _ _ _ _ _ I Ht eq_refl ltac:(done)) as (Ew & Hno & Hl & Hrest).
    cbn [rest] in Hrest. specialize (Hm _ Hl). destruct (m (m_d s)) as [o d] eqn:Eo.
    rewrite Ew in E. exists [], base. rewrite app_nil_r. injection E as <-.
    apply (writer_moves l base s t b m Working); try done; by destruct b.
  - (* the reopening of writeEnd *)
    destruct (writer_alone _ _ _ _ _ _ _ I Ht eq_refl ltac:(done)) as (Ew & Hno & Hl & Hrest).
    cbn [rest] in Hrest. unfold reopen in Hrest. destruct (os_call (m_d s)) as [o1 d] eqn:Eo.
    pose proof (bumped_locked _ _ _ Eo) as Hl'.
    rewrite Ew in E. exists [], base. rewrite app_nil_r. injection E as <-.
    apply (writer_moves l base s t b m (Closing o)); [done..|cbn; congruence|exact Hrest].
  - (* Unlock *)
    destruct (writer_alone _ _ _ _ _ _ _ I Ht eq_refl ltac:(done)) as (Ew & Hno & Hl & Hrest).
    cbn [rest] in Hrest. unfold unlock_with in Hrest.
    injection E as <-. exists [(t, o)], (set_locked false (m_d s)).
    rewrite Ew in Hst. destruct Hst as (b1 & m1 & p1 & _ & _ & Hone & _).
    split; cbn; [|by rewrite (moved_jobs _ _ _ (Unlocking o))|done| | | |].
    + apply (serial_snoc js d0 l base t (Writer b m)); [done| |by symmetry].
      by rewrite <-Hj, list_lookup_fmap, Ht.
    + by apply (results_snoc_nodup (fun th => result th.2) l (m_th s) t (Writer b m, Unlocking o)).
    + by apply (results_add _ l _ t (Writer b m, Unlocking o)).
    + by apply (moved_fits s t (Writer b m) (Unlocking o)).
    + split; [done|]. intros t' th'. rewrite list_lookup_insert_Some. intros [(<- & <- & _)|[Hne H1]]; [done|].
      apply not_true_iff_false. intros H2. by rewrite (Hone _ _ H1 H2) in Hne.
Qed.

Lemma step_inv l base s t s' :
  linv js d0 l base s -> jstep t s = Some s' -> exists l' base', linv js d0 (l ++ l') base' s'.
Proof.
  intros I E. destruct (m_th s !! t) as [[[f|b m] p]|] eqn:Ht.
  - destruct (reader_inv _ _ _ _ _ _ _ I Ht E) as [l' I']. by exists l', base.
  - apply (writer_inv l base s t b m p s'); [|done..].
    rewrite Forall_forall in Hjs. apply Hjs. rewrite <-(li_jobs _ _ _ _ _ I).
    apply list_elem_of_fmap. exists (Writer b m, p). split; [done|]. by eapply list_elem_of_lookup_2.
  - unfold jstep in E. by rewrite Ht in E.
Qed.

Lemma steps_inv l base s s' :
  linv js d0 l base s -> steps s s' -> exists l' base', linv js d0 (l ++ l') base' s'.
Proof.
  intros I Hs. revert l base I. induction Hs as [s|s s1 s' [t E] _ IH]; intros l base I.
  - exists [], base. by rewrite app_nil_r.
  - destruct (step_inv _ _ _ _ _ I E) as (l1 & b1 & I1). destruct (IH _ _ I1) as (l2 & b2 & I2).
    exists (l1 ++ l2), b2. by rewrite app_assoc.
Qed.
End step.

(** ** Progress *)

(** How many steps a job has before it, at most. *)
Definition togo (th : thread) : nat :=
  match th.2, th.1 with
  | Idle, Reader _ => 3
  | Idle, Writer _ _ => 6
  | Reading, _ | Closing _, _ | Reopening _, _ => 2
  | Waiting, _ => 5
  | Opening, _ => 4
  | Working, _ => 3
  | HasRead _, _ | Unlocking _, _ => 1
  | Finished _, _ => 0
  end.
Abbreviation all_togo := (total togo).

(** The next step of a job, if it has one, brings it forward. *)
Lemma advance_left s t th p d w :
  advance s t th = Some (p, d, w) -> (togo (th.1, p) < togo th)%nat.
Proof.
  destruct th as [[f|b m] q], q; cbn -[os_call existsb]; try done.
  - destruct (m_w s); [done|]. intros [= <- _ _]. cbn. lia.
  - intros [= <- _ _]. cbn. lia.
  - intros [= <- _ _]. cbn. lia.
  - destruct (m_w s); [done|]. intros [= <- _ _]. cbn. lia.
  - destruct (existsb _ _); [done|]. intros [= <- _ _]. destruct b; cbn; lia.
  - destruct (os_call (m_d s)) as [[]]; [..|done]; intros [= <- _ _]; cbn; lia.
  - destruct (os_call (m_d s)) as [[]]; intros [= <- _ _]; cbn; lia.
  - destruct (m (m_d s)). intros [= <- _ _]. destruct b; cbn; lia.
  - destruct (os_call (m_d s)) as [[]]; intros [= <- _ _]; cbn; lia.
  - intros [= <- _ _]. cbn. lia.
Qed.

Lemma jstep_left t s s' : jstep t s = Some s' -> (all_togo (m_th s') < all_togo (m_th s))%nat.
Proof.
  unfold jstep. intros E. destruct (m_th s !! t) as [th|] eqn:Ht; [|done]. cbn in E.
  destruct (advance s t th) as [[[p d] w]|] eqn:Ea; [|done]. injection E as <-.
  apply advance_left in Ea. pose proof (total_insert togo _ t th (th.1, p) Ht). cbn [m_th]. lia.
Qed.

Lemma jsteps_bound k s s' :
  nsteps (fun s s' => exists t, jstep t s = Some s') k s s' ->
  (all_togo (m_th s') + k <= all_togo (m_th s))%nat.
Proof. apply (nsteps_total m_th). intros s1 s2 [t Ht]. by apply jstep_left in Ht. Qed.

Lemma begin_left d js : (all_togo (m_th (begin d js)) <= 6 * length js)%nat.
Proof.
  rewrite <-(length_fmap (fun j => (j, Idle)) js). apply total_bound, Forall_fmap, Forall_true.
  intros j. destruct j; cbn; lia.
Qed.

(** A step that the locks allow exists. *)
Lemma advance_step s t th : m_th s !! t = Some th -> is_Some (advance s t th) -> exists s', jstep t s = Some s'.
Proof. intros Ht [[[p d] w] E]. unfold jstep. rewrite Ht. cbn. rewrite E. eauto. Qed.

Lemma os_call_runs (d : DB) : exists o d', os_call d = (o, d') /\ o <> Panic.
Proof. destruct (os_call_spec d) as (o & d' & E & Hp & _). eauto. Qed.

(** Readers with the lock, and the writer that has it, never wait. *)
Lemma reading_advances s t th : fits th -> reading th = true -> is_Some (advance s t th).
Proof. destruct th as [[f|b m] []]; cbn; try done; eauto. Qed.

Lemma writing_advances s t th :
  fits th -> writing th = true -> th.2 = Waiting /\ existsb reading (m_th s) = true \/ is_Some (advance s t th).
Proof.
  destruct th as [[f|b m] []]; cbn -[os_call existsb]; try done; intros _ _;
    [|right; destruct (os_call_runs (m_d s)) as ([] & ? & -> & ?); [eauto..|done]
     |right; destruct (os_call_runs (m_d s)) as ([] & ? & -> & ?); eauto
     |right; destruct (m (m_d s)); eauto
     |right; destruct (os_call_runs (m_d s)) as ([] & ? & -> & ?); eauto
     |eauto].
  destruct (existsb reading (m_th s)); [by left|right; eauto].
Qed.

Lemma free_advances s t th :
  fits th -> m_w s = None -> writing th = false -> finished th = false -> is_Some (advance s t th).
Proof. destruct th as [[f|b m] []]; cbn; intros Hf Hw; try done; rewrite ?Hw; eauto. Qed.

(** As long as somebody has not finished, somebody can go on. *)
Lemma linv_progress js d0 l base s :
  linv js d0 l base s -> forallb finished (m_th s) = false -> exists t s', jstep t s = Some s'.
Proof.
  intros I Hn. pose proof (li_state _ _ _ _ _ I) as Hst. destruct (m_w s) as [w|] eqn:Ew.
  - destruct Hst as (b & m & p & Ht & Hw & _).
    destruct (writing_advances s w (Writer b m, p) (li_fits _ _ _ _ _ I _ _ Ht) Hw) as [[_ Hr]|Ha];
      [|exists w; by eapply advance_step].
    apply existsb_exists in Hr as (th & [t Hth]%list_elem_of_In%list_elem_of_lookup_1 & Hr).
    exists t. eapply advance_step; [done|]. apply reading_advances; [by eapply (li_fits _ _ _ _ _ I)|done].
  - destruct Hst as [_ Hno]. apply not_true_iff_false in Hn.
    destruct (decide (Forall (fun th => finished th = true) (m_th s))) as [Hd|Hd].
    { exfalso. apply Hn, forallb_forall. intros x Hx%list_elem_of_In. by eapply Forall_forall in Hd. }
    apply not_Forall_Exists in Hd; [|intros ?; apply _].
    apply Exists_exists in Hd as (th & [t Ht]%list_elem_of_lookup_1 & Hf%not_true_is_false).
    exists t. eapply advance_step; [done|]. apply free_advances; eauto. by eapply (li_fits _ _ _ _ _ I).
Qed.

(** When all have finished, all are in the order and nobody has the lock. *)
Lemma linv_finished js d0 l base s :
  linv js d0 l base s -> forallb finished (m_th s) = true ->
  m_d s = base /\ locked base = false /\ l.*1 ≡ₚ seq 0 (length js).
Proof.
  intros I Hd. rewrite forallb_forall in Hd.
  assert (forall t th, m_th s !! t = Some th -> exists o, th.2 = Finished o) as Hf.
  { intros t th Ht. specialize (Hd th ltac:(apply list_elem_of_In; by eapply list_elem_of_lookup_2)).
    unfold finished in Hd. destruct (th.2); naive_solver. }
  split; [|split; [apply I|]].
  - pose proof (li_state _ _ _ _ _ I) as Hst. destruct (m_w s) as [w|]; [|apply Hst].
    destruct Hst as (b & m & p & Ht & Hw & _). apply Hf in Ht as [o Ho]. cbn in Ho. by subst p.
  - assert (length js = length (m_th s)) as -> by by rewrite <-(li_jobs _ _ _ _ _ I), length_fmap.
    apply (results_all _ _ _ (li_done _ _ _ _ _ I) (li_nodup _ _ _ _ _ I)).
    intros t th Ht. destruct (Hf _ _ Ht) as [o Ho]. rewrite Ho. by eexists.
Qed.

(** ** Linearizability and progress *)

(** What [steps_inv] says of an execution: the order [l1 ++ l2] explains the
    results, keeps what was already decided in an earlier state, and is complete
    when all have finished. *)
Lemma locked_linearizes js d s1 s :
  Forall proper js -> locked d = false -> steps (begin d js) s1 -> steps s1 s ->
  exists l1 l2 base,
    serial js d (l1 ++ l2) base /\ NoDup (l1 ++ l2).*1 /\
    (forall t j o, m_th s1 !! t = Some (j, Finished o) -> (t, o) ∈ l1) /\
    (forall t j, m_th s1 !! t = Some (j, Idle) -> t ∉ l1.*1) /\
    (forall t j o, m_th s !! t = Some (j, Finished o) -> (t, o) ∈ l1 ++ l2) /\
    (forallb finished (m_th s) = true ->
       m_d s = base /\ locked base = false /\ (l1 ++ l2).*1 ≡ₚ seq 0 (length js)).
Proof.
  intros Hjs Hl H1 H2.
  destruct (steps_inv js d Hjs _ _ _ _ (begin_inv js d Hl) H1) as (l1 & b1 & I1).
  destruct (steps_inv js d Hjs _ _ _ _ I1 H2) as (l2 & base & I). cbn [app] in I, I1.
  exists l1, l2, base. split; [apply I|]. split; [apply I|].
  split; [intros t j o Ht; apply (li_done _ _ _ _ _ I1); by eexists|].
  split; [intros t j Ht; by eapply (results_fresh _ _ _ t (j, Idle) (li_done _ _ _ _ _ I1))|].
  split; [intros t j o Ht; apply (li_done _ _ _ _ _ I); by eexists|].
  intros Hd. by apply (linv_finished js d).
Qed.

Lemma locked_progress js d s :
  Forall proper js -> locked d = false -> steps (begin d js) s ->
  forallb finished (m_th s) = true \/ exists t s', jstep t s = Some s'.
Proof.
  intros Hjs Hl Hs. destruct (steps_inv js d Hjs _ _ _ _ (begin_inv js d Hl) Hs) as (l & base & I).
  destruct (forallb finished (m_th s)) eqn:Hd; [by left|right]. by eapply linv_progress.
Qed.
End locks.

(** ** The operations of a database as jobs *)

(** [RIndex] is [index] once the file is checked, before which it uses no lock;
    [RClose] is [Close] once the sub-databases are closed. *)
Inductive request :=
  | RSetPin (channel prefix version : bytes)
  | RDeletePin (channel prefix : bytes)
  | RAddPackage (rpath : bytes) (p : pkgInfo)
  | RRemovePackage (name : bytes)
  | RIndex (h : dbHeader) (data : bytes)
  | RGetPin (channel prefix : bytes)
  | RListPins (channel : bytes)
  | RCurrentVersion
  | RClose.

Inductive answer := ADone | AValue (v : bytes) | APins (pins : option (gmap bytes bytes)).

Section requests.
Context `{BoltOps, LlrbOps, Ldcache, !Json, GoRange, Ed25519}.

(** A request as the operation of the other files. *)
Definition handle (r : request) : ST DB answer :=
  match r with
  | RSetPin c p v => SetPin c p v;; mret ADone
  | RDeletePin c p => DeletePin c p;; mret ADone
  | RAddPackage rpath p => AddPackage rpath p;; mret ADone
  | RRemovePackage name => RemovePackage name;; mret ADone
  | RIndex h data => index_write h data;; mret ADone
  | RGetPin c p => fun d => (AValue <$> GetPin c p d, d)
  | RListPins c => fun d => (APins <$> ListPins c d, d)
  | RCurrentVersion => fun d => (AValue <$> CurrentVersion d, d)
  | RClose => close_db;; mret ADone
  end.

(** The same as what it does with the lock held. *)
Definition job_of (r : request) : job :=
  match r with
  | RSetPin c p v => Writer true (Update (set_pin_tx c p v);; mret ADone)
  | RDeletePin c p => Writer true (Update (delete_pin_tx c p);; mret ADone)
  | RAddPackage rpath p => Writer true (Update (add_tx rpath p);; mret ADone)
  | RRemovePackage name => Writer true (Update (tx_delete p2pBucket (collatedVersion name));; mret ADone)
  | RIndex h data => Writer true ((Update (index_tx h data);; buildLdso);; mret ADone)
  | RGetPin c p => Reader (fun d => AValue <$> get_pin c p d)
  | RListPins c => Reader (fun d => APins <$> pins_list c d)
  | RCurrentVersion => Reader (fun d => AValue <$> current_version d)
  | RClose => Writer false (close_body;; mret ADone)
  end.

Lemma with_write_then {A B} (m : ST DB A) (b : B) d : with_write (m;; mret b) d = (with_write m;; mret b) d.
Proof.
  unfold with_write. munfold. destruct (writeStart d) as [[]]; [|done..]. by destruct (m _) as [[]].
Qed.

Lemma with_Lock_then {A B} (m : ST DB A) (b : B) d : with_Lock (m;; mret b) d = (with_Lock m;; mret b) d.
Proof.
  unfold with_Lock, dbrw_Lock. munfold. destruct (locked d); [done|].
  by destruct (m _) as [[]].
Qed.

Lemma with_RLock_fmap {A B} (g : A -> B) (f : DB -> outcome A) d :
  with_RLock (fun d => g <$> f d) d = g <$> with_RLock f d.
Proof. unfold with_RLock. by destruct (locked d). Qed.

Lemma run_job_of r d : run_job (job_of r) d = handle r d.
Proof.
  destruct r; cbn -[mbind with_write with_RLock with_Lock];
    try apply with_write_then; try by rewrite with_RLock_fmap.
  apply with_Lock_then.
Qed.

Lemma then_locked {A B} (m : ST DB A) (b : B) d : locked (snd ((m;; mret b) d)) = locked (snd (m d)).
Proof. munfold. by destruct (m d) as [[]]. Qed.

Lemma job_of_proper rs : Forall proper (job_of <$> rs).
Proof.
  apply Forall_fmap, Forall_true. intros [] ; cbn -[mbind]; try done; intros d Hl;
    rewrite then_locked; try by rewrite Update_locked.
  - by apply locked_update_build.
  - unfold close_body. munfold. destruct (closed d); [done|]. cbn [dbptr set_closed].
    destruct (dbptr d) as [h|]; [|done].
    destruct (os_call_spec (set_closed true d)) as ([[]| |] & d' & -> & ? & ? & ? & ? & L & _);
      cbn in *; congruence.
Qed.

(** Requests one after the other. *)
Inductive one_by_one (rs : list request) (d0 : DB) : list (nat * outcome answer) -> DB -> Prop :=
  | one_by_one_nil : one_by_one rs d0 [] d0
  | one_by_one_snoc l d t r o d' :
      one_by_one rs d0 l d -> rs !! t = Some r -> handle r d = (o, d') ->
      one_by_one rs d0 (l ++ [(t, o)]) d'.

Lemma serial_one_by_one rs d l d' : serial (job_of <$> rs) d l d' -> one_by_one rs d l d'.
Proof.
  induction 1 as [|l d1 t j o d' _ IH Ht Hj]; [constructor|].
  rewrite list_lookup_fmap in Ht. destruct (rs !! t) as [r|] eqn:Hr; [|done]. cbn in Ht. injection Ht as <-.
  rewrite run_job_of in Hj. by econstructor.
Qed.

(** C11: readers and writers of one database are linearizable.  Whatever the
    schedule and whatever system calls fail, the results of any number of
    concurrent requests are those of the same operations run one after the other
    in some order; the order keeps that of time (what had finished in an earlier
    state comes before what had not begun in it); and when all have finished every
    request is in it once and the database is in its last state. *)
Theorem requests_linearize rs d s1 s :
  locked d = false -> steps (begin d (job_of <$> rs)) s1 -> steps s1 s ->
  exists l1 l2 base,
    one_by_one rs d (l1 ++ l2) base /\ NoDup (l1 ++ l2).*1 /\
    (forall t j o, m_th s1 !! t = Some (j, Finished o) -> (t, o) ∈ l1) /\
    (forall t j, m_th s1 !! t = Some (j, Idle) -> t ∉ l1.*1) /\
    (forall t j o, m_th s !! t = Some (j, Finished o) -> (t, o) ∈ l1 ++ l2) /\
    (forallb finished (m_th s) = true ->
       m_d s = base /\ locked base = false /\ (l1 ++ l2).*1 ≡ₚ seq 0 (length rs)).
Proof.
  intros Hl H1s H2s.
  destruct (locked_linearizes (job_of <$> rs) d s1 s (job_of_proper rs) Hl H1s H2s)
    as (l1 & l2 & base & Hs & Hrest).
  exists l1, l2, base. split; [by apply serial_one_by_one|]. by rewrite length_fmap in Hrest.
Qed.

(** C12: every request finishes.  In every state the requests can reach, all have
    finished or one of them can go on, so that the lock cannot deadlock, also when
    system calls fail or a body panics; and n requests take at most 6n steps. *)
Theorem requests_finish rs d :
  locked d = false ->
  (forall s, steps (begin d (job_of <$> rs)) s ->
     forallb finished (m_th s) = true \/ exists t s', jstep t s = Some s') /\
  (forall k s, nsteps (fun s s' => exists t, jstep t s = Some s') k (begin d (job_of <$> rs)) s ->
     (k <= 6 * length rs)%nat).
Proof.
  intros Hl. split.
  - intros s Hs. by apply (locked_progress (job_of <$> rs) d); [apply job_of_proper|..].
  - intros k s Hk%jsteps_bound. pose proof (begin_left d (job_of <$> rs)) as Hb.
    rewrite length_fmap in Hb. lia.
Qed.
End requests.

(** ** Two writers, two readers and a [Close] *)

Module SampleLocks.
#[local] Existing Instance MapBolt.ops.
#[local] Existing Instance MapBolt.spec.
#[local] Existing Instance Sample.list_llrb.
#[local] Existing Instance SampleLd.ldcache.
#[local] Existing Instance SampleLd.json.
#[local] Existing Instance SampleLd.range.
#[local] Existing Instance Toy.toy_ed25519.

Definition pkg : bytes := str "sys-libs.zlib".
Definition rs : list request := [
  RSetPin (str "stable") pkg (str "1.2"); RDeletePin (str "stable") pkg;
  RGetPin (str "stable") pkg; RGetPin (str "stable") pkg; RClose].

(** The fourth system call, the second [bolt.Open] for writing, fails. *)
Definition db : DB := set_faults [None; None; None; Some ErrPermission] Sample.db.

(** The third request reads while the first waits for it; the fourth can begin only
    when the first has given the lock back; the second cannot open the file; the last closes
    the database. *)
Definition schedule : list nat := [2; 0; 2; 2; 0; 0; 0; 0; 0; 3; 1; 3; 3; 1; 1; 1; 1; 4; 4; 4; 4]%nat.

Abbreviation mach := (machine (R:=answer)).
Definition start : mach := begin db (job_of <$> rs).
Definition ends : option (list pc) := (fun s => (m_th s).*2) <$> exec jstep schedule start.
Lemma ends_eq : ends = Some [
  Finished (Ok ADone); Finished (Err ErrPermission);
  Finished (Ok (AValue [])); Finished (Ok (AValue (str "1.2"))); Finished (Ok ADone)].
Proof. vm_compute. reflexivity. Qed.

(** A new reader does not begin while the writer waits. *)
Example reader_waits : (jstep 3 <$> exec jstep [2; 0]%nat start) = Some None.
Proof. reflexivity. Qed.

Lemma all_finished (s : mach) ps :
  (m_th s).*2 = ps -> forallb (fun p => match p with Finished _ => true | _ => false end) ps = true ->
  forallb finished (m_th s) = true.
Proof. intros <-. rewrite !forallb_forall. intros Hf x Hx. apply (Hf x.2). by apply in_map. Qed.

Lemma requests_linearize_witness :
  exists s l base, exec jstep schedule start = Some s /\ (m_th s).*2 = [
      Finished (Ok ADone); Finished (Err ErrPermission);
      Finished (Ok (AValue [])); Finished (Ok (AValue (str "1.2"))); Finished (Ok ADone)] /\
    one_by_one rs db l base /\ l.*1 ≡ₚ seq 0 5 /\ m_d s = base.
Proof.
  pose proof ends_eq as E. unfold ends in E. destruct (exec jstep schedule start) as [s|] eqn:Es; [|discriminate E].
  cbn [fmap option_fmap option_map] in E. apply (inj Some) in E.
  destruct (requests_linearize rs db start s) as (l1 & l2 & base & H1 & _ & _ & _ & _ & H2).
  { reflexivity. } { constructor. } { by apply (exec_steps jstep schedule). }
  destruct H2 as (Hd & _ & Hp). { by eapply all_finished. }
  exists s, (l1 ++ l2), base. split; [reflexivity|]. split; [exact E|]. split; [exact H1|]. by split.
Defined.

Lemma requests_finish_witness :
  (exists t s', jstep t start = Some s') /\ (length schedule <= 6 * length rs)%nat.
Proof.
  destruct (requests_finish rs db eq_refl) as [Hgo Hn]. split.
  - destruct (Hgo start) as [Hd|Hd]; [constructor|discriminate Hd|exact Hd].
  - pose proof ends_eq as E. unfold ends in E. destruct (exec jstep schedule start) as [s|] eqn:Es; [|discriminate E].
    apply (Hn (length schedule) s). by apply (exec_nsteps jstep).
Defined.
End SampleLocks.
