(* ===== verification/Lookup.v ===== *)
(** * Lookup: inode numbers and name resolution

    The correctness of [apkgdb/lookup.go] over the state of [World], in the
    default configuration (unsigned packages not enabled): inode ranges are
    allocated once and never overlap, [GetInode] finds the package a number
    belongs to, a name resolves to the greatest matching version, and a second
    lookup answers the same without changing the state. *)

From S2P Require Import Prelude GoLib Sig Collate Natsort OsArch Bolt Store GoTime Pins Ldso Index Export Package Update Unsigned World.
Local Open Scope Z_scope.

(** ** Collation keys of extended names *)

Lemma collatedVersion_nondigits w v :
  nondigits w -> collatedVersion (w ++ v) = w ++ collatedVersion v.
Proof.
  intros Hw. destruct (name_view_all v) as [v Hv|u ds rest Hu Hd Hl Hr _].
  - rewrite !collatedVersion_tail; [done|done|]. by apply Forall_app.
  - rewrite app_assoc, !collatedVersion_run by (first [done|by apply Forall_app]).
    by rewrite <-app_assoc.
Qed.

Lemma collatedVersion_ext pre c rest :
  is_digit c = false ->
  collatedVersion (pre ++ c :: rest) = collatedVersion pre ++ c :: collatedVersion rest.
Proof.
  intros Hc. induction (name_view_all pre) as [w Hw|w ds rest' Hw Hd Hl Hr _ IH].
  - rewrite (collatedVersion_tail w) by done.
    replace (w ++ c :: rest) with ((w ++ [c]) ++ rest) by by rewrite <-app_assoc.
    rewrite collatedVersion_nondigits by (apply Forall_app; split; [done|by repeat constructor]).
    by rewrite <-app_assoc.
  - assert (no_digit_head (rest' ++ c :: rest) \/ length ds = 33%nat) as Hr2
      by (destruct Hr; [left; by destruct rest'|by right]).
    replace ((w ++ ds ++ rest') ++ c :: rest) with (w ++ ds ++ (rest' ++ c :: rest))
      by by rewrite <-!app_assoc.
    rewrite (collatedVersion_run w ds (rest' ++ c :: rest)), (collatedVersion_run w ds rest'), IH by done.
    rewrite <-app_assoc. cbn [app]. by rewrite <-app_assoc.
Qed.

Lemma bytes_lt_app p a b : bytes_lt (p ++ a) (p ++ b) <-> bytes_lt a b.
Proof. unfold bytes_lt. by rewrite bytes_cmp_app. Qed.

(** A byte below [0xff] keeps an extension of [p] below the end marker. *)
Lemma ext_below_ff p c t : b2z c < 255 -> bytes_lt (p ++ c :: t) (p ++ [ff]).
Proof.
  intros Hc. apply bytes_lt_app. unfold bytes_lt. cbn [bytes_cmp].
  change (b2z ff) with 255. by rewrite (proj2 (Z.compare_lt_iff _ _)).
Qed.

(** ** The greatest version *)

Section versions.
Context `{BoltSpec}.

(** A package of the name index. *)
Definition listed (b : bdb) (e : pkgEntry) : Prop :=
  wf_entry e /\ stored b e /\ bk b p2pBucket !! collatedVersion (e_name e) = Some (p2p_value e).

Definition key_le (a b : bytes) : Prop := bytes_cmp a b <> Gt.

(** [name] is [pre], a dot and a version. *)
Definition version_of (pre name : bytes) : Prop := HasPrefix name (pre ++ [dot]) = true.

Lemma version_of_spec pre name : version_of pre name <-> exists v, name = pre ++ dot :: v.
Proof.
  unfold version_of. rewrite HasPrefix_spec. split; intros [t ->]; exists t; by rewrite <-app_assoc.
Qed.

Lemma p2p_name e : length (e_hash e) = 32%nat -> drop 40 (p2p_value e) = e_name e.
Proof.
  intros Hl. unfold p2p_value. rewrite app_assoc, drop_app_length' by (by rewrite length_app, length_be_put, Hl).
  done.
Qed.

Lemma length_p2p e : length (e_hash e) = 32%nat -> length (p2p_value e) = (40 + length (e_name e))%nat.
Proof. intros Hl. unfold p2p_value. rewrite !length_app, length_be_put, Hl. lia. Qed.

Lemma slice_name e :
  length (e_hash e) = 32%nat ->
  slice 40 (length (p2p_value e)) (p2p_value e) = Ok (e_name e).
Proof.
  intros Hl. unfold slice. rewrite (length_p2p e Hl). rewrite decide_True by lia.
  rewrite p2p_name by done. rewrite take_ge by lia. done.
Qed.

Lemma wf_listed b k v :
  db_wf b -> bk b p2pBucket !! k = Some v ->
  exists e, listed b e /\ k = collatedVersion (e_name e) /\ v = p2p_value e.
Proof.
  intros [Hw _] Hk. destruct (Hw k v Hk) as (e & We & -> & -> & Se). by exists e.
Qed.

(** The entry [SeekPrev] finds. *)
Lemma SeekPrev_listed b k :
  db_wf b -> has b p2pBucket ->
  match SeekPrev b p2pBucket k with
  | Some (key, v) => exists e, listed b e /\ key = collatedVersion (e_name e) /\ v = p2p_value e /\
      bytes_lt key k /\
      forall f, listed b f -> bytes_lt (collatedVersion (e_name f)) k ->
        key_le (collatedVersion (e_name f)) key
  | None => forall f, listed b f -> ~ bytes_lt (collatedVersion (e_name f)) k
  end.
Proof.
  intros Hw Hh. rewrite SeekPrev_spec by done. destruct Hh as [m Hm].
  destruct (Entries_spec _ _ _ Hm) as [Hp Hs].
  assert (forall f, listed b f -> (collatedVersion (e_name f), p2p_value f) ∈ Entries b p2pBucket) as Hin.
  { intros f (_ & _ & Hf). unfold bk in Hf. rewrite Hm in Hf. cbn in Hf.
    by apply (Entries_lookup b p2pBucket m). }
  destruct (last_below (Entries b p2pBucket) k) as [[key v]|] eqn:E.
  - apply last_below_Some in E as (He & Hlt & Hmax); [|done].
    apply (Entries_lookup b p2pBucket m _ _ Hm) in He.
    assert (bk b p2pBucket !! key = Some v) as Hb by (unfold bk; by rewrite Hm).
    destruct (wf_listed b key v Hw Hb) as (e & Le & -> & ->).
    exists e. do 4 (split; [done|]). intros f Lf Hf.
    unfold key_le. destruct (Hmax _ (Hin f Lf) Hf) as [[= -> _]|Hlt'].
    + by rewrite bytes_cmp_refl.
    + cbn in Hlt'. unfold bytes_lt in Hlt'. by rewrite Hlt'.
  - intros f Lf. by apply (last_below_None _ _ _ Hs E (Hin f Lf)).
Qed.

Lemma seek_version_cases b pre :
  db_wf b -> has b p2pBucket ->
  exists r, seek_version b pre = Ok r /\
  match r with
  | Some v => exists e, listed b e /\ v = p2p_value e /\ version_of pre (e_name e) /\
      (forall f, listed b f -> bytes_lt (collatedVersion (e_name f)) (collatedVersion pre ++ [ff]) ->
        key_le (collatedVersion (e_name f)) (collatedVersion (e_name e))) /\
      forall f, listed b f -> version_of pre (e_name f) ->
        key_le (collatedVersion (e_name f)) (collatedVersion (e_name e))
  | None => (forall f, listed b f -> ~ version_of pre (e_name f)) \/
      exists g, listed b g /\ ~ version_of pre (e_name g) /\
        bytes_lt (collatedVersion (e_name g)) (collatedVersion pre ++ [ff]) /\
        forall f, listed b f -> version_of pre (e_name f) ->
          key_le (collatedVersion (e_name f)) (collatedVersion (e_name g))
  end.
Proof.
  intros Hw Hh. pose proof (SeekPrev_listed b (collatedVersion pre ++ [ff]) Hw Hh) as HS.
  assert (forall f, version_of pre (e_name f) ->
    bytes_lt (collatedVersion (e_name f)) (collatedVersion pre ++ [ff])) as Hbelow.
  { intros f [v ->]%version_of_spec. rewrite collatedVersion_ext by done. by apply ext_below_ff. }
  unfold seek_version. destruct (SeekPrev b p2pBucket (collatedVersion pre ++ [ff])) as [[key v]|].
  - destruct HS as (e & Le & -> & -> & Hlt & Hmax). destruct (Le) as ((Hl & _) & _).
    rewrite slice_name by done. cbn. destruct (HasPrefix (e_name e) (pre ++ [dot])) eqn:Hp.
    + eexists. split; [reflexivity|]. exists e. do 4 (split; [done|]). intros f Lf Vf.
      apply Hmax; [done|by apply Hbelow].
    + eexists. split; [reflexivity|]. right. exists e. split; [done|].
      split; [unfold version_of; congruence|]. split; [done|]. intros f Lf Vf.
      apply Hmax; [done|by apply Hbelow].
  - eexists. split; [reflexivity|]. left. intros f Lf Vf. destruct (HS f Lf). by apply Hbelow.
Qed.

(** [e] is the greatest version of [pre]. *)
Definition greatest (b : bdb) (pre : bytes) (e : pkgEntry) : Prop :=
  listed b e /\ version_of pre (e_name e) /\
  forall f, listed b f -> version_of pre (e_name f) ->
    key_le (collatedVersion (e_name f)) (collatedVersion (e_name e)).

(** Another name hides the versions of [pre]: it sorts below the end of the range
    that is searched, the key of [pre] followed by 0xff, and after all of them. *)
Definition hidden (b : bdb) (pre : bytes) : Prop :=
  exists g, listed b g /\ ~ version_of pre (e_name g) /\
    bytes_lt (collatedVersion (e_name g)) (collatedVersion pre ++ [ff]) /\
    forall f, listed b f -> version_of pre (e_name f) ->
      key_le (collatedVersion (e_name f)) (collatedVersion (e_name g)).

(** A key has one name. *)
Lemma listed_key b e f :
  listed b e -> listed b f -> key_le (collatedVersion (e_name e)) (collatedVersion (e_name f)) ->
  key_le (collatedVersion (e_name f)) (collatedVersion (e_name e)) -> e_name e = e_name f.
Proof.
  intros ((Le & _) & _ & Ee) ((Lf & _) & _ & Ef) H1' H2'.
  assert (collatedVersion (e_name e) = collatedVersion (e_name f)) as Ek.
  { apply bytes_cmp_eq. unfold key_le in H1', H2'. rewrite bytes_cmp_antisym in H2'.
    by destruct (bytes_cmp _ _). }
  rewrite Ek, Ef in Ee. injection Ee as Ee. by rewrite <-(p2p_name e), <-Ee, p2p_name.
Qed.

(** C19: version selection.  The lookup by prefix never fails.  It finds a
    package exactly when one is listed whose name is the prefix, a dot and a
    version, and no other name hides these (a sibling such as [media-libs.xvid]
    of [media-libs.x] does); and what it finds is the one with the greatest
    collation key of them all. *)
Theorem seek_version_latest b pre :
  db_wf b -> has b p2pBucket ->
  exists r, seek_version b pre = Ok r /\
    (is_Some r <-> (exists f, listed b f /\ version_of pre (e_name f)) /\ ~ hidden b pre) /\
    forall v, r = Some v -> exists e, v = p2p_value e /\ greatest b pre e.
Proof.
  intros Hw Hh. destruct (seek_version_cases b pre Hw Hh) as (r & E & Hr). exists r. split; [done|].
  destruct r as [v|].
  - destruct Hr as (e & Le & Hv & Ve & Hbelow & Hmax). split; [|intros ? [= <-]; by exists e].
    split; [intros _|by eauto]. split; [by eauto|]. intros (g & Lg & Vg & Hg & Hgmax).
    apply Vg. by rewrite <-(listed_key b e g Le Lg (Hgmax e Le Ve) (Hbelow g Lg Hg)).
  - split; [|done]. split; [by intros []|]. intros [(f & Lf & Vf) Hn]. destruct Hn.
    destruct Hr as [Hno|(g & Lg & Vg & Hg & Hmax)]; [by destruct (Hno f Lf)|]. by exists g.
Qed.

(** A sibling name hides a package.  When the index holds [pre.version] and
    another name that continues [pre] with a byte greater than the dot (such as
    [media-libs.xvid...] next to [media-libs.x]), the prefix lookup of [pre]
    finds nothing, although the package is there. *)
Theorem seek_version_hidden b pre version c rest e f :
  db_wf b -> has b p2pBucket -> listed b e -> listed b f ->
  e_name e = pre ++ dot :: version -> e_name f = pre ++ c :: rest ->
  is_digit c = false -> b2z dot < b2z c < 255 ->
  (forall g, listed b g -> e_name g = e_name e \/ e_name g = e_name f) ->
  seek_version b pre = Ok None.
Proof.
  intros Hw Hh Le Lf En Fn Hc Hr Hall.
  pose proof (SeekPrev_listed b (collatedVersion pre ++ [ff]) Hw Hh) as HS.
  assert (bytes_lt (collatedVersion (e_name f)) (collatedVersion pre ++ [ff])) as Hf.
  { rewrite Fn, collatedVersion_ext by done. apply ext_below_ff. lia. }
  unfold seek_version. destruct (SeekPrev b p2pBucket (collatedVersion pre ++ [ff])) as [[key v]|];
    [|done].
  destruct HS as (g & Lg & -> & -> & Hlt & Hmax). destruct (Lg) as ((Hl & _) & _).
  rewrite slice_name by done. cbn. specialize (Hmax f Lf Hf).
  destruct (Hall g Lg) as [Eg|Eg].
  - exfalso. revert Hmax. rewrite Eg, En, Fn, !collatedVersion_ext by done.
    unfold key_le. rewrite bytes_cmp_app. cbn [bytes_cmp].
    by rewrite (proj2 (Z.compare_gt_iff _ _)) by lia.
  - rewrite Eg, Fn. destruct (HasPrefix (pre ++ c :: rest) (pre ++ [dot])) eqn:Hp; [|done].
    apply HasPrefix_spec in Hp as [t Ht]. rewrite <-app_assoc in Ht. apply app_inv_head in Ht.
    injection Ht as -> _. lia.
Qed.
End versions.

(** ** The invariant of the shared state *)

Section world.
Context `{BoltSpec, LlrbSpec, Ldcache, !Json, GoRange, GoSort, Ed25519Spec, Jwt, Squashfs, Remote, PkgJson}.

(** The number of inodes reserved for a hash: its own and the symbolic link. *)
Definition isz (b : bdb) (h : bytes) : Z :=
  be_get (take 8 (drop 17 (default [] (bk b pkgBucket !! h)))) + 1.

(** The cached package [p]: the record [getPkgTx] builds from its database's
    file, at the number that database assigned, in the tree of the root. *)
Definition cached_ok (dr : DB) (w : World) (h : bytes) (p : nat) : Prop :=
  exists st l d p0, pkgs w !! p = Some st /\ dbs w !! l = Some d /\
    pkgI d !! h = Some (pk_startIno p0) /\
    stored_pkg l (file d) (pk_startIno p0) h = Ok p0 /\ same_identity p0 (dl_pkg st) /\
    llrb_items (ino dr) !! pk_startIno p0
      = Some {| item_Value := pk_startIno p0; item_ref := RefPkg p |}.

(** [dr] is the root database, at [r]; every other one is its child. *)
Record shape (r : nat) (dr : DB) (w : World) : Prop := {
  sh_root : dbs w !! r = Some dr;
  sh_root_parent : parent dr = None;
  sh_child l d : dbs w !! l = Some d -> l <> r -> parent d = Some r /\ (r < l)%nat;
}.

(** The invariant of the lookups: every range is that of the data the database
    holds. *)
Record inv (r : nat) (dr : DB) (w : World) : Prop := {
  inv_unsigned : unsignedMap (reg w) = None;
  inv_root : dbs w !! r = Some dr;
  inv_root_parent : parent dr = None;
  inv_next : 1000 <= nextI dr < two64;
  inv_child l d : dbs w !! l = Some d -> l <> r -> parent d = Some r /\ (r < l)%nat;
  inv_range l d h v : dbs w !! l = Some d -> pkgI d !! h = Some v ->
    1000 <= v /\ v + isz (file d) h <= nextI dr;
  inv_disjoint l d h v l' d' h' v' :
    dbs w !! l = Some d -> pkgI d !! h = Some v ->
    dbs w !! l' = Some d' -> pkgI d' !! h' = Some v' ->
    (l = l' /\ h = h') \/ v + isz (file d) h <= v' \/ v' + isz (file d') h' <= v;
  inv_cache h p : pkgCache w !! h = Some p -> cached_ok dr w h p;
  inv_tree v i : llrb_items (ino dr) !! v = Some i ->
    exists p st, i = {| item_Value := v; item_ref := RefPkg p |} /\ pkgs w !! p = Some st /\
      pk_startIno (dl_pkg st) = v /\ pkgCache w !! pk_hash (dl_pkg st) = Some p;
  inv_fresh p st : pkgs w !! p = Some st -> (p < pkg_next w)%nat;
}.

Lemma isz_pos b h : 1 <= isz b h.
Proof. unfold isz. pose proof (be_get_range (take 8 (drop 17 (default [] (bk b pkgBucket !! h))))). lia. Qed.

Lemma inv_shape r dr w : inv r dr w -> shape r dr w.
Proof. intros I. split; apply I. Qed.

Lemma shape_loc r dr w l d : shape r dr w -> dbs w !! l = Some d -> tree_of l d = r.
Proof.
  intros I Hd. unfold tree_of. destruct (decide (l = r)) as [->|Hne].
  - rewrite (sh_root _ _ _ I) in Hd. injection Hd as <-. by rewrite (sh_root_parent _ _ _ I).
  - by destruct (sh_child _ _ _ I l d Hd Hne) as [-> _].
Qed.

(** What [stored_pkg] takes from the file. *)
Lemma stored_pkg_fields l b v h p0 :
  stored_pkg l b v h = Ok p0 ->
  pk_parent p0 = l /\ pk_startIno p0 = v /\ pk_hash p0 = h /\ pk_inodes p0 + 1 = isz b h.
Proof.
  unfold stored_pkg. rewrite bind_Ok. intros ([] & _ & E). revert E. cbv zeta. rewrite bind_Ok.
  intros ([] & _ & E). revert E. rewrite bind_Ok. intros ([] & _ & [= <-]). cbn.
  unfold isz. by rewrite Get_bk.
Qed.

(** The package record of a listed entry. *)
Lemma stored_pkg_listed l b v e :
  Forall (has b) addBuckets -> wf_entry e -> stored b e ->
  exists p0, stored_pkg l b v (e_hash e) = Ok p0 /\ pk_name p0 = e_name e /\
    pk_inodes p0 = e_inodes e.
Proof.
  intros Hh (Hl & Hs & Hi) (S1 & _). unfold addBuckets in Hh. rewrite !Forall_cons in Hh.
  destruct Hh as (_ & H2' & H3' & H4' & H5' & H6' & _).
  assert (length (pkg_value e) = (25 + length (e_name e))%nat) as Hlen.
  { unfold pkg_value. cbn [length]. rewrite !length_app, !length_be_put, length_replicate. lia. }
  unfold stored_pkg. rewrite (proj2 (has_bucket_has _ _) H2'), Get_bk, S1. cbn [default id].
  rewrite (proj2 (Nat.ltb_ge (length (pkg_value e)) 25)) by lia.
  rewrite (proj2 (has_bucket_has _ pathBucket)), (proj2 (has_bucket_has _ headerBucket)),
    (proj2 (has_bucket_has _ sigBucket)), (proj2 (has_bucket_has _ metaBucket)) by done.
  cbn [check andb negb mbind outcome_bind]. eexists. split; [reflexivity|]. cbn [pk_name pk_inodes].
  split.
  - apply pkg_value_name.
  - unfold pkg_value. 
    replace (Byte.x00 :: be_put 8 (e_size e) ++ replicate 8 Byte.x00 ++ be_put 8 (e_inodes e) ++ e_name e)
      with ((Byte.x00 :: be_put 8 (e_size e) ++ replicate 8 Byte.x00) ++ be_put 8 (e_inodes e) ++ e_name e)
      by (cbn [app]; by rewrite <-app_assoc).
    rewrite drop_app_length' by (cbn [length]; by rewrite length_app, length_be_put, length_replicate).
    rewrite take_app_length' by (by rewrite length_be_put).
    rewrite be_get_put_small; [done|]. split; [lia|]. change (256 ^ Z.of_nat 8) with two64. lia.
Qed.

Lemma isz_listed b e : wf_entry e -> stored b e -> isz b (e_hash e) = e_inodes e + 1.
Proof.
  intros (Hl & Hs & Hi) (S1 & _). unfold isz. rewrite S1. cbn [default id]. unfold pkg_value.
  replace (Byte.x00 :: be_put 8 (e_size e) ++ replicate 8 Byte.x00 ++ be_put 8 (e_inodes e) ++ e_name e)
    with ((Byte.x00 :: be_put 8 (e_size e) ++ replicate 8 Byte.x00) ++ be_put 8 (e_inodes e) ++ e_name e)
    by (cbn [app]; by rewrite <-app_assoc).
  rewrite drop_app_length' by (cbn [length]; by rewrite length_app, length_be_put, length_replicate).
  rewrite take_app_length' by (by rewrite length_be_put).
  rewrite be_get_put_small; [done|]. split; [lia|]. change (256 ^ Z.of_nat 8) with two64. lia.
Qed.

(** *** Allocation *)

Lemma allocInodes_spec r dr w l d c :
  shape r dr w -> dbs w !! l = Some d ->
  allocInodes l c w
  = (Ok (nextI dr), set_dbs (<[r := set_nextI (u64 (nextI dr + c)) dr]> (dbs w)) w).
Proof.
  intros I Hd.
  assert (forall fuel, alloc_loop (S fuel) r c w
    = (Ok (nextI dr), set_dbs (<[r := set_nextI (u64 (nextI dr + c)) dr]> (dbs w)) w)) as Hr.
  { intros fuel. cbn [alloc_loop]. unfold get_db, upd_db. munfold.
    by rewrite (sh_root _ _ _ I), (sh_root_parent _ _ _ I), (sh_root _ _ _ I). }
  unfold allocInodes. destruct (decide (l = r)) as [->|Hne]; [apply Hr|].
  destruct (sh_child _ _ _ I l d Hd Hne) as [Hp Hlt].
  cbn [alloc_loop]. unfold get_db at 1. munfold. rewrite Hd, Hp.
  destruct l as [|l]; [lia|]. apply Hr.
Qed.

(** What [pkgIno] does to the database at [k]. *)
Definition assign (r l : nat) (h : bytes) (v next : Z) (k : nat) (d : DB) : DB :=
  let d := if decide (k = r) then set_nextI next d else d in
  if decide (k = l) then set_pkgI (<[h := v]> (pkgI d)) d else d.

Lemma assign_fields r l h v next k d :
  file (assign r l h v next k d) = file d /\ parent (assign r l h v next k d) = parent d /\
  ino (assign r l h v next k d) = ino d /\ conf (assign r l h v next k d) = conf d /\
  dbptr (assign r l h v next k d) = dbptr d /\ locked (assign r l h v next k d) = locked d /\
  channel (assign r l h v next k d) = channel d /\ ldso (assign r l h v next k d) = ldso d /\
  nextI (assign r l h v next k d) = (if decide (k = r) then next else nextI d) /\
  pkgI (assign r l h v next k d) = (if decide (k = l) then <[h := v]> (pkgI d) else pkgI d).
Proof. unfold assign. by repeat case_decide. Qed.

Definition assigned (r l : nat) (h : bytes) (v next : Z) (w : World) : World :=
  set_dbs (map_imap (fun k d => Some (assign r l h v next k d)) (dbs w)) w.

Lemma pkgIno_new r dr w l d e :
  shape r dr w -> dbs w !! l = Some d -> wf_entry e -> pkgI d !! e_hash e = None ->
  pkgIno l (p2p_value e) w
  = (Ok (nextI dr),
     assigned r l (e_hash e) (nextI dr) (u64 (nextI dr + u64 (e_inodes e + 1))) w).
Proof.
  intros I Hd (Hl & _ & Hi) Hn. unfold pkgIno, assigned, slice, get_db. munfold.
  assert (length (p2p_value e) = (40 + length (e_name e))%nat) as Hlen by by apply length_p2p.
  rewrite Hlen, !decide_True by lia. cbn [Nat.sub]. rewrite drop_0.
  assert (take 32 (p2p_value e) = e_hash e) as Hh by by apply take_app_length'.
  assert (be_get (take 8 (drop 32 (p2p_value e))) = e_inodes e) as Hc.
  { unfold p2p_value. rewrite drop_app_length' by done.
    rewrite take_app_length' by (by rewrite length_be_put).
    rewrite be_get_put_small; [done|]. split; [lia|]. change (256 ^ Z.of_nat 8) with two64. lia. }
  rewrite Hd, Hh, Hn. change (40 - 32)%nat with 8%nat. rewrite Hc.
  rewrite (allocInodes_spec r dr w l d _ I Hd). unfold upd_db. cbn [dbs set_dbs].
  set (c := u64 (e_inodes e + 1)).
  assert (forall k, (<[r := set_nextI (u64 (nextI dr + c)) dr]> (dbs w) : gmap nat DB) !! k
    = (fun d => if decide (k = r) then set_nextI (u64 (nextI dr + c)) d else d) <$> dbs w !! k) as Hk.
  { intros k. destruct (decide (k = r)) as [->|Hne].
    - rewrite lookup_insert_eq, (sh_root _ _ _ I). done.
    - rewrite lookup_insert_ne by done. by destruct (dbs w !! k). }
  rewrite Hk, Hd. cbn [fmap option_fmap option_map].
  match goal with |- (_, set_dbs ?x _) = (_, set_dbs ?y _) => enough (x = y) as -> by done end.
  apply map_eq. intros k. rewrite map_lookup_imap. destruct (decide (k = l)) as [->|Hne].
  - rewrite lookup_insert_eq, Hd. cbn [fmap option_fmap option_map mbind option_bind]. unfold assign. by rewrite !(decide_True (P := l = l)).
  - rewrite lookup_insert_ne, Hk by done. destruct (dbs w !! k); cbn [fmap option_fmap option_map mbind option_bind]; [|done].
    unfold assign. by rewrite (decide_False (P := k = l)).
Qed.
Lemma assigned_lookup r l h v next w k d' :
  dbs (assigned r l h v next w) !! k = Some d' <->
  exists d, dbs w !! k = Some d /\ d' = assign r l h v next k d.
Proof.
  unfold assigned. cbn [dbs set_dbs]. rewrite map_lookup_imap, bind_Some. naive_solver.
Qed.

Lemma assign_pkgI r l h v next k d h0 v0 :
  pkgI (assign r l h v next k d) !! h0 = Some v0 <->
  (k = l /\ h0 = h /\ v0 = v) \/ (~ (k = l /\ h0 = h) /\ pkgI d !! h0 = Some v0).
Proof.
  destruct (assign_fields r l h v next k d) as (_ & _ & _ & _ & _ & _ & _ & _ & _ & ->).
  case_decide; [rewrite lookup_insert_Some|]; naive_solver.
Qed.

Lemma inv_assigned r dr w l d h :
  inv r dr w -> dbs w !! l = Some d -> pkgI d !! h = None ->
  nextI dr + isz (file d) h < two64 ->
  inv r (assign r l h (nextI dr) (nextI dr + isz (file d) h) r dr)
    (assigned r l h (nextI dr) (nextI dr + isz (file d) h) w).
Proof.
  intros I Hd Hn Hfit. set (v := nextI dr). set (next := v + isz (file d) h).
  pose proof (inv_next _ _ _ I) as Hnext. pose proof (isz_pos (file d) h) as Hpos.
  destruct (assign_fields r l h v next r dr) as (Ff & Fp & Fi & _ & _ & _ & _ & _ & Fn & _).
  rewrite decide_True in Fn by done.
  assert (forall l0 d0 h0 v0, dbs w !! l0 = Some d0 -> pkgI d0 !! h0 = Some v0 ->
    v0 + isz (file d0) h0 <= v) as Hold by (intros; by eapply inv_range).
  split.
  - apply (inv_unsigned _ _ _ I).
  - apply assigned_lookup. exists dr. split; [apply (inv_root _ _ _ I)|done].
  - rewrite Fp. apply (inv_root_parent _ _ _ I).
  - rewrite Fn. unfold next, v. lia.
  - intros l0 d' (d0 & H0' & ->)%assigned_lookup Hne.
    destruct (assign_fields r l h v next l0 d0) as (_ & -> & _). by apply (inv_child _ _ _ I).
  - intros l0 d' h0 v0 (d0 & Hd0 & ->)%assigned_lookup Hp. apply assign_pkgI in Hp.
    destruct (assign_fields r l h v next l0 d0) as (-> & _). rewrite Fn.
    destruct Hp as [(-> & -> & ->)|[_ Hp]].
    + assert (d0 = d) as -> by congruence. unfold next, v. lia.
    + pose proof (inv_range _ _ _ I _ _ _ _ Hd0 Hp). pose proof (Hold _ _ _ _ Hd0 Hp).
      unfold next. lia.
  - intros l0 d' h0 v0 l1 d1' h1 v1 (d0 & Hd0 & ->)%assigned_lookup Hp0
      (d1 & Hd1 & ->)%assigned_lookup Hp1. apply assign_pkgI in Hp0, Hp1.
    destruct (assign_fields r l h v next l0 d0) as (-> & _).
    destruct (assign_fields r l h v next l1 d1) as (-> & _).
    destruct Hp0 as [(-> & -> & ->)|[_ Hp0]], Hp1 as [(-> & -> & ->)|[_ Hp1]].
    + by left.
    + right. right. by eapply Hold.
    + right. left. by eapply Hold.
    + by eapply (inv_disjoint _ _ _ I).
  - intros h0 p Hp. destruct (inv_cache _ _ _ I h0 p Hp) as (st & l0 & d0 & p0 & E1 & E2 & E3 & E4 & E5 & E6).
    exists st, l0, (assign r l h v next l0 d0), p0. split; [done|].
    split; [apply assigned_lookup; eauto|]. split.
    { apply assign_pkgI. right. split; [|done]. intros [-> ->]. congruence. }
    destruct (assign_fields r l h v next l0 d0) as (-> & _). by rewrite Fi.
  - intros v0 i. rewrite Fi. apply (inv_tree _ _ _ I).
  - apply (inv_fresh _ _ _ I).
Qed.

(** *** Caching a package *)

Lemma same_identity_startIno p p' : same_identity p p' -> pk_startIno p' = pk_startIno p.
Proof. by intros (_ & ? & _). Qed.
Lemma same_identity_hash p p' : same_identity p p' -> pk_hash p' = pk_hash p.
Proof. by intros (_ & _ & ? & _). Qed.

Definition fresh_dl (p : Package) : dlState :=
  {| dl_pkg := p; dl_tries := 0; dl_removed := []; dl_timers := 0 |}.

(** The world after [getPkgTx] has built [p0] under the root [r]. *)
Definition cached (r : nat) (dr : DB) (p0 : Package) (w : World) : World := {|
  dbs := <[r := set_ino (ReplaceOrInsert (ino dr)
            {| item_Value := pk_startIno p0; item_ref := RefPkg (pkg_next w) |}) dr]> (dbs w);
  db_next := db_next w; pkgs := <[pkg_next w := fresh_dl p0]> (pkgs w);
  pkg_next := S (pkg_next w); pkgCache := <[pk_hash p0 := pkg_next w]> (pkgCache w);
  reg := reg w; loadUnsigned := loadUnsigned w; threads := threads w |}.
Definition cached_root (dr : DB) (p0 : Package) (w : World) : DB :=
  set_ino (ReplaceOrInsert (ino dr)
    {| item_Value := pk_startIno p0; item_ref := RefPkg (pkg_next w) |}) dr.

Lemma getPkgTx_new r dr w l d v h p0 :
  shape r dr w -> dbs w !! l = Some d -> pkgCache w !! h = None ->
  stored_pkg l (file d) v h = Ok p0 ->
  getPkgTx l (file d) v h w = (Ok (pkg_next w), cached r dr p0 w).
Proof.
  intros I Hd Hc Hp. unfold getPkgTx, new_pkg, insert_item, upd_db, get_db. munfold.
  rewrite Hc, Hp. cbn [dbs]. rewrite Hd, (shape_loc _ _ _ _ _ I Hd). cbn [dbs].
  rewrite (sh_root _ _ _ I).
  destruct (stored_pkg_fields _ _ _ _ _ Hp) as (_ & <- & _ & _). done.
Qed.

Lemma cached_lookup r dr p0 w k d' :
  dbs w !! r = Some dr ->
  dbs (cached r dr p0 w) !! k = Some d' <->
  exists d, dbs w !! k = Some d /\ d' = if decide (k = r) then cached_root d p0 w else d.
Proof.
  intros Hr. cbn [dbs cached]. destruct (decide (k = r)) as [->|Hne].
  - rewrite lookup_insert_eq, Hr. split; [intros [= <-]; by exists dr|]. by intros (d & [= <-] & ->).
  - rewrite lookup_insert_ne by done. split; [intros; by exists d'|]. by intros (d & ? & ->).
Qed.

(** The number of a hash that is not cached is free in the tree. *)
Lemma number_free r dr w l d v h :
  inv r dr w -> dbs w !! l = Some d -> pkgI d !! h = Some v -> pkgCache w !! h = None ->
  llrb_items (ino dr) !! v = None.
Proof.
  intros I Hd Hv Hc. destruct (llrb_items (ino dr) !! v) as [i|] eqn:Ei; [|done]. exfalso.
  destruct (inv_tree _ _ _ I v i Ei) as (p & st & _ & Est & Esv & Ec).
  destruct (inv_cache _ _ _ I _ _ Ec) as (st' & l1 & d1 & p1 & E1 & E2 & E3 & E4 & E5 & E6).
  rewrite Est in E1. injection E1 as <-.
  assert (pk_startIno p1 = v) as Hp1 by (rewrite <-Esv; symmetry; by apply same_identity_startIno).
  rewrite Hp1 in E3.
  destruct (inv_disjoint _ _ _ I _ _ _ _ _ _ _ _ Hd Hv E2 E3) as [[-> E]|E].
  - rewrite <-E in Ec. congruence.
  - pose proof (isz_pos (file d) h). pose proof (isz_pos (file d1) (pk_hash (dl_pkg st))). lia.
Qed.

(** A database after a package was cached: only the root's tree has changed. *)
Definition cached_db (r k : nat) (p0 : Package) (w : World) (d : DB) : DB :=
  if decide (k = r) then cached_root d p0 w else d.
Lemma cached_db_fields r k p0 w d :
  file (cached_db r k p0 w d) = file d /\ pkgI (cached_db r k p0 w d) = pkgI d /\
  parent (cached_db r k p0 w d) = parent d.
Proof. unfold cached_db. by case_decide. Qed.

Lemma inv_cached_cache r dr w l d v h p0 h0 p :
  inv r dr w -> dbs w !! l = Some d -> pkgI d !! h = Some v -> pkgCache w !! h = None ->
  stored_pkg l (file d) v h = Ok p0 -> pkgCache (cached r dr p0 w) !! h0 = Some p ->
  cached_ok (cached_root dr p0 w) (cached r dr p0 w) h0 p.
Proof.
  intros I Hd Hv Hc Hp. pose proof (stored_pkg_fields _ _ _ _ _ Hp) as (_ & Hs & Hh & _).
  pose proof (inv_root _ _ _ I) as Hr. pose proof (number_free _ _ _ _ _ _ _ I Hd Hv Hc) as Hfree.
  cbn [pkgCache cached]. rewrite Hh, lookup_insert_Some. intros [[<- <-]|[Hne Hp0]].
  - exists (fresh_dl p0), l, (cached_db r l p0 w d), p0.
    cbn [pkgs cached]. rewrite lookup_insert_eq. split; [done|].
    split; [apply cached_lookup; eauto|]. destruct (cached_db_fields r l p0 w d) as (-> & -> & _).
    rewrite Hs. split; [done|]. split; [done|]. split; [apply same_identity_refl|].
    cbn [ino cached_root set_ino]. rewrite ReplaceOrInsert_items, Hs. cbn [item_Value].
    by rewrite lookup_insert_eq.
  - destruct (inv_cache _ _ _ I h0 p Hp0) as (st & l0 & d0 & p1 & E1 & E2 & E3 & E4 & E5 & E6).
    exists st, l0, (cached_db r l0 p0 w d0), p1.
    cbn [pkgs cached]. rewrite lookup_insert_ne by (pose proof (inv_fresh _ _ _ I _ _ E1); lia).
    split; [done|]. split; [apply cached_lookup; eauto|].
    destruct (cached_db_fields r l0 p0 w d0) as (-> & -> & _). do 3 (split; [done|]).
    cbn [ino cached_root set_ino]. rewrite ReplaceOrInsert_items, Hs. cbn [item_Value].
    rewrite lookup_insert_ne; [done|]. intros Ev. rewrite <-Ev in E6. congruence.
Qed.

Lemma inv_cached r dr w l d v h p0 :
  inv r dr w -> dbs w !! l = Some d -> pkgI d !! h = Some v -> pkgCache w !! h = None ->
  stored_pkg l (file d) v h = Ok p0 ->
  inv r (cached_root dr p0 w) (cached r dr p0 w).
Proof.
  intros I Hd Hv Hc Hp. pose proof (stored_pkg_fields _ _ _ _ _ Hp) as (_ & Hs & Hh & _).
  pose proof (inv_root _ _ _ I) as Hr.
  split.
  - apply (inv_unsigned _ _ _ I).
  - apply cached_lookup; [done|]. exists dr. by rewrite decide_True.
  - apply (inv_root_parent _ _ _ I).
  - apply (inv_next _ _ _ I).
  - intros k d' (d0 & Hd0 & ->)%cached_lookup Hne; [|done].
    destruct (cached_db_fields r k p0 w d0) as (_ & _ & E); unfold cached_db in E; rewrite E. by apply (inv_child _ _ _ I).
  - intros k d' h0 v0 (d0 & Hd0 & ->)%cached_lookup; [|done].
    destruct (cached_db_fields r k p0 w d0) as (E & E' & _). unfold cached_db in E, E'.
    rewrite E, E'. apply (inv_range _ _ _ I _ _ _ _ Hd0).
  - intros k d' h0 v0 k1 d1' h1 v1 (d0 & Hd0 & ->)%cached_lookup Hp0
      (d1 & Hd1 & ->)%cached_lookup Hp1; [|done..].
    destruct (cached_db_fields r k p0 w d0) as (F & E & _).
    destruct (cached_db_fields r k1 p0 w d1) as (F' & E' & _).
    unfold cached_db in E, F, E', F'. rewrite E in Hp0. rewrite E' in Hp1. rewrite F, F'.
    by eapply (inv_disjoint _ _ _ I).
  - intros h0 p. by apply (inv_cached_cache r dr w l d v h p0).
  - intros v0 i. cbn [ino cached_root set_ino]. rewrite ReplaceOrInsert_items. cbn [item_Value].
    rewrite Hs, lookup_insert_Some. intros [[<- <-]|[Hne Hi]].
    + exists (pkg_next w), (fresh_dl p0). cbn [pkgs pkgCache cached dl_pkg fresh_dl].
      by rewrite !lookup_insert_eq.
    + destruct (inv_tree _ _ _ I v0 i Hi) as (p & st & -> & Est & Esv & Ec).
      exists p, st. cbn [pkgs pkgCache cached].
      rewrite lookup_insert_ne by (pose proof (inv_fresh _ _ _ I _ _ Est); lia).
      rewrite lookup_insert_ne; [done|]. rewrite Hh. intros Eh. rewrite <-Eh in Ec. congruence.
  - intros p st. cbn [pkgs pkg_next cached]. rewrite lookup_insert_Some.
    intros [[<- _]|[_ Hp1]]; [lia|]. pose proof (inv_fresh _ _ _ I _ _ Hp1). lia.
Qed.
(** *** Finding the package of an inode number *)

Lemma in_pkg_get p st w :
  pkgs w !! p = Some st -> in_pkg p (fun s => (Ok s, s)) w = (Ok st, w).
Proof.
  intros Hp. unfold in_pkg, set_pkg. rewrite Hp. rewrite insert_id by done. by destruct w.
Qed.

Lemma cached_range r dr w h p st :
  inv r dr w -> pkgCache w !! h = Some p -> pkgs w !! p = Some st ->
  pk_hash (dl_pkg st) = h /\
  1000 <= pk_startIno (dl_pkg st) /\ 0 <= pk_inodes (dl_pkg st) /\
  pk_startIno (dl_pkg st) + pk_inodes (dl_pkg st) + 1 <= nextI dr /\
  exists d, dbs w !! pk_parent (dl_pkg st) = Some d /\
    pkgI d !! h = Some (pk_startIno (dl_pkg st)) /\
    isz (file d) h = pk_inodes (dl_pkg st) + 1 /\
    llrb_items (ino dr) !! pk_startIno (dl_pkg st)
      = Some {| item_Value := pk_startIno (dl_pkg st); item_ref := RefPkg p |} /\
    exists p0, stored_pkg (pk_parent (dl_pkg st)) (file d) (pk_startIno (dl_pkg st)) h = Ok p0 /\
      same_identity p0 (dl_pkg st).
Proof.
  intros I Hc Hp. destruct (inv_cache _ _ _ I h p Hc) as (st' & l & d & p0 & E1 & E2 & E3 & E4 & E5 & E6).
  rewrite Hp in E1. injection E1 as <-.
  destruct (stored_pkg_fields _ _ _ _ _ E4) as (F1 & _ & F3 & F4).
  pose proof E5 as (G1 & G2 & G3 & _ & G5 & _). rewrite G1, G2, G3, G5, F1, F3.
  destruct (inv_range _ _ _ I _ _ _ _ E2 E3) as [R1 R2].
  pose proof (isz_pos (file d) h). repeat split; try lia. exists d.
  repeat split; try (done || lia). by exists p0.
Qed.

Lemma tree_item r dr w v i :
  inv r dr w -> llrb_items (ino dr) !! v = Some i ->
  exists p st h, i = {| item_Value := v; item_ref := RefPkg p |} /\ pkgCache w !! h = Some p /\
    pkgs w !! p = Some st /\ pk_startIno (dl_pkg st) = v.
Proof.
  intros I Hi. destruct (inv_tree _ _ _ I v i Hi) as (p & st & -> & Hp & Hv & Hc).
  by exists p, st, (pk_hash (dl_pkg st)).
Qed.

(** Two cached packages are the same one or have disjoint ranges. *)
Lemma cached_disjoint r dr w h p st h' p' st' :
  inv r dr w -> pkgCache w !! h = Some p -> pkgs w !! p = Some st ->
  pkgCache w !! h' = Some p' -> pkgs w !! p' = Some st' ->
  p = p' \/
  pk_startIno (dl_pkg st) + pk_inodes (dl_pkg st) + 1 <= pk_startIno (dl_pkg st') \/
  pk_startIno (dl_pkg st') + pk_inodes (dl_pkg st') + 1 <= pk_startIno (dl_pkg st).
Proof.
  intros I Hc Hp Hc' Hp'.
  destruct (cached_range _ _ _ _ _ _ I Hc Hp) as (_ & _ & _ & _ & d & D1 & D2 & D3 & _).
  destruct (cached_range _ _ _ _ _ _ I Hc' Hp') as (_ & _ & _ & _ & d' & D1' & D2' & D3' & _).
  destruct (inv_disjoint _ _ _ I _ _ _ _ _ _ _ _ D1 D2 D1' D2') as [[_ ->]|Hd]; [left; congruence|].
  right. rewrite D3, D3' in Hd. lia.
Qed.

Lemma DescendFirst_cached r dr w h p st n :
  inv r dr w -> pkgCache w !! h = Some p -> pkgs w !! p = Some st ->
  pk_startIno (dl_pkg st) <= n <= pk_startIno (dl_pkg st) + pk_inodes (dl_pkg st) ->
  DescendFirst (ino dr) n = Some {| item_Value := pk_startIno (dl_pkg st); item_ref := RefPkg p |}.
Proof.
  intros I Hc Hp Hn.
  destruct (cached_range _ _ _ _ _ _ I Hc Hp) as (_ & _ & _ & _ & d & _ & _ & _ & Ht & _).
  destruct (DescendFirst (ino dr) n) as [i|] eqn:E.
  - apply DescendFirst_Some in E as (Hi & Hle & Hmax). specialize (Hmax _ _ Ht ltac:(lia)).
    destruct (tree_item _ _ _ _ _ I Hi) as (p' & st' & h' & -> & Hc' & Hp' & Hv). cbn in *.
    destruct (cached_disjoint _ _ _ _ _ _ _ _ _ I Hc Hp Hc' Hp') as [<-|Hd]; [|rewrite Hv in Hd].
    + rewrite Hp in Hp'. injection Hp' as <-. by rewrite Hv.
    + pose proof (cached_range _ _ _ _ _ _ I Hc' Hp') as (_ & _ & Hin & _). lia.
  - exfalso. pose proof (DescendFirst_None _ _ E _ _ Ht). lia.
Qed.

Lemma u64_range_end r dr w h p st :
  inv r dr w -> pkgCache w !! h = Some p -> pkgs w !! p = Some st ->
  u64 (pk_startIno (dl_pkg st) + pk_inodes (dl_pkg st) + 1)
  = pk_startIno (dl_pkg st) + pk_inodes (dl_pkg st) + 1.
Proof.
  intros I Hc Hp. destruct (cached_range _ _ _ _ _ _ I Hc Hp) as (_ & ? & ? & ? & _).
  pose proof (inv_next _ _ _ I). apply u64_small. lia.
Qed.

Lemma GetInode_cached r dr w h p st n :
  inv r dr w -> pkgCache w !! h = Some p -> pkgs w !! p = Some st ->
  pk_startIno (dl_pkg st) <= n <= pk_startIno (dl_pkg st) + pk_inodes (dl_pkg st) ->
  exists d, dbs w !! pk_parent (dl_pkg st) = Some d /\
    GetInode r n w = (InoPkg <$> in_pkg p (handleLookup (conf d) n)) w.
Proof.
  intros I Hc Hp Hr. destruct (cached_range _ _ _ _ _ _ I Hc Hp) as (_ & ? & _ & _ & d & Hd & _).
  exists d. split; [done|].
  unfold GetInode, get_db. rewrite !(proj2 (Z.eqb_neq n _)) by lia. munfold.
  rewrite (inv_root _ _ _ I), (DescendFirst_cached _ _ _ _ _ _ _ I Hc Hp Hr).
  rewrite (in_pkg_get p st w Hp), (u64_range_end _ _ _ _ _ _ I Hc Hp).
  rewrite (proj2 (Z.ltb_lt _ _)) by lia. by rewrite Hd.
Qed.

Lemma GetInode_refused r dr w n :
  inv r dr w -> 2 < n ->
  (forall h p st, pkgCache w !! h = Some p -> pkgs w !! p = Some st ->
     ~ (pk_startIno (dl_pkg st) <= n <= pk_startIno (dl_pkg st) + pk_inodes (dl_pkg st))) ->
  GetInode r n w = (Err ErrInvalid, w).
Proof.
  intros I Hn Hno. unfold GetInode, get_db. rewrite !(proj2 (Z.eqb_neq n _)) by lia. munfold.
  rewrite (inv_root _ _ _ I). destruct (DescendFirst (ino dr) n) as [i|] eqn:E; [|done].
  apply DescendFirst_Some in E as (Hi & Hle & _).
  destruct (tree_item _ _ _ _ _ I Hi) as (p & st & h & -> & Hc & Hp & Hv). cbn in Hle, Hv |- *.
  rewrite (in_pkg_get p st w Hp), (u64_range_end _ _ _ _ _ _ I Hc Hp).
  specialize (Hno h p st Hc Hp). by rewrite (proj2 (Z.ltb_ge _ _)) by lia.
Qed.

(** [GetInode] is the inverse of the allocation.  A number in the range of
    a known package is looked up in that package, in the configuration of the
    database it came from; the ranges of two packages never overlap; any other
    number, except the root and [ld.so.cache], is refused; and the state does
    not change on a refusal. *)
Theorem GetInode_routes r dr w n :
  inv r dr w -> 2 < n ->
  (forall h p st, pkgCache w !! h = Some p -> pkgs w !! p = Some st ->
     pk_startIno (dl_pkg st) <= n <= pk_startIno (dl_pkg st) + pk_inodes (dl_pkg st) ->
     exists d, dbs w !! pk_parent (dl_pkg st) = Some d /\
       GetInode r n w = (InoPkg <$> in_pkg p (handleLookup (conf d) n)) w) /\
  ((forall h p st, pkgCache w !! h = Some p -> pkgs w !! p = Some st ->
      ~ (pk_startIno (dl_pkg st) <= n <= pk_startIno (dl_pkg st) + pk_inodes (dl_pkg st))) ->
   GetInode r n w = (Err ErrInvalid, w)).
Proof.
  intros I Hn. split.
  - intros h p st. by apply GetInode_cached with dr.
  - by apply GetInode_refused with dr.
Qed.
(** *** What an operation keeps *)

Definition db_kept (d d' : DB) : Prop :=
  file d' = file d /\ conf d' = conf d /\ dbptr d' = dbptr d /\ locked d' = locked d /\
  channel d' = channel d /\ parent d' = parent d /\
  forall h v, pkgI d !! h = Some v -> pkgI d' !! h = Some v.

(** Numbers and packages, once assigned, stay. *)
Record grows (w w' : World) : Prop := {
  grows_db k d : dbs w !! k = Some d -> exists d', dbs w' !! k = Some d' /\ db_kept d d';
  grows_back k d' : dbs w' !! k = Some d' -> exists d, dbs w !! k = Some d;
  grows_pkg h p st : pkgCache w !! h = Some p -> pkgs w !! p = Some st ->
    pkgCache w' !! h = Some p /\
    exists st', pkgs w' !! p = Some st' /\ same_identity (dl_pkg st) (dl_pkg st');
}.

Lemma db_kept_refl d : db_kept d d.
Proof. by repeat split. Qed.
Lemma same_identity_trans p q s : same_identity p q -> same_identity q s -> same_identity p s.
Proof. unfold same_identity. intuition congruence. Qed.

#[export] Instance grows_preorder : PreOrder grows.
Proof.
  split.
  - intros w. split; [|by eauto|].
    + intros k d Hk. exists d. split; [done|apply db_kept_refl].
    + intros h p st Hh Hp. split; [done|]. exists st. split; [done|apply same_identity_refl].
  - intros w1 w2 w3 [D1 B1 P1] [D2 B2 P2]. split.
    + intros k d (d2 & H2' & K2)%D1. destruct (D2 k d2 H2') as (d3 & H3' & K3).
      exists d3. split; [done|]. unfold db_kept in *. intuition (congruence || eauto).
    + intros k d3 (d2 & H2')%B2. by eapply B1.
    + intros h p st Hh Hp. destruct (P1 _ _ _ Hh Hp) as (Hh2 & st2 & Hp2 & I2).
      destruct (P2 _ _ _ Hh2 Hp2) as (Hh3 & st3 & Hp3 & I3). split; [done|]. exists st3.
      split; [done|]. by eapply same_identity_trans.
Qed.

Lemma grows_assigned r l h v next w :
  (forall d, dbs w !! l = Some d -> pkgI d !! h = None) ->
  grows w (assigned r l h v next w).
Proof.
  intros Hn. split.
  - intros k d Hk. exists (assign r l h v next k d). split; [apply assigned_lookup; eauto|].
    destruct (assign_fields r l h v next k d) as (? & ? & ? & ? & ? & ? & ? & ? & _ & _).
    do 6 (split; [done|]). intros h0 v0 Hv. apply assign_pkgI. right. split; [|done].
    intros [-> ->]. specialize (Hn d Hk). congruence.
  - intros k d' (d & ? & _)%assigned_lookup. eauto.
  - intros h0 p st Hh Hp. split; [done|]. exists st. split; [done|apply same_identity_refl].
Qed.

Lemma grows_cached r dr p0 w :
  inv r dr w -> pkgCache w !! pk_hash p0 = None -> grows w (cached r dr p0 w).
Proof.
  intros I Hc. pose proof (inv_root _ _ _ I) as Hr. split.
  - intros k d Hk. exists (if decide (k = r) then cached_root d p0 w else d).
    split; [apply cached_lookup; eauto|]. case_decide; by repeat split.
  - intros k d' (d & ? & _)%cached_lookup; eauto.
  - intros h p st Hh Hp. cbn [pkgCache pkgs cached].
    rewrite lookup_insert_ne by (intros <-; congruence). split; [done|]. exists st.
    rewrite lookup_insert_ne by (pose proof (inv_fresh _ _ _ I _ _ Hp); lia).
    split; [done|apply same_identity_refl].
Qed.

(** *** [instantiate] *)

Definition fits (dr : DB) (e : pkgEntry) : Prop := nextI dr + e_inodes e + 1 < two64.

Lemma u64_alloc dr e :
  1000 <= nextI dr -> wf_entry e -> fits dr e ->
  u64 (nextI dr + u64 (e_inodes e + 1)) = nextI dr + (e_inodes e + 1).
Proof.
  unfold fits. intros Hn (_ & _ & He) Hf. rewrite (u64_small (e_inodes e + 1)) by lia.
  apply u64_small. lia.
Qed.

Lemma hash_slice e : length (e_hash e) = 32%nat -> slice 0 32 (p2p_value e) = Ok (e_hash e).
Proof.
  intros Hl. unfold slice. rewrite decide_True by (rewrite (length_p2p e Hl); lia).
  rewrite drop_0. f_equal. by apply take_app_length'.
Qed.

(** [pkgIno] gives the number of the hash, a new one when there is none. *)
Lemma pkgIno_spec r dr w l d e :
  inv r dr w -> dbs w !! l = Some d -> wf_entry e -> stored (file d) e -> fits dr e ->
  exists n dr1 w1 d1, pkgIno l (p2p_value e) w = (Ok n, w1) /\ inv r dr1 w1 /\
    grows w w1 /\ reg w1 = reg w /\ dbs w1 !! l = Some d1 /\ db_kept d d1 /\
    pkgI d1 !! e_hash e = Some n /\ (pkgI d !! e_hash e = None -> n = nextI dr) /\
    pkgCache w1 = pkgCache w /\ pkgs w1 = pkgs w /\ ino dr1 = ino dr /\
    nextI dr1 <= nextI dr + (e_inodes e + 1).
Proof.
  intros I Hd We Se Hf. set (h := e_hash e).
  destruct (pkgI d !! h) as [n|] eqn:En.
  - destruct (We) as (_ & _ & Hi). exists n, dr, w, d.
    split; [|split; [exact I|split; [reflexivity|split; [done|split; [done|
      split; [apply db_kept_refl|split; [done|split; [congruence|
      split; [done|split; [done|split; [done|lia]]]]]]]]]]].
    unfold pkgIno, get_db. munfold. rewrite hash_slice by apply We. fold h. by rewrite Hd, En.
  - pose proof (isz_listed _ _ We Se) as Hz. fold h in Hz. unfold fits in Hf.
    pose proof (inv_next _ _ _ I) as Hnext.
    exists (nextI dr), (assign r l h (nextI dr) (nextI dr + isz (file d) h) r dr),
      (assigned r l h (nextI dr) (nextI dr + isz (file d) h) w),
      (assign r l h (nextI dr) (nextI dr + isz (file d) h) l d).
    destruct (assign_fields r l h (nextI dr) (nextI dr + isz (file d) h) l d)
      as (? & ? & ? & ? & ? & ? & ? & ? & _ & Hp).
    split; [|split; [|split; [|split; [|split; [|split; [|split]]]]]].
    + rewrite (pkgIno_new r dr w l d e (inv_shape _ _ _ I) Hd We En), Hz. by rewrite u64_alloc by (done || lia).
    + apply inv_assigned; [done..|]. rewrite Hz. lia.
    + apply grows_assigned. congruence.
    + done.
    + apply assigned_lookup. eauto.
    + do 6 (split; [done|]). rewrite Hp, decide_True by done. intros h0 v0 Hv.
      rewrite lookup_insert_ne; [done|]. intros <-. congruence.
    + rewrite Hp, decide_True by done. apply lookup_insert_eq.
    + destruct (assign_fields r l h (nextI dr) (nextI dr + isz (file d) h) r dr)
        as (_ & _ & Hino & _ & _ & _ & _ & _ & Hnx & _).
      do 3 (split; [done|]). split; [done|]. rewrite Hnx, decide_True by done. lia.
Qed.

(** The number is that of the database's map, the package is cached. *)
Lemma instantiate_spec r dr w l d e :
  inv r dr w -> dbs w !! l = Some d -> Forall (has (file d)) addBuckets ->
  wf_entry e -> stored (file d) e -> fits dr e ->
  exists n dr' w' d' p, instantiate l (file d) (p2p_value e) w = (Ok n, w') /\
    inv r dr' w' /\ grows w w' /\ reg w' = reg w /\
    dbs w' !! l = Some d' /\ pkgI d' !! e_hash e = Some n /\ pkgCache w' !! e_hash e = Some p /\
    (pkgI d !! e_hash e = None -> n = nextI dr) /\
    (is_Some (pkgCache w !! e_hash e) ->
       pkgs w' = pkgs w /\ ino dr' = ino dr /\ pkgCache w' = pkgCache w) /\
    (pkgCache w !! e_hash e = None ->
       exists st, pkgs w' !! p = Some st /\ pk_parent (dl_pkg st) = l).
Proof.
  intros I Hd Hh We Se Hf. set (h := e_hash e).
  destruct (pkgIno_spec r dr w l d e I Hd We Se Hf)
    as (n & dr1 & w1 & d1 & E1 & I1 & G1 & R1 & D1 & K1 & N1 & Z1 & C1 & P1 & T1 & _).
  fold h in N1, Z1.
  destruct K1 as (F1 & _ & _ & _ & _ & _ & _).
  unfold instantiate. munfold. rewrite E1, hash_slice by apply We. fold h. rewrite <-F1.
  destruct (pkgCache w !! h) as [p|] eqn:Ec.
  - exists n, dr1, w1, d1, p. unfold getPkgTx. munfold. rewrite C1, Ec.
    split; [done|]. split; [exact I1|]. split; [exact G1|]. split; [done|]. split; [done|].
    split; [done|]. split; [congruence|]. done.
  - rewrite <-F1 in Hh, Se.
    destruct (stored_pkg_listed l (file d1) n e Hh We Se) as (p0 & Ep0 & _). fold h in Ep0.
    assert (pkgCache w1 !! h = None) as Ec1 by congruence.
    destruct (stored_pkg_fields _ _ _ _ _ Ep0) as (Hl0 & _ & Hh0 & _).
    rewrite (getPkgTx_new r dr1 w1 l d1 n h p0 (inv_shape _ _ _ I1) D1 Ec1 Ep0).
    exists n, (cached_root dr1 p0 w1), (cached r dr1 p0 w1),
      (if decide (l = r) then cached_root d1 p0 w1 else d1), (pkg_next w1).
    split; [done|]. split; [by eapply inv_cached|].
    split; [etrans; [exact G1|]; apply grows_cached; [done|by rewrite Hh0]|].
    split; [done|]. split; [apply cached_lookup; [apply (inv_root _ _ _ I1)|eauto]|].
    split; [by case_decide|]. split; [cbn; by rewrite Hh0, lookup_insert_eq|]. split; [done|].
    split; [by intros [? ?]|]. intros _. exists (fresh_dl p0). cbn. by rewrite lookup_insert_eq.
Qed.
(** *** Name resolution *)

Definition seek_pinned (b : bdb) (name pin : bytes) : outcome (option bytes) :=
  if bool_decide (pin = []) then Ok None else seek_version b (name ++ dot :: pin).

(** The entry a name resolves to: [true] for an exact match. *)
Definition select (b : bdb) (ch name : bytes) : outcome (option (bool * bytes)) :=
  if negb (has_bucket b p2pBucket) then Ok None
  else match Get b p2pBucket (collatedVersion name) with
  | Some v => Ok (Some (true, v))
  | None =>
      match seek_pinned b name (lookupPinTx ch b name) with
      | Ok (Some v) => Ok (Some (false, v))
      | Ok None => option_map (fun v => (false, v)) <$> seek_version b name
      | Err e => Err e
      | Panic => Panic
      end
  end.

Lemma tx_lookup_select l d b name w :
  dbs w !! l = Some d ->
  tx_lookup l b name w =
  match select b (channel d) name with
  | Ok (Some (true, v)) => (n ← instantiate l b v; mret (u64 (n + 1))) w
  | Ok (Some (false, v)) => instantiate l b v w
  | Ok None => (Err ErrNotExist, w)
  | Err e => (Err e, w)
  | Panic => (Panic, w)
  end.
Proof.
  intros Hd. unfold tx_lookup, select, seek_pinned, get_db. munfold.
  destruct (negb (has_bucket b p2pBucket)); [done|].
  destruct (Get b p2pBucket (collatedVersion name)) as [v|]; [done|]. rewrite Hd.
  destruct (bool_decide (lookupPinTx (channel d) b name = [])).
  - by destruct (seek_version b name) as [[v|]| |].
  - destruct (seek_version b (name ++ dot :: lookupPinTx (channel d) b name)) as [[v|]| |]; [done| |done..].
    by destruct (seek_version b name) as [[v|]| |].
Qed.

(** What [select] may choose: the exact name, else the greatest version within
    the pin of the channel, else the greatest version. *)
Inductive chosen (b : bdb) (ch name : bytes) : bool -> pkgEntry -> Prop :=
  | chosen_exact e : listed b e -> e_name e = name -> chosen b ch name true e
  | chosen_pin e :
      (forall f, listed b f -> e_name f <> name) -> lookupPinTx ch b name <> [] ->
      greatest b (name ++ dot :: lookupPinTx ch b name) e -> chosen b ch name false e
  | chosen_latest e :
      (forall f, listed b f -> e_name f <> name) ->
      (lookupPinTx ch b name = [] \/
       seek_version b (name ++ dot :: lookupPinTx ch b name) = Ok None) ->
      greatest b name e -> chosen b ch name false e.

Lemma select_spec b ch name :
  db_wf b ->
  exists r, select b ch name = Ok r /\
    match r with
    | Some (x, v) => exists e, v = p2p_value e /\ chosen b ch name x e
    | None => True
    end.
Proof.
  intros Hw. unfold select. destruct (has_bucket b p2pBucket) eqn:Eh; [|by eexists].
  apply has_bucket_has in Eh. cbn [negb]. rewrite Get_bk.
  destruct (bk b p2pBucket !! collatedVersion name) as [v|] eqn:Ev.
  - destruct (wf_listed b _ v Hw Ev) as (e & Le & En & ->). apply collatedVersion_key in En.
    eexists. split; [reflexivity|]. exists e. split; [done|]. by constructor.
  - assert (forall f, listed b f -> e_name f <> name) as Hno.
    { intros f (_ & _ & Hf) <-. congruence. }
    destruct (seek_version_cases b name Hw Eh) as (rl & El & Hl).
    assert (forall P : Prop, P -> (lookupPinTx ch b name = [] \/
       seek_version b (name ++ dot :: lookupPinTx ch b name) = Ok None) ->
      exists r, option_map (fun v => (false, v)) <$> seek_version b name = Ok r /\
      match r with Some (x, v) => exists e, v = p2p_value e /\ chosen b ch name x e | None => True end)
      as Hlatest.
    { intros P _ Hpin. rewrite El. cbn. eexists. split; [reflexivity|]. destruct rl as [v|]; [|done].
      cbn. destruct Hl as (e & Le & -> & Ve & _ & Hmax). exists e. split; [done|].
      apply chosen_latest; [done|done|]. by split. }
    unfold seek_pinned. case_bool_decide as Hp; cbn; [by apply (Hlatest True); [|left]|].
    destruct (seek_version_cases b (name ++ dot :: lookupPinTx ch b name) Hw Eh) as (rp & Ep & Hpin).
    rewrite Ep. cbn. destruct rp as [v|]; [|by apply (Hlatest True); [|right]].
    destruct Hpin as (e & Le & -> & Ve & _ & Hmax). eexists. split; [reflexivity|]. exists e.
    split; [done|]. apply chosen_pin; [done|done|]. by split.
Qed.
Lemma chosen_listed b ch name x e : chosen b ch name x e -> listed b e.
Proof. destruct 1 as [e Le|e _ _ G|e _ _ G]; [done|apply G..]. Qed.

Lemma set_reg_id w : set_reg (reg w) w = w.
Proof. by destruct w. Qed.

(** Without unsigned packages a lookup is a selection, then the package's
    number. *)
Lemma internalLookup_select l d name w :
  unsignedMap (reg w) = None -> dbs w !! l = Some d -> locked d = false ->
  internalLookup l name w =
  match IndexByte name dot with
  | None => (Err ErrNotExist, w)
  | Some _ =>
      match dbptr d with
      | None => (Err ErrDatabaseClosed, w)
      | Some _ =>
          match select (file d) (channel d) name with
          | Ok (Some (true, v)) => (n ← instantiate l (file d) v; mret (u64 (n + 1))) w
          | Ok (Some (false, v)) => instantiate l (file d) v w
          | Ok None => (Err ErrNotExist, w)
          | Err e => (Err e, w)
          | Panic => (Panic, w)
          end
      end
  end.
Proof.
  intros Hu Hd Hl. unfold internalLookup. destruct (IndexByte name dot); [|done].
  unfold get_db, in_reg, lookupUnsigned. munfold. rewrite Hd, Hu. cbn [option_bind].
  rewrite set_reg_id, Hl. destruct (dbptr d); [|done]. by rewrite (tx_lookup_select l d).
Qed.

(** A database the lookups can work on. *)
Definition ready (dr d : DB) : Prop :=
  locked d = false /\ db_wf (file d) /\ forall e, listed (file d) e -> fits dr e /\ 0 < e_inodes e.

Lemma listed_buckets b e : db_wf b -> listed b e -> Forall (has b) addBuckets.
Proof. intros [_ Hw] (_ & _ & He). apply Hw. by eapply bk_has. Qed.

(** A successful lookup, taken apart. *)
Lemma internalLookup_cases r dr w l d name n w' :
  inv r dr w -> dbs w !! l = Some d -> ready dr d ->
  internalLookup l name w = (Ok n, w') ->
  exists x e m dr' d' p, chosen (file d) (channel d) name x e /\
    select (file d) (channel d) name = Ok (Some (x, p2p_value e)) /\
    n = (if x : bool then u64 (m + 1) else m) /\
    inv r dr' w' /\ grows w w' /\ reg w' = reg w /\
    dbs w' !! l = Some d' /\ pkgI d' !! e_hash e = Some m /\ pkgCache w' !! e_hash e = Some p /\
    (pkgI d !! e_hash e = None -> m = nextI dr) /\
    (is_Some (pkgCache w !! e_hash e) ->
       pkgs w' = pkgs w /\ ino dr' = ino dr /\ pkgCache w' = pkgCache w) /\
    (pkgCache w !! e_hash e = None ->
       exists st, pkgs w' !! p = Some st /\ pk_parent (dl_pkg st) = l).
Proof.
  intros I Hd (Hl & Hw & Hfit) E.
  rewrite (internalLookup_select l d name w (inv_unsigned _ _ _ I) Hd Hl) in E.
  destruct (IndexByte name dot); [|done]. destruct (dbptr d); [|done].
  destruct (select_spec (file d) (channel d) name Hw) as (s & Es & Hs). rewrite Es in E.
  destruct s as [[x v]|]; [|done]. destruct Hs as (e & -> & Hc).
  pose proof (chosen_listed _ _ _ _ _ Hc) as Le.
  destruct (Hfit e Le) as [Hf _]. destruct (Le) as (We & Se & _).
  destruct (instantiate_spec r dr w l d e I Hd (listed_buckets _ _ Hw Le) We Se Hf)
    as (m & dr' & w1 & d' & p & Ei & R).
  exists x, e, m, dr', d', p. split; [done|]. split; [done|].
  destruct x; munfold; rewrite Ei in E; injection E as <- <-; split; done.
Qed.
Lemma handleLookup_link c st ino :
  ino = pk_startIno (dl_pkg st) ->
  handleLookup c ino st = (Ok (InoSymlink (pk_name (dl_pkg st))), st).
Proof. intros ->. unfold handleLookup. munfold. by rewrite Z.eqb_refl. Qed.

(** The link and the contents a successful lookup leads to. *)
Lemma internalLookup_link r dr w l d name n w' :
  inv r dr w -> dbs w !! l = Some d -> ready dr d ->
  (forall e p st, listed (file d) e -> pkgCache w !! e_hash e = Some p -> pkgs w !! p = Some st ->
     pk_parent (dl_pkg st) = l) ->
  internalLookup l name w = (Ok n, w') ->
  exists x e p dr', chosen (file d) (channel d) name x e /\ inv r dr' w' /\ grows w w' /\
    let start := if x : bool then n - 1 else n in
    GetInode r start w' = (Ok (InoPkg (InoSymlink (e_name e))), w') /\
    forall k, start < k <= start + e_inodes e ->
      GetInode r k w' = (InoPkg <$> in_pkg p (handleLookup (conf d) k)) w'.
Proof.
  intros I Hd R Hun E.
  destruct (internalLookup_cases _ _ _ _ _ _ _ _ I Hd R E)
    as (x & e & m & dr' & d' & p & Hc & _ & Hn & I' & G & _ & Hd' & Hm & Hp & _ & Hsame & Hnew).
  destruct R as (Hl & Hw & Hfit). pose proof (chosen_listed _ _ _ _ _ Hc) as Le.
  destruct (Le) as (We & Se & _). destruct (Hfit e Le) as [_ Hpos].
  destruct (inv_cache _ _ _ I' _ _ Hp) as (st & _ & _ & _ & Est & _).
  assert (pk_parent (dl_pkg st) = l) as Hpar.
  { destruct (pkgCache w !! e_hash e) as [q|] eqn:Ec.
    - destruct (Hsame ltac:(eauto)) as (Ep & _ & Ecc). rewrite Ecc, Ec in Hp. injection Hp as ->.
      rewrite Ep in Est. by eapply Hun.
    - destruct (Hnew eq_refl) as (st2 & Est2 & <-). by rewrite Est in Est2; injection Est2 as ->. }
  destruct (cached_range _ _ _ _ _ _ I' Hp Est) as (_ & H1000 & Hino & Hend & dp & D1 & D2 & D3 & _ & p0 & Ep0 & Id).
  rewrite Hpar, Hd' in D1. injection D1 as <-. rewrite Hm in D2. injection D2 as Hst.
  destruct (grows_db _ _ G l d Hd) as (d2 & Hd2 & Hf & Hconf & _). rewrite Hd' in Hd2. injection Hd2 as <-.
  rewrite Hf, (isz_listed _ _ We Se) in D3.
  destruct (stored_pkg_listed (pk_parent (dl_pkg st)) (file d) (pk_startIno (dl_pkg st)) e
    (listed_buckets _ _ Hw Le) We Se) as (p1 & Ep1 & Hname & _).
  rewrite Hf, Ep1 in Ep0. injection Ep0 as ->.
  assert (pk_name (dl_pkg st) = e_name e) as Hname'.
  { destruct Id as (_ & _ & _ & _ & _ & -> & _). done. }
  pose proof (inv_next _ _ _ I') as Hnext.
  exists x, e, p, dr'. split; [done|]. split; [done|]. split; [done|].
  assert ((if x then n - 1 else n) = m) as ->.
  { subst n. destruct x; [|done]. rewrite u64_small by lia. lia. }
  cbv zeta. split.
  - destruct (GetInode_cached r dr' w' _ _ _ m I' Hp Est ltac:(lia)) as (dp & _ & ->).
    unfold fmap, ST_fmap, in_pkg. rewrite Est, handleLookup_link by done.
    unfold set_pkg. rewrite insert_id by done. rewrite Hname'. by destruct w'.
  - intros k Hk. destruct (GetInode_cached r dr' w' _ _ _ k I' Hp Est ltac:(lia)) as (dp & Edp & ->).
    rewrite Hpar, Hd' in Edp. injection Edp as <-. by rewrite Hconf.
Qed.

(** A successful lookup resolves.  The name is matched exactly, or by the
    greatest version the channel's pin allows, or by the greatest version; the
    number returned is the package's symbolic link (one more for an exact
    match, its first inode), [GetInode] finds it, the link reads as the full
    package name, and every further number of the package leads to its
    contents.  (The hypothesis on the cache is that no other database has
    already loaded a package of this one; [shared_package_lost] is the case it
    excludes.) *)
Theorem internalLookup_resolves r dr w l d name n w' :
  inv r dr w -> dbs w !! l = Some d -> ready dr d ->
  (forall e p st, listed (file d) e -> pkgCache w !! e_hash e = Some p -> pkgs w !! p = Some st ->
     pk_parent (dl_pkg st) = l) ->
  internalLookup l name w = (Ok n, w') ->
  exists x e p dr', chosen (file d) (channel d) name x e /\ inv r dr' w' /\ grows w w' /\
    let start := if x : bool then n - 1 else n in
    GetInode r start w' = (Ok (InoPkg (InoSymlink (e_name e))), w') /\
    forall k, start < k <= start + e_inodes e ->
      GetInode r k w' = (InoPkg <$> in_pkg p (handleLookup (conf d) k)) w'.
Proof. apply internalLookup_link. Qed.

Lemma instantiate_again l b e w d n p :
  wf_entry e -> dbs w !! l = Some d -> pkgI d !! e_hash e = Some n ->
  pkgCache w !! e_hash e = Some p ->
  instantiate l b (p2p_value e) w = (Ok n, w).
Proof.
  intros We Hd Hn Hp. unfold instantiate, pkgIno, getPkgTx, get_db. munfold.
  rewrite hash_slice by apply We. by rewrite Hd, Hn, Hp.
Qed.

(** Inode numbers are stable.  Whatever lookups and inode requests happen
    in between ([grows]), the same name resolves to the same number as long as
    the database's file and channel are the same, and without changing
    anything. *)
Theorem internalLookup_stable r dr w l d name n w' w'' :
  inv r dr w -> dbs w !! l = Some d -> ready dr d ->
  internalLookup l name w = (Ok n, w') ->
  grows w' w'' -> unsignedMap (reg w'') = None ->
  internalLookup l name w'' = (Ok n, w'').
Proof.
  intros I Hd R E G' Hu''. pose proof R as (Hl & Hw & _).
  destruct (internalLookup_cases _ _ _ _ _ _ _ _ I Hd R E)
    as (x & e & m & dr' & d' & p & Hc & Hs & Hn & I' & G & _ & Hd' & Hm & Hp & _).
  destruct (inv_cache _ _ _ I' _ _ Hp) as (st & _ & _ & _ & Est & _).
  destruct (grows_pkg _ _ G' _ _ _ Hp Est) as (Hp'' & _).
  destruct (grows_db _ _ G l d Hd) as (d2 & Hd2 & F1 & _ & P1 & L1 & C1 & _).
  rewrite Hd' in Hd2. injection Hd2 as <-.
  destruct (grows_db _ _ G' l d' Hd') as (d'' & Hd'' & F2 & _ & P2 & L2 & C2 & _ & Hpk).
  pose proof (Hpk _ _ Hm) as Hm''.
  destruct (chosen_listed _ _ _ _ _ Hc) as (We & _ & _).
  rewrite (internalLookup_select l d name w (inv_unsigned _ _ _ I) Hd Hl) in E.
  rewrite (internalLookup_select l d'' name w'' Hu'' Hd'') by congruence.
  destruct (IndexByte name dot); [|done]. rewrite P2, P1. destruct (dbptr d); [|done].
  rewrite F2, C2, F1, C1, Hs. munfold.
  pose proof (instantiate_again l (file d) e w'' d'' m p We Hd'' Hm'' Hp'') as Ei.
  destruct x; rewrite Ei; by rewrite Hn.
Qed.

(** A package that two databases list is lost in the second one.  The cache
    of packages is global while the inode numbers are per database: when
    another database has already loaded the package, a lookup reserves and
    returns fresh numbers that no package answers to, and [GetInode] refuses
    them. *)
Theorem shared_package_lost r dr w l d e p name n w' :
  inv r dr w -> dbs w !! l = Some d -> ready dr d ->
  pkgCache w !! e_hash e = Some p -> pkgI d !! e_hash e = None ->
  chosen (file d) (channel d) name false e ->
  select (file d) (channel d) name = Ok (Some (false, p2p_value e)) ->
  internalLookup l name w = (Ok n, w') ->
  GetInode r n w' = (Err ErrInvalid, w').
Proof.
  intros I Hd R Hpc Hpi Hc Hs E.
  destruct (internalLookup_cases _ _ _ _ _ _ _ _ I Hd R E)
    as (x & e' & m & dr' & d' & q & Hc' & Hs' & Hn & I' & G & _ & Hd' & Hm & Hq & Hnew & Hsame & _).
  rewrite Hs in Hs'. injection Hs' as <- Ev.
  assert (e_hash e = e_hash e') as Eh.
  { destruct (chosen_listed _ _ _ _ _ Hc) as ((L1 & _) & _).
    destruct (chosen_listed _ _ _ _ _ Hc') as ((L2 & _) & _).
    assert (take 32 (p2p_value e) = take 32 (p2p_value e')) as Et by by rewrite Ev.
    unfold p2p_value in Et. by rewrite !take_app_length' in Et. }
  rewrite <-Eh in *. destruct (Hsame ltac:(eauto)) as (Ep & Ei & Ec).
  subst m. rewrite (Hnew Hpi) in *. pose proof (inv_next _ _ _ I).
  eapply GetInode_refused; [exact I'|lia|]. intros h p' st Hp' Est. rewrite Ec in Hp'. rewrite Ep in Est.
  destruct (cached_range _ _ _ _ _ _ I Hp' Est) as (_ & _ & _ & Hend & _). lia.
Qed.
(** *** Every reachable state *)

Lemma doDl_Ok c s o s' : doDl c s = (o, s') -> o = Ok tt \/ o = Panic.
Proof.
  unfold doDl, next_try, try_st, add_timer, upd_pkg. munfold.
  destruct (MkdirAll _ _); [|intros [= <- _]; auto..].
  destruct (OpenTo _ _ _); [|intros [= <- _]; auto..].
  destruct (validate _ _) as [[]]; [|intros [= <- _]; auto..].
  destruct (sq_New _ _); intros [= <- _]; auto.
Qed.

Lemma ensureDl_identity c s o s' :
  ensureDl c s = (o, s') -> o <> Panic -> o = Ok tt /\ same_identity (dl_pkg s) (dl_pkg s').
Proof.
  unfold ensureDl. munfold. destruct (pk_dlDone (dl_pkg s)).
  { intros [= <- <-] _. split; [done|apply same_identity_refl]. }
  destruct (doDl c s) as [o1 s1] eqn:E. destruct (doDl_Ok _ _ _ _ E) as [-> | ->].
  - destruct (doDl_cases c s s1 E) as (Hid & _).
    destruct (pk_squash (dl_pkg s1)); intros [= <- <-] _; done.
  - by intros [= <- <-].
Qed.

Lemma handleLookup_identity c n s o s' :
  handleLookup c n s = (o, s') -> o <> Panic -> same_identity (dl_pkg s) (dl_pkg s').
Proof.
  unfold handleLookup. munfold. destruct (n =? _); [intros [= _ <-] _; apply same_identity_refl|].
  destruct (ensureDl c s) as [o1 s1] eqn:E. intros E2 Ho.
  assert (o1 <> Panic) as Hp by (intros ->; by injection E2 as <- <-).
  destruct (ensureDl_identity _ _ _ _ E Hp) as [-> Hid].
  destruct (pk_squash (dl_pkg s1)); [|by injection E2 as <- <-].
  destruct (n <=? _); by injection E2 as <- <-.
Qed.

Lemma inv_set_pkg r dr w p st st' :
  inv r dr w -> pkgs w !! p = Some st -> same_identity (dl_pkg st) (dl_pkg st') ->
  inv r dr (set_pkg p st' w) /\ grows w (set_pkg p st' w).
Proof.
  intros I Hp Hid.
  assert (forall q st0, pkgs w !! q = Some st0 ->
    exists st1, <[p := st']> (pkgs w) !! q = Some st1 /\ same_identity (dl_pkg st0) (dl_pkg st1)) as Hpk.
  { intros q st0 Hq. destruct (decide (q = p)) as [->|Hne].
    - exists st'. rewrite lookup_insert_eq. split; [done|]. congruence.
    - exists st0. rewrite lookup_insert_ne by done. split; [done|apply same_identity_refl]. }
  split.
  - split; try apply I.
    + intros h q Hq. destruct (inv_cache _ _ _ I h q Hq) as (st0 & l & d & p0 & E1 & E2 & E3 & E4 & E5 & E6).
      destruct (Hpk _ _ E1) as (st1 & E1' & Hi). exists st1, l, d, p0. do 4 (split; [done|]).
      split; [by eapply same_identity_trans|done].
    + intros v i Hi. destruct (inv_tree _ _ _ I v i Hi) as (q & st0 & -> & Hq & Hv & Hc).
      destruct (Hpk _ _ Hq) as (st1 & Hq1 & Hi1). exists q, st1. split; [done|]. split; [done|].
      rewrite (same_identity_startIno _ _ Hi1), (same_identity_hash _ _ Hi1). done.
    + intros q st1. cbn [pkgs pkg_next set_pkg]. rewrite lookup_insert_Some.
      intros [[<- _]|[_ Hq]]; by eapply (inv_fresh _ _ _ I).
  - split.
    + intros k d Hk. exists d. split; [done|apply db_kept_refl].
    + eauto.
    + intros h q st0 Hh Hq. split; [done|]. by apply Hpk.
Qed.

Lemma GetInode_inv r dr w n o w' :
  inv r dr w -> GetInode r n w = (o, w') -> o <> Panic -> inv r dr w' /\ grows w w'.
Proof.
  intros I. unfold GetInode, get_db. munfold.
  destruct (n =? 1); [intros [= _ <-] _; by split|]. rewrite (inv_root _ _ _ I).
  destruct (n =? 2); [intros [= _ <-] _; by split|].
  destruct (DescendFirst (ino dr) n) as [i|] eqn:E; [|intros [= _ <-] _; by split].
  apply DescendFirst_Some in E as (Hi & _).
  destruct (tree_item _ _ _ _ _ I Hi) as (p & st & h & -> & Hc & Hp & Hv).
  rewrite (in_pkg_get p st w Hp). destruct (n <? _); [|intros [= _ <-] _; by split].
  destruct (cached_range _ _ _ _ _ _ I Hc Hp) as (_ & _ & _ & _ & d & -> & _).
  unfold in_pkg. rewrite Hp. destruct (handleLookup (conf d) n st) as [o1 st1] eqn:Eh.
  intros E Ho. assert (o1 <> Panic /\ w' = set_pkg p st1 w) as [Hp1 ->]
    by (destruct o1; injection E as <- <-; done).
  eapply inv_set_pkg; [done..|]. by eapply handleLookup_identity.
Qed.

(** One request of the kernel: a lookup in a database that is ready, or an
    inode. *)
Inductive fs_step (r : nat) (w w' : World) : Prop :=
  | step_lookup l dr d name o :
      dbs w !! r = Some dr -> dbs w !! l = Some d -> ready dr d ->
      internalLookup l name w = (o, w') -> o <> Panic -> fs_step r w w'
  | step_inode n o :
      GetInode r n w = (o, w') -> o <> Panic -> fs_step r w w'.

Lemma fs_step_inv r dr w w' :
  inv r dr w -> fs_step r w w' -> exists dr', inv r dr' w' /\ grows w w'.
Proof.
  intros I [l dr0 d name o Hr Hd R E Ho|n o E Ho].
  - rewrite (inv_root _ _ _ I) in Hr. injection Hr as <-. destruct o as [n|e|]; [| |done].
    + destruct (internalLookup_cases _ _ _ _ _ _ _ _ I Hd R E)
        as (x & e & m & dr' & d' & p & _ & _ & _ & I' & G & _). eauto.
    + exists dr. assert (w' = w) as ->; [|by split]. destruct R as (Hl & Hw & Hfit).
      rewrite (internalLookup_select l d name w (inv_unsigned _ _ _ I) Hd Hl) in E.
      destruct (IndexByte name dot); [|congruence]. destruct (dbptr d); [|congruence].
      destruct (select_spec (file d) (channel d) name Hw) as (s & Es & Hs). rewrite Es in E.
      destruct s as [[x v]|]; [|congruence]. destruct Hs as (e' & -> & Hc).
      pose proof (chosen_listed _ _ _ _ _ Hc) as Le. destruct (Hfit e' Le) as [Hf _].
      destruct (Le) as (We & Se & _).
      destruct (instantiate_spec r dr w l d e' I Hd (listed_buckets _ _ Hw Le) We Se Hf)
        as (m & dr' & w1 & d' & p & Ei & _).
      destruct x; munfold; by rewrite Ei in E.
  - exists dr. by eapply GetInode_inv.
Qed.

Lemma fs_steps_inv r dr w w' :
  inv r dr w -> rtc (fs_step r) w w' -> exists dr', inv r dr' w' /\ grows w w'.
Proof.
  intros I Hs. revert dr I. induction Hs as [w|w w1 w' Hs _ IH]; intros dr I; [by exists dr|].
  destruct (fs_step_inv _ _ _ _ I Hs) as (dr1 & I1 & G1).
  destruct (IH _ I1) as (dr2 & I2 & G2). exists dr2. split; [done|]. by etrans.
Qed.

(** The state of a process that has just started. *)
Definition start_world : World := {|
  dbs := ∅; db_next := 0; pkgs := ∅; pkg_next := 0; pkgCache := ∅;
  reg := {| unsignedMap := None; u_heap := ∅; u_next := 0 |};
  loadUnsigned := false; threads := [] |}.

Lemma init_db_frame env d b d' :
  locked d = false -> init_db env d = (Ok b, d') -> same_but_ldso d d'.
Proof.
  intros Hl. unfold init_db, try_st. munfold.
  destruct (buildLdso d) as [o1 d1] eqn:E1. apply buildLdso_frame in E1 as (S1 & _ & _ & L1 & _).
  rewrite Hl in L1.
  destruct o1 as [[]|e|]; [| |done].
  all: destruct (CurrentVersion d1) as [v| |]; [|done..]; case_bool_decide.
  all: try (intros [= _ <-]; done).
  all: destruct (download (env_net env) [] d1) as [o2 d2] eqn:E2; destruct o2; [|done..];
    intros [= _ <-]; destruct (download_cases _ _ _ _ _ L1 E2) as (_ & S2 & _); by etrans.
Qed.

Lemma New_inv env goos goarch eos earch prefix name path r w :
  New env goos goarch eos earch prefix name path start_world = (Ok r, w) ->
  exists dr, inv r dr w /\ pkgI dr = ∅ /\ nextI dr = 1000 /\ pkgCache w = ∅.
Proof.
  unfold New, NewOsArch. cbn [loadUnsigned start_world].
  destruct (open_db env _ _ _ _ _) as [d| |] eqn:Eo; [|done..].
  destruct (init_db env d) as [[b| |] d'] eqn:Ei; [|done..]. intros [= <- <-].
  unfold open_db in Eo. destruct (env_open env); [done|]. injection Eo as <-.
  apply init_db_frame in Ei as (_ & _ & Ft & _ & Fp & Fn & Fk & _); [|done]. cbn in Ft, Fp, Fn, Fk.
  exists d'. split; [|by rewrite Fk, Fn]. split; cbn.
  - done.
  - by rewrite lookup_insert_eq.
  - done.
  - rewrite Fn. unfold two64. lia.
  - intros l d0. rewrite lookup_insert_Some, lookup_empty. naive_solver.
  - intros l d0 h v. rewrite lookup_insert_Some, lookup_empty. intros [[_ <-]|[_ ?]]; [|done].
    by rewrite Fk, lookup_empty.
  - intros l d0 h v l1 d1 h1 v1. rewrite lookup_insert_Some, lookup_empty.
    intros [[_ <-]|[_ ?]]; [|done]. by rewrite Fk, lookup_empty.
  - intros h p. by rewrite lookup_empty.
  - intros v i. rewrite Ft, llrb_New_items. by rewrite lookup_empty.
  - intros p st. by rewrite lookup_empty.
Qed.

(** The inode numbers of a running file system.  After [New] and any
    sequence of lookups and inode requests, two different packages have
    disjoint ranges of numbers, all of them from 1000 on and already allocated;
    and a package keeps its numbers in every later state. *)
Theorem reachable_inodes env goos goarch eos earch prefix name path r w0 w :
  New env goos goarch eos earch prefix name path start_world = (Ok r, w0) ->
  rtc (fs_step r) w0 w ->
  (forall h p st h' p' st',
     pkgCache w !! h = Some p -> pkgs w !! p = Some st ->
     pkgCache w !! h' = Some p' -> pkgs w !! p' = Some st' ->
     1000 <= pk_startIno (dl_pkg st) /\
     (exists dr, dbs w !! r = Some dr /\
        pk_startIno (dl_pkg st) + pk_inodes (dl_pkg st) < nextI dr) /\
     (p = p' \/
      pk_startIno (dl_pkg st) + pk_inodes (dl_pkg st) < pk_startIno (dl_pkg st') \/
      pk_startIno (dl_pkg st') + pk_inodes (dl_pkg st') < pk_startIno (dl_pkg st))) /\
  (forall w' h p st, rtc (fs_step r) w w' ->
     pkgCache w !! h = Some p -> pkgs w !! p = Some st ->
     exists st', pkgCache w' !! h = Some p /\ pkgs w' !! p = Some st' /\
       pk_startIno (dl_pkg st') = pk_startIno (dl_pkg st) /\
       pk_inodes (dl_pkg st') = pk_inodes (dl_pkg st)).
Proof.
  intros E Hs. destruct (New_inv _ _ _ _ _ _ _ _ _ _ E) as (dr0 & I0 & _).
  destruct (fs_steps_inv _ _ _ _ I0 Hs) as (dr & I & _). split.
  - intros h p st h' p' st' Hc Hp Hc' Hp'.
    destruct (cached_range _ _ _ _ _ _ I Hc Hp) as (_ & H1000 & _ & Hend & _).
    split; [done|]. split; [exists dr; split; [apply (inv_root _ _ _ I)|lia]|].
    destruct (cached_disjoint _ _ _ _ _ _ _ _ _ I Hc Hp Hc' Hp') as [?|?]; [by left|right; lia].
  - intros w' h p st Hs' Hc Hp. destruct (fs_steps_inv _ _ _ _ I Hs') as (_ & _ & G).
    destruct (grows_pkg _ _ G _ _ _ Hc Hp) as (Hc' & st' & Hp' & Hid). exists st'.
    split; [done|]. split; [done|]. unfold same_identity in Hid. tauto.
Qed.
End world.

(** ** Concrete instance, for evaluation *)

(** A database with two packages, [media-libs.x.1.0] and [media-libs.xvid.1]. *)
Module SampleWorld.
#[local] Existing Instance MapBolt.ops.
#[local] Existing Instance MapBolt.spec.
#[local] Existing Instance Sample.list_llrb.
#[local] Existing Instance Sample.list_llrb_spec.
#[local] Existing Instance SampleLd.ldcache.
#[local] Existing Instance SampleLd.json.
#[local] Existing Instance SampleLd.range.
#[local] Existing Instance Toy.toy_ed25519.
#[local] Existing Instance Toy.toy_ed25519_spec.
#[local] Existing Instance SampleUpd.jwt.
#[local] Existing Instance SamplePkg.squashfs.
#[local] Existing Instance SamplePkg.json.
#[local] Existing Instance SamplePkg.remote.

Definition entry_named (n : Z) (name : bytes) : pkgEntry := {|
  e_hash := be_put 32 n; e_size := 40960; e_inodes := 3; e_name := name;
  e_path := str "p.apkg"; e_header := str "header"; e_sig := str "sig"; e_meta := str "meta" |}.
Definition e1 : pkgEntry := entry_named 1 (str "media-libs.x.1.0").
Definition e2 : pkgEntry := entry_named 2 (str "media-libs.xvid.1").

Definition b0 : bdb := snd (create_buckets indexBuckets bolt_empty).
Definition b1 : bdb := snd (put_pkg e1 b0).
Definition b2 : bdb := snd (put_pkg e2 b1).

(** One more package keeps the sample well formed. *)
Lemma put_sample e b :
  db_wf b -> Forall (has b) addBuckets -> wf_entry e -> entry_fits e = true ->
  bk b pkgBucket !! e_hash e = None ->
  db_wf (snd (put_pkg e b)) /\ Forall (has (snd (put_pkg e b))) addBuckets /\
  pkg_put [] e b (snd (put_pkg e b)).
Proof.
  intros Hw Hh We Hf Hn. destruct (put_pkg_ok e b Hh Hf) as (b' & -> & P). cbn [snd].
  split; [by eapply db_wf_put|]. split; [|done]. by eapply pkg_put_has.
Qed.

Lemma sample_wf :
  db_wf b2 /\ Forall (has b2) addBuckets /\
  bk b2 p2pBucket = <[collatedVersion (e_name e2) := p2p_value e2]>
                      (<[collatedVersion (e_name e1) := p2p_value e1]> ∅) /\
  stored b2 e1 /\ stored b2 e2.
Proof.
  assert (Forall (has b0) addBuckets) as H0' by (apply has_all; vm_compute; reflexivity).
  assert (db_wf b0) as W0.
  { split; [|done]. intros k v. replace (bk b0 p2pBucket) with (∅ : gmap bytes bytes)
      by (vm_compute; reflexivity). by rewrite lookup_empty. }
  destruct (put_sample e1 b0) as (W1 & H1' & P1);
    [done|done|vm_compute; intuition congruence|vm_compute; reflexivity..|].
  destruct (put_sample e2 b1) as (W2 & H2' & P2);
    [done|done|vm_compute; intuition congruence|vm_compute; reflexivity..|].
  split; [exact W2|]. split; [exact H2'|]. split.
  - destruct P1 as [P1 _]. destruct P2 as [P2 _]. fold b1 in P1. fold b2 in P2.
    rewrite P2, P1. replace (bk b0 p2pBucket) with (∅ : gmap bytes bytes) by (vm_compute; reflexivity).
    reflexivity.
  - split; repeat split; vm_compute; reflexivity.
Qed.

Lemma sample_listed e : listed b2 e -> e_name e = e_name e1 /\ e_inodes e = 3 \/
  e_name e = e_name e2 /\ e_inodes e = 3.
Proof.
  intros ((Hl & _ & Hi) & _ & He). destruct sample_wf as (_ & _ & E & _). rewrite E in He.
  assert (forall f, p2p_value f = p2p_value e -> length (e_hash f) = 32%nat -> e_inodes f = 3 ->
    e_name e = e_name f /\ e_inodes e = 3) as Hp.
  { intros f Ef Hlf Hif. split; [by rewrite <-(p2p_name e Hl), <-Ef, p2p_name|].
    assert (take 8 (drop 32 (p2p_value f)) = take 8 (drop 32 (p2p_value e))) as Et by by rewrite Ef.
    unfold p2p_value in Et. rewrite !drop_app_length', !take_app_length' in Et
      by (done || by rewrite length_be_put).
    apply (f_equal be_get) in Et. rewrite Hif in Et.
    rewrite be_get_put_small in Et by (split; [lia|reflexivity]).
    rewrite be_get_put_small in Et; [done|]. split; [lia|]. change (256 ^ Z.of_nat 8) with two64. lia. }
  apply lookup_insert_Some in He as [[_ Ef]|[_ He]].
  { right. exact (Hp e2 Ef eq_refl eq_refl). }
  apply lookup_insert_Some in He as [[_ Ef]|[_ He]].
  { left. exact (Hp e1 Ef eq_refl eq_refl). }
  revert He. generalize (collatedVersion (e_name e)) (p2p_value e). clear. intros k v.
  by rewrite lookup_empty.
Qed.

Definition the_db (par : option nat) : DB := {|
  conf := Sample.sample_conf; dbptr := Some ReadOnly; file := b2; locked := false; faults := [];
  closed := false; ino := llrb_New; refcnt := 0; parent := par; nextI := 1000;
  pkgI := ∅; sub := ∅; ntgt := None; ldso := []; channel := str "stable"; outbox := [] |}.

(** The root database and a second one with the same packages. *)
Definition world : World := {|
  dbs := {[ 0%nat := the_db None; 1%nat := the_db (Some 0%nat) ]}; db_next := 2; pkgs := ∅;
  pkg_next := 0; pkgCache := ∅; reg := {| unsignedMap := None; u_heap := ∅; u_next := 0 |};
  loadUnsigned := false; threads := [] |}.

Lemma world_inv : inv 0 (the_db None) world.
Proof.
  assert (forall l d, dbs world !! l = Some d ->
    l = 0%nat /\ d = the_db None \/ l = 1%nat /\ d = the_db (Some 0%nat)) as Hd.
  { intros l d. unfold world, dbs. rewrite !lookup_insert_Some, lookup_singleton_Some. naive_solver. }
  assert (forall l d h v, dbs world !! l = Some d -> pkgI d !! h = Some v -> False) as Hno.
  { intros l d h v [[-> ->]|[-> ->]]%Hd; unfold the_db, pkgI; by rewrite lookup_empty. }
  split.
  - done.
  - reflexivity.
  - done.
  - vm_compute. split; congruence.
  - intros l d [[-> ->]|[-> ->]]%Hd Hne; [done|]. split; [done|lia].
  - intros l d h v H1' H2'. by destruct (Hno l d h v).
  - intros l d h v l1 d1 h1 v1 H1' H2'. by destruct (Hno l d h v).
  - intros h p. unfold world, pkgCache. by rewrite lookup_empty.
  - intros v i. unfold the_db, ino. by rewrite (llrb_New_items (LlrbSpec := Sample.list_llrb_spec)), lookup_empty.
  - intros p st. unfold world, pkgs. by rewrite lookup_empty.
Qed.

Lemma world_ready par next :
  0 <= next < 100000 -> ready (set_nextI next (the_db None)) (the_db par).
Proof.
  intros Hn. split; [done|]. split; [apply sample_wf|]. intros e He. unfold fits. cbn [nextI set_nextI].
  destruct (sample_listed e He) as [[_ ->]|[_ ->]]; unfold two64; lia.
Qed.

Definition lookup0 (l : nat) (name : bytes) : ST World Z := internalLookup l name.
Definition w1 : World := snd (lookup0 0 (str "media-libs.xvid") world).

(** The first lookup of [media-libs.xvid] in the root database. *)
Lemma lookup_1 :
  exists dr1 p, lookup0 0 (str "media-libs.xvid") world = (Ok 1000, w1) /\ inv 0 dr1 w1 /\
    grows world w1 /\ unsignedMap (reg w1) = None /\ 1000 <= nextI dr1 < 100000 /\
    pkgCache w1 !! e_hash e2 = Some p.
Proof.
  destruct (lookup0 0 (str "media-libs.xvid") world) as [o w'] eqn:E.
  assert (fst (lookup0 0 (str "media-libs.xvid") world) = Ok 1000) as Ho by (vm_compute; reflexivity).
  rewrite E in Ho. cbn [fst] in Ho. subst o.
  assert (w1 = w') as Ew by (unfold w1; by rewrite E).
  destruct (internalLookup_cases 0 (the_db None) world 0 (the_db None) (str "media-libs.xvid")
    1000 w' world_inv eq_refl (world_ready None 1000 ltac:(lia)) E)
    as (x & e & m & dr' & d' & p & Hc & Hs & Hn & I' & G & Hu & _ & _ & Hp & _).
  assert (nextI <$> (dbs w1 !! 0%nat) = Some 1004) as Hnext by (vm_compute; reflexivity).
  exists dr', p. rewrite Ew in *. split; [done|]. split; [done|]. split; [done|]. split; [by rewrite Hu|].
  rewrite (inv_root _ _ _ I') in Hnext. injection Hnext as ->. split; [lia|].
  assert (select b2 (str "stable") (str "media-libs.xvid") = Ok (Some (false, p2p_value e2))) as Hs2
    by (vm_compute; reflexivity).
  change (select b2 (str "stable") (str "media-libs.xvid") = Ok (Some (x, p2p_value e))) in Hs.
  rewrite Hs2 in Hs. injection Hs as <- Hv. replace (e_hash e2) with (e_hash e); [done|].
  destruct (chosen_listed _ _ _ _ _ Hc) as ((L & _) & _).
  pose proof (f_equal (take 32) Hv) as Et.
  unfold p2p_value in Et. by rewrite !take_app_length' in Et.
Qed.

Lemma chosen_e2 : chosen b2 (str "stable") (str "media-libs.xvid") false e2.
Proof.
  destruct sample_wf as (Hw & _ & _ & _ & Se).
  destruct (select_spec b2 (str "stable") (str "media-libs.xvid") Hw) as (s & Es & Hs).
  assert (select b2 (str "stable") (str "media-libs.xvid") = Ok (Some (false, p2p_value e2))) as Hs2
    by (vm_compute; reflexivity).
  rewrite Hs2 in Es. injection Es as <-. destruct Hs as (e & Hv & Hc).
  assert (listed b2 e2) as L2.
  { split; [vm_compute; intuition congruence|]. split; [done|]. vm_compute. reflexivity. }
  pose proof (chosen_listed _ _ _ _ _ Hc) as ((L & _ & _) & _).
  assert (e_name e2 = e_name e) as Hn by by rewrite <-(p2p_name e2), Hv, p2p_name.
  inversion Hc as [|e' Hno Hpin _|e' Hno Hpin (Le & Ve & Hmax)]; subst.
  - exfalso. apply Hpin. vm_compute. reflexivity.
  - apply chosen_latest; [done|done|]. rewrite <-Hn in Ve, Hmax.
    split; [exact L2|]. split; [exact Ve|exact Hmax].
Qed.
End SampleWorld.

Lemma seek_version_latest_witness :
  (exists v, @seek_version MapBolt.ops SampleWorld.b2 (str "media-libs.xvid") = Ok (Some v) /\
     ~ @hidden MapBolt.ops MapBolt.spec SampleWorld.b2 (str "media-libs.xvid")) /\
  @seek_version MapBolt.ops SampleWorld.b2 (str "media-libs.x") = Ok None.
Proof.
  split; [|vm_compute; reflexivity].
  destruct SampleWorld.sample_wf as (Hw & Hh & _).
  destruct (@seek_version_latest MapBolt.ops MapBolt.spec SampleWorld.b2 (str "media-libs.xvid") Hw)
    as (r & E & Hs & _).
  - unfold addBuckets in Hh. rewrite Forall_cons in Hh. apply Hh.
  - assert (match @seek_version MapBolt.ops SampleWorld.b2 (str "media-libs.xvid") with
            | Ok (Some _) => true | _ => false end = true) as Hok by (vm_compute; reflexivity).
    rewrite E in Hok. destruct r as [v|]; [|discriminate Hok].
    exists v. split; [exact E|]. exact (proj2 (proj1 Hs (ltac:(eexists; reflexivity)))).
Defined.

Lemma seek_version_hidden_witness :
  @seek_version MapBolt.ops SampleWorld.b2 (str "media-libs.x") = Ok None.
Proof.
  destruct SampleWorld.sample_wf as (Hw & Hh & _ & S1 & S2).
  apply (@seek_version_hidden MapBolt.ops MapBolt.spec SampleWorld.b2 (str "media-libs.x")
    (str "1.0") Byte.x76 (str "id.1") SampleWorld.e1 SampleWorld.e2 Hw).
  - unfold addBuckets in Hh. rewrite Forall_cons in Hh. apply Hh.
  - split; [vm_compute; intuition congruence|]. split; [exact S1|]. vm_compute. reflexivity.
  - split; [vm_compute; intuition congruence|]. split; [exact S2|]. vm_compute. reflexivity.
  - reflexivity.
  - reflexivity.
  - reflexivity.
  - vm_compute. split; reflexivity.
  - intros g Hg. destruct (SampleWorld.sample_listed g Hg) as [[E _]|[E _]]; [left|right]; exact E.
Defined.

(** The hypotheses of the other theorems hold in the sample world. *)
Module SampleRun.
Import SampleWorld.
#[local] Existing Instance MapBolt.ops.
#[local] Existing Instance MapBolt.spec.
#[local] Existing Instance Sample.list_llrb.
#[local] Existing Instance Sample.list_llrb_spec.
#[local] Existing Instance SampleLd.ldcache.
#[local] Existing Instance SampleLd.json.
#[local] Existing Instance SampleLd.range.
#[local] Existing Instance Toy.toy_ed25519.
#[local] Existing Instance Toy.toy_ed25519_spec.
#[local] Existing Instance SampleUpd.jwt.
#[local] Existing Instance SamplePkg.squashfs.
#[local] Existing Instance SamplePkg.remote.

Lemma GetInode_routes_witness : GetInode 0 1000 world = (Err ErrInvalid, world).
Proof.
  refine (proj2 (GetInode_routes 0 (the_db None) world 1000 world_inv _) _); [lia|].
  intros h p st Hp. exfalso. revert Hp. unfold world, pkgCache. by rewrite lookup_empty.
Defined.

Lemma internalLookup_resolves_witness :
  exists w' e, internalLookup 0 (str "media-libs.xvid") world = (Ok 1000, w') /\
    GetInode 0 1000 w' = (Ok (InoPkg (InoSymlink (e_name e))), w').
Proof.
  destruct lookup_1 as (dr1 & p & E & _).
  destruct (internalLookup_resolves 0 (the_db None) world 0 (the_db None) (str "media-libs.xvid")
    1000 w1 world_inv eq_refl (world_ready None 1000 ltac:(lia))) as (x & e & q & dr' & Hc & _ & _ & Hr & _).
  - intros e q st _ Hq. exfalso. revert Hq. unfold world, pkgCache. by rewrite lookup_empty.
  - exact E.
  - exists w1, e. split; [exact E|].
    assert (x = false) as ->; [|exact Hr].
    inversion Hc as [f Lf Hn| |]; [|reflexivity..]. exfalso.
    destruct (sample_listed e Lf) as [[En _]|[En _]]; rewrite En in Hn; discriminate Hn.
Defined.

Lemma internalLookup_stable_witness :
  internalLookup 0 (str "media-libs.xvid") w1 = (Ok 1000, w1).
Proof.
  destruct lookup_1 as (dr1 & p & E & _ & _ & Hu & _).
  apply (internalLookup_stable 0 (the_db None) world 0 (the_db None) (str "media-libs.xvid") 1000 w1 w1).
  - exact world_inv.
  - reflexivity.
  - exact (world_ready None 1000 ltac:(lia)).
  - exact E.
  - reflexivity.
  - exact Hu.
Defined.

(** The second database looks the same package up. *)
Lemma shared_package_lost_witness :
  exists n w', internalLookup 1 (str "media-libs.xvid") w1 = (Ok n, w') /\
    GetInode 0 n w' = (Err ErrInvalid, w').
Proof.
  destruct lookup_1 as (dr1 & p & E & I1 & G1 & _ & Hn & Hp).
  assert (fst (internalLookup 1 (str "media-libs.xvid") w1) = Ok 1004) as Ho by (vm_compute; reflexivity).
  destruct (internalLookup 1 (str "media-libs.xvid") w1) as [o w'] eqn:E2.
  cbn [fst] in Ho. subst o. exists 1004, w'. split; [reflexivity|].
  destruct (grows_db _ _ G1 1%nat (the_db (Some 0%nat)) eq_refl) as (d & Hd & Hf & _ & _ & Hl & Hch & _).
  assert ((dbs w1 !! 1%nat ≫= fun d => pkgI d !! e_hash e2) = None) as Hi by (vm_compute; reflexivity).
  rewrite Hd in Hi. cbn [mbind option_bind] in Hi.
  change (file (the_db (Some 0%nat))) with b2 in Hf.
  change (channel (the_db (Some 0%nat))) with (str "stable") in Hch.
  apply (shared_package_lost 0 dr1 w1 1 d e2 p (str "media-libs.xvid") 1004 w'); try assumption.
  - destruct (world_ready None (nextI dr1)) as (_ & Hw & Hfit); [lia|].
    split; [by rewrite Hl|]. rewrite Hf. split; [exact Hw|]. intros e He.
    exact (Hfit e He).
  - rewrite Hf, Hch. exact chosen_e2.
  - rewrite Hf, Hch. vm_compute. reflexivity.
Defined.

Definition env : environ := {|
  env_file _ := Some (snd (tx_put infoBucket versionKey (str "20220601015543") b2));
  env_open := None; env_faults := []; env_net := SampleUpd.net |}.

Lemma reachable_inodes_witness :
  exists w, New env (str "linux") (str "amd64") [] [] (str "https://data.apkg.net/") (str "main")
      (str "/var/lib/apkg") start_world = (Ok 0%nat, w) /\
    forall h p st, pkgCache w !! h = Some p -> pkgs w !! p = Some st -> 1000 <= pk_startIno (dl_pkg st).
Proof.
  assert (fst (New env (str "linux") (str "amd64") [] [] (str "https://data.apkg.net/") (str "main")
      (str "/var/lib/apkg") start_world) = Ok 0%nat) as Ho by (vm_compute; reflexivity).
  destruct (New env (str "linux") (str "amd64") [] [] (str "https://data.apkg.net/") (str "main")
      (str "/var/lib/apkg") start_world) as [o w] eqn:E.
  cbn [fst] in Ho. subst o. exists w. split; [reflexivity|].
  destruct (reachable_inodes _ _ _ _ _ _ _ _ _ w w E) as [Hr _]; [reflexivity|].
  intros h p st Hh Hp. exact (proj1 (Hr h p st h p st Hh Hp Hh Hp)).
Defined.
End SampleRun.
