(* ===== verification/Interleave.v ===== *)
(** * Interleave: concurrent lookups

    [World.v] runs [pkgIno] and [getPkgTx] as a whole.  Here each is the sequence
    of its critical sections ([pkgIlk], [nextIlk] and [pkgCacheL] of
    [apkgdb/lookup.go] and [package.go]), and any number of lookups, in any of
    the databases that share a root, run at once.  The lookups hold the read
    lock of their database, so that its data does not change meanwhile. *)

From S2P Require Import Prelude Threads GoLib GoPath Sig Collate Natsort OsArch Bolt Store GoTime Pins Ldso Index Export Package Update Unsigned World Lookup.
Local Open Scope Z_scope.

(** ** The steps *)

(** Where a lookup is: before the first read of [pkgI]; after it missed; holding
    [pkgIlk]; after [allocInodes], still holding it; with its number; after the
    first read of [pkgCache] missed; with its package. *)
Inductive ipc :=
  | IStart | IWait | ILocked | IAlloc (n : Z) | IGot (n : Z) | IMissed (n : Z)
  | IDone (n : Z) (p : nat).

(** [it_val] is the value of the name index the lookup has found. *)
Record ithread := { it_db : nat; it_val : bytes; it_pc : ipc }.
Definition set_pc (pc : ipc) (th : ithread) : ithread :=
  {| it_db := it_db th; it_val := it_val th; it_pc := pc |}.

Section steps.
Context `{BoltOps, LlrbOps, Ldcache, !Json, GoRange, GoSort, Ed25519, Jwt, Squashfs, Remote, PkgJson}.

(** [is_lk] has the holder of the write lock [pkgIlk] of each database. *)
Record ist := { is_w : World; is_lk : gmap nat nat; is_th : list ithread }.

Definition goto (t : nat) (th : ithread) (pc : ipc) (w : World) (lk : gmap nat nat) (s : ist) : ist :=
  {| is_w := w; is_lk := lk; is_th := <[t := set_pc pc th]> (is_th s) |}.

(** One step of the lookup [t]; [None] when it waits for a lock or is over, or
    when the source would fail, which [lookups_finish] excludes. *)
Definition istep (t : nat) (s : ist) : option ist :=
  th ← is_th s !! t;
  let l := it_db th in
  let w := is_w s in
  d ← dbs w !! l;
  match slice 0 32 (it_val th) with
  | Ok h =>
      match it_pc th with
      | IStart =>
          match is_lk s !! l with
          | Some _ => None
          | None => Some (goto t th (match pkgI d !! h with Some n => IGot n | None => IWait end)
                            w (is_lk s) s)
          end
      | IWait =>
          match is_lk s !! l with
          | Some _ => None
          | None => Some (goto t th ILocked w (<[l := t]> (is_lk s)) s)
          end
      | ILocked =>
          match pkgI d !! h with
          | Some n => Some (goto t th (IGot n) w (delete l (is_lk s)) s)
          | None =>
              match slice 32 40 (it_val th) with
              | Ok cnt =>
                  match allocInodes l (u64 (be_get cnt + 1)) w with
                  | (Ok n, w') => Some (goto t th (IAlloc n) w' (is_lk s) s)
                  | _ => None
                  end
              | _ => None
              end
          end
      | IAlloc n =>
          Some (goto t th (IGot n) (set_dbs (<[l := set_pkgI (<[h := n]> (pkgI d)) d]> (dbs w)) w)
                  (delete l (is_lk s)) s)
      | IGot n =>
          Some (goto t th (match pkgCache w !! h with Some p => IDone n p | None => IMissed n end)
                  w (is_lk s) s)
      | IMissed n =>
          match getPkgTx l (file d) n h w with
          | (Ok p, w') => Some (goto t th (IDone n p) w' (is_lk s) s)
          | _ => None
          end
      | IDone _ _ => None
      end
  | _ => None
  end.

Definition isteps (s s' : ist) : Prop := rtc (fun s s' => exists t, istep t s = Some s') s s'.

(** The lookups of the values [l] in their databases, before their first step. *)
Definition istart (w : World) (l : list (nat * bytes)) : ist :=
  {| is_w := w; is_lk := ∅;
     is_th := (fun x => {| it_db := x.1; it_val := x.2; it_pc := IStart |}) <$> l |}.

(** ** The state as whole calls see it

    A number that is allocated and not yet stored counts as stored. *)

Definition in_flight (s : ist) (l : nat) : option (bytes * Z) :=
  t ← is_lk s !! l; th ← is_th s !! t;
  match it_pc th with IAlloc n => Some (take 32 (it_val th), n) | _ => None end.
Definition flush_db (s : ist) (l : nat) (d : DB) : DB :=
  match in_flight s l with Some (h, n) => set_pkgI (<[h := n]> (pkgI d)) d | None => d end.
Definition map_dbs (f : nat -> DB -> DB) (w : World) : World :=
  set_dbs (map_imap (fun l d => Some (f l d)) (dbs w)) w.
Definition flushed (s : ist) : World := map_dbs (flush_db s) (is_w s).

(** A whole call by one of the lookups. *)
Inductive call (ths : list (nat * bytes)) (w w' : World) : Prop :=
  | call_pkgIno l v n : (l, v) ∈ ths -> pkgIno l v w = (Ok n, w') -> call ths w w'
  | call_getPkgTx l v d n h p :
      (l, v) ∈ ths -> dbs w !! l = Some d -> slice 0 32 v = Ok h -> pkgI d !! h = Some n ->
      getPkgTx l (file d) n h w = (Ok p, w') -> call ths w w'.

(** ** Changes to databases that whole calls do not see *)

Record harmless (f : nat -> DB -> DB) : Prop := {
  hl_parent k d : parent (f k d) = parent d;
  hl_next k d : nextI (f k d) = nextI d;
  hl_ino k d : ino (f k d) = ino d;
  hl_file k d : file (f k d) = file d;
  hl_set_next k d v : f k (set_nextI v d) = set_nextI v (f k d);
  hl_set_ino k d v : f k (set_ino v d) = set_ino v (f k d);
}.

Lemma flush_harmless s : harmless (flush_db s).
Proof. split; intros; unfold flush_db; by destruct (in_flight s k) as [[h n]|]. Qed.

Lemma map_dbs_lookup f w k : dbs (map_dbs f w) !! k = f k <$> dbs w !! k.
Proof. cbn. rewrite map_lookup_imap. by destruct (dbs w !! k). Qed.

Lemma map_dbs_insert f w k d :
  map_dbs f (set_dbs (<[k := d]> (dbs w)) w) = set_dbs (<[k := f k d]> (dbs (map_dbs f w))) (map_dbs f w).
Proof.
  unfold map_dbs, set_dbs. cbn. f_equal. apply map_eq. intros i. rewrite map_lookup_imap.
  destruct (decide (i = k)) as [->|Hne]; [by rewrite !lookup_insert_eq|].
  by rewrite !lookup_insert_ne, map_lookup_imap.
Qed.

Lemma alloc_loop_map f fuel l c w o w' :
  harmless f -> alloc_loop fuel l c w = (o, w') ->
  alloc_loop fuel l c (map_dbs f w) = (o, map_dbs f w').
Proof.
  intros Hf. revert l. induction fuel as [|fuel IH]; intros l; cbn [alloc_loop]; [by intros [= <- <-]|].
  unfold get_db, upd_db. munfold. rewrite map_dbs_lookup.
  destruct (dbs w !! l) as [d|] eqn:Ed; cbn [fmap option_fmap option_map]; [|by intros [= <- <-]].
  rewrite (hl_parent f Hf). destruct (parent d) as [p|]; [apply IH|].
  rewrite map_dbs_lookup, Ed. cbn [fmap option_fmap option_map]. intros [= <- <-].
  by rewrite (hl_next f Hf), map_dbs_insert, (hl_set_next f Hf).
Qed.

Lemma upd_db_map f l g w o w' :
  (forall d, f l (g d) = g (f l d)) -> upd_db l g w = (o, w') ->
  upd_db l g (map_dbs f w) = (o, map_dbs f w').
Proof.
  intros Hg. unfold upd_db. rewrite map_dbs_lookup.
  destruct (dbs w !! l) as [d|]; cbn [fmap option_fmap option_map]; intros [= <- <-]; [|done].
  by rewrite map_dbs_insert, Hg.
Qed.

Lemma getPkgTx_map f l b n h w o w' :
  harmless f -> getPkgTx l b n h w = (o, w') ->
  getPkgTx l b n h (map_dbs f w) = (o, map_dbs f w').
Proof.
  intros Hf. unfold getPkgTx, new_pkg. munfold. cbn [pkgCache map_dbs set_dbs].
  destruct (pkgCache w !! h); [by intros [= <- <-]|].
  destruct (stored_pkg l b n h) as [pkg|e|]; [|by intros [= <- <-]..].
  set (w1 := {| dbs := dbs w; db_next := db_next w |}). intros E0.
  match goal with |- context [get_db l ?x] => change x with (map_dbs f w1) end. revert E0.
  unfold get_db. rewrite map_dbs_lookup.
  destruct (dbs w1 !! l) as [d|]; cbn [fmap option_fmap option_map]; [|by intros [= <- <-]].
  assert (tree_of l (f l d) = tree_of l d) as -> by (unfold tree_of; by rewrite (hl_parent f Hf)).
  destruct (insert_item _ _ w1) as [o1 w2] eqn:E. unfold insert_item in E.
  apply (upd_db_map f) in E; [|intros d0; by rewrite (hl_set_ino f Hf), (hl_ino f Hf)].
  change (pkg_next (map_dbs f w)) with (pkg_next w). unfold insert_item. rewrite E. by destruct o1; intros [= <- <-].
Qed.

(** ** The locks *)

Definition holds (th : ithread) : Prop :=
  match it_pc th with ILocked | IAlloc _ => True | _ => False end.

(** The holder of a lock is the one lookup of the database inside [pkgIno]'s
    critical section. *)
Definition lock_inv (s : ist) : Prop := holders it_db holds (is_lk s) (is_th s).

Lemma goto_th t th pc w lk s t' :
  is_th s !! t = Some th ->
  is_th (goto t th pc w lk s) !! t' = if decide (t' = t) then Some (set_pc pc th) else is_th s !! t'.
Proof. apply moved_lookup. Qed.

(** A step that stays in or out of the critical section, enters it, or leaves it. *)
Lemma lock_inv_same t th pc w s :
  lock_inv s -> is_th s !! t = Some th -> (holds th <-> holds (set_pc pc th)) ->
  lock_inv (goto t th pc w (is_lk s) s).
Proof. intros I Ht. by apply (holders_same it_db holds _ _ t th). Qed.

Lemma lock_inv_take t th pc w s :
  lock_inv s -> is_th s !! t = Some th -> is_lk s !! it_db th = None -> holds (set_pc pc th) ->
  lock_inv (goto t th pc w (<[it_db th := t]> (is_lk s)) s).
Proof. intros I Ht. by apply (holders_take it_db holds _ _ t th). Qed.

Lemma lock_inv_drop t th pc w s :
  lock_inv s -> is_th s !! t = Some th -> holds th -> ~ holds (set_pc pc th) ->
  lock_inv (goto t th pc w (delete (it_db th) (is_lk s)) s).
Proof. intros I Ht. by apply (holders_drop it_db holds _ _ t th). Qed.

(** ** What a step does to the numbers in flight *)

Definition alloc_of (th : ithread) (pc : ipc) : option (bytes * Z) :=
  match pc with IAlloc n => Some (take 32 (it_val th), n) | _ => None end.

Lemma in_flight_other t th pc w lk s l :
  lock_inv s -> is_th s !! t = Some th -> l <> it_db th -> lk !! l = is_lk s !! l ->
  in_flight (goto t th pc w lk s) l = in_flight s l.
Proof.
  intros I Ht Hl Hk. unfold in_flight. cbn [is_lk goto]. rewrite Hk.
  destruct (is_lk s !! l) as [t'|] eqn:El; [|done]. cbn [mbind option_bind].
  rewrite (goto_th _ _ _ _ _ _ _ Ht). case_decide as Hd; [|done]. subst t'.
  apply I in El as (th' & E & <- & _). congruence.
Qed.

Lemma in_flight_held t th pc w s :
  is_th s !! t = Some th -> is_lk s !! it_db th = Some t ->
  in_flight s (it_db th) = alloc_of th (it_pc th) /\
  in_flight (goto t th pc w (is_lk s) s) (it_db th) = alloc_of th pc.
Proof.
  intros Ht Hl. unfold in_flight. cbn [is_lk goto]. rewrite Hl. cbn [mbind option_bind].
  rewrite (goto_th _ _ _ _ _ _ _ Ht), decide_True, Ht by done. cbn [mbind option_bind it_pc set_pc].
  by destruct pc, (it_pc th).
Qed.

(** Steps outside the critical section, and those that leave it before the
    allocation, change nothing in flight. *)
Lemma in_flight_out t th pc w s l :
  lock_inv s -> is_th s !! t = Some th -> ~ holds th -> ~ holds (set_pc pc th) ->
  in_flight (goto t th pc w (is_lk s) s) l = in_flight s l.
Proof.
  intros I Ht Ho Ho'. destruct (decide (l = it_db th)) as [->|Hl]; [|by apply in_flight_other].
  unfold in_flight. cbn [is_lk goto]. destruct (is_lk s !! it_db th) as [t'|] eqn:El; [|done].
  cbn [mbind option_bind]. rewrite (goto_th _ _ _ _ _ _ _ Ht). case_decide as Hd; [|done]. subst t'.
  apply I in El as (th' & E & _ & Hb). congruence.
Qed.

Lemma in_flight_free s l : is_lk s !! l = None -> in_flight s l = None.
Proof. intros Hl. unfold in_flight. by rewrite Hl. Qed.

Lemma map_dbs_ext f g w m :
  (forall k, f k <$> dbs w !! k = g k <$> m !! k) -> map_dbs f w = map_dbs g (set_dbs m w).
Proof.
  intros Hk. unfold map_dbs, set_dbs. cbn. f_equal. apply map_eq. intros k. specialize (Hk k).
  rewrite !map_lookup_imap. by destruct (dbs w !! k), (m !! k).
Qed.

Lemma set_dbs_id w : set_dbs (dbs w) w = w.
Proof. by destruct w. Qed.

Lemma flushed_same s s' :
  is_w s' = is_w s -> (forall l, in_flight s' l = in_flight s l) -> flushed s' = flushed s.
Proof.
  intros Hw Hf. unfold flushed. rewrite Hw, <-(set_dbs_id (is_w s)) at 1.
  symmetry. apply map_dbs_ext. intros k. apply option_fmap_ext. intros d. unfold flush_db. by rewrite Hf.
Qed.

Lemma alloc_loop_frame fuel l c w n w' :
  alloc_loop fuel l c w = (Ok n, w') ->
  w' = set_dbs (dbs w') w /\ forall k, pkgI <$> dbs w' !! k = pkgI <$> dbs w !! k.
Proof.
  revert l. induction fuel as [|fuel IH]; intros l; cbn [alloc_loop]; [done|].
  unfold get_db, upd_db. munfold. destruct (dbs w !! l) as [d|] eqn:Ed; [|done].
  destruct (parent d) as [p|]; [apply IH|]. rewrite Ed. intros [= <- <-]. split; [done|].
  intros k. cbn. destruct (decide (k = l)) as [->|Hne]; [by rewrite lookup_insert_eq, Ed|].
  by rewrite lookup_insert_ne.
Qed.

Lemma slice_hash v h : slice 0 32 v = Ok h -> take 32 v = h.
Proof. unfold slice. case_decide; [|done]. rewrite Nat.sub_0_r, drop_0. by intros [= <-]. Qed.

(** The allocation is where [pkgIno] takes effect. *)
Lemma alloc_is_pkgIno t th s d h cnt n w' :
  lock_inv s -> is_th s !! t = Some th -> it_pc th = ILocked ->
  dbs (is_w s) !! it_db th = Some d -> slice 0 32 (it_val th) = Ok h -> pkgI d !! h = None ->
  slice 32 40 (it_val th) = Ok cnt ->
  allocInodes (it_db th) (u64 (be_get cnt + 1)) (is_w s) = (Ok n, w') ->
  pkgIno (it_db th) (it_val th) (flushed s)
  = (Ok n, flushed (goto t th (IAlloc n) w' (is_lk s) s)).
Proof.
  intros I Ht Hpc Hd Hh Hn Hc Ha. set (l := it_db th) in *. set (s' := goto _ _ _ _ _ _).
  assert (is_lk s !! l = Some t) as Hl by (apply I; exists th; unfold holds; rewrite Hpc; done).
  destruct (in_flight_held t th (IAlloc n) w' s Ht Hl) as [F0 F1]. fold l s' in F0, F1.
  rewrite Hpc in F0. cbn [alloc_of] in F0, F1. rewrite (slice_hash _ _ Hh) in F1.
  destruct (alloc_loop_frame _ _ _ _ _ _ Ha) as [Hw' Hdom].
  unfold pkgIno, get_db. rewrite Hh. munfold. unfold flushed at 1. rewrite map_dbs_lookup, Hd.
  cbn [fmap option_fmap option_map].
  assert (flush_db s l d = d) as -> by (unfold flush_db; by rewrite F0).
  rewrite Hn, Hc. unfold allocInodes in *. unfold flushed at 1.
  rewrite (alloc_loop_map _ _ _ _ _ _ _ (flush_harmless s) Ha).
  unfold upd_db. rewrite map_dbs_lookup. specialize (Hdom l). rewrite Hd in Hdom.
  destruct (dbs w' !! l) as [d'|] eqn:Ed'; [|done]. cbn [fmap option_fmap option_map].
  f_equal. change (is_w s') with w'. unfold flushed. change (is_w s') with w'.
  unfold map_dbs at 1 3. unfold set_dbs at 1 2. unfold set_dbs. cbn. f_equal.
  apply map_eq. intros k. rewrite map_lookup_imap.
  destruct (decide (k = l)) as [->|Hne].
  - rewrite lookup_insert_eq, Ed'. cbn. unfold flush_db. by rewrite F0, F1.
  - rewrite lookup_insert_ne, map_lookup_imap by done. unfold flush_db. unfold s'.
    by rewrite (in_flight_other _ _ _ _ _ _ _ I Ht) by done.
Qed.

(** Storing the number changes nothing for whole calls. *)
Lemma store_is_silent t th s d h n :
  lock_inv s -> is_th s !! t = Some th -> it_pc th = IAlloc n ->
  dbs (is_w s) !! it_db th = Some d -> slice 0 32 (it_val th) = Ok h ->
  flushed (goto t th (IGot n) (set_dbs (<[it_db th := set_pkgI (<[h := n]> (pkgI d)) d]> (dbs (is_w s)))
                                 (is_w s)) (delete (it_db th) (is_lk s)) s) = flushed s.
Proof.
  intros I Ht Hpc Hd Hh. set (l := it_db th) in *. set (s' := goto _ _ _ _ _ _).
  assert (is_lk s !! l = Some t) as Hl by (apply I; exists th; unfold holds; rewrite Hpc; done).
  destruct (in_flight_held t th (IGot n) (is_w s) s Ht Hl) as [F0 _]. fold l in F0.
  rewrite Hpc in F0. cbn [alloc_of] in F0. rewrite (slice_hash _ _ Hh) in F0.
  unfold flushed. change (is_w s') with (set_dbs (<[l := set_pkgI (<[h := n]> (pkgI d)) d]> (dbs (is_w s))) (is_w s)).
  symmetry. apply map_dbs_ext. intros k. destruct (decide (k = l)) as [->|Hne].
  - rewrite lookup_insert_eq, Hd. cbn. unfold flush_db. rewrite F0, in_flight_free; [done|].
    cbn. apply lookup_delete_eq.
  - rewrite lookup_insert_ne by done. apply option_fmap_ext. intros d0. unfold flush_db, s'.
    rewrite (in_flight_other _ _ _ _ _ _ _ I Ht); [done|done|]. by rewrite lookup_delete_ne.
Qed.
End steps.

(** ** Every interleaving is a sequence of whole calls *)

(** The inodes a lookup may still have to allocate. *)
Definition need (v : bytes) : Z := be_get (take 8 (drop 32 v)) + 1.
Definition cost (th : ithread) : Z :=
  match it_pc th with IStart | IWait | ILocked => need (it_val th) | _ => 0 end.
Definition pot (l : list ithread) : Z := foldr (fun th a => cost th + a) 0 l.

(** The steps a lookup still has to take. *)
Definition work (th : ithread) : nat :=
  match it_pc th with
  | IStart => 6 | IWait => 5 | ILocked => 4 | IAlloc _ => 3 | IGot _ => 2 | IMissed _ => 1
  | IDone _ _ => 0
  end.
Definition is_done (th : ithread) : bool := match it_pc th with IDone _ _ => true | _ => false end.
Abbreviation all_work := (total work).

Lemma pot_insert t th th' l :
  l !! t = Some th -> pot (<[t := th']> l) = pot l - cost th + cost th'.
Proof.
  revert t. induction l as [|x l IH]; intros [|t] Ht; try done.
  - injection Ht as ->. change (cost th' + pot l = cost th + pot l - cost th + cost th'). lia.
  - specialize (IH t Ht).
    change (cost x + pot (<[t := th']> l) = cost x + pot l - cost th + cost th'). lia.
Qed.
Lemma cost_pos th : 0 <= cost th.
Proof. unfold cost, need. pose proof (be_get_range (take 8 (drop 32 (it_val th)))). destruct (it_pc th); lia. Qed.
Lemma pot_pos l : 0 <= pot l.
Proof. induction l as [|th l IH]; [done|].
  change (0 <= cost th + pot l). pose proof (cost_pos th). lia. Qed.
Lemma pot_elem t th l : l !! t = Some th -> cost th <= pot l.
Proof.
  intros Ht. pose proof (pot_insert t th (set_pc (IGot 0) th) l Ht) as E.
  pose proof (pot_pos (<[t := set_pc (IGot 0) th]> l)). cbn in E. lia.
Qed.

Section linearize.
Context `{BoltSpec, LlrbSpec, Ldcache, !Json, GoRange, GoSort, Ed25519Spec, Jwt, Squashfs, Remote, PkgJson}.

(** A value of the name index of the database. *)
Definition asks (w : World) (x : nat * bytes) : Prop :=
  exists d e, dbs w !! x.1 = Some d /\ db_wf (file d) /\ listed (file d) e /\ x.2 = p2p_value e.

Definition has_number (w : World) (th : ithread) (n : Z) : Prop :=
  exists d, dbs w !! it_db th = Some d /\ pkgI d !! take 32 (it_val th) = Some n.
Definition res_ok (w : World) (th : ithread) : Prop :=
  match it_pc th with
  | IAlloc n | IGot n | IMissed n => has_number w th n
  | IDone n p => has_number w th n /\ pkgCache w !! take 32 (it_val th) = Some p
  | _ => True
  end.

Lemma need_listed b e : listed b e -> need (p2p_value e) = e_inodes e + 1.
Proof.
  intros ((Hl & _ & Hi) & _). unfold need, p2p_value. rewrite drop_app_length' by done.
  rewrite take_app_length' by (by rewrite length_be_put).
  rewrite be_get_put_small; [done|]. split; [lia|]. change (256 ^ Z.of_nat 8) with two64. lia.
Qed.
Lemma take_p2p e : length (e_hash e) = 32%nat -> take 32 (p2p_value e) = e_hash e.
Proof. intros Hl. by apply take_app_length'. Qed.

Lemma res_ok_grows r dr w w' th : inv r dr w -> grows w w' -> res_ok w th -> res_ok w' th.
Proof.
  intros I G. assert (forall n, has_number w th n -> has_number w' th n) as Hn.
  { intros n (d & Hd & Hp). destruct (grows_db _ _ G _ _ Hd) as (d' & Hd' & _ & _ & _ & _ & _ & _ & K).
    exists d'. eauto. }
  unfold res_ok. destruct (it_pc th); [done|done|done|apply Hn..|].
  intros [Hh Hc]. split; [by apply Hn|]. destruct (inv_cache _ _ _ I _ _ Hc) as (st & _ & _ & _ & Hp & _).
  apply (grows_pkg _ _ G _ _ _ Hc Hp).
Qed.

(** [getPkgTx] for a hash that has a number. *)
Lemma getPkgTx_spec r dr w l d n e :
  inv r dr w -> dbs w !! l = Some d -> db_wf (file d) -> listed (file d) e ->
  pkgI d !! e_hash e = Some n ->
  exists p dr' w', getPkgTx l (file d) n (e_hash e) w = (Ok p, w') /\ inv r dr' w' /\ grows w w' /\
    pkgCache w' !! e_hash e = Some p /\ nextI dr' = nextI dr.
Proof.
  intros I Hd Hw Le Hn. destruct (pkgCache w !! e_hash e) as [p|] eqn:Ec.
  - exists p, dr, w. unfold getPkgTx. munfold. by rewrite Ec.
  - destruct (Le) as (We & Se & _).
    destruct (stored_pkg_listed l (file d) n e (listed_buckets _ _ Hw Le) We Se) as (p0 & Ep0 & _).
    destruct (stored_pkg_fields _ _ _ _ _ Ep0) as (_ & _ & Hh0 & _).
    exists (pkg_next w), (cached_root dr p0 w), (cached r dr p0 w).
    split; [by apply getPkgTx_new; [apply inv_shape|..]|]. split; [by eapply inv_cached|].
    split; [apply grows_cached; [done|by rewrite Hh0]|]. split; [|done].
    cbn. by rewrite Hh0, lookup_insert_eq.
Qed.

Section run.
Context (r : nat) (w0 : World) (ths : list (nat * bytes)) (Hasks : Forall (asks w0) ths).

(** What holds after any number of steps. *)
Record linv (s : ist) : Prop := {
  li_lock : lock_inv s;
  li_ths t th : is_th s !! t = Some th -> (it_db th, it_val th) ∈ ths;
  li_calls : rtc (call ths) w0 (flushed s);
  li_grows : grows w0 (flushed s);
  li_inv : exists dr, inv r dr (flushed s) /\ nextI dr + pot (is_th s) < two64;
  li_res t th : is_th s !! t = Some th -> res_ok (flushed s) th;
}.

Lemma asks_now s t th :
  linv s -> is_th s !! t = Some th ->
  exists d e, dbs (is_w s) !! it_db th = Some d /\
    dbs (flushed s) !! it_db th = Some (flush_db s (it_db th) d) /\
    file (flush_db s (it_db th) d) = file d /\
    db_wf (file d) /\ listed (file d) e /\ it_val th = p2p_value e.
Proof.
  intros L Ht. pose proof (li_ths _ L _ _ Ht) as Hin. rewrite Forall_forall in Hasks.
  destruct (Hasks _ Hin) as (d0 & e & Hd0 & Hw & Le & Hv). cbn in Hd0, Hv.
  destruct (grows_db _ _ (li_grows _ L) _ _ Hd0) as (d' & Hd' & Hf & _). pose proof Hd' as Hd2.
  unfold flushed in Hd'. rewrite map_dbs_lookup in Hd'.
  destruct (dbs (is_w s) !! it_db th) as [d|] eqn:Ed; [|done]. injection Hd' as <-.
  pose proof (hl_file _ (flush_harmless s) (it_db th) d) as Hff. rewrite Hff in Hf.
  rewrite <-Hf in Hw, Le. by exists d, e.
Qed.

(** One step, given what it does to the state of whole calls. *)
Lemma linv_goto t th pc w lk s dr' (s' := goto t th pc w lk s) :
  linv s -> is_th s !! t = Some th -> lock_inv s' ->
  rtc (call ths) (flushed s) (flushed s') -> grows (flushed s) (flushed s') ->
  inv r dr' (flushed s') ->
  (forall dr, inv r dr (flushed s) -> nextI dr' + cost (set_pc pc th) <= nextI dr + cost th) ->
  res_ok (flushed s') (set_pc pc th) -> linv s'.
Proof.
  intros L Ht Hl Hc Hg Hi Hn Hr. destruct (li_inv _ L) as (dr & I & Hpot). split.
  - done.
  - intros t' th'. unfold s'. rewrite (goto_th _ _ _ _ _ _ _ Ht).
    case_decide; [intros [= <-]; apply (li_ths _ L t th Ht)|apply (li_ths _ L)].
  - etrans; [apply (li_calls _ L)|done].
  - etrans; [apply (li_grows _ L)|done].
  - exists dr'. split; [done|]. unfold s'. cbn [goto is_th]. rewrite (pot_insert _ _ _ _ Ht).
    specialize (Hn dr I). lia.
  - intros t' th'. unfold s' at 1. rewrite (goto_th _ _ _ _ _ _ _ Ht).
    case_decide; [by intros [= <-]|]. intros Ht'. by apply (res_ok_grows r dr (flushed s)), (li_res _ L t').
Qed.

(** A step that whole calls do not see. *)
Lemma linv_silent t th pc w lk s (s' := goto t th pc w lk s) :
  linv s -> is_th s !! t = Some th -> lock_inv s' -> flushed s' = flushed s ->
  cost (set_pc pc th) <= cost th -> res_ok (flushed s) (set_pc pc th) -> linv s'.
Proof.
  intros L Ht Hl Hf Hc Hr. destruct (li_inv _ L) as (dr & I & _).
  apply (linv_goto t th pc w lk s dr); fold s'; rewrite ?Hf; try done.
  intros dr2 I2. pose proof (inv_root _ _ _ I). pose proof (inv_root _ _ _ I2).
  assert (dr2 = dr) as -> by congruence. lia.
Qed.
(** *** The steps *)

(** The reads that take no write lock. *)
Lemma step_read t th pc s :
  linv s -> is_th s !! t = Some th -> ~ holds th -> ~ holds (set_pc pc th) ->
  cost (set_pc pc th) <= cost th -> res_ok (flushed s) (set_pc pc th) ->
  linv (goto t th pc (is_w s) (is_lk s) s).
Proof.
  intros L Ht H1' H2' Hc Hr. apply linv_silent; try done.
  - by apply lock_inv_same; [apply L| |split].
  - apply flushed_same; [done|]. intros l. apply in_flight_out; [apply L|done..].
Qed.

Lemma step_take t th s :
  linv s -> is_th s !! t = Some th -> it_pc th = IWait -> is_lk s !! it_db th = None ->
  linv (goto t th ILocked (is_w s) (<[it_db th := t]> (is_lk s)) s).
Proof.
  intros L Ht Hpc Hl. apply linv_silent; try done.
  - by apply lock_inv_take; [apply L|..].
  - apply flushed_same; [done|]. intros l. destruct (decide (l = it_db th)) as [->|Hne].
    + rewrite (in_flight_free s) by done. unfold in_flight. cbn [is_lk goto].
      rewrite lookup_insert_eq. cbn [mbind option_bind].
      by rewrite (goto_th _ _ _ _ _ _ _ Ht), decide_True.
    + apply in_flight_other; [apply L|done|done|]. by apply lookup_insert_ne.
  - unfold cost. by rewrite Hpc.
Qed.

(** The holder of a lock that has not allocated has nothing in flight. *)
Lemma locked_flight s t th :
  linv s -> is_th s !! t = Some th -> it_pc th = ILocked -> in_flight s (it_db th) = None.
Proof.
  intros L Ht Hpc. assert (is_lk s !! it_db th = Some t) as Hl
    by (apply L; exists th; unfold holds; by rewrite Hpc).
  destruct (in_flight_held t th ILocked (is_w s) s Ht Hl) as [-> _]. by rewrite Hpc.
Qed.

Lemma step_leave t th n s :
  linv s -> is_th s !! t = Some th -> it_pc th = ILocked -> has_number (flushed s) th n ->
  linv (goto t th (IGot n) (is_w s) (delete (it_db th) (is_lk s)) s).
Proof.
  intros L Ht Hpc Hn. apply linv_silent; try done.
  - apply lock_inv_drop; [apply L|done|unfold holds; by rewrite Hpc|by intros []].
  - apply flushed_same; [done|]. intros l. destruct (decide (l = it_db th)) as [->|Hne].
    + rewrite (locked_flight _ _ _ L Ht Hpc). apply in_flight_free. apply lookup_delete_eq.
    + apply in_flight_other; [apply L|done|done|]. by apply lookup_delete_ne.
  - unfold cost at 2. rewrite Hpc. exact (cost_pos (set_pc IStart th)).
Qed.

Lemma step_alloc t th s d h n cnt w' :
  linv s -> is_th s !! t = Some th -> it_pc th = ILocked ->
  dbs (is_w s) !! it_db th = Some d -> slice 0 32 (it_val th) = Ok h -> pkgI d !! h = None ->
  slice 32 40 (it_val th) = Ok cnt ->
  allocInodes (it_db th) (u64 (be_get cnt + 1)) (is_w s) = (Ok n, w') ->
  linv (goto t th (IAlloc n) w' (is_lk s) s).
Proof.
  intros L Ht Hpc Hd Hh Hn Hc Ha. destruct (li_inv _ L) as (dr & I & Hpot).
  pose proof (alloc_is_pkgIno t th s d h cnt n w' (li_lock _ L) Ht Hpc Hd Hh Hn Hc Ha) as E.
  set (s' := goto _ _ _ _ _ _) in *.
  destruct (asks_now s t th L Ht) as (d1 & e & Hd1 & Hfd & Hf & Hw & Le & Hv).
  assert (d1 = d) as -> by congruence. destruct (Le) as (We & Se & _).
  assert (cost th = e_inodes e + 1) as Hcost by (unfold cost; rewrite Hpc, Hv; by eapply need_listed).
  pose proof (pot_elem _ _ _ Ht) as Hle.
  destruct (pkgIno_spec r dr (flushed s) (it_db th) _ e I Hfd We) as
    (m & dr1 & w1 & d1 & E1 & I1 & G1 & _ & D1 & _ & N1 & _ & _ & _ & _ & B1).
  { by rewrite Hf. } { unfold fits. lia. }
  rewrite <-Hv, E in E1. injection E1 as <- <-.
  apply (linv_goto t th (IAlloc n) w' (is_lk s) s dr1); fold s'; try done.
  - apply lock_inv_same; [apply L|done|]. unfold holds. by rewrite Hpc.
  - apply rtc_once. apply (call_pkgIno _ _ _ (it_db th) (it_val th) n); [|done]. by apply (li_ths _ L t).
  - intros dr2 I2. pose proof (inv_root _ _ _ I). pose proof (inv_root _ _ _ I2).
    assert (dr2 = dr) as -> by congruence. rewrite Hcost. cbn. lia.
  - exists d1. split; [done|]. cbn [it_val set_pc]. rewrite Hv, take_p2p by apply We. done.
Qed.

Lemma step_store t th s d h n :
  linv s -> is_th s !! t = Some th -> it_pc th = IAlloc n ->
  dbs (is_w s) !! it_db th = Some d -> slice 0 32 (it_val th) = Ok h ->
  linv (goto t th (IGot n) (set_dbs (<[it_db th := set_pkgI (<[h := n]> (pkgI d)) d]> (dbs (is_w s)))
                             (is_w s)) (delete (it_db th) (is_lk s)) s).
Proof.
  intros L Ht Hpc Hd Hh. apply linv_silent; try done.
  - apply lock_inv_drop; [apply L|done|unfold holds; by rewrite Hpc|by intros []].
  - by apply store_is_silent; [apply L|..].
  - unfold cost. by rewrite Hpc.
  - pose proof (li_res _ L _ _ Ht) as Hr. unfold res_ok in Hr. by rewrite Hpc in Hr.
Qed.

Lemma step_miss t th s d h n p w' :
  linv s -> is_th s !! t = Some th -> it_pc th = IMissed n ->
  dbs (is_w s) !! it_db th = Some d -> slice 0 32 (it_val th) = Ok h ->
  getPkgTx (it_db th) (file d) n h (is_w s) = (Ok p, w') ->
  linv (goto t th (IDone n p) w' (is_lk s) s).
Proof.
  intros L Ht Hpc Hd Hh Hg. destruct (li_inv _ L) as (dr & I & _).
  pose proof (getPkgTx_map _ _ _ _ _ _ _ _ (flush_harmless s) Hg) as E. fold (flushed s) in E.
  set (s' := goto t th (IDone n p) w' (is_lk s) s) in *.
  assert (map_dbs (flush_db s) w' = flushed s') as Ef.
  { unfold flushed. change (is_w s') with w'. rewrite <-(set_dbs_id w') at 2. apply map_dbs_ext.
    intros k. apply option_fmap_ext. intros d0. unfold flush_db, s'.
    rewrite in_flight_out; [done|apply L|done|unfold holds; rewrite Hpc; by intros []|by intros []]. }
  rewrite Ef in E. destruct (asks_now s t th L Ht) as (d1 & e & Hd1 & Hfd & Hf & Hw & Le & Hv).
  assert (d1 = d) as -> by congruence. pose proof (li_res _ L _ _ Ht) as Hr.
  unfold res_ok in Hr. rewrite Hpc in Hr. pose proof Hr as (d2 & Hd2 & Hn2).
  rewrite Hfd in Hd2. injection Hd2 as <-. rewrite (slice_hash _ _ Hh) in Hn2.
  assert (h = e_hash e) as ->. { rewrite <-(slice_hash _ _ Hh), Hv. apply take_p2p, Le. }
  destruct (getPkgTx_spec r dr (flushed s) (it_db th) _ n e I Hfd) as (q & dr' & w2 & E2 & I2 & G2 & C2 & B2).
  { by rewrite Hf. } { by rewrite Hf. } { done. }
  rewrite Hf, E in E2. injection E2 as <- <-.
  apply (linv_goto t th (IDone n p) w' (is_lk s) s dr'); fold s'; try done.
  - apply lock_inv_same; [apply L|done|]. unfold holds. by rewrite Hpc.
  - apply rtc_once. apply (call_getPkgTx _ _ _ (it_db th) (it_val th) (flush_db s (it_db th) d) n (e_hash e) p);
      [by apply (li_ths _ L t)|done..|]. by rewrite Hf.
  - intros dr2 I3. pose proof (inv_root _ _ _ I). pose proof (inv_root _ _ _ I3).
    assert (dr2 = dr) as -> by congruence. pose proof (cost_pos th). cbn. lia.
  - split; [|cbn [it_val set_pc]; by rewrite (slice_hash _ _ Hh)].
    by apply (res_ok_grows r dr (flushed s) _ (set_pc (IMissed n) th)).
Qed.
(** *** Any step *)

(** A number read while nothing is in flight is that of whole calls. *)
Lemma number_seen s th d n :
  dbs (is_w s) !! it_db th = Some d -> in_flight s (it_db th) = None ->
  pkgI d !! take 32 (it_val th) = Some n -> has_number (flushed s) th n.
Proof.
  intros Hd Hi Hn. exists d. split; [|done]. unfold flushed. rewrite map_dbs_lookup, Hd. cbn.
  unfold flush_db. by rewrite Hi.
Qed.

Lemma istep_linv t s s' : linv s -> istep t s = Some s' -> linv s'.
Proof.
  intros L. unfold istep. destruct (is_th s !! t) as [th|] eqn:Ht; [|done].
  destruct (asks_now s t th L Ht) as (d & e & Hd & _ & _ & _ & ((Hl & _) & _) & Hv).
  cbn [mbind option_bind]. rewrite Hd. cbn [mbind option_bind].
  assert (slice 0 32 (it_val th) = Ok (e_hash e)) as Hh by (rewrite Hv; by apply hash_slice).
  rewrite Hh. pose proof (slice_hash _ _ Hh) as Hk. pose proof (li_res _ L _ _ Ht) as Hr.
  pose proof (cost_pos th) as Hcp. unfold res_ok in Hr. destruct (it_pc th) as [| | |n|n|n|n p] eqn:Hpc.
  - destruct (is_lk s !! it_db th) eqn:El; [done|]. intros [= <-].
    assert (~ holds th) by (unfold holds; rewrite Hpc; by intros []).
    destruct (pkgI d !! e_hash e) as [n|] eqn:En; apply step_read; try done; try (by intros []).
    + apply (number_seen s th d); [done|by apply in_flight_free|by rewrite Hk].
    + unfold cost. by rewrite Hpc.
  - destruct (is_lk s !! it_db th) eqn:El; [done|]. intros [= <-]. by apply step_take.
  - destruct (pkgI d !! e_hash e) as [n|] eqn:En.
    + intros [= <-]. apply step_leave; [done..|].
      apply (number_seen s th d); [done|by eapply locked_flight|by rewrite Hk].
    + destruct (slice 32 40 (it_val th)) as [cnt| |] eqn:Ec; [|done..].
      destruct (allocInodes _ _ (is_w s)) as [[n| |] w'] eqn:Ea; [|done..]. intros [= <-].
      by eapply step_alloc.
  - intros [= <-]. by apply step_store.
  - intros [= <-]. assert (~ holds th) by (unfold holds; rewrite Hpc; by intros []).
    destruct (pkgCache (is_w s) !! e_hash e) as [p|] eqn:Ep; apply step_read; try done; try (by intros []).
    split; [done|]. cbn [it_val set_pc]. by rewrite Hk.
  - destruct (getPkgTx _ _ _ _ (is_w s)) as [[p| |] w'] eqn:Eg; [|done..]. intros [= <-].
    by eapply step_miss.
  - done.
Qed.

Lemma isteps_linv s s' : isteps s s' -> linv s -> linv s'.
Proof. induction 1 as [|s1 s2 s3 [t Ht] _ IH]; [done|]. intros L. apply IH. by eapply istep_linv. Qed.

(** *** The start and the end *)

Lemma flushed_quiet s : (forall l, in_flight s l = None) -> flushed s = is_w s.
Proof.
  intros Hq. unfold flushed. transitivity (map_dbs (fun _ d => d) (is_w s)).
  - rewrite <-(set_dbs_id (is_w s)) at 2. apply map_dbs_ext. intros k. apply option_fmap_ext.
    intros d. unfold flush_db. by rewrite Hq.
  - unfold map_dbs, set_dbs. destruct (is_w s) as [m ???????]. cbn. f_equal.
    apply map_eq. intros k. rewrite map_lookup_imap. by destruct (m !! k).
Qed.

Lemma linv_start dr :
  inv r dr w0 -> nextI dr + foldr (fun x a => need x.2 + a) 0 ths < two64 -> linv (istart w0 ths).
Proof.
  intros I Hn. assert (flushed (istart w0 ths) = w0) as E by by apply flushed_quiet.
  assert (forall t th, is_th (istart w0 ths) !! t = Some th ->
    it_pc th = IStart /\ (it_db th, it_val th) ∈ ths) as Hth.
  { intros t th. cbn. rewrite list_lookup_fmap, fmap_Some. intros ([l v] & Hx & ->).
    split; [done|]. by eapply list_elem_of_lookup_2. }
  split.
  - intros l t. cbn [is_lk istart]. rewrite lookup_empty. split; [done|].
    intros (th & [Hpc _]%Hth & _ & Hb). unfold holds in Hb. by rewrite Hpc in Hb.
  - intros t th Ht. by apply Hth in Ht as [_ ?].
  - by rewrite E.
  - by rewrite E.
  - exists dr. rewrite E. split; [done|]. revert Hn. cbn [is_th istart].
    assert (forall l : list (nat * bytes), pot ((fun x => {| it_db := x.1; it_val := x.2; it_pc := IStart |}) <$> l)
      = foldr (fun x a => need x.2 + a) 0 l) as Hp; [|by rewrite Hp].
    induction l as [|x l IH]; [done|]. cbn [fmap list_fmap foldr]. rewrite <-IH. done.
  - intros t th [Hpc _]%Hth. unfold res_ok. by rewrite Hpc.
Qed.
End run.
Lemma done_quiet s :
  lock_inv s -> Forall (fun th => is_done th = true) (is_th s) -> flushed s = is_w s.
Proof.
  intros L Hd. apply flushed_quiet. intros l. apply in_flight_free.
  destruct (is_lk s !! l) as [t|] eqn:El; [|done]. apply L in El as (th & Ht & _ & Hb).
  rewrite Forall_lookup in Hd. specialize (Hd _ _ Ht). unfold is_done in Hd. unfold holds in Hb.
  by destruct (it_pc th).
Qed.

(** Two numbers that whole calls see are of the same package or of disjoint ranges. *)
Lemma numbers_apart r w0 ths s t th n t' th' n' :
  Forall (asks w0) ths -> linv r w0 ths s -> is_th s !! t = Some th -> is_th s !! t' = Some th' ->
  has_number (flushed s) th n -> has_number (flushed s) th' n' ->
  it_db th = it_db th' /\ take 32 (it_val th) = take 32 (it_val th') /\ n = n' \/
  n + need (it_val th) <= n' \/ n' + need (it_val th') <= n.
Proof.
  intros Ha L Ht Ht' (d & Hd & Hn) (d' & Hd' & Hn'). destruct (li_inv _ _ _ _ L) as (dr & I & _).
  assert (forall t th d, is_th s !! t = Some th -> dbs (flushed s) !! it_db th = Some d ->
    isz (file d) (take 32 (it_val th)) = need (it_val th)) as Hz.
  { clear -Ha L. intros t th d Ht Hd.
    destruct (asks_now r w0 ths Ha s t th L Ht) as (d0 & e & _ & Hfd & Hf & _ & Le & Hv).
    rewrite Hd in Hfd. injection Hfd as ->. destruct (Le) as (We & Se & _).
    rewrite Hf, Hv, take_p2p by apply We. rewrite isz_listed by done. symmetry. by eapply need_listed. }
  destruct (inv_disjoint _ _ _ I _ _ _ _ _ _ _ _ Hd Hn Hd' Hn') as [[El Eh]|Hdis].
  - left. split; [done|]. split; [done|]. rewrite El in Hd. rewrite Eh in Hn. congruence.
  - right. by rewrite (Hz t th d Ht Hd), (Hz t' th' d' Ht' Hd') in Hdis.
Qed.

(** C9: concurrent lookups are linearizable.  Any interleaving of the critical
    sections of any number of lookups, in any of the databases, is a sequence
    of whole calls of [pkgIno] and [getPkgTx] (a number that is allocated and
    not yet stored counts as stored); it keeps the invariant and what was
    assigned before.  A finished lookup has the number its database stores and
    the package of the cache; two lookups of one package in one database get
    the same number and package, all others disjoint ranges.  Once all have
    finished, the state is that of the sequence of calls. *)
Theorem lookups_linearize r dr w0 ths s :
  inv r dr w0 -> Forall (asks w0) ths ->
  nextI dr + foldr (fun x a => need x.2 + a) 0 ths < two64 ->
  isteps (istart w0 ths) s ->
  rtc (call ths) w0 (flushed s) /\
  (exists dr', inv r dr' (flushed s)) /\ grows w0 (flushed s) /\
  (forall t th n p, is_th s !! t = Some th -> it_pc th = IDone n p ->
     has_number (flushed s) th n /\ pkgCache (is_w s) !! take 32 (it_val th) = Some p) /\
  (forall t th n p t' th' n' p',
     is_th s !! t = Some th -> it_pc th = IDone n p ->
     is_th s !! t' = Some th' -> it_pc th' = IDone n' p' ->
     it_db th = it_db th' /\ take 32 (it_val th) = take 32 (it_val th') /\ n = n' \/
     n + need (it_val th) <= n' \/ n' + need (it_val th') <= n) /\
  (Forall (fun th => is_done th = true) (is_th s) -> is_w s = flushed s).
Proof.
  intros I Ha Hn Hs. pose proof (isteps_linv r w0 ths Ha _ _ Hs (linv_start r w0 ths dr I Hn)) as L.
  assert (forall t th n p, is_th s !! t = Some th -> it_pc th = IDone n p ->
    has_number (flushed s) th n /\ pkgCache (is_w s) !! take 32 (it_val th) = Some p) as Hr.
  { intros t th n p Ht Hpc. pose proof (li_res _ _ _ _ L _ _ Ht) as Hr. unfold res_ok in Hr.
    by rewrite Hpc in Hr. }
  destruct (li_inv _ _ _ _ L) as (dr' & I' & _).
  split; [apply L|]. split; [by exists dr'|]. split; [apply L|]. split; [done|]. split.
  - intros t th n p t' th' n' p' Ht Hpc Ht' Hpc'.
    by eapply (numbers_apart r w0 ths s t th n t' th' n'); [done|done|done|done|eapply Hr..].
  - intros Hd. symmetry. apply done_quiet; [apply L|done].
Qed.

(** ** No lookup waits forever *)

Lemma istep_work t s s' : istep t s = Some s' -> (all_work (is_th s') < all_work (is_th s))%nat.
Proof.
  unfold istep. destruct (is_th s !! t) as [th|] eqn:Ht; [|done]. cbn [mbind option_bind].
  assert (forall pc w lk, (work (set_pc pc th) < work th)%nat ->
    (all_work (is_th (goto t th pc w lk s)) < all_work (is_th s))%nat) as Hg.
  { intros pc w lk Hw. cbn [goto is_th]. pose proof (total_insert work _ t th (set_pc pc th) Ht). lia. }
  destruct (dbs (is_w s) !! it_db th) as [d|]; [|done]. cbn [mbind option_bind].
  destruct (slice 0 32 (it_val th)) as [h| |]; [|done..].
  unfold work in Hg at 2. destruct (it_pc th) as [| | |n|n|n|n p]; [..|done].
  - destruct (is_lk s !! it_db th); [done|]. intros [= <-]. apply Hg.
    destruct (pkgI d !! h); cbn; lia.
  - destruct (is_lk s !! it_db th); [done|]. intros [= <-]. apply Hg. cbn. lia.
  - destruct (pkgI d !! h); [intros [= <-]; apply Hg; cbn; lia|].
    destruct (slice 32 40 (it_val th)); [|done..].
    destruct (allocInodes _ _ (is_w s)) as [[] ]; [|done..]. intros [= <-]. apply Hg. cbn. lia.
  - intros [= <-]. apply Hg. cbn. lia.
  - intros [= <-]. apply Hg. destruct (pkgCache (is_w s) !! h); cbn; lia.
  - destruct (getPkgTx _ _ _ _ (is_w s)) as [[] ]; [|done..]. intros [= <-]. apply Hg. cbn. lia.
Qed.

(** A lookup that is not at one of the two places that wait can step. *)
Definition waits (th : ithread) : bool := match it_pc th with IStart | IWait => true | _ => false end.

Lemma istep_ready r w0 ths s t th :
  Forall (asks w0) ths -> linv r w0 ths s -> is_th s !! t = Some th -> is_done th = false ->
  (waits th = true -> is_lk s !! it_db th = None) -> is_Some (istep t s).
Proof.
  intros Ha L Ht Hd Hw. destruct (asks_now r w0 ths Ha s t th L Ht) as (d & e & Hdb & Hfd & Hf & Hwf & Le & Hv).
  destruct (li_inv _ _ _ _ L) as (dr & I & Hpot). destruct (Le) as ((Hl & _) & _).
  unfold istep. rewrite Ht. cbn [mbind option_bind]. rewrite Hdb. cbn [mbind option_bind].
  assert (slice 0 32 (it_val th) = Ok (e_hash e)) as Hh by (rewrite Hv; by apply hash_slice).
  rewrite Hh. pose proof (li_res _ _ _ _ L _ _ Ht) as Hr. unfold res_ok in Hr.
  unfold is_done in Hd. unfold waits in Hw.
  destruct (it_pc th) as [| | |n|n|n|n p] eqn:Hpc; [..|done].
  - rewrite Hw; by eauto.
  - rewrite Hw; by eauto.
  - destruct (pkgI d !! e_hash e); [by eauto|].
    assert (exists cnt, slice 32 40 (it_val th) = Ok cnt) as [cnt ->].
    { unfold slice. rewrite decide_True; [by eauto|]. rewrite Hv, length_p2p by done. lia. }
    destruct (allocInodes (it_db th) (u64 (be_get cnt + 1)) (is_w s)) as [o w'] eqn:Ea.
    pose proof (alloc_loop_map _ _ _ _ _ _ _ (flush_harmless s) Ea) as Em.
    pose proof (allocInodes_spec r dr _ _ _ (u64 (be_get cnt + 1)) (inv_shape _ _ _ I) Hfd) as Es.
    unfold allocInodes in Es. unfold flushed in Es. rewrite Em in Es. injection Es as -> _. by eauto.
  - by eauto.
  - by eauto.
  - destruct Hr as (d2 & Hd2 & Hn2). rewrite Hfd in Hd2. injection Hd2 as <-.
    rewrite (slice_hash _ _ Hh) in Hn2.
    destruct (getPkgTx (it_db th) (file d) n (e_hash e) (is_w s)) as [o w'] eqn:Eg.
    pose proof (getPkgTx_map _ _ _ _ _ _ _ _ (flush_harmless s) Eg) as Em.
    destruct (getPkgTx_spec r dr (flushed s) (it_db th) _ n e I Hfd) as (q & dr' & w2 & E2 & _).
    { by rewrite Hf. } { by rewrite Hf. } { done. }
    rewrite Hf in E2. unfold flushed in E2. rewrite Em in E2. injection E2 as -> _. by eauto.
Qed.

Lemma isteps_bound k s s' :
  nsteps (fun s s' => exists t, istep t s = Some s') k s s' ->
  (all_work (is_th s') + k <= all_work (is_th s))%nat.
Proof. apply (nsteps_total is_th). intros s1 s2 [t Ht]. by apply istep_work in Ht. Qed.

(** C10: every lookup finishes.  Whatever the schedule, there is a lookup that can
    take a step until all have finished, and a run of n lookups has at most 6n
    steps: the locks cannot deadlock and no lookup fails. *)
Theorem lookups_finish r dr w0 ths :
  inv r dr w0 -> Forall (asks w0) ths ->
  nextI dr + foldr (fun x a => need x.2 + a) 0 ths < two64 ->
  (forall s, isteps (istart w0 ths) s ->
     Forall (fun th => is_done th = true) (is_th s) \/ exists t s', istep t s = Some s') /\
  (forall k s, nsteps (fun s s' => exists t, istep t s = Some s') k (istart w0 ths) s ->
     (k <= 6 * length ths)%nat).
Proof.
  intros I Ha Hn. split.
  - intros s Hs. pose proof (isteps_linv r w0 ths Ha _ _ Hs (linv_start r w0 ths dr I Hn)) as L.
    destruct (decide (Forall (fun th => is_done th = true) (is_th s))) as [Hd|Hd]; [by left|right].
    apply not_Forall_Exists in Hd; [|intros ?; apply _].
    apply Exists_exists in Hd as (th & [t Ht]%list_elem_of_lookup_1 & Hd%not_true_is_false).
    destruct (is_lk s !! it_db th) as [t2|] eqn:El.
    + pose proof El as (th2 & Ht2 & _ & Hb)%(li_lock _ _ _ _ L). exists t2.
      apply (istep_ready r w0 ths s t2 th2); try done; unfold is_done, waits, holds in *;
        by destruct (it_pc th2).
    + exists t. by apply (istep_ready r w0 ths s t th).
  - intros k s Hk%isteps_bound. transitivity (all_work (is_th (istart w0 ths))); [lia|].
    rewrite <-(length_fmap (fun x => {| it_db := x.1; it_val := x.2; it_pc := IStart |}) ths).
    apply total_bound, Forall_fmap, Forall_true. intros x. cbn. lia.
Qed.
End linearize.

(** ** Three lookups, two of them of one package *)

Module SampleThreads.
Import SampleWorld.
#[local] Existing Instance MapBolt.ops.
#[local] Existing Instance MapBolt.spec.
#[local] Existing Instance Sample.list_llrb.
#[local] Existing Instance Sample.list_llrb_spec.
#[local] Existing Instance SampleLd.ldcache.
#[local] Existing Instance SampleLd.json.
#[local] Existing Instance SampleLd.range.
#[local] Existing Instance Toy.toy_ed25519.
#[local] Existing Instance Toy.toy_ed25519_spec.
#[local] Existing Instance SampleUpd.jwt.
#[local] Existing Instance SamplePkg.squashfs.
#[local] Existing Instance SamplePkg.json.
#[local] Existing Instance SamplePkg.remote.

Definition lookups : list (nat * bytes) :=
  [(0%nat, p2p_value e2); (0%nat, p2p_value e2); (1%nat, p2p_value e1)].

(** Both lookups of the package miss its number, and both miss the package. *)
Definition schedule : list nat := [0; 1; 2; 0; 2; 0; 2; 0; 2; 1; 1; 0; 1; 0; 1; 2; 2]%nat.

Lemma scheduled :
  option_map (fun s => it_pc <$> is_th s) (exec istep schedule (istart world lookups))
  = Some [IDone 1000 0; IDone 1000 0; IDone 1004 1].
Proof. vm_compute. reflexivity. Qed.

Lemma lookups_ask : Forall (asks world) lookups.
Proof.
  destruct sample_wf as (Hw & _ & E & S1 & S2).
  assert (forall e, e = e1 \/ e = e2 -> listed b2 e) as Hl.
  { clear E. intros e [->| ->].
    - split; [vm_compute; intuition congruence|]. split; [exact S1|]. vm_compute. reflexivity.
    - split; [vm_compute; intuition congruence|]. split; [exact S2|]. vm_compute. reflexivity. }
  unfold lookups. rewrite !Forall_cons. split; [|split; [|split; [|apply Forall_nil_2]]].
  - exists (the_db None), e2. split; [reflexivity|]. split; [exact Hw|]. split; [apply Hl; auto|reflexivity].
  - exists (the_db None), e2. split; [reflexivity|]. split; [exact Hw|]. split; [apply Hl; auto|reflexivity].
  - exists (the_db (Some 0%nat)), e1. split; [reflexivity|]. split; [exact Hw|]. split; [apply Hl; auto|reflexivity].
Qed.

Lemma lookups_fit : nextI (the_db None) + foldr (fun x a => need x.2 + a) 0 lookups < two64.
Proof. vm_compute. reflexivity. Qed.

Lemma lookups_linearize_witness :
  exists s, isteps (istart world lookups) s /\ rtc (call lookups) world (is_w s) /\
    it_pc <$> is_th s = [IDone 1000 0; IDone 1000 0; IDone 1004 1].
Proof.
  pose proof scheduled as E. destruct (exec istep schedule (istart world lookups)) as [s|] eqn:Er; [|discriminate E].
  injection E as E. exists s. pose proof (exec_steps istep _ _ _ Er) as Hs. split; [exact Hs|].
  destruct (lookups_linearize 0 (the_db None) world lookups s world_inv lookups_ask lookups_fit Hs)
    as (Hc & _ & _ & _ & _ & Hq).
  split; [|exact E]. rewrite Hq; [exact Hc|].
  destruct (is_th s) as [|x [|y [|z [|u l]]]]; try discriminate E. injection E as Ex Ey Ez.
  repeat constructor; unfold is_done; rewrite ?Ex, ?Ey, ?Ez; reflexivity.
Defined.

Lemma lookups_finish_witness :
  Forall (fun th => is_done th = true) (is_th (istart world lookups)) \/
  exists t s', istep t (istart world lookups) = Some s'.
Proof.
  exact (proj1 (lookups_finish 0 (the_db None) world lookups world_inv lookups_ask lookups_fit)
    (istart world lookups) (rtc_refl _ _)).
Defined.
End SampleThreads.
