(* ===== verification/Proto.v ===== *)
(** * Proto: the messages of the FUSE protocol

    [apkgfs/proto.go], the conversions of [server.go] and [inode.go] that have
    no state ([toErrno], [cstring], [UnixToMode], [ModeToUnix]), and the structs
    of [go-fuse] the code fills in. *)

From S2P Require Import Prelude GoLib.
Local Open Scope Z_scope.

(** ** [proto.go] *)

Definition opLookup : Z := 1.
Definition opForget : Z := 2.
Definition opGetattr : Z := 3.
Definition opSetattr : Z := 4.
Definition opReadlink : Z := 5.
Definition opSymlink : Z := 6.
Definition opMknod : Z := 8.
Definition opMkdir : Z := 9.
Definition opUnlink : Z := 10.
Definition opRmdir : Z := 11.
Definition opRename : Z := 12.
Definition opLink : Z := 13.
Definition opOpen : Z := 14.
Definition opRead : Z := 15.
Definition opWrite : Z := 16.
Definition opStatfs : Z := 17.
Definition opRelease : Z := 18.
Definition opFsync : Z := 20.
Definition opSetxattr : Z := 21.
Definition opGetxattr : Z := 22.
Definition opListxattr : Z := 23.
Definition opRemovexattr : Z := 24.
Definition opFlush : Z := 25.
Definition opInit : Z := 26.
Definition opOpendir : Z := 27.
Definition opReaddir : Z := 28.
Definition opReleasedir : Z := 29.
Definition opFsyncdir : Z := 30.
Definition opAccess : Z := 34.
Definition opCreate : Z := 35.
Definition opInterrupt : Z := 36.
Definition opDestroy : Z := 38.
Definition opFallocate : Z := 43.
Definition opReaddirplus : Z := 44.
Definition opRename2 : Z := 45.
Definition opCopyFileRange : Z := 47.
Definition opBatchForget : Z := 42.

Definition capAsyncRead : Z := Z.shiftl 1 0.
Definition capBigWrites : Z := Z.shiftl 1 5.
Definition capFileOps : Z := Z.shiftl 1 2.
Definition capAutoInvalData : Z := Z.shiftl 1 12.
Definition capReaddirplus : Z := Z.shiftl 1 13.
Definition capReaddirplusAuto : Z := Z.shiftl 1 14.
Definition capMaxPages : Z := Z.shiftl 1 22.
Definition capCacheSymlinks : Z := Z.shiftl 1 23.
Definition capParallelDirops : Z := Z.shiftl 1 18.
Definition capAsyncDio : Z := Z.shiftl 1 15.

Definition notifyInvalInode : Z := -2.
Definition notifyInvalEntry : Z := -3.
Definition notifyStoreCache : Z := -4.

(** The structs are cast to and from memory; every platform of the project is
    little-endian. *)
Record fuseInHeader := {
  ih_Length : Z; ih_Opcode : Z; ih_Unique : Z; ih_NodeId : Z;
  ih_Uid : Z; ih_Gid : Z; ih_Pid : Z; ih_Padding : Z }.
Definition inHeaderSize : nat := 40.
Definition outHeaderSize : nat := 16.

(** The [n]-byte integer at [off]. *)
Definition le_at (off n : nat) (b : bytes) : Z := le_get (take n (drop off b)).

Definition parse_inHeader (b : bytes) : fuseInHeader := {|
  ih_Length := le_at 0 4 b; ih_Opcode := le_at 4 4 b; ih_Unique := le_at 8 8 b;
  ih_NodeId := le_at 16 8 b; ih_Uid := le_at 24 4 b; ih_Gid := le_at 28 4 b;
  ih_Pid := le_at 32 4 b; ih_Padding := le_at 36 4 b |}.

(** [Status] is an [int32]: [le_put] writes its two's complement. *)
Definition outHeader_bytes (length status unique : Z) : bytes :=
  le_put 4 length ++ le_put 4 status ++ le_put 8 unique.

Record fuseInitIn := { ii_Major : Z; ii_Minor : Z; ii_MaxReadAhead : Z; ii_Flags : Z; ii_Flags2 : Z }.
Definition initInSize : nat := 64.
Definition parse_initIn (b : bytes) : fuseInitIn := {|
  ii_Major := le_at 0 4 b; ii_Minor := le_at 4 4 b; ii_MaxReadAhead := le_at 8 4 b;
  ii_Flags := le_at 12 4 b; ii_Flags2 := le_at 16 4 b |}.

Record fuseInitOut := {
  io_Major : Z; io_Minor : Z; io_MaxReadAhead : Z; io_Flags : Z; io_MaxBackground : Z;
  io_CongestionThreshold : Z; io_MaxWrite : Z; io_TimeGran : Z; io_MaxPages : Z }.
Definition initOut_bytes (o : fuseInitOut) : bytes :=
  le_put 4 (io_Major o) ++ le_put 4 (io_Minor o) ++ le_put 4 (io_MaxReadAhead o) ++
  le_put 4 (io_Flags o) ++ le_put 2 (io_MaxBackground o) ++ le_put 2 (io_CongestionThreshold o) ++
  le_put 4 (io_MaxWrite o) ++ le_put 4 (io_TimeGran o) ++ le_put 2 (io_MaxPages o) ++
  replicate 34 Byte.x00.

(** ** Errors *)

Definition ENOENT : Z := 2.
Definition EPERM : Z := 1.
Definition EINVAL : Z := 22.
Definition EEXIST : Z := 17.
Definition EIO : Z := 5.
Definition EROFS : Z := 30.
Definition ENOSYS : Z := 38.
Definition ENOTDIR : Z := 20.
Definition ENODEV : Z := 19.
Definition EINTR : Z := 4.

Definition toErrno (err : error) : Z :=
  match err with
  | ErrNotExist => ENOENT
  | ErrPermission => EPERM
  | ErrInvalid => EINVAL
  | ErrExist => EEXIST
  | ErrErrno n => n
  | _ => EIO
  end.

(** [cstring]: up to the first zero byte, or all of it. *)
Definition cstring (b : bytes) : bytes :=
  match IndexByte b Byte.x00 with Some i => take i b | None => b end.

(** ** [inode.go]: file modes *)

Definition ModeDir : Z := Z.shiftl 1 31.
Definition ModeSymlink : Z := Z.shiftl 1 27.
Definition ModeDevice : Z := Z.shiftl 1 26.
Definition ModeNamedPipe : Z := Z.shiftl 1 25.
Definition ModeSocket : Z := Z.shiftl 1 24.
Definition ModeSetuid : Z := Z.shiftl 1 23.
Definition ModeSetgid : Z := Z.shiftl 1 22.
Definition ModeCharDevice : Z := Z.shiftl 1 21.
Definition ModeSticky : Z := Z.shiftl 1 20.

Definition S_IFSOCK : Z := 0xc000.
Definition S_IFLNK : Z := 0xa000.
Definition S_IFREG : Z := 0x8000.
Definition S_IFBLK : Z := 0x6000.
Definition S_IFDIR : Z := 0x4000.
Definition S_IFCHR : Z := 0x2000.
Definition S_IFIFO : Z := 0x1000.
Definition S_ISUID : Z := 0x800.
Definition S_ISGID : Z := 0x400.
Definition S_ISVTX : Z := 0x200.

(** [mode&flag == flag] *)
Definition has_flag (mode flag : Z) : bool := Z.land mode flag =? flag.
Definition or_if (c : bool) (flag res : Z) : Z := if c then Z.lor res flag else res.

Definition UnixToMode (mode : Z) : Z :=
  let res := Z.land mode 511 in
  let res :=
    if has_flag mode S_IFCHR then Z.lor res ModeCharDevice
    else if has_flag mode S_IFBLK then Z.lor res ModeDevice
    else if has_flag mode S_IFDIR then Z.lor res ModeDir
    else if has_flag mode S_IFIFO then Z.lor res ModeNamedPipe
    else if has_flag mode S_IFLNK then Z.lor res ModeSymlink
    else if has_flag mode S_IFSOCK then Z.lor res ModeSocket
    else res in
  let res := or_if (has_flag mode S_ISGID) ModeSetgid res in
  let res := or_if (has_flag mode S_ISUID) ModeSetuid res in
  or_if (has_flag mode S_ISVTX) ModeSticky res.

Definition ModeToUnix (mode : Z) : Z :=
  let res := Z.land mode 511 in
  let res :=
    if has_flag mode ModeCharDevice then Z.lor res S_IFCHR
    else if has_flag mode ModeDevice then Z.lor res S_IFBLK
    else if has_flag mode ModeDir then Z.lor res S_IFDIR
    else if has_flag mode ModeNamedPipe then Z.lor res S_IFIFO
    else if has_flag mode ModeSymlink then Z.lor res S_IFLNK
    else if has_flag mode ModeSocket then Z.lor res S_IFSOCK
    else Z.lor res S_IFREG in
  let res := or_if (has_flag mode ModeSetgid) S_ISGID res in
  let res := or_if (has_flag mode ModeSetuid) S_ISUID res in
  or_if (has_flag mode ModeSticky) S_ISVTX res.

Definition mode_IsDir (mode : Z) : bool := negb (Z.land mode ModeDir =? 0).

(** ** The types of [go-fuse] the code fills in *)

Record Attr := {
  at_Ino : Z; at_Size : Z; at_Blocks : Z; at_Atime : Z; at_Mtime : Z; at_Ctime : Z;
  at_Atimensec : Z; at_Mtimensec : Z; at_Ctimensec : Z; at_Mode : Z; at_Nlink : Z;
  at_Uid : Z; at_Gid : Z; at_Rdev : Z; at_Blksize : Z }.
Definition zeroAttr : Attr := {|
  at_Ino := 0; at_Size := 0; at_Blocks := 0; at_Atime := 0; at_Mtime := 0; at_Ctime := 0;
  at_Atimensec := 0; at_Mtimensec := 0; at_Ctimensec := 0; at_Mode := 0; at_Nlink := 0;
  at_Uid := 0; at_Gid := 0; at_Rdev := 0; at_Blksize := 0 |}.
Definition set_at_Ino (v : Z) (a : Attr) : Attr := {|
  at_Ino := v; at_Size := at_Size a; at_Blocks := at_Blocks a; at_Atime := at_Atime a;
  at_Mtime := at_Mtime a; at_Ctime := at_Ctime a; at_Atimensec := at_Atimensec a;
  at_Mtimensec := at_Mtimensec a; at_Ctimensec := at_Ctimensec a; at_Mode := at_Mode a;
  at_Nlink := at_Nlink a; at_Uid := at_Uid a; at_Gid := at_Gid a; at_Rdev := at_Rdev a;
  at_Blksize := at_Blksize a |}.

(** The timeouts in seconds. *)
Record EntryOut := {
  eo_NodeId : Z; eo_Generation : Z; eo_EntryTimeout : Z; eo_AttrTimeout : Z; eo_Attr : Attr }.
Record AttrOut := { ao_Timeout : Z; ao_Attr : Attr }.
Record StatfsOut := {
  sf_Blocks : Z; sf_Bfree : Z; sf_Bavail : Z; sf_Files : Z; sf_Ffree : Z; sf_Bsize : Z;
  sf_NameLen : Z; sf_Frsize : Z }.

(** Their memory, and the entries of a directory listing. *)
Class FuseTypes := {
  entryOutBytes : EntryOut -> bytes;
  attrOutBytes : AttrOut -> bytes;
  openOutBytes : Z -> bytes;             (* an OpenOut with these OpenFlags *)
  statfsOutBytes : StatfsOut -> bytes;
  sizeof_ReadIn : nat;
}.

