(* ===== verification/Fuse.v ===== *)
(** * Fuse: the two front ends of [apkgfs]

    [PkgFS] ([fs.go], [cache.go], [inode.go]) with its cache of inodes, the
    methods go-fuse calls on Darwin, and [FuseServer] ([server.go]), the
    server of the raw protocol on Linux, with its event loop.  Both are written
    against an interface, [InodeOps]: the methods of the source's [Inode] and
    [RootInode].  [Mount.v] gives the implementation the daemon uses. *)

From S2P Require Import Prelude GoLib Proto.
Local Open Scope Z_scope.

(** ** The interfaces [Inode] and [RootInode] *)

(** [fsW] is the state the methods work on, [inode] a reference to an object.
    [AddRef], [DelRef] and [Mode] return no error.  [i_ReadAt] is [None] when
    the type does not implement [io.ReaderAt]; its result is what was read,
    with an error or not.  [i_ReadDir] returns the filled part of the list. *)
Class InodeOps := {
  fsW : Type;
  inode : Type;
  i_root : inode;
  i_GetInode : Z -> ST fsW inode;
  i_StatFs : ST fsW StatfsOut;
  i_Mode : inode -> Z;
  i_Lookup : inode -> Z -> bytes -> ST fsW Z;          (* the context's Pid, the name *)
  i_FillAttr : inode -> Attr -> ST fsW Attr;
  i_Readlink : inode -> ST fsW bytes;
  i_Open : inode -> Z -> ST fsW Z;
  i_OpenDir : inode -> ST fsW Z;
  i_ReadDir : inode -> Z -> Z -> Z -> bool -> ST fsW bytes;  (* NodeId, Offset, Size, plus *)
  i_ReadAt : inode -> option (nat -> Z -> ST fsW (bytes * option error));
  i_AddRef : inode -> Z -> fsW -> Z * fsW;
  i_DelRef : inode -> Z -> fsW -> Z * fsW;
}.

(** go-fuse's conversion of an error to a status. *)
Class GoFuse := ToStatus : error -> Z.

Section PkgFS.
Context `{InodeOps, GoFuse}.

(** ** [PkgFS] and its cache *)

Record PkgFS := { pf_w : fsW; inoCache : gmap Z inode }.

Definition on_w {A} (m : ST fsW A) : ST PkgFS A := fun p =>
  let '(o, w) := m (pf_w p) in (o, {| pf_w := w; inoCache := inoCache p |}).
Definition on_ref {A} (f : fsW -> A * fsW) : ST PkgFS A := fun p =>
  let '(v, w) := f (pf_w p) in (Ok v, {| pf_w := w; inoCache := inoCache p |}).
Definition set_cache (f : gmap Z inode -> gmap Z inode) : ST PkgFS unit := fun p =>
  (Ok tt, {| pf_w := pf_w p; inoCache := f (inoCache p) |}).

Definition getInodeCache (nodeid : Z) (p : PkgFS) : option inode := inoCache p !! nodeid.

Definition addToCache (ino : Z) (o : inode) : ST PkgFS unit :=
  p ← get_st;
  match inoCache p !! ino with
  | None => set_cache (insert ino o)
  | Some c =>
      v ← on_ref (i_AddRef o 0);
      if v =? 0 then mret tt
      else (_ ← on_ref (i_AddRef c v); _ ← on_ref (i_DelRef o v); mret tt)
  end.

Definition removeFromCache (nodeid nlookup : Z) : ST PkgFS unit :=
  p ← get_st;
  match inoCache p !! nodeid with
  | None => mret tt
  | Some c =>
      v ← on_ref (i_DelRef c nlookup);
      if (v =? 0) || (0xffffffffffff <? v) then set_cache (delete nodeid) else mret tt
  end.

Definition getInode (ino : Z) : ST PkgFS inode :=
  if ino =? 1 then mret i_root
  else
    p ← get_st;
    match getInodeCache ino p with
    | Some i => mret i
    | None => on_w (i_GetInode ino)
    end.

(** ** The methods go-fuse calls: a status, and the output the code filled in *)

Definition OK : Z := 0.
Definition toStatus (err : option error) : Z :=
  match err with None => OK | Some e => ToStatus e end.

(** [if err != nil { return toStatus(err) }], with the output so far. *)
Definition orStatus {A X} (out : X) (m : ST PkgFS A) (k : A -> ST PkgFS (Z * X))
    : ST PkgFS (Z * X) := fun p =>
  match m p with
  | (Ok a, p) => k a p
  | (Err e, p) => (Ok (toStatus (Some e), out), p)
  | (Panic, p) => (Panic, p)
  end.

Definition W_OK : Z := 2.
Definition X_OK : Z := 1.
Definition O_WRONLY : Z := 1.
Definition zeroEntry : EntryOut := {|
  eo_NodeId := 0; eo_Generation := 0; eo_EntryTimeout := 0; eo_AttrTimeout := 0;
  eo_Attr := zeroAttr |}.
Definition zeroAttrOut : AttrOut := {| ao_Timeout := 0; ao_Attr := zeroAttr |}.
Definition zeroStatfs : StatfsOut := {|
  sf_Blocks := 0; sf_Bfree := 0; sf_Bavail := 0; sf_Files := 0; sf_Ffree := 0; sf_Bsize := 0;
  sf_NameLen := 0; sf_Frsize := 0 |}.

Definition Access (mask uid nodeid : Z) : ST PkgFS (Z * unit) :=
  if negb (Z.land mask W_OK =? 0) then mret (EPERM, tt)
  else if uid =? 0 then mret (OK, tt)
  else orStatus tt (getInode nodeid) (fun ino =>
    if negb (Z.land mask X_OK =? 0) && (Z.land (i_Mode ino) 1 =? 0) then mret (EPERM, tt)
    else mret (OK, tt)).

(** What the code has set in [out] when [FillAttr] fails is never sent. *)
Definition Lookup (nodeid pid : Z) (name : bytes) : ST PkgFS (Z * EntryOut) :=
  orStatus zeroEntry (getInode nodeid) (fun ino =>
  orStatus zeroEntry (on_w (i_Lookup ino pid name)) (fun sub =>
  orStatus zeroEntry (getInode sub) (fun subI =>
    _ ← on_ref (i_AddRef subI 1);
    addToCache sub subI;;
    orStatus zeroEntry (on_w (i_FillAttr subI (set_at_Ino sub zeroAttr))) (fun attr =>
      mret (OK, {| eo_NodeId := sub; eo_Generation := 0; eo_EntryTimeout := 30;
                   eo_AttrTimeout := 30; eo_Attr := attr |}))))).

Definition Forget (nodeid nlookup : Z) : ST PkgFS unit := removeFromCache nodeid nlookup.

Definition GetAttr (nodeid : Z) : ST PkgFS (Z * AttrOut) :=
  orStatus zeroAttrOut (getInode nodeid) (fun ino =>
  orStatus zeroAttrOut (on_w (i_FillAttr ino (set_at_Ino nodeid zeroAttr))) (fun attr =>
    mret (OK, {| ao_Timeout := 30; ao_Attr := attr |}))).

Definition Readlink (nodeid : Z) : ST PkgFS (Z * bytes) :=
  orStatus [] (getInode nodeid) (fun ino =>
  orStatus [] (on_w (i_Readlink ino)) (fun v => mret (OK, v))).

Definition Open (flags nodeid : Z) : ST PkgFS (Z * Z) :=
  if negb (Z.land flags O_WRONLY =? 0) then mret (EROFS, 0)
  else
    orStatus 0 (getInode nodeid) (fun ino =>
    orStatus 0 (on_w (i_Open ino flags)) (fun f => mret (OK, f))).

(** [n > 0] wins over the error that came with it. *)
Definition Read (nodeid offset : Z) (n : nat) : ST PkgFS (Z * bytes) :=
  orStatus [] (getInode nodeid) (fun ino =>
    match i_ReadAt ino with
    | None => mret (ENOSYS, [])
    | Some readAt =>
        orStatus [] (on_w (readAt n (i64 offset))) (fun '(buf, err) =>
          if (0 <? length buf)%nat then mret (OK, buf)
          else match err with
               | Some e => mret (toStatus (Some e), [])
               | None => mret (OK, [])
               end)
    end).

Definition OpenDir (nodeid : Z) : ST PkgFS (Z * Z) :=
  orStatus 0 (getInode nodeid) (fun ino =>
    if negb (mode_IsDir (i_Mode ino)) then mret (ENOTDIR, 0)
    else orStatus 0 (on_w (i_OpenDir ino)) (fun f => mret (OK, f))).

Definition ReadDir_ (plus : bool) (nodeid offset size : Z) : ST PkgFS (Z * bytes) :=
  orStatus [] (getInode nodeid) (fun ino =>
    if negb (mode_IsDir (i_Mode ino)) then mret (ENOTDIR, [])
    else orStatus [] (on_w (i_ReadDir ino nodeid offset size plus)) (fun l => mret (OK, l))).
Definition ReadDir (nodeid offset size : Z) : ST PkgFS (Z * bytes) :=
  ReadDir_ false nodeid offset size.
Definition ReadDirPlus (nodeid offset size : Z) : ST PkgFS (Z * bytes) :=
  ReadDir_ true nodeid offset size.

Definition StatFs : ST PkgFS (Z * StatfsOut) :=
  orStatus zeroStatfs (on_w i_StatFs) (fun out => mret (OK, out)).

(** [SetAttr], [Mknod], [Mkdir], [Unlink], [Rmdir], [Rename], [Link], [Symlink],
    [Create], [SetXAttr], [RemoveXAttr], [Fallocate], [Write] and
    [CopyFileRange]. *)
Definition write_method : ST PkgFS (Z * unit) := mret (EROFS, tt).
Definition Flush : ST PkgFS (Z * unit) := mret (OK, tt).
Definition Fsync : ST PkgFS (Z * unit) := mret (OK, tt).
End PkgFS.
Arguments PkgFS {_}.

(** ** [FuseServer] *)

Section FuseServer.
Context `{FuseTypes, InodeOps}.

(** [fd_log] is what [syscall.Write] was called with, and whether it failed;
    [fd_faults] decides the next calls. *)
Record FuseServer := {
  fs : PkgFS;
  fd_log : list (bytes * option error);
  fd_faults : list (option error);
  maxWrite : Z;
  bufSize : Z;
}.

Definition in_fs {A} (m : ST PkgFS A) : ST FuseServer A := fun s =>
  let '(o, p) := m (fs s) in
  (o, {| fs := p; fd_log := fd_log s; fd_faults := fd_faults s; maxWrite := maxWrite s;
         bufSize := bufSize s |}).

Definition fd_Write (buf : bytes) : ST FuseServer unit := fun s =>
  let r := default None (head (fd_faults s)) in
  (match r with None => Ok tt | Some e => Err e end,
   {| fs := fs s; fd_log := fd_log s ++ [(buf, r)]; fd_faults := tail (fd_faults s);
      maxWrite := maxWrite s; bufSize := bufSize s |}).

Definition reply_msg (unique status : Z) (payload : bytes) : bytes :=
  outHeader_bytes (Z.of_nat (outHeaderSize + length payload)) (- status) unique ++ payload.
Definition reply (unique status : Z) (payload : bytes) : ST FuseServer unit :=
  fd_Write (reply_msg unique status payload).
Definition replyStatus (unique errno : Z) : ST FuseServer unit := reply unique errno [].
Definition replyErr (unique : Z) (err : error) : ST FuseServer unit :=
  replyStatus unique (toErrno err).

(** The handlers ignore what [reply] returns. *)
Definition send (m : ST FuseServer unit) : ST FuseServer unit := _ ← try_st m; mret tt.

(** [if err != nil { s.replyErr(hdr.Unique, err); return }] *)
Definition orReply {A} (unique : Z) (m : ST PkgFS A) (k : A -> ST FuseServer unit)
    : ST FuseServer unit := fun s =>
  match in_fs m s with
  | (Ok a, s) => k a s
  | (Err e, s) => send (replyErr unique e) s
  | (Panic, s) => (Panic, s)
  end.

(** ** The handlers *)

Definition doLookup (h : fuseInHeader) (body : bytes) : ST FuseServer unit :=
  let name := cstring body in
  orReply (ih_Unique h) (getInode (ih_NodeId h)) (fun ino =>
  orReply (ih_Unique h) (on_w (i_Lookup ino (ih_Pid h) name)) (fun sub =>
  orReply (ih_Unique h) (getInode sub) (fun subI =>
    _ ← in_fs (on_ref (i_AddRef subI 1));
    in_fs (addToCache sub subI);;
    orReply (ih_Unique h) (on_w (i_FillAttr subI (set_at_Ino sub zeroAttr))) (fun attr =>
      send (reply (ih_Unique h) 0 (entryOutBytes {|
        eo_NodeId := sub; eo_Generation := 0; eo_EntryTimeout := 30; eo_AttrTimeout := 30;
        eo_Attr := attr |})))))).

Definition doForget (h : fuseInHeader) (body : bytes) : ST FuseServer unit :=
  if (length body <? 8)%nat then mret tt
  else in_fs (removeFromCache (ih_NodeId h) (le_at 0 8 body)).

Fixpoint batch_loop (count : nat) (body : bytes) : ST FuseServer unit :=
  match count with
  | O => mret tt
  | S count =>
      if (length body <? 16)%nat then mret tt
      else
        in_fs (removeFromCache (le_at 0 8 body) (le_at 8 8 body));;
        batch_loop count (drop 16 body)
  end.
Definition doBatchForget (h : fuseInHeader) (body : bytes) : ST FuseServer unit :=
  if (length body <? 8)%nat then mret tt
  else batch_loop (Z.to_nat (le_at 0 4 body)) (drop 8 body).

Definition doGetAttr (h : fuseInHeader) (body : bytes) : ST FuseServer unit :=
  orReply (ih_Unique h) (getInode (ih_NodeId h)) (fun ino =>
  orReply (ih_Unique h) (on_w (i_FillAttr ino (set_at_Ino (ih_NodeId h) zeroAttr))) (fun attr =>
    send (reply (ih_Unique h) 0 (attrOutBytes {| ao_Timeout := 30; ao_Attr := attr |})))).

Definition doReadlink (h : fuseInHeader) (body : bytes) : ST FuseServer unit :=
  orReply (ih_Unique h) (getInode (ih_NodeId h)) (fun ino =>
  orReply (ih_Unique h) (on_w (i_Readlink ino)) (fun target =>
    send (reply (ih_Unique h) 0 target))).

Definition doOpen (h : fuseInHeader) (body : bytes) : ST FuseServer unit :=
  if (length body <? 8)%nat then send (replyStatus (ih_Unique h) EINVAL)
  else
    let flags := le_at 0 4 body in
    if negb (Z.land flags O_WRONLY =? 0) then send (replyStatus (ih_Unique h) EROFS)
    else
      orReply (ih_Unique h) (getInode (ih_NodeId h)) (fun ino =>
      orReply (ih_Unique h) (on_w (i_Open ino flags)) (fun openFlags =>
        send (reply (ih_Unique h) 0 (openOutBytes openFlags)))).

Definition doRead (h : fuseInHeader) (body : bytes) : ST FuseServer unit :=
  if Z.of_nat (length body) <? Z.of_nat sizeof_ReadIn - Z.of_nat inHeaderSize
  then send (replyStatus (ih_Unique h) EINVAL)
  else
    offset ← lift_st (le_get <$> slice 8 16 body);
    size ← lift_st (le_get <$> slice 16 20 body);
    orReply (ih_Unique h) (getInode (ih_NodeId h)) (fun ino =>
      match i_ReadAt ino with
      | None => send (replyStatus (ih_Unique h) ENOSYS)
      | Some readAt =>
          orReply (ih_Unique h) (on_w (readAt (Z.to_nat size) (i64 offset))) (fun '(buf, err) =>
            if (0 <? length buf)%nat then send (reply (ih_Unique h) 0 buf)
            else match err with
                 | Some e => send (replyErr (ih_Unique h) e)
                 | None => send (reply (ih_Unique h) 0 [])
                 end)
      end).

Definition doStatFs (h : fuseInHeader) (body : bytes) : ST FuseServer unit :=
  orReply (ih_Unique h) (on_w i_StatFs) (fun out =>
    send (reply (ih_Unique h) 0 (statfsOutBytes out))).

Definition doOpenDir (h : fuseInHeader) (body : bytes) : ST FuseServer unit :=
  orReply (ih_Unique h) (getInode (ih_NodeId h)) (fun ino =>
    if negb (mode_IsDir (i_Mode ino)) then send (replyStatus (ih_Unique h) ENOTDIR)
    else
      orReply (ih_Unique h) (on_w (i_OpenDir ino)) (fun openFlags =>
        send (reply (ih_Unique h) 0 (openOutBytes openFlags)))).

Definition doReadDir (h : fuseInHeader) (body : bytes) (plus : bool) : ST FuseServer unit :=
  if (length body <? 24)%nat then send (replyStatus (ih_Unique h) EINVAL)
  else
    let offset := le_at 8 8 body in
    let size := le_at 16 4 body in
    orReply (ih_Unique h) (getInode (ih_NodeId h)) (fun ino =>
      if negb (mode_IsDir (i_Mode ino)) then send (replyStatus (ih_Unique h) ENOTDIR)
      else
        orReply (ih_Unique h) (on_w (i_ReadDir ino (ih_NodeId h) offset size plus)) (fun l =>
          send (reply (ih_Unique h) 0 l))).

Definition doAccess (h : fuseInHeader) (body : bytes) : ST FuseServer unit :=
  if (length body <? 8)%nat then send (replyStatus (ih_Unique h) EINVAL)
  else
    let mask := le_at 0 4 body in
    if negb (Z.land mask W_OK =? 0) then send (replyStatus (ih_Unique h) EPERM)
    else if ih_Uid h =? 0 then send (replyStatus (ih_Unique h) 0)
    else
      orReply (ih_Unique h) (getInode (ih_NodeId h)) (fun ino =>
        if negb (Z.land mask X_OK =? 0) && (Z.land (i_Mode ino) 1 =? 0)
        then send (replyStatus (ih_Unique h) EPERM)
        else send (replyStatus (ih_Unique h) 0)).

(** The opcodes of the cases without a handler. *)
Definition silent_ops : list Z := [opRelease; opReleasedir].
Definition flush_ops : list Z := [opFlush; opFsync; opFsyncdir].
Definition write_ops : list Z :=
  [opSetattr; opMknod; opMkdir; opUnlink; opRmdir; opRename; opRename2; opLink; opSymlink;
   opCreate; opWrite; opSetxattr; opRemovexattr; opFallocate; opCopyFileRange].

(** [data] has at least the 40 bytes of the header: [Serve] checks. *)
Definition handleRequest (data : bytes) : ST FuseServer unit :=
  let h := parse_inHeader data in
  let body := drop inHeaderSize data in
  let op := ih_Opcode h in
  if op =? opLookup then doLookup h body
  else if op =? opForget then doForget h body
  else if op =? opBatchForget then doBatchForget h body
  else if op =? opGetattr then doGetAttr h body
  else if op =? opReadlink then doReadlink h body
  else if op =? opOpen then doOpen h body
  else if op =? opRead then doRead h body
  else if bool_decide (op ∈ silent_ops) then mret tt
  else if op =? opStatfs then doStatFs h body
  else if op =? opOpendir then doOpenDir h body
  else if op =? opReaddir then doReadDir h body false
  else if op =? opReaddirplus then doReadDir h body true
  else if op =? opAccess then doAccess h body
  else if bool_decide (op ∈ flush_ops) then send (replyStatus (ih_Unique h) 0)
  else if op =? opDestroy then mret tt
  else if op =? opInterrupt then mret tt
  else if bool_decide (op ∈ write_ops) then send (replyStatus (ih_Unique h) EROFS)
  else send (replyStatus (ih_Unique h) ENOSYS).

(** ** The INIT handshake *)

Definition wantFlags : Z :=
  foldr Z.lor 0 [capAsyncRead; capBigWrites; capFileOps; capAutoInvalData; capReaddirplus;
                 capReaddirplusAuto; capMaxPages; capCacheSymlinks; capParallelDirops; capAsyncDio].

Definition set_sizes (mw bs : Z) : ST FuseServer unit := upd_st (fun s => {|
  fs := fs s; fd_log := fd_log s; fd_faults := fd_faults s; maxWrite := mw; bufSize := bs |}).

Definition init_reply (i : fuseInitIn) (mw : Z) : fuseInitOut := {|
  io_Major := 7; io_Minor := if 28 <? ii_Minor i then 28 else ii_Minor i;
  io_MaxReadAhead := ii_MaxReadAhead i; io_Flags := Z.land wantFlags (ii_Flags i);
  io_MaxBackground := 12; io_CongestionThreshold := 9; io_MaxWrite := mw; io_TimeGran := 1;
  io_MaxPages := u16 ((mw - 1) / 4096 + 1) |}.

(** [read] is what [syscall.Read] returned.  The buffer is zeroed before, and
    [le_at] reads the bytes past the message as zeros. *)
Definition handleInit (read : outcome bytes) : ST FuseServer unit :=
  match read with
  | Panic => lift_st Panic
  | Err e => err_st e
  | Ok msg =>
      let buf := take (inHeaderSize + initInSize) msg in
      if (length buf <? inHeaderSize)%nat then err_st (ErrNew (str "short INIT read"))
      else
        let h := parse_inHeader buf in
        if negb (ih_Opcode h =? opInit) then err_st (ErrNew (str "expected INIT opcode"))
        else
          let i := parse_initIn (drop inHeaderSize buf) in
          if negb (ii_Major i =? 7) then err_st (ErrNew (str "unsupported FUSE major version"))
          else if ii_Minor i <? 12 then err_st (ErrNew (str "FUSE minor version too old"))
          else
            let mw := 131072 in
            set_sizes mw (mw + Z.of_nat inHeaderSize + 256);;
            reply (ih_Unique h) 0 (initOut_bytes (init_reply i mw))
  end.

(** ** Notifications to the kernel *)

Definition notify_msg (code : Z) (size : nat) (notify data : bytes) : bytes :=
  outHeader_bytes (Z.of_nat (outHeaderSize + size + length data)) code 0 ++ notify ++ data.

Definition InodeNotify (ino off length : Z) : ST FuseServer unit :=
  fd_Write (notify_msg notifyInvalInode 24 (le_put 8 ino ++ le_put 8 off ++ le_put 8 length) []).

Definition notifyStoreOut_bytes (nodeid offset size : Z) : bytes :=
  le_put 8 nodeid ++ le_put 8 offset ++ le_put 4 size ++ le_put 4 0.
(** The struct has 24 bytes; 16 are copied to the zeroed buffer. *)
Definition InodeNotifyStoreCache (ino off : Z) (data : bytes) : ST FuseServer unit :=
  fd_Write (notify_msg notifyStoreCache 24
    (take 16 (notifyStoreOut_bytes ino off (Z.of_nat (length data))) ++ replicate 8 Byte.x00) data).

Definition NotifyInode (ino offt : Z) (data : bytes) : ST FuseServer unit :=
  err ← try_st (InodeNotify ino offt (Z.of_nat (length data)));
  match err with
  | Some e => err_st e
  | None =>
      if (0 <? length data)%nat
      then _ ← try_st (InodeNotifyStoreCache ino offt data); mret tt
      else mret tt
  end.

(** ** The event loop *)

(** [Serve] after the handshake: the reader, the requests whose goroutine has
    not run yet, and the channel [done].  A handler runs at once; two handlers
    in progress only share the caches, which are locked. *)
Record loop := { sv : FuseServer; reading : bool; pending : list bytes; closed : bool }.

Inductive event :=
  | EvRead (r : outcome bytes)       (* what syscall.Read returned *)
  | EvHandle (data : bytes)
  | EvDone.

(** [Read] returns at most the buffer. *)
Definition recv (l : loop) (data : bytes) : bytes := take (Z.to_nat (bufSize (sv l))) data.

Inductive serve_step : loop -> event -> loop -> Prop :=
  | step_unmounted l :
      reading l = true ->
      serve_step l (EvRead (Err (ErrErrno ENODEV)))
        {| sv := sv l; reading := false; pending := pending l; closed := closed l |}
  | step_interrupted l :
      reading l = true -> serve_step l (EvRead (Err (ErrErrno EINTR))) l
  | step_read_error l e :
      reading l = true -> e <> ErrErrno ENODEV -> e <> ErrErrno EINTR ->
      serve_step l (EvRead (Err e))
        {| sv := sv l; reading := false; pending := pending l; closed := closed l |}
  | step_short l data :
      reading l = true -> (length (recv l data) < inHeaderSize)%nat ->
      serve_step l (EvRead (Ok data)) l
  | step_request l data :
      reading l = true -> (inHeaderSize <= length (recv l data))%nat ->
      serve_step l (EvRead (Ok data))
        {| sv := sv l; reading := true; pending := pending l ++ [recv l data]; closed := closed l |}
  | step_handle l before data after s :
      pending l = before ++ data :: after ->
      handleRequest data (sv l) = (Ok tt, s) ->
      serve_step l (EvHandle data)
        {| sv := s; reading := reading l; pending := before ++ after; closed := closed l |}
  | step_done l :
      reading l = false -> pending l = [] -> closed l = false ->
      serve_step l EvDone {| sv := sv l; reading := false; pending := []; closed := true |}.

Inductive serve_steps : loop -> list event -> loop -> Prop :=
  | steps_refl l : serve_steps l [] l
  | steps_step l1 l2 l3 e tr :
      serve_steps l1 tr l2 -> serve_step l2 e l3 -> serve_steps l1 (tr ++ [e]) l3.

Definition start_loop (s : FuseServer) : loop := {|
  sv := s; reading := true; pending := []; closed := false |}.
End FuseServer.
Arguments FuseServer {_}.
