(* ===== verification/Serve.v ===== *)
(** * Serve: what the Linux server answers

    The two front ends of [Fuse.v] compute the same answers, up to the status of
    an error without a number ([front_ends_agree]); every request that awaits an
    answer, but for three operations the server drops, gets exactly one
    ([serve_answers]), in whatever order the goroutines run; and the loop ends
    once the connection is gone, with every accepted request handled
    ([serve_terminates]). *)

From S2P Require Import Prelude GoLib Proto Fuse.
Local Open Scope Z_scope.

(** ** Messages *)

Lemma le_at_app off n a b :
  (length a = off) -> (n <= length b)%nat -> le_at off n (a ++ b) = le_at 0 n b.
Proof. intros <- ?. unfold le_at. by rewrite drop_app_length. Qed.

Definition msg_unique (m : bytes) : Z := le_at 8 8 m.
Definition msg_status (m : bytes) : Z := i32 (le_at 4 4 m).

Lemma le_at_put n z b : le_at 0 n (le_put n z ++ b) = z mod 256 ^ Z.of_nat n.
Proof.
  unfold le_at. rewrite drop_0, take_app_le by (by rewrite length_le_put).
  rewrite take_ge by (by rewrite length_le_put). apply le_get_put.
Qed.

Lemma outHeader_unique len st u b :
  0 <= u < two64 -> msg_unique (outHeader_bytes len st u ++ b) = u.
Proof.
  intros ?. unfold msg_unique, outHeader_bytes.
  replace ((le_put 4 len ++ le_put 4 st ++ le_put 8 u) ++ b)
    with ((le_put 4 len ++ le_put 4 st) ++ (le_put 8 u ++ b)) by (by rewrite <-!app_assoc).
  rewrite le_at_app by (rewrite length_app, ?length_app, !length_le_put; lia).
  rewrite le_at_put. apply Z.mod_small. done.
Qed.

Lemma le_at_range off n b : 0 <= le_at off n b < 256 ^ Z.of_nat n.
Proof.
  unfold le_at. pose proof (le_get_range (take n (drop off b))).
  assert (256 ^ Z.of_nat (length (take n (drop off b))) <= 256 ^ Z.of_nat n); [|lia].
  apply Z.pow_le_mono_r; [lia|]. rewrite length_take. lia.
Qed.

Lemma parse_unique_range b : 0 <= ih_Unique (parse_inHeader b) < two64.
Proof. apply (le_at_range 8 8 b). Qed.

(** ** The answer of a handler *)

(** The errors with a number of their own. *)
Definition numbered (e : error) : bool :=
  match e with
  | ErrNotExist | ErrPermission | ErrInvalid | ErrExist | ErrErrno _ => true
  | _ => false
  end.

(** [fuse.ToStatus] as go-fuse documents it: the sentinels of [os] and a
    [syscall.Errno] have their number, and an error of no known type is
    [ENOSYS].  (It also unwraps the error types of [os], which are among the
    [ErrLib]: nothing is said of these.) *)
Class GoFuseSpec `{GoFuse} : Prop := {
  ToStatus_NotExist : ToStatus ErrNotExist = ENOENT;
  ToStatus_Permission : ToStatus ErrPermission = EPERM;
  ToStatus_Invalid : ToStatus ErrInvalid = EINVAL;
  ToStatus_Exist : ToStatus ErrExist = EEXIST;
  ToStatus_Errno n : ToStatus (ErrErrno n) = n;
  ToStatus_EOF : ToStatus ErrEOF = ENOSYS;
  ToStatus_UnexpectedEOF : ToStatus ErrUnexpectedEOF = ENOSYS;
  ToStatus_New msg : ToStatus (ErrNew msg) = ENOSYS;
}.

(** A concrete conversion of this kind. *)
Definition plain_status : GoFuse := fun e => if numbered e then toErrno e else ENOSYS.
Lemma plain_status_spec : @GoFuseSpec plain_status.
Proof. by constructor. Qed.

(** The status and payload of the server against those of the method: the same
    output on success, the same number on a refusal or a numbered error; an
    error without a number is [EIO] to one and what [ToStatus] makes of it to
    the other, [ENOSYS] for all but the errors of libraries. *)
Inductive agree `{GoFuse} : Z * bytes -> Z * bytes -> Prop :=
  | agree_ok pl : agree (0, pl) (0, pl)
  | agree_status st out : st <> 0 -> agree (st, []) (st, out)
  | agree_numbered e out : numbered e = true -> agree (toErrno e, []) (toErrno e, out)
  | agree_new e out : numbered e = false -> (forall k, e <> ErrLib k) -> agree (EIO, []) (ENOSYS, out)
  | agree_lib k out : agree (EIO, []) (ToStatus (ErrLib k), out).

Lemma agree_err `{GoFuseSpec} e out : agree (toErrno e, []) (ToStatus e, out).
Proof.
  destruct e; cbn [toErrno];
    rewrite ?ToStatus_NotExist, ?ToStatus_Permission, ?ToStatus_Invalid, ?ToStatus_Exist, ?ToStatus_Errno,
      ?ToStatus_EOF, ?ToStatus_UnexpectedEOF, ?ToStatus_New.
  1: exact (agree_numbered ErrNotExist out eq_refl).
  1: exact (agree_numbered ErrInvalid out eq_refl).
  1: exact (agree_numbered ErrPermission out eq_refl).
  1: exact (agree_numbered ErrExist out eq_refl).
  1: by apply (agree_new ErrEOF).
  1: by apply (agree_new ErrUnexpectedEOF).
  - exact (agree_numbered (ErrErrno n) out eq_refl).
  - by apply (agree_new (ErrNew msg)).
  - apply agree_lib.
Qed.

(** Reading a message field by field. *)
Lemma le_at_skip off n k z b :
  (k <= off)%nat -> le_at off n (le_put k z ++ b) = le_at (off - k) n b.
Proof.
  intros ?. unfold le_at. rewrite drop_app_ge by (by rewrite length_le_put).
  by rewrite length_le_put.
Qed.

Lemma le_at_take off n k b : (off + n <= k)%nat -> le_at off n (take k b) = le_at off n b.
Proof.
  intros ?. unfold le_at. f_equal. rewrite skipn_firstn_comm, take_take. f_equal. lia.
Qed.

Ltac le_field :=
  unfold reply_msg, notify_msg, outHeader_bytes, initOut_bytes, notifyStoreOut_bytes;
  rewrite <-?app_assoc;
  repeat (rewrite le_at_skip by (vm_compute; lia); cbn [Nat.sub]);
  rewrite ?le_at_put.

Section serve.
Context `{FuseTypes, InodeOps, GoFuseSpec}.

(** The state after one write of [msg], the file system being in state [p]. *)
Definition sent (p : PkgFS) (msg : bytes) (s : FuseServer) : FuseServer :=
  {| fs := p; fd_log := fd_log s ++ [(msg, default None (head (fd_faults s)))];
     fd_faults := tail (fd_faults s); maxWrite := maxWrite s; bufSize := bufSize s |}.
Definition with_fs (p : PkgFS) (s : FuseServer) : FuseServer :=
  {| fs := p; fd_log := fd_log s; fd_faults := fd_faults s; maxWrite := maxWrite s;
     bufSize := bufSize s |}.

(** The handler [hd] answers request [u] as the method [m] does. *)
Definition serves {X} (enc : X -> bytes) (u : Z) (m : ST PkgFS (Z * X)) (hd : ST FuseServer unit)
    : Prop := forall s,
  match m (fs s) with
  | (Ok (st, x), p) =>
      exists st' pl, agree (st', pl) (st, enc x) /\
        hd s = (Ok tt, sent p (reply_msg u st' pl) s)
  | (Err _, _) => False
  | (Panic, p) => hd s = (Panic, with_fs p s)
  end.

Lemma send_write msg s : send (fd_Write msg) s = (Ok tt, sent (fs s) msg s).
Proof.
  unfold send, fd_Write, try_st, sent. munfold.
  destruct (fd_faults s) as [|[e|] l]; done.
Qed.

Lemma serves_orReply {A X} (enc : X -> bytes) u out (m : ST PkgFS A) k k' :
  (forall a, serves enc u (k a) (k' a)) ->
  serves enc u (orStatus out m k) (orReply u m k').
Proof.
  intros Hk [p log fl mw bs]. cbn. unfold orStatus, orReply, in_fs; cbn.
  destruct (m p) as [[a|e|] p']; cbn.
  - exact (Hk a {| fs := p'; fd_log := log; fd_faults := fl; maxWrite := mw; bufSize := bs |}).
  - exists (toErrno e), []. split; [apply agree_err|]. etrans; [apply send_write|done].
  - done.
Qed.

Lemma serves_ok {X} (enc : X -> bytes) u x pl :
  enc x = pl -> serves enc u (mret (OK, x)) (send (reply u 0 pl)).
Proof. intros <- s. exists 0, (enc x). split; [constructor|]. apply send_write. Qed.

Lemma serves_status {X} (enc : X -> bytes) u st x :
  st <> 0 -> serves enc u (mret (st, x)) (send (replyStatus u st)).
Proof. intros ? s. exists st, []. split; [by constructor|]. apply send_write. Qed.

Lemma serves_err {X} (enc : X -> bytes) u e x :
  serves enc u (mret (toStatus (Some e), x)) (send (replyErr u e)).
Proof. intros s. exists (toErrno e), []. split; [apply agree_err|]. apply send_write. Qed.

Lemma serves_lift {A X} (enc : X -> bytes) u m (a : A) k :
  serves enc u m (k a) -> serves enc u m (lift_st (Ok a) ≫= k).
Proof. done. Qed.

Lemma serves_fs {A X} (enc : X -> bytes) u (m : ST PkgFS A) k k' :
  (forall p, match fst (m p) with Err _ => False | _ => True end) ->
  (forall a, serves enc u (k a) (k' a)) -> serves enc u (m ≫= k) (in_fs m ≫= k').
Proof.
  intros Hm Hk [p log fl mw bs]. specialize (Hm p). cbn. unfold in_fs. munfold. cbn.
  destruct (m p) as [[a|e|] p']; cbn in *; [|done|done].
  exact (Hk a {| fs := p'; fd_log := log; fd_faults := fl; maxWrite := mw; bufSize := bs |}).
Qed.

Lemma addToCache_no_err ino o p :
  match fst (addToCache ino o p) with Err _ => False | _ => True end.
Proof.
  unfold addToCache, on_ref, set_cache. munfold. destruct (inoCache p !! ino); cbn; [|done].
  destruct (i_AddRef o 0 (pf_w p)) as [v w']. cbn. destruct (v =? 0); cbn; [done|].
  destruct (i_AddRef i v w') as [v2 w2]; cbn. by destruct (i_DelRef o v w2).
Qed.
End serve.

Create HintDb serve.
#[export] Hint Resolve serves_orReply serves_ok serves_status serves_err plain_status_spec : serve.
#[export] Hint Extern 1 (_ <> _) => discriminate : serve.

(** Follows the structure of a method and its handler. *)
Ltac eval_method :=
  repeat match goal with
  | |- serves _ _ (orStatus _ _ _) (orReply _ _ _) => apply serves_orReply; intros ?
  | |- serves _ _ (if ?b then _ else _) _ => destruct b
  | |- serves _ _ _ _ => solve [eauto with serve]
  end.

(** ** The methods a request stands for *)

Abbreviation serves_bytes := (serves (fun b : bytes => b)).

Section methods.
Context `{FuseTypes, InodeOps, GoFuseSpec}.

Definition as_bytes {X} (enc : X -> bytes) (m : ST PkgFS (Z * X)) : ST PkgFS (Z * bytes) :=
  (fun '(st, x) => (st, enc x)) <$> m.
Definition no_output (x : unit) : bytes := [].

(** The call of go-fuse for the request, with its arguments read from the
    message; [None] when the body is too short for them or there is no method. *)
Definition method_of (data : bytes) : option (ST PkgFS (Z * bytes)) :=
  let h := parse_inHeader data in
  let body := drop inHeaderSize data in
  let n := length body in
  let op := ih_Opcode h in
  if op =? opLookup then Some (as_bytes entryOutBytes (Lookup (ih_NodeId h) (ih_Pid h) (cstring body)))
  else if op =? opGetattr then Some (as_bytes attrOutBytes (GetAttr (ih_NodeId h)))
  else if op =? opReadlink then Some (Readlink (ih_NodeId h))
  else if (op =? opOpen) && (8 <=? n)%nat
    then Some (as_bytes openOutBytes (Open (le_at 0 4 body) (ih_NodeId h)))
  else if (op =? opRead) && (20 <=? n)%nat && (sizeof_ReadIn <=? n + inHeaderSize)%nat
    then Some (Read (ih_NodeId h) (le_at 8 8 body) (Z.to_nat (le_at 16 4 body)))
  else if op =? opStatfs then Some (as_bytes statfsOutBytes StatFs)
  else if op =? opOpendir then Some (as_bytes openOutBytes (OpenDir (ih_NodeId h)))
  else if (op =? opReaddir) && (24 <=? n)%nat
    then Some (ReadDir (ih_NodeId h) (le_at 8 8 body) (le_at 16 4 body))
  else if (op =? opReaddirplus) && (24 <=? n)%nat
    then Some (ReadDirPlus (ih_NodeId h) (le_at 8 8 body) (le_at 16 4 body))
  else if (op =? opAccess) && (8 <=? n)%nat
    then Some (as_bytes no_output (Access (le_at 0 4 body) (ih_Uid h) (ih_NodeId h)))
  else if op =? opFlush then Some (as_bytes no_output Flush)
  else if op =? opFsync then Some (as_bytes no_output Fsync)
  else if bool_decide (op ∈ write_ops) then Some (as_bytes no_output write_method)
  else None.

Lemma serves_as_bytes {X} (enc : X -> bytes) u m hd :
  serves enc u m hd -> serves_bytes u (as_bytes enc m) hd.
Proof.
  intros Hs s. specialize (Hs s). unfold as_bytes. munfold.
  by destruct (m (fs s)) as [[[st x]|e|] p].
Qed.

Lemma doLookup_serves h body :
  serves entryOutBytes (ih_Unique h) (Lookup (ih_NodeId h) (ih_Pid h) (cstring body)) (doLookup h body).
Proof.
  unfold doLookup, Lookup. do 3 (apply serves_orReply; intros ?).
  apply serves_fs; [|intros _; apply serves_fs; [intros; apply addToCache_no_err|]].
  - intros p. unfold on_ref. by destruct (i_AddRef _ _ _).
  - intros _. eval_method.
Qed.

Lemma doGetAttr_serves h body :
  serves attrOutBytes (ih_Unique h) (GetAttr (ih_NodeId h)) (doGetAttr h body).
Proof. unfold doGetAttr, GetAttr. eval_method. Qed.

Lemma doReadlink_serves h body : serves_bytes (ih_Unique h) (Readlink (ih_NodeId h)) (doReadlink h body).
Proof. unfold doReadlink, Readlink. eval_method. Qed.

Lemma doOpen_serves h body :
  (8 <= length body)%nat ->
  serves openOutBytes (ih_Unique h) (Open (le_at 0 4 body) (ih_NodeId h)) (doOpen h body).
Proof.
  intros ?. unfold doOpen, Open. rewrite (proj2 (Nat.ltb_ge _ _)) by done. eval_method.
Qed.

Lemma slice_le_at i j body :
  (i <= j)%nat -> (j <= length body)%nat -> le_get <$> slice i j body = Ok (le_at i (j - i) body).
Proof. intros. unfold slice. by rewrite decide_True. Qed.

Lemma doRead_serves h body :
  (20 <= length body)%nat -> (sizeof_ReadIn <= length body + inHeaderSize)%nat ->
  serves_bytes (ih_Unique h)
    (Read (ih_NodeId h) (le_at 8 8 body) (Z.to_nat (le_at 16 4 body))) (doRead h body).
Proof.
  intros ??. unfold doRead, Read. rewrite (proj2 (Z.ltb_ge _ _)) by lia.
  rewrite !slice_le_at by lia.
  do 2 apply serves_lift.
  apply serves_orReply. intros ino.
  destruct (i_ReadAt ino) as [r|]; [|eval_method].
  apply serves_orReply. intros [buf err]. destruct (0 <? length buf)%nat; [eval_method|].
  destruct err; eval_method.
Qed.

Lemma doStatFs_serves h body : serves statfsOutBytes (ih_Unique h) StatFs (doStatFs h body).
Proof. unfold doStatFs, StatFs. eval_method. Qed.

Lemma doOpenDir_serves h body :
  serves openOutBytes (ih_Unique h) (OpenDir (ih_NodeId h)) (doOpenDir h body).
Proof. unfold doOpenDir, OpenDir. eval_method. Qed.

Lemma serves_flush u : serves no_output u Flush (send (replyStatus u 0)).
Proof. by apply serves_ok. Qed.
Lemma serves_fsync u : serves no_output u Fsync (send (replyStatus u 0)).
Proof. by apply serves_ok. Qed.

Lemma doReadDir_serves h body plus :
  (24 <= length body)%nat ->
  serves_bytes (ih_Unique h) (ReadDir_ plus (ih_NodeId h) (le_at 8 8 body) (le_at 16 4 body))
    (doReadDir h body plus).
Proof.
  intros ?. unfold doReadDir, ReadDir_.
  rewrite (proj2 (Nat.ltb_ge _ _)) by done. eval_method.
Qed.

Lemma doReadDirPlus_serves h body :
  (24 <= length body)%nat ->
  serves_bytes (ih_Unique h) (ReadDirPlus (ih_NodeId h) (le_at 8 8 body) (le_at 16 4 body))
    (doReadDir h body true).
Proof. apply doReadDir_serves. Qed.

Lemma doReadDirPlain_serves h body :
  (24 <= length body)%nat ->
  serves_bytes (ih_Unique h) (ReadDir (ih_NodeId h) (le_at 8 8 body) (le_at 16 4 body))
    (doReadDir h body false).
Proof. apply doReadDir_serves. Qed.

Lemma doAccess_serves h body :
  (8 <= length body)%nat ->
  serves no_output (ih_Unique h) (Access (le_at 0 4 body) (ih_Uid h) (ih_NodeId h)) (doAccess h body).
Proof.
  intros ?. unfold doAccess, Access. rewrite (proj2 (Nat.ltb_ge _ _)) by done.
  destruct (negb _); [eval_method|]. destruct (_ =? 0); [by apply serves_ok|].
  apply serves_orReply; intros ino. destruct (_ && _); [eval_method|by apply serves_ok].
Qed.
End methods.

#[export] Hint Resolve doLookup_serves doGetAttr_serves doReadlink_serves doOpen_serves
  doRead_serves doStatFs_serves doOpenDir_serves doReadDir_serves doReadDirPlus_serves
  doReadDirPlain_serves doAccess_serves
  serves_as_bytes serves_flush serves_fsync : serve.

(** ** One answer per request *)

Section answers.
Context `{FuseTypes, InodeOps}.

(** What a handler leaves of the connection: it adds [log] to what was written. *)
Definition logged (s : FuseServer) (log : list (bytes * option error)) (s' : FuseServer) : Prop :=
  fd_log s' = fd_log s ++ log /\ bufSize s' = bufSize s /\ maxWrite s' = maxWrite s.

Definition replies (u : Z) (hd : ST FuseServer unit) : Prop := forall s o s',
  hd s = (o, s') ->
  o = Panic \/ o = Ok tt /\ exists st pl r, logged s [(reply_msg u st pl, r)] s'.
Definition quiet (hd : ST FuseServer unit) : Prop := forall s o s',
  hd s = (o, s') -> o = Panic \/ o = Ok tt /\ logged s [] s'.

Lemma serves_replies `{GoFuseSpec} {X} (enc : X -> bytes) u m hd : serves enc u m hd -> replies u hd.
Proof.
  intros Hs s o s' E. specialize (Hs s). destruct (m (fs s)) as [[[st x]|e|] p]; [|done|].
  - destruct Hs as (st' & pl & _ & E'). rewrite E in E'. injection E' as -> ->.
    right. split; [done|]. by exists st', pl, (default None (head (fd_faults s))).
  - left. congruence.
Qed.

Lemma replies_send u st : replies u (send (replyStatus u st)).
Proof.
  intros s o s'. unfold replyStatus, reply. rewrite send_write. intros [= <- <-].
  right. split; [done|]. by exists st, [], (default None (head (fd_faults s))).
Qed.

Lemma replies_if u (b : bool) h1 h2 : replies u h1 -> replies u h2 -> replies u (if b then h1 else h2).
Proof. by destruct b. Qed.

Lemma quiet_ret : quiet (mret tt).
Proof. intros s o s' [= <- <-]. right. unfold logged. by rewrite app_nil_r. Qed.

Lemma quiet_fs (m : ST PkgFS unit) :
  (forall p, match fst (m p) with Err _ => False | _ => True end) -> quiet (in_fs m).
Proof.
  intros Hm s o s'. unfold in_fs. specialize (Hm (fs s)). destruct (m (fs s)) as [[a|e|] p].
  - destruct a. intros [= <- <-]. right. unfold logged; cbn. by rewrite app_nil_r.
  - done.
  - intros [= <- <-]. by left.
Qed.

Lemma quiet_seq h1 h2 : quiet h1 -> quiet h2 -> quiet (h1;; h2).
Proof.
  intros H1' H2' s o s'. munfold. destruct (h1 s) as [o1 s1] eqn:E1.
  destruct (H1' _ _ _ E1) as [->|(-> & Hl1)]; [intros [= <- <-]; by left|].
  intros E2. destruct (H2' _ _ _ E2) as [->|(-> & Hl2)]; [by left|]. right. split; [done|].
  unfold logged in *. rewrite app_nil_r in *. intuition congruence.
Qed.

Lemma removeFromCache_no_err nodeid n p :
  match fst (removeFromCache nodeid n p) with Err _ => False | _ => True end.
Proof.
  unfold removeFromCache, on_ref, set_cache. munfold.
  destruct (inoCache p !! nodeid); cbn; [|done].
  destruct (i_DelRef _ _ _) as [v w]; cbn. by destruct (_ || _).
Qed.

Lemma batch_loop_quiet count body : quiet (batch_loop count body).
Proof.
  revert body. induction count as [|count IH]; intros body; cbn [batch_loop]; [apply quiet_ret|].
  destruct (_ <? _)%nat; [apply quiet_ret|].
  apply quiet_seq; [apply quiet_fs, removeFromCache_no_err|apply IH].
Qed.

(** The requests the kernel waits for, by the FUSE protocol: all but the two
    forms of FORGET and INTERRUPT. *)
Definition no_reply_ops : list Z := [opForget; opBatchForget; opInterrupt].
Definition awaits (data : bytes) : bool :=
  negb (bool_decide (ih_Opcode (parse_inHeader data) ∈ no_reply_ops)).

(** Those of them that the server never answers, and the others. *)
Definition dropped_ops : list Z := [opRelease; opReleasedir; opDestroy].
Definition dropped (data : bytes) : bool :=
  bool_decide (ih_Opcode (parse_inHeader data) ∈ dropped_ops).
Definition replied (data : bytes) : bool := awaits data && negb (dropped data).
Definition unique_of (data : bytes) : Z := ih_Unique (parse_inHeader data).

Lemma doRead_replies h body : replies (ih_Unique h) (doRead h body).
Proof.
  unfold doRead. destruct (_ <? _) eqn:E; [apply replies_send|]. apply Z.ltb_ge in E.
  destruct (decide (20 <= length body)%nat).
  - assert (R := doRead_serves (H1 := plain_status) (H2 := plain_status_spec) h body). unfold doRead in R.
    rewrite (proj2 (Z.ltb_ge _ _)) in R by done.
    eapply (serves_replies (H1 := plain_status) (H2 := plain_status_spec)), R; [done|]. unfold inHeaderSize in *. lia.
  - intros s o s'. unfold slice. munfold.
    repeat case_decide; try lia; intros Hs; simplify_eq; by left.
Qed.

(** Short bodies are refused with a status. *)
Lemma short_replies `{GoFuseSpec} {X} (enc : X -> bytes) u m hd n (body : bytes) :
  ((n <= length body)%nat -> serves enc u m hd) ->
  ((length body < n)%nat -> hd = send (replyStatus u EINVAL)) -> replies u hd.
Proof.
  intros Hs Hr. destruct (decide (n <= length body)%nat); [by eapply serves_replies, Hs|].
  rewrite Hr by lia. apply replies_send.
Qed.

Ltac by_serves := solve [eapply (serves_replies (H1 := plain_status) (H2 := plain_status_spec)); eauto with serve].
Ltac by_short :=
  eapply (short_replies (H1 := plain_status) (H2 := plain_status_spec)); [by eauto with serve|];
  intros ?%Nat.ltb_lt; cbv beta delta [doOpen doReadDir doAccess];
  match goal with E : (_ <? _)%nat = true |- _ => by rewrite E end.

Lemma handleRequest_answers data :
  if replied data then replies (unique_of data) (handleRequest data)
  else quiet (handleRequest data).
Proof.
  unfold replied, awaits, dropped, unique_of, handleRequest. set (h := parse_inHeader data).
  generalize (drop inHeaderSize data); intros body.
  generalize (ih_Opcode h); intros op.
  destruct (Z.eqb_spec op opLookup) as [->|]; [by_serves|].
  destruct (Z.eqb_spec op opForget) as [->|].
  { cbn. unfold doForget. destruct (_ <? _)%nat; [apply quiet_ret|].
    apply quiet_fs, removeFromCache_no_err. }
  destruct (Z.eqb_spec op opBatchForget) as [->|].
  { cbn. unfold doBatchForget. destruct (_ <? _)%nat; [apply quiet_ret|]. apply batch_loop_quiet. }
  destruct (Z.eqb_spec op opGetattr) as [->|]; [by_serves|].
  destruct (Z.eqb_spec op opReadlink) as [->|]; [by_serves|].
  destruct (Z.eqb_spec op opOpen) as [->|]; [by_short|].
  destruct (Z.eqb_spec op opRead) as [->|]; [apply doRead_replies|].
  destruct (bool_decide_reflect (op ∈ silent_ops)) as [Hop|].
  { rewrite (bool_decide_eq_true_2 (op ∈ dropped_ops)); [cbn [negb]; rewrite andb_false_r; apply quiet_ret|].
    unfold silent_ops in Hop. unfold dropped_ops. set_solver. }
  destruct (Z.eqb_spec op opStatfs) as [->|]; [by_serves|].
  destruct (Z.eqb_spec op opOpendir) as [->|]; [by_serves|].
  destruct (Z.eqb_spec op opReaddir) as [->|]; [by_short|].
  destruct (Z.eqb_spec op opReaddirplus) as [->|]; [by_short|].
  destruct (Z.eqb_spec op opAccess) as [->|]; [by_short|].
  destruct (bool_decide_reflect (op ∈ flush_ops)) as [Hop|].
  { unfold flush_ops in Hop. set_unfold in Hop. destruct_or! Hop; subst; apply replies_send. }
  destruct (Z.eqb_spec op opDestroy) as [->|]; [apply quiet_ret|].
  destruct (Z.eqb_spec op opInterrupt) as [->|]; [apply quiet_ret|].
  rewrite (bool_decide_eq_false_2 (op ∈ no_reply_ops)) by (unfold no_reply_ops; set_solver).
  rewrite (bool_decide_eq_false_2 (op ∈ dropped_ops)) by (unfold dropped_ops, silent_ops in *; set_solver).
  apply replies_if; apply replies_send.
Qed.
End answers.

(** ** The event loop *)

Section loop.
Context `{FuseTypes, InodeOps}.

(** The requests the reader accepted, of those it was given. *)
Definition accepted (n : nat) (e : event) : list bytes :=
  match e with
  | EvRead (Ok data) => if (inHeaderSize <=? length (take n data))%nat then [take n data] else []
  | _ => []
  end.
Definition received (n : nat) (tr : list event) : list bytes := tr ≫= accepted n.

(** The requests whose handler has run. *)
Definition handled (tr : list event) : list bytes :=
  tr ≫= fun e => match e with EvHandle data => [data] | _ => [] end.

(** The unique numbers of the answers the kernel waits for, of those of them
    that are never written, and of the messages written. *)
Definition due (reqs : list bytes) : list Z := unique_of <$> filter (fun d => awaits d = true) reqs.
Definition undelivered (reqs : list bytes) : list Z :=
  unique_of <$> filter (fun d => dropped d = true) reqs.
Definition answered (log : list (bytes * option error)) : list Z := (fun m => msg_unique m.1) <$> log.

Lemma due_app a b : due (a ++ b) = due a ++ due b.
Proof. unfold due. by rewrite filter_app, fmap_app. Qed.
Lemma handled_app a b : handled (a ++ b) = handled a ++ handled b.
Proof. unfold handled. by rewrite bind_app. Qed.
Lemma received_app n a b : received n (a ++ b) = received n a ++ received n b.
Proof. unfold received. by rewrite bind_app. Qed.

#[export] Instance due_perm : Proper (Permutation ==> Permutation) due.
Proof. intros a b E. unfold due. by rewrite E. Qed.

Lemma unique_of_range data : 0 <= unique_of data < two64.
Proof. apply parse_unique_range. Qed.

Lemma reply_msg_unique u st pl : 0 <= u < two64 -> msg_unique (reply_msg u st pl) = u.
Proof. apply outHeader_unique. Qed.

Lemma dropped_awaits d : dropped d = true -> awaits d = true.
Proof.
  unfold dropped, awaits. rewrite bool_decide_eq_true. unfold dropped_ops, no_reply_ops. intros Hd.
  set_unfold in Hd. by destruct_or! Hd; rewrite Hd.
Qed.

(** The numbers of the requests the server answers. *)
Definition replied_to (reqs : list bytes) : list Z :=
  unique_of <$> filter (fun d => replied d = true) reqs.

(** Every request that is due is either answered or dropped. *)
Lemma due_split reqs : due reqs ≡ₚ replied_to reqs ++ undelivered reqs.
Proof.
  unfold due, undelivered, replied_to. induction reqs as [|d reqs IH]; [done|].
  pose proof (dropped_awaits d) as Hd. rewrite !filter_cons.
  assert (replied d = awaits d && negb (dropped d)) as Hr by done.
  repeat case_decide; cbn [fmap list_fmap app]; rewrite ?IH;
    first [done|by rewrite <-Permutation_middle
      |exfalso; destruct (awaits d), (dropped d); cbn in Hr; intuition congruence].
Qed.

(** Handling a request answers it, if it is one the server answers. *)
Lemma handle_replied data s s' :
  handleRequest data s = (Ok tt, s') ->
  exists log, logged s log s' /\ answered log = replied_to [data].
Proof.
  intros E. pose proof (handleRequest_answers data) as Ha. unfold replied_to. rewrite filter_cons.
  destruct (replied data) eqn:Ew; destruct (Ha _ _ _ E) as [?|(_ & Hl)]; try done.
  - destruct Hl as (st & pl & r & Hl). eexists; split; [exact Hl|].
    rewrite decide_True by done. unfold answered. cbn [fmap list_fmap fst].
    by rewrite reply_msg_unique by apply unique_of_range.
  - exists []. split; [done|]. by rewrite decide_False.
Qed.

(** What was written is the answers to what was handled, in that order, and
    what was handled and what is pending is what was accepted. *)
Lemma serve_inv s tr l :
  serve_steps (start_loop s) tr l ->
  (exists log, logged s log (sv l) /\ answered log = replied_to (handled tr)) /\
  handled tr ++ pending l ≡ₚ received (Z.to_nat (bufSize s)) tr /\
  (closed l = true -> pending l = [] /\ reading l = false).
Proof.
  intros Hs. remember (start_loop s) as l0 eqn:E0.
  induction Hs as [|l1 l2 l3 e tr Hs IH Hstep]; subst.
  { split; [|done]. exists []. unfold logged. by rewrite app_nil_r. }
  destruct (IH eq_refl) as ((log & (Hlog & Hb & Hm) & Ha) & Hp & Hc).
  rewrite handled_app, received_app.
  destruct Hstep as [l Hr|l Hr|l e Hr _ _|l data Hr Hsh|l data Hr Hlen
    |l before data after s' Epend Eh|l Hr Epend Ecl]; unfold recv in *; rewrite ?Hb in *;
    cbn [sv pending reading closed].
  1-3: rewrite !app_nil_r; split; [by exists log|]; split; [done|];
    intros Hcl; exfalso; destruct (Hc Hcl); congruence.
  - rewrite app_nil_r. split; [by exists log|]. split; [|intros Hcl; exfalso; destruct (Hc Hcl); congruence].
    unfold received at 2. cbn [mbind list_bind accepted].
    rewrite (proj2 (Nat.leb_gt _ _)) by done. by rewrite !app_nil_r.
  - rewrite app_nil_r. split; [by exists log|]. split; [|intros Hcl; exfalso; destruct (Hc Hcl); congruence].
    unfold received at 2. cbn [mbind list_bind accepted].
    rewrite (proj2 (Nat.leb_le _ _)) by done. rewrite app_nil_r, app_assoc. by rewrite Hp.
  - destruct (handle_replied _ _ _ Eh) as (log' & (Hlog' & Hb' & Hm') & Hans). rewrite app_nil_r.
    split; [|split].
    + exists (log ++ log'). unfold logged. rewrite Hlog', Hlog, app_assoc.
      split; [intuition congruence|]. unfold answered, replied_to in *.
      by rewrite fmap_app, Ha, Hans, filter_app, fmap_app.
    + rewrite <-Hp, Epend. cbn. clear. solve_Permutation.
    + intros Hcl. destruct (Hc Hcl) as (Hp0 & _). rewrite Epend in Hp0. by destruct before.
  - rewrite !app_nil_r. split; [by exists log|]. split; [|done]. by rewrite <-Hp, Epend, app_nil_r.
Qed.

Lemma serve_steps_cons l1 e l2 tr l3 :
  serve_step l1 e l2 -> serve_steps l2 tr l3 -> serve_steps l1 (e :: tr) l3.
Proof.
  intros Hstep Hs. induction Hs as [|l2 l3 l4 e' tr Hs IH Hstep'].
  - by apply (steps_step _ l1 _ _ []); [constructor|].
  - apply (steps_step _ l3 _ _ (e :: tr)); auto.
Qed.

Lemma serve_steps_app l1 tr1 l2 tr2 l3 :
  serve_steps l1 tr1 l2 -> serve_steps l2 tr2 l3 -> serve_steps l1 (tr1 ++ tr2) l3.
Proof.
  intros H1' H2'. revert H1'. induction H2' as [|l2 l3 l4 e tr Hs IH Hstep]; intros H1'.
  - by rewrite app_nil_r.
  - rewrite app_assoc. eapply steps_step; [by apply IH|done].
Qed.

Lemma serve_steps_nil l l' : serve_steps l [] l' -> l' = l.
Proof.
  intros Hs. remember [] as tr eqn:Et. destruct Hs as [|l1 l2 l3 e tr Hs Hstep]; [done|].
  by destruct tr.
Qed.
Lemma serve_steps_one l e l' : serve_steps l [e] l' -> serve_step l e l'.
Proof.
  intros Hs. remember [e] as tr eqn:Et. destruct Hs as [|l1 l2 l3 e' tr Hs Hstep]; [done|].
  destruct tr as [|? [|? ?]]; [|done..]. injection Et as ->. by apply serve_steps_nil in Hs as ->.
Qed.

(** The answer of the kernel once the file system is unmounted. *)
Definition gone : event := EvRead (Err (ErrErrno ENODEV)).
Lemma gone_stops l l' :
  serve_step l gone l' ->
  l' = {| sv := sv l; reading := false; pending := pending l; closed := closed l |}.
Proof.
  unfold gone. intros Hs. inversion Hs; subst; done.
Qed.

(** What is left to do once nothing more is read. *)
Definition work_left (l : loop) : nat := length (pending l) + (if closed l then 0 else 1).

Lemma drain_step l e l' :
  reading l = false -> serve_step l e l' -> reading l' = false /\ work_left l = S (work_left l').
Proof.
  unfold work_left. intros Hr Hs.
  destruct Hs as [| | | | |l before data after s Hp _|l _ Hp Hc]; cbn; try congruence.
  - split; [done|]. rewrite Hp, !length_app. cbn. lia.
  - split; [done|]. by rewrite Hp, Hc.
Qed.

Lemma drain_steps l tr l' :
  reading l = false -> serve_steps l tr l' ->
  reading l' = false /\ work_left l = (length tr + work_left l')%nat.
Proof.
  intros Hr Hs. induction Hs as [|l1 l2 l3 e tr Hs IH Hstep]; [done|].
  destruct (IH Hr) as (Hr2 & ->). destruct (drain_step _ _ _ Hr2 Hstep) as (? & ->).
  rewrite length_app. cbn. split; [done|lia].
Qed.

(** Nothing is accepted once the reader has stopped. *)
Lemma drained_reads n l tr l' : reading l = false -> serve_steps l tr l' -> received n tr = [].
Proof.
  intros Hr Hs. induction Hs as [|l1 l2 l3 e tr Hs IH Hstep]; [done|].
  rewrite received_app, IH by done. destruct (drain_steps _ _ _ Hr Hs) as (Hr2 & _).
  by destruct Hstep; try congruence.
Qed.

Lemma drain_done l :
  reading l = false -> closed l = false ->
  Forall (fun d => forall s, fst (handleRequest d s) <> Panic) (pending l) ->
  exists tr l', serve_steps l tr l' /\ closed l' = true.
Proof.
  destruct l as [s r ds c]; cbn. intros -> -> Hq. revert s. induction Hq as [|d ds Hd _ IH]; intros s.
  - exists [EvDone], {| sv := s; reading := false; pending := []; closed := true |}.
    split; [|done]. eapply serve_steps_cons; [|constructor].
    by apply (step_done {| sv := s; reading := false; pending := []; closed := false |}).
  - pose proof (Hd s) as Hnp. pose proof (handleRequest_answers d) as Ha.
    destruct (handleRequest d s) as [o s'] eqn:E.
    assert (o = Ok tt) as -> by (destruct (replied d); destruct (Ha _ _ _ E) as [|(? & _)]; done).
    destruct (IH s') as (tr & l' & Hs & Hc). exists (EvHandle d :: tr), l'. split; [|done].
    eapply serve_steps_cons; [|exact Hs]. by apply (step_handle {| sv := s; reading := false; pending := d :: ds; closed := false |} []).
Qed.
End loop.

(** ** The theorems *)

(** The case of one opcode: the method, its body long enough, and its handler. *)
Ltac serve_op op o :=
  destruct (Z.eqb_spec op o) as [->|];
  [repeat match goal with |- context [bool_decide (o ∈ ?l)] =>
     let b := eval vm_compute in (bool_decide (o ∈ l)) in change (bool_decide (o ∈ l)) with b
   end;
   cbn -[le_at Z.to_nat Nat.leb];
   repeat match goal with |- context [(?m <=? ?n)%nat] => destruct (Nat.leb_spec m n) end;
   intros [= <-]; solve [eauto with serve]
  |cbn [andb]].

Section theorems.
Context `{FuseTypes, InodeOps}.

(** C23: Every request is answered once, but for three operations that never are.
    Whatever the reads return and in whatever order the goroutines run, the
    numbers of the messages written so far, of the accepted requests still to be
    handled, and of the RELEASE, RELEASEDIR and DESTROY requests handled are
    together exactly the numbers of the accepted requests that await an answer
    by the FUSE protocol.  When [Serve] is done nothing is left: one message was
    written (a write may still fail) for each accepted request that awaits one,
    except for these three operations, which the server drops although the
    kernel waits for their answer. *)
Theorem serve_answers s tr l :
  serve_steps (start_loop s) tr l ->
  let requests := received (Z.to_nat (bufSize s)) tr in
  exists log, fd_log (sv l) = fd_log s ++ log /\
    answered log ++ due (pending l) ++ undelivered (handled tr) ≡ₚ due requests /\
    (closed l = true -> answered log ++ undelivered requests ≡ₚ due requests).
Proof.
  intros Hs requests. destruct (serve_inv _ _ _ Hs) as ((log & (Hlog & _) & Ha) & Hp & Hc).
  exists log. split; [done|]. fold requests in Hp. split.
  - rewrite <-Hp, due_app, (due_split (handled tr)), Ha. clear. solve_Permutation.
  - intros Hcl. destruct (Hc Hcl) as (Hp0 & _). rewrite Hp0, app_nil_r in Hp.
    rewrite Ha, (due_split requests). unfold replied_to, undelivered. by rewrite Hp.
Qed.

(** C24: The event loop ends.  In any state a run of the server has reached, if no
    pending request makes its handler panic: while it reads, the answer ENODEV of
    the kernel (the connection is gone) is a step; after this answer, or when the
    reader has stopped for another error, some run of the goroutines closes
    [done], and no run has more steps than one for each pending request and one
    to close; and when [done] is closed, the handlers that have run are those of
    exactly the requests accepted, each once. *)
Theorem serve_terminates s tr l :
  serve_steps (start_loop s) tr l -> closed l = false ->
  Forall (fun d => forall s, fst (handleRequest d s) <> Panic) (pending l) ->
  (reading l = true -> exists l1, serve_step l gone l1) /\
  forall tg l1, tg = [gone] \/ tg = [] /\ reading l = false -> serve_steps l tg l1 ->
    (exists tr' l', serve_steps l1 tr' l' /\ closed l' = true) /\
    forall tr' l', serve_steps l1 tr' l' ->
      (length tr' <= S (length (pending l)))%nat /\
      (closed l' = true ->
         handled (tr ++ tg ++ tr') ≡ₚ received (Z.to_nat (bufSize s)) (tr ++ tg ++ tr')).
Proof.
  intros Hs Hc Hq. split; [intros Hr; eexists; by apply step_unmounted|]. intros tg l1 Htg Hg.
  assert (reading l1 = false /\ pending l1 = pending l /\ closed l1 = false) as (Hr1 & Hp1 & Hc1).
  { destruct Htg as [->|[-> Hr]]; [|by apply serve_steps_nil in Hg as ->].
    apply serve_steps_one, gone_stops in Hg as ->. done. }
  split; [apply drain_done; [done|done|by rewrite Hp1]|]. intros tr' l' Hs'. split.
  - destruct (drain_steps _ _ _ Hr1 Hs') as (_ & Hw). unfold work_left in Hw. rewrite Hc1, Hp1 in Hw. lia.
  - intros Hcl. destruct (serve_inv s (tr ++ tg ++ tr') l') as (_ & Hp & Hc').
    { by eapply serve_steps_app; [|eapply serve_steps_app]. }
    destruct (Hc' Hcl) as (Hp0 & _). by rewrite Hp0, app_nil_r in Hp.
Qed.

(** C8: The two front ends agree: for every request with a method, in every
    state, the Linux server runs the calls the method makes on the inodes and
    writes one message, which says what the method returns: on success the same
    output, on a refusal or an error with a number of its own the same status,
    without output.  Only an error without a number (the end of a file, or one
    made by [errors.New]) is reported differently: [EIO] by the server, [ENOSYS]
    by go-fuse.  Where the method panics, so does the handler. *)
Theorem front_ends_agree `{GoFuseSpec} data s m :
  method_of data = Some m ->
  match m (fs s) with
  | (Ok r, p) =>
      exists st pl, agree (st, pl) r /\
        handleRequest data s = (Ok tt, sent p (reply_msg (unique_of data) st pl) s)
  | (Err _, _) => False
  | (Panic, p) => handleRequest data s = (Panic, with_fs p s)
  end.
Proof.
  intros Hm. enough (serves_bytes (unique_of data) m (handleRequest data)) as Hs.
  { specialize (Hs s). by destruct (m (fs s)) as [[[st x]|e|] p]. }
  revert Hm. unfold method_of, handleRequest, unique_of.
  generalize (parse_inHeader data); intros h.
  generalize (drop inHeaderSize data); intros body. generalize (ih_Opcode h); intros op.
  serve_op op opLookup. serve_op op opGetattr. serve_op op opReadlink. serve_op op opOpen.
  serve_op op opRead. serve_op op opStatfs. serve_op op opOpendir. serve_op op opReaddir.
  serve_op op opReaddirplus. serve_op op opAccess. serve_op op opFlush. serve_op op opFsync.
  destruct (bool_decide_reflect (op ∈ write_ops)) as [Hop|]; intros [= <-].
  assert (Hw : op <> opForget /\ op <> opBatchForget /\ (op ∉ silent_ops) /\ (op ∉ flush_ops) /\
    op <> opDestroy /\ op <> opInterrupt).
  { unfold write_ops in Hop. set_unfold in Hop.
    destruct_or! Hop; subst; repeat split; by apply (bool_decide_eq_true_1 _). }
  destruct Hw as (?&?&?&?&?&?). rewrite !(proj2 (Z.eqb_neq _ _)) by done.
  rewrite !bool_decide_eq_false_2 by done. by apply serves_as_bytes, (serves_status no_output _ EROFS tt).
Qed.

(** The request the handshake accepts: an INIT of version 7.12 or later. *)
Definition init_ok (msg : bytes) : bool :=
  let buf := take (inHeaderSize + initInSize) msg in
  let i := parse_initIn (drop inHeaderSize buf) in
  (inHeaderSize <=? length buf)%nat && (ih_Opcode (parse_inHeader buf) =? opInit) &&
  (ii_Major i =? 7) && (12 <=? ii_Minor i).

Lemma handleInit_cases msg s :
  let buf := take (inHeaderSize + initInSize) msg in
  let i := parse_initIn (drop inHeaderSize buf) in
  if init_ok msg
  then handleInit (Ok msg) s =
    reply (unique_of buf) 0 (initOut_bytes (init_reply i 131072))
      {| fs := fs s; fd_log := fd_log s; fd_faults := fd_faults s; maxWrite := 131072;
         bufSize := 131368 |}
  else exists e, handleInit (Ok msg) s = (Err e, s).
Proof.
  cbn zeta. unfold init_ok, handleInit, unique_of. set (buf := take _ msg).
  rewrite Nat.ltb_antisym. destruct (_ <=? _)%nat; cbn [negb andb]; [|by eexists].
  destruct (_ =? opInit); cbn [negb andb]; [|by eexists].
  destruct (_ =? 7); cbn [negb andb]; [|by eexists].
  rewrite Z.ltb_antisym. destruct (12 <=? _); cbn [negb]; [done|by eexists].
Qed.

Lemma init_fields u o :
  let m := reply_msg u 0 (initOut_bytes o) in
  length m = 80%nat /\ le_at 4 4 m = 0 /\
  le_at 16 4 m = u32 (io_Major o) /\ le_at 20 4 m = u32 (io_Minor o) /\
  le_at 28 4 m = u32 (io_Flags o) /\ le_at 36 4 m = u32 (io_MaxWrite o) /\
  le_at 44 2 m = u16 (io_MaxPages o).
Proof.
  cbn zeta. split.
  - unfold reply_msg, outHeader_bytes, initOut_bytes. rewrite !length_app, !length_le_put.
    by rewrite length_replicate.
  - repeat split; le_field; done.
Qed.

(** C38: The handshake: an INIT request is answered when it offers version 7.12
    or later, with version 7, a minor number no greater than the kernel's and
    than 28, and only capabilities the kernel offered; from then on the buffer
    has room for the header and the largest write, which the announced pages
    hold.  Anything else is refused and leaves the server as it was. *)
Theorem handleInit_negotiates msg s o s' :
  handleInit (Ok msg) s = (o, s') ->
  let i := parse_initIn (drop inHeaderSize (take (inHeaderSize + initInSize) msg)) in
  if init_ok msg
  then exists m r, fd_log s' = fd_log s ++ [(m, r)] /\ fs s' = fs s /\
    msg_unique m = unique_of msg /\ le_at 4 4 m = 0 /\ length m = 80%nat /\
    le_at 16 4 m = 7 /\ le_at 20 4 m = Z.min 28 (ii_Minor i) /\
    (forall k, 0 <= k < 32 -> Z.testbit (le_at 28 4 m) k = true ->
      Z.testbit (ii_Flags i) k = true) /\
    maxWrite s' = le_at 36 4 m /\ maxWrite s' <= 4096 * le_at 44 2 m /\
    Z.of_nat inHeaderSize + maxWrite s' <= bufSize s'
  else s' = s /\ is_ok o = false.
Proof.
  intros E i. pose proof (handleInit_cases msg s) as Hc. cbn zeta in Hc. fold i in Hc.
  destruct (init_ok msg); [|destruct Hc as (e & Hc); rewrite Hc in E; by injection E as <- <-].
  rewrite Hc in E. unfold reply, fd_Write in E. injection E as _ <-.
  destruct (init_fields (unique_of (take (inHeaderSize + initInSize) msg)) (init_reply i 131072))
    as (Hlen & Hst & Hma & Hmi & Hfl & Hmw & Hpg).
  set (m := reply_msg _ _ _) in *. eexists m, _. split; [done|]. split; [done|].
  cbn [maxWrite bufSize]. rewrite Hlen, Hst, Hma, Hmi, Hfl, Hmw, Hpg. split.
  { unfold m. rewrite reply_msg_unique by apply unique_of_range.
    apply le_at_take. unfold inHeaderSize. lia. }
  do 3 (split; [done|]). split.
  { pose proof (le_at_range 4 4 (drop inHeaderSize (take (inHeaderSize + initInSize) msg))) as Hr.
    change (le_at 4 4 _) with (ii_Minor i) in Hr. cbn [init_reply io_Minor].
    destruct (Z.ltb_spec 28 (ii_Minor i)); unfold u32, two32; rewrite Z.mod_small; lia. }
  split; [|done]. intros k Hk Hb. cbn [init_reply io_Flags] in Hb.
  unfold u32, two32 in Hb. change 4294967296 with (2 ^ 32) in Hb.
  rewrite Z.mod_pow2_bits_low, Z.land_spec in Hb by lia. by apply andb_true_iff in Hb as [_ ?].
Qed.

(** The notification that should put data in the kernel's cache announces none:
    [InodeNotifyStoreCache] copies 16 of the 24 bytes of its struct, so that the
    size in the message is 0 for any data, while the data follows it. *)
Theorem store_cache_no_size ino off data s o s' :
  InodeNotifyStoreCache ino off data s = (o, s') ->
  exists m r, fd_log s' = fd_log s ++ [(m, r)] /\
    le_at 16 8 m = u64 ino /\ le_at 24 8 m = u64 off /\ le_at 32 4 m = 0 /\
    drop 40 m = data /\ le_at 0 4 m = u32 (Z.of_nat (length m)).
Proof.
  unfold InodeNotifyStoreCache. set (m := notify_msg _ _ _ _). intros [= _ <-].
  exists m, (default None (head (fd_faults s))). split; [done|]. subst m.
  assert (take 16 (notifyStoreOut_bytes ino off (Z.of_nat (length data))) =
    le_put 8 ino ++ le_put 8 off) as -> by reflexivity.
  change (replicate 8 Byte.x00) with (le_put 8 0).
  unfold notify_msg, outHeader_bytes. rewrite <-!app_assoc.
  split; [by le_field|]. split; [by le_field|]. split; [by le_field|]. split.
  - do 6 (rewrite drop_app_ge by (rewrite length_le_put; lia); rewrite length_le_put; cbn [Nat.sub]).
    done.
  - rewrite le_at_put. unfold u32. f_equal.
Qed.
End theorems.
