(* ===== verification/Strconv.v ===== *)
(** * Strconv: numbers as text

    [strconv.Itoa], [strconv.Atoi] and the verbs ["%d"] and ["%o"], as the
    source uses them. *)

From S2P Require Import Prelude GoLib Collate.
Local Open Scope Z_scope.

Definition digit_char (d : Z) : byte := z2b (48 + d).

(** The digits of [z >= 0], in front of [acc]; a 64-bit number has at most 64. *)
Fixpoint fmt_digits (fuel : nat) (base z : Z) (acc : bytes) : bytes :=
  match fuel with
  | O => acc
  | S fuel =>
      let acc := digit_char (z mod base) :: acc in
      if z <? base then acc else fmt_digits fuel base (z / base) acc
  end.
Definition format_int (base z : Z) : bytes :=
  if z <? 0 then str "-" ++ fmt_digits 64 base (- z) [] else fmt_digits 64 base z [].
Definition Itoa (z : Z) : bytes := format_int 10 z.
Definition format_octal (z : Z) : bytes := format_int 8 z.

Definition ErrSyntax : error := ErrNew (str "strconv.Atoi: invalid syntax").
Definition ErrRange : error := ErrNew (str "strconv.Atoi: value out of range").

(** [Atoi]: an optional sign, then decimal digits only; an [int] has 64 bits. *)
Definition parse_digits (ds : bytes) : outcome Z :=
  if negb (forallb is_digit ds) || (length ds =? 0)%nat then Err ErrSyntax
  else Ok (digits_value ds).
Definition in_int (z : Z) : outcome Z :=
  if (- two63 <=? z) && (z <? two63) then Ok z else Err ErrRange.
Definition Atoi (s : bytes) : outcome Z :=
  match s with
  | c :: ds =>
      if bool_decide (c = Byte.x2d) then v ← parse_digits ds; in_int (- v)
      else if bool_decide (c = Byte.x2b) then v ← parse_digits ds; in_int v
      else v ← parse_digits s; in_int v
  | [] => Err ErrSyntax
  end.

Example Itoa_1 : Itoa 0 = str "0". Proof. reflexivity. Qed.
Example Itoa_2 : Itoa (-120) = str "-120". Proof. reflexivity. Qed.
Example octal_1 : format_octal 0x4000 = str "40000". Proof. reflexivity. Qed.
Example Atoi_1 : Atoi (str "-12") = Ok (-12). Proof. reflexivity. Qed.
Example Atoi_2 : Atoi (str "1_2") = Err ErrSyntax. Proof. reflexivity. Qed.
Example Atoi_3 : Atoi (str "9223372036854775808") = Err ErrRange. Proof. reflexivity. Qed.

(** ** Parsing what was printed *)

Lemma b2z_digit_char d : 0 <= d < 10 -> b2z (digit_char d) = 48 + d.
Proof. intros ?. unfold digit_char. rewrite b2z_z2b. apply Z.mod_small. lia. Qed.

Lemma digit_char_digit d : 0 <= d < 10 -> is_digit (digit_char d) = true.
Proof.
  intros ?. unfold is_digit. rewrite b2z_digit_char by done.
  by rewrite (proj2 (Z.leb_le _ _)), (proj2 (Z.leb_le _ _)) by lia.
Qed.

Lemma digits_value_snoc ds d : digits_value (ds ++ [d]) = 10 * digits_value ds + (b2z d - 48).
Proof. unfold digits_value. by rewrite foldl_app. Qed.

Lemma fmt_digits_spec fuel z acc :
  (0 < fuel)%nat -> 0 <= z < 10 ^ Z.of_nat fuel ->
  exists ds, fmt_digits fuel 10 z acc = ds ++ acc /\ ds <> [] /\
    forallb is_digit ds = true /\ digits_value ds = z.
Proof.
  revert z acc. induction fuel as [|fuel IH]; intros z acc Hf Hz; [lia|]. cbn [fmt_digits].
  pose proof (Z.mod_pos_bound z 10 ltac:(lia)) as Hm.
  destruct (Z.ltb_spec z 10).
  - exists [digit_char (z mod 10)]. split; [done|]. split; [done|]. split.
    + cbn. by rewrite digit_char_digit.
    + unfold digits_value. cbn [foldl]. rewrite b2z_digit_char by done. rewrite Z.mod_small; lia.
  - rewrite Nat2Z.inj_succ, Z.pow_succ_r in Hz by lia.
    destruct fuel as [|fuel]; [cbn in Hz; lia|].
    destruct (IH (z / 10) (digit_char (z mod 10) :: acc)) as (ds & E & Hne & Hd & Hv); [lia| |].
    { split; [apply Z.div_pos; lia|]. apply Z.div_lt_upper_bound; lia. }
    exists (ds ++ [digit_char (z mod 10)]). rewrite E, <-app_assoc. split; [done|].
    split; [by destruct ds|]. split.
    + by rewrite forallb_app, Hd; cbn; rewrite digit_char_digit.
    + rewrite digits_value_snoc, Hv, b2z_digit_char by done.
      pose proof (Z.div_mod z 10 ltac:(lia)). lia.
Qed.

Lemma parse_fmt z :
  0 <= z <= two63 ->
  exists c ds, fmt_digits 64 10 z [] = c :: ds /\ is_digit c = true /\ parse_digits (c :: ds) = Ok z.
Proof.
  intros Hz. destruct (fmt_digits_spec 64 z []) as (ds & -> & Hne & Hd & Hv); [lia| |].
  { split; [lia|]. eapply Z.le_lt_trans; [apply Hz|]. reflexivity. }
  rewrite app_nil_r. destruct ds as [|c ds]; [done|]. exists c, ds. split; [done|].
  split; [by apply andb_true_iff in Hd as [? _]|]. unfold parse_digits. by rewrite Hd, <-Hv.
Qed.

(** What [Itoa] prints, [Atoi] reads back. *)
Lemma Atoi_Itoa z : - two63 <= z < two63 -> Atoi (Itoa z) = Ok z.
Proof.
  intros Hz. unfold Itoa, format_int. destruct (Z.ltb_spec z 0).
  - destruct (parse_fmt (- z)) as (c & ds & -> & _ & Hp); [lia|].
    change (Atoi _) with (v ← parse_digits (c :: ds); in_int (- v)). rewrite Hp. cbn.
    unfold in_int. by rewrite Z.opp_involutive, (proj2 (Z.leb_le _ _)), (proj2 (Z.ltb_lt _ _)) by lia.
  - destruct (parse_fmt z) as (c & ds & -> & Hc & Hp); [lia|]. unfold Atoi.
    rewrite !bool_decide_eq_false_2 by (by intros ->). rewrite Hp. cbn.
    unfold in_int. by rewrite (proj2 (Z.leb_le _ _)), (proj2 (Z.ltb_lt _ _)) by lia.
Qed.

Lemma Itoa_not_nil z : - two63 <= z < two63 -> Itoa z <> [].
Proof. intros Hz E. pose proof (Atoi_Itoa z Hz) as Ha. by rewrite E in Ha. Qed.
