(* ===== verification/Size.v ===== *)
(** * Size: sizes for people

    [formatSize] of [apkgdb/export.go].  Its [float32] is written out: the
    conversion rounds to 24 significant bits, halves to even, and the divisions by
    1024 are exact. *)

From S2P Require Import Prelude GoLib Collate Strconv.
Local Open Scope Z_scope.

(** ** Definitions *)

(** [n / d] to the nearest integer, halves to even. *)
Definition div_even (n d : Z) : Z :=
  let q := n / d in
  let r := n mod d in
  if (d <? 2 * r) || (2 * r =? d) && Z.odd q then q + 1 else q.

(** [float32(v)] of a [uint64]: 24 bits are kept. *)
Definition to_float32 (v : Z) : Z :=
  let e := 2 ^ Z.max 0 (Z.log2 v - 23) in div_even v e * e.

Definition siz : list (bytes * Z) := [
  (str "B", 1); (str "kiB", 1024); (str "MiB", 1024);
  (str "GiB", 1024); (str "TiB", 1024); (str "PiB", 1024)].

(** The loop on [vf], which is [m / d]; with the last unit. *)
Fixpoint size_loop (m d : Z) (l : list (bytes * Z)) (last : bytes * Z) : Z * (bytes * Z) :=
  match l with
  | [] => (d, last)
  | i :: l => if 2 * m <? 3 * i.2 * d then (d, last) else size_loop m (d * i.2) l i
  end.

(** ["%.2f"] of [h / 100]. *)
Definition format_hundredths (h : Z) : bytes :=
  Itoa (h / 100) ++ str "." ++ [digit_char (h mod 100 / 10); digit_char (h mod 10)].

Definition formatSize (v : Z) : bytes :=
  if v =? 0 then str "0 B"
  else
    let m := to_float32 v in
    let '(d, last) := size_loop m 1 siz (str "B", 1) in
    if 1 <? last.2 then format_hundredths (div_even (100 * m) d) ++ str " " ++ last.1
    else Itoa (div_even m d) ++ str " " ++ last.1.

Example size_1 : formatSize 1 = str "1 B". Proof. reflexivity. Qed.
Example size_2 : formatSize 1536 = str "1.50 kiB". Proof. reflexivity. Qed.
Example size_3 : formatSize 1048576 = str "1024.00 kiB". Proof. reflexivity. Qed.
Example size_4 : formatSize (two64 - 1) = str "16384.00 PiB". Proof. reflexivity. Qed.

(** ** What is printed is close to the size *)

Lemma div_even_bound n d : 0 < d -> Z.abs (2 * (div_even n d * d - n)) <= d.
Proof.
  intros Hd. unfold div_even. pose proof (Z.div_mod n d ltac:(lia)). pose proof (Z.mod_pos_bound n d Hd).
  destruct ((d <? 2 * (n mod d)) || (2 * (n mod d) =? d) && Z.odd (n / d)) eqn:E; [|].
  - assert (d <= 2 * (n mod d)).
    { apply orb_true_iff in E as [E%Z.ltb_lt|[E%Z.eqb_eq _]%andb_true_iff]; lia. } nia.
  - apply orb_false_iff in E as [E%Z.ltb_ge _]. nia.
Qed.

(** Below 2{^24} the conversion is exact; above, it errs by 2{^-24} at most. *)
Lemma to_float32_bound v : 0 < v -> Z.abs (2 ^ 24 * (to_float32 v - v)) <= v.
Proof.
  intros Hv. unfold to_float32. set (x := Z.log2 v).
  pose proof (Z.log2_spec v Hv) as [Hlo _]. fold x in Hlo. pose proof (Z.log2_nonneg v) as Hx. fold x in Hx.
  destruct (Z.le_gt_cases x 23) as [Hs|Hs].
  - rewrite Z.max_l by lia. unfold div_even. rewrite Z.pow_0_r, Z.div_1_r, Z.mod_1_r. cbn [Z.ltb Z.mul Z.compare Z.eqb andb orb Z.odd].
    rewrite andb_false_l, Z.mul_1_r, Z.sub_diag. lia.
  - rewrite Z.max_r by lia. set (e := 2 ^ (x - 23)).
    assert (2 ^ x = 2 ^ 23 * e) as Ex by (unfold e; rewrite <-Z.pow_add_r by lia; f_equal; lia).
    assert (0 < e) by (apply Z.pow_pos_nonneg; lia).
    pose proof (div_even_bound v e ltac:(done)). set (p := div_even v e * e) in *.
    change (2 ^ 24) with 16777216. change (2 ^ 23) with 8388608 in Ex. lia.
Qed.

Lemma size_loop_pos m d l last : 0 < d -> Forall (fun i => 0 < i.2) l -> 0 < (size_loop m d l last).1.
Proof.
  intros Hd Hl. revert d last Hd. induction Hl as [|i l Hi Hl IH]; cbn; intros d last Hd; [done|].
  destruct (_ <? _); [done|]. apply IH. lia.
Qed.

(** With a unit above bytes the loop has divided. *)
Lemma size_loop_unit m l d i :
  1 < i.2 -> Forall (fun i => 1 < i.2) l -> 1 < (size_loop m d l i).2.2.
Proof.
  intros Hi Hl. revert d i Hi. induction Hl as [|j l Hj Hl IH]; cbn; intros d i Hi; [done|].
  destruct (_ <? _); [done|]. by apply IH.
Qed.

(** In bytes it has not. *)
Lemma size_loop_bytes m :
  (size_loop m 1 siz (str "B", 1)).2.2 <= 1 ->
  size_loop m 1 siz (str "B", 1) = (1, (str "B", 1)) /\ m < 1536.
Proof.
  cbn [size_loop siz snd].
  destruct (2 * m <? 3 * 1 * 1) eqn:E1; [apply Z.ltb_lt in E1; split; [done|lia]|].
  destruct (2 * m <? 3 * 1024 * (1 * 1)) eqn:E2; [apply Z.ltb_lt in E2; split; [done|lia]|].
  match goal with |- context [if ?b then _ else _] => set (c := b) end.
  intros El. exfalso. revert El. apply Z.lt_nge. destruct c; [cbn; lia|].
  apply (size_loop_unit m [(str "GiB", 1024); (str "TiB", 1024); (str "PiB", 1024)]); [cbn; lia|].
  repeat constructor.
Qed.

(** The divisor is the one of the unit. *)
Definition units : list (bytes * Z) := [
  (str "B", 1); (str "kiB", 2 ^ 10); (str "MiB", 2 ^ 20);
  (str "GiB", 2 ^ 30); (str "TiB", 2 ^ 40); (str "PiB", 2 ^ 50)].

Lemma size_loop_units m :
  let r := size_loop m 1 siz (str "B", 1) in (r.2.1, r.1) ∈ units.
Proof.
  cbn [size_loop siz snd].
  repeat (case_match; [apply (bool_decide_unpack _); vm_compute; exact I|]).
  apply (bool_decide_unpack _); vm_compute; exact I.
Qed.

(** A number of bytes below 1536 is printed exactly; otherwise the printed hundredths
    of the unit are off by at most half a hundredth and what the 24 bits lose. *)
Lemma formatSize_close v :
  0 < v ->
  exists h d u, (u, d) ∈ units /\ Z.abs (2 * (h * d - 100 * to_float32 v)) <= d /\
    Z.abs (2 ^ 24 * (to_float32 v - v)) <= v /\
    (formatSize v = format_hundredths h ++ str " " ++ u \/
     formatSize v = Itoa v ++ str " B" /\ v < 1536).
Proof.
  intros Hv. pose proof (to_float32_bound v Hv) as Hf. change (2 ^ 24) with 16777216 in *.
  pose proof (size_loop_pos (to_float32 v) 1 siz (str "B", 1) ltac:(lia)
    ltac:(repeat constructor; cbn; lia)) as Hd.
  pose proof (size_loop_units (to_float32 v)) as Hu.
  unfold formatSize. rewrite (proj2 (Z.eqb_neq v 0)) by lia.
  destruct (size_loop (to_float32 v) 1 siz (str "B", 1)) as [d last] eqn:E. cbn [fst snd] in Hd, Hu.
  exists (div_even (100 * to_float32 v) d), d, last.1.
  split; [done|]. split; [by apply div_even_bound|]. split; [done|].
  destruct (1 <? last.2) eqn:El; [by left|right].
  apply Z.ltb_ge in El. destruct (size_loop_bytes (to_float32 v)) as [E2 Hm]; [by rewrite E|].
  rewrite E in E2. injection E2 as -> ->.
  assert (to_float32 v = v) as -> by lia.
  split; [|lia]. f_equal. f_equal. unfold div_even. rewrite Z.div_1_r, Z.mod_1_r. done.
Qed.
