(* ===== verification/Replies.v ===== *)
(** * Replies: the type of an answer

    The raw protocol is typed by the opcode: the kernel takes an answer only
    when its length is the length of the message, its status is an error number
    or zero, and its payload is the struct of the request's operation or, for
    the operations that transfer data, at most what was asked for.  This file
    states that type and shows that the server only writes answers of it
    ([replies_typed]), over what the file system promises ([InodeTyped]). *)

From S2P Require Import Prelude GoLib Proto Fuse Serve.
Local Open Scope Z_scope.

(** ** What the code outside promises *)

(** The sizes of go-fuse's structs, which are those of the kernel. *)
Class FuseSizes `{FuseTypes} := {
  size_entry e : length (entryOutBytes e) = 128%nat;
  size_attr a : length (attrOutBytes a) = 104%nat;
  size_open f : length (openOutBytes f) = 16%nat;
  size_statfs s : length (statfsOutBytes s) = 80%nat;
}.

(** An error number of the system is between 1 and 4095. *)
Definition errno_ok (e : error) : Prop :=
  match e with ErrErrno n => 0 < n < 4096 | _ => True end.

(** [m] returns a value with [P], or an error the kernel knows. *)
Definition gives {S A} (m : ST S A) (P : A -> Prop) : Prop := forall s,
  match m s with
  | (Ok a, _) => P a
  | (Err e, _) => errno_ok e
  | (Panic, _) => True
  end.

(** What an implementation of [Inode] and [RootInode] promises the server: its
    errors are known, a target fits a page, and no more is read than asked. *)
Class InodeTyped `{InodeOps} := {
  ty_GetInode n : gives (i_GetInode n) (fun _ => True);
  ty_StatFs : gives i_StatFs (fun _ => True);
  ty_Lookup i pid name : gives (i_Lookup i pid name) (fun _ => True);
  ty_FillAttr i a : gives (i_FillAttr i a) (fun _ => True);
  ty_Readlink i : gives (i_Readlink i) (fun t => (length t < 4096)%nat);
  ty_Open i flags : gives (i_Open i flags) (fun _ => True);
  ty_OpenDir i : gives (i_OpenDir i) (fun _ => True);
  ty_ReadDir i nodeid off size plus : 0 <= size ->
    gives (i_ReadDir i nodeid off size plus) (fun l => Z.of_nat (length l) <= size);
  ty_ReadAt i readAt n off : i_ReadAt i = Some readAt ->
    gives (readAt n off) (fun r =>
      (length r.1 <= n)%nat /\ forall e, r.2 = Some e -> errno_ok e);
}.

Lemma toErrno_range e : errno_ok e -> 0 < toErrno e < 4096.
Proof. destruct e; cbn; unfold ENOENT, EPERM, EINVAL, EEXIST, EIO; lia. Qed.

(** ** The type of an answer *)

(** The number of bytes a request asks for: the field [Size] of [ReadIn]. *)
Definition asked (req : bytes) : Z := le_at 16 4 (drop inHeaderSize req).

(** The payload of a successful answer. *)
Definition payload_ok (op size n : Z) : Prop :=
  if op =? opLookup then n = 128
  else if op =? opGetattr then n = 104
  else if (op =? opOpen) || (op =? opOpendir) then n = 16
  else if op =? opStatfs then n = 80
  else if op =? opReadlink then n < 4096
  else if (op =? opRead) || (op =? opReaddir) || (op =? opReaddirplus) then n <= size
  else n = 0.

Definition msg_length (m : bytes) : Z := le_at 0 4 m.

Definition answer_ok (req msg : bytes) : Prop :=
  msg_length msg = Z.of_nat (length msg) /\ msg_unique msg = unique_of req /\
  (-4096 < msg_status msg < 0 /\ length msg = outHeaderSize \/
   msg_status msg = 0 /\
   payload_ok (ih_Opcode (parse_inHeader req)) (asked req) (Z.of_nat (length msg - outHeaderSize))).

(** A request the kernel makes: it asks for at most the pages of the handshake. *)
Definition request_ok (req : bytes) : Prop :=
  ih_Opcode (parse_inHeader req) ∈ [opRead; opReaddir; opReaddirplus] -> asked req <= 131072.

(** *** Messages *)

Lemma length_reply u st pl : length (reply_msg u st pl) = (outHeaderSize + length pl)%nat.
Proof. unfold reply_msg, outHeader_bytes. rewrite !length_app, !length_le_put. unfold outHeaderSize; lia. Qed.

Lemma reply_length u st pl :
  Z.of_nat (length pl) < 2 ^ 31 -> msg_length (reply_msg u st pl) = Z.of_nat (length (reply_msg u st pl)).
Proof.
  intros Hl. rewrite length_reply. unfold msg_length. le_field.
  rewrite Z.mod_small; [done|]. unfold outHeaderSize. change (256 ^ Z.of_nat 4) with (2 ^ 32). lia.
Qed.

Lemma reply_status u st pl : 0 <= st < 4096 -> msg_status (reply_msg u st pl) = - st.
Proof.
  intros Hs. unfold msg_status. le_field. change (256 ^ Z.of_nat 4) with two32. unfold i32, u32.
  rewrite Z.mod_mod by done. destruct (decide (st = 0)) as [->|Hn]; [done|].
  assert ((- st) mod two32 = two32 - st) as ->.
  { symmetry. apply Z.mod_unique with (-1); [left|]; unfold two32; lia. }
  rewrite (proj2 (Z.ltb_ge _ _)) by (unfold two32; lia). lia.
Qed.

(** ** Handlers *)

Section typed.
Context `{FuseTypes, InodeOps}.

(** The handler answers with a message that has [P], and writes nothing else. *)
Definition answers (P : bytes -> Prop) (hd : ST FuseServer unit) : Prop := forall s o s',
  hd s = (o, s') ->
  o = Panic \/ o = Ok tt /\ exists msg r, logged s [(msg, r)] s' /\ P msg.

Lemma answers_send P msg : P msg -> answers P (send (fd_Write msg)).
Proof.
  intros Hm s o s'. rewrite send_write. intros [= <- <-]. right. split; [done|].
  by exists msg, (default None (head (fd_faults s))).
Qed.

Lemma answers_same P s1 s o s' hd :
  answers P hd -> fd_log s1 = fd_log s -> bufSize s1 = bufSize s -> maxWrite s1 = maxWrite s ->
  hd s1 = (o, s') -> o = Panic \/ o = Ok tt /\ exists msg r, logged s [(msg, r)] s' /\ P msg.
Proof. intros Hh El Eb Em E. unfold logged. rewrite <-El, <-Eb, <-Em. by eapply Hh. Qed.

Lemma answers_orReply {A} P u (m : ST PkgFS A) Q k :
  gives m Q -> (forall e, errno_ok e -> P (reply_msg u (toErrno e) [])) ->
  (forall a, Q a -> answers P (k a)) -> answers P (orReply u m k).
Proof.
  intros Hm He Hk s o s' E. unfold orReply, in_fs in E. specialize (Hm (fs s)).
  destruct (m (fs s)) as [[a|e|] p].
  - eapply answers_same; [by apply Hk| | | |exact E]; done.
  - eapply answers_same; [by apply answers_send, He| | | |exact E]; done.
  - left. congruence.
Qed.

Lemma answers_fs {A} P (m : ST PkgFS A) (k : A -> ST FuseServer unit) :
  (forall p, match fst (m p) with Err _ => False | _ => True end) ->
  (forall a, answers P (k a)) -> answers P (in_fs m ≫= k).
Proof.
  intros Hm Hk s o s'. munfold. unfold in_fs. specialize (Hm (fs s)).
  destruct (m (fs s)) as [[a|e|] p]; [|done|intros [= <- <-]; by left].
  intros E. eapply answers_same; [by apply Hk| | | |exact E]; done.
Qed.

Lemma answers_if P (b : bool) h1 h2 : answers P h1 -> answers P h2 -> answers P (if b then h1 else h2).
Proof. by destruct b. Qed.

Lemma gives_mono {S A} (m : ST S A) (P Q : A -> Prop) : (forall a, P a -> Q a) -> gives m P -> gives m Q.
Proof. intros Hpq Hm s. specialize (Hm s). destruct (m s) as [[a|e|] s']; auto. Qed.

Lemma gives_on_w {A} (m : ST fsW A) P : gives m P -> gives (on_w m) P.
Proof. intros Hm p. unfold on_w. specialize (Hm (pf_w p)). by destruct (m (pf_w p)) as [[a|e|] w]. Qed.

Lemma gives_getInode `{!InodeTyped} n : gives (getInode n) (fun _ => True).
Proof.
  intros p. unfold getInode. destruct (n =? 1); [done|]. munfold.
  destruct (getInodeCache n p); [done|]. apply (gives_on_w _ _ (ty_GetInode n)).
Qed.

Lemma answers_lift {A} P (a : A) k : answers P (k a) -> answers P (lift_st (Ok a) ≫= k).
Proof. done. Qed.

(** *** The answers of a request *)

Context `{!FuseSizes, !InodeTyped}.

Section request.
Context (req : bytes) (Hreq : request_ok req).
Let h : fuseInHeader := parse_inHeader req.
Let body : bytes := drop inHeaderSize req.

Lemma ok_status st : 0 < st < 4096 -> answer_ok req (reply_msg (unique_of req) st []).
Proof.
  intros Hs. split; [by apply reply_length|]. split; [apply reply_msg_unique, unique_of_range|].
  left. rewrite reply_status by lia. rewrite length_reply. split; [lia|done].
Qed.

Lemma ok_reply pl :
  Z.of_nat (length pl) < 2 ^ 31 -> payload_ok (ih_Opcode h) (asked req) (Z.of_nat (length pl)) ->
  answer_ok req (reply_msg (unique_of req) 0 pl).
Proof.
  intros Hl Hp. split; [by apply reply_length|]. split; [apply reply_msg_unique, unique_of_range|].
  right. rewrite reply_status by lia. rewrite length_reply. split; [done|].
  by replace (outHeaderSize + length pl - outHeaderSize)%nat with (length pl) by lia.
Qed.

Lemma answers_status st : 0 < st < 4096 -> answers (answer_ok req) (send (replyStatus (ih_Unique h) st)).
Proof. intros ?. by apply answers_send, ok_status. Qed.

Lemma answers_done pl :
  Z.of_nat (length pl) < 2 ^ 31 -> payload_ok (ih_Opcode h) (asked req) (Z.of_nat (length pl)) ->
  answers (answer_ok req) (send (reply (ih_Unique h) 0 pl)).
Proof. intros ? ?. by apply answers_send, ok_reply. Qed.

Lemma answers_or {A} (m : ST PkgFS A) Q k :
  gives m Q -> (forall a, Q a -> answers (answer_ok req) (k a)) ->
  answers (answer_ok req) (orReply (ih_Unique h) m k).
Proof.
  intros Hm Hk. eapply answers_orReply; [exact Hm| |exact Hk].
  intros e He. by apply ok_status, toErrno_range.
Qed.

Lemma answers_inode k :
  (forall i, answers (answer_ok req) (k i)) ->
  answers (answer_ok req) (orReply (ih_Unique h) (getInode (ih_NodeId h)) k).
Proof. intros Hk. eapply answers_or; [apply gives_getInode|auto]. Qed.

Ltac payload := unfold payload_ok; match goal with E : ih_Opcode h = _ |- _ => rewrite E end; cbn -[Z.of_nat Z.lt Z.le asked]; lia.
(** The next call on the inode, by the promise [P] about it. *)
Ltac next P := eapply answers_or; [apply gives_on_w, P|]; intros ? ?; cbv beta in *.

Lemma doLookup_typed : ih_Opcode h = opLookup -> answers (answer_ok req) (doLookup h body).
Proof.
  intros Eo. apply answers_inode. intros i. next ty_Lookup. eapply answers_or; [apply gives_getInode|].
  intros si _. apply answers_fs; [intros q; unfold on_ref; by destruct (i_AddRef _ _ _)|]. intros _.
  apply answers_fs; [intros q; pose proof (addToCache_no_err a si q); by destruct (addToCache a si q) as [[]]|].
  intros _. next ty_FillAttr. apply answers_done; rewrite size_entry; [done|payload].
Qed.

Lemma doGetAttr_typed : ih_Opcode h = opGetattr -> answers (answer_ok req) (doGetAttr h body).
Proof.
  intros Eo. apply answers_inode. intros i. next ty_FillAttr.
  apply answers_done; rewrite size_attr; [done|payload].
Qed.

Lemma doReadlink_typed : ih_Opcode h = opReadlink -> answers (answer_ok req) (doReadlink h body).
Proof.
  intros Eo. apply answers_inode. intros i. next ty_Readlink. apply answers_done; [lia|payload].
Qed.

Lemma doOpen_typed : ih_Opcode h = opOpen -> answers (answer_ok req) (doOpen h body).
Proof.
  intros Eo. apply answers_if; [by apply answers_status|].
  apply answers_if; [by apply answers_status|].
  apply answers_inode. intros i. next ty_Open. apply answers_done; rewrite size_open; [done|payload].
Qed.

Lemma doRead_typed : ih_Opcode h = opRead -> answers (answer_ok req) (doRead h body).
Proof.
  intros Eo. apply answers_if; [by apply answers_status|].
  assert (asked req <= 131072) as Hsz by (apply Hreq; fold h; rewrite Eo; set_solver). pose proof (le_at_range 16 4 body) as [Hpos _].
  change (le_at 16 4 body) with (asked req) in Hpos.
  destruct (decide (20 <= length body)%nat) as [Hlen|Hlen].
  2: { intros s o s'. unfold slice. munfold. repeat case_decide; try lia; intros ?; simplify_eq; by left. }
  rewrite !slice_le_at by lia. change (le_at 16 (20 - 16) body) with (asked req). apply answers_lift, answers_lift.
  apply answers_inode. intros i. destruct (i_ReadAt i) as [readAt|] eqn:Er; [|by apply answers_status].
  eapply answers_or; [apply gives_on_w, (ty_ReadAt _ _ _ _ Er)|]. intros [buf err] [Hl He]. cbn [fst snd] in Hl, He.
  apply answers_if; [apply answers_done; [lia|payload]|].
  destruct err as [e|]; [by apply answers_status, toErrno_range, He|apply answers_done; [done|payload]].
Qed.

Lemma doStatFs_typed : ih_Opcode h = opStatfs -> answers (answer_ok req) (doStatFs h body).
Proof. intros Eo. next ty_StatFs. apply answers_done; rewrite size_statfs; [done|payload]. Qed.

Lemma doOpenDir_typed : ih_Opcode h = opOpendir -> answers (answer_ok req) (doOpenDir h body).
Proof.
  intros Eo. apply answers_inode. intros i. apply answers_if; [by apply answers_status|].
  next ty_OpenDir. apply answers_done; rewrite size_open; [done|payload].
Qed.

Lemma doReadDir_typed plus :
  ih_Opcode h = opReaddir \/ ih_Opcode h = opReaddirplus -> answers (answer_ok req) (doReadDir h body plus).
Proof.
  intros Eo. apply answers_if; [by apply answers_status|].
  assert (asked req <= 131072) as Hsz by (apply Hreq; fold h; destruct Eo as [->| ->]; set_solver).
  apply answers_inode. intros i. apply answers_if; [by apply answers_status|].
  pose proof (le_at_range 16 4 body) as [Hpos _].
  change (le_at 16 4 body) with (asked req) in Hpos |- *.
  eapply answers_or; [apply gives_on_w, ty_ReadDir, Hpos|]. intros l Hl. cbv beta in Hl.
  apply answers_done; [lia|]. destruct Eo; payload.
Qed.

Lemma doAccess_typed : ih_Opcode h = opAccess -> answers (answer_ok req) (doAccess h body).
Proof.
  intros Eo. repeat first [apply answers_if; [by apply answers_status|]].
  apply answers_if; [apply answers_done; [done|payload]|]. apply answers_inode. intros i.
  apply answers_if; [by apply answers_status|apply answers_done; [done|payload]].
Qed.

Lemma handleRequest_typed : replied req = true -> answers (answer_ok req) (handleRequest req).
Proof.
  unfold replied, awaits, dropped, handleRequest. fold h body.
  intros [Hn%negb_true_iff%bool_decide_eq_false Hd%negb_true_iff%bool_decide_eq_false]%andb_true_iff.
  assert (ih_Opcode h ∉ no_reply_ops ++ dropped_ops) as Ha by set_solver. set_unfold in Ha.
  repeat (match goal with |- answers _ (if ?op =? ?o then _ else _) => destruct (Z.eqb_spec op o) as [Eo|] end;
    [first [exfalso; tauto|by apply doLookup_typed|by apply doGetAttr_typed|by apply doReadlink_typed
      |by apply doOpen_typed|by apply doRead_typed]|]).
  destruct (bool_decide_reflect (ih_Opcode h ∈ silent_ops)) as [Hs|_].
  { exfalso. unfold silent_ops in Hs. set_unfold in Hs. tauto. }
  repeat (match goal with |- answers _ (if ?op =? ?o then _ else _) => destruct (Z.eqb_spec op o) as [Eo|] end;
    [first [by apply doStatFs_typed|by apply doOpenDir_typed|by apply doReadDir_typed; auto|by apply doAccess_typed]|]).
  destruct (bool_decide_reflect (ih_Opcode h ∈ flush_ops)) as [Hs|_].
  { apply answers_done; [done|]. unfold flush_ops in Hs. set_unfold in Hs.
    destruct_or!; payload. }
  repeat (match goal with |- answers _ (if ?op =? ?o then _ else _) => destruct (Z.eqb_spec op o) as [Eo|] end;
    [exfalso; tauto|]).
  apply answers_if; by apply answers_status.
Qed.
End request.

(** ** The event loop *)

(** Some accepted request has this answer. *)
Definition answers_one (reqs : list bytes) (m : bytes * option error) : Prop :=
  exists req, req ∈ reqs /\ replied req = true /\ answer_ok req m.1.

Lemma typed_inv s tr l :
  serve_steps (start_loop s) tr l -> Forall request_ok (received (Z.to_nat (bufSize s)) tr) ->
  (exists log, logged s log (sv l) /\
     Forall (answers_one (received (Z.to_nat (bufSize s)) tr)) log) /\
  Forall (fun r => r ∈ received (Z.to_nat (bufSize s)) tr) (pending l).
Proof.
  intros Hs. remember (start_loop s) as l0 eqn:E0. set (n := Z.to_nat (bufSize s)).
  induction Hs as [|l1 l2 l3 e tr Hs IH Hstep]; subst.
  { intros _. split; [|by apply Forall_nil]. exists []. split; [|by apply Forall_nil].
    unfold logged. by rewrite app_nil_r. }
  intros Hq. unfold received in *. rewrite bind_app in Hq |- *. apply Forall_app in Hq as [Hq Hqe].
  destruct (IH eq_refl Hq) as ((log & Hlog & Hall) & Hp).
  assert (forall reqs rs : list bytes, Forall (fun r => r ∈ reqs) rs ->
    Forall (fun r => r ∈ reqs ++ ([e] ≫= accepted n)) rs) as Hgrow.
  { intros reqs rs Hrs. eapply Forall_impl; [exact Hrs|]. intros r Hr. apply elem_of_app. by left. }
  assert (forall reqs log, Forall (answers_one reqs) log ->
    Forall (answers_one (reqs ++ ([e] ≫= accepted n))) log) as Hlgrow.
  { intros reqs lg Hlg. eapply Forall_impl; [exact Hlg|]. intros m (r & Hr & Ha).
    exists r. split; [apply elem_of_app; by left|done]. }
  destruct Hstep as [l Hr|l Hr|l e Hr _ _|l data Hr Hsh|l data Hr Hlen
    |l before data after s' Epend Eh|l Hr Epend Ecl]; cbn [sv pending].
  1-4: by split; [exists log; auto|auto].
  - split; [exists log; auto|]. apply Forall_app. split; [by apply Hgrow|].
    apply Forall_singleton, elem_of_app. right. destruct Hlog as (_ & Hb & _).
    unfold recv in *. rewrite Hb in *. fold n in Hlen |- *. cbn [mbind list_bind accepted].
    rewrite (proj2 (Nat.leb_le _ _)) by done.
    rewrite app_nil_r. by apply list_elem_of_singleton.
  - rewrite Epend in Hp. apply Forall_app in Hp as [Hp1 [Hd Hp2]%Forall_cons_1].
    split; [|apply Hgrow, Forall_app; auto].
    assert (exists log', logged (sv l) log' s' /\
      Forall (answers_one (tr ≫= accepted n)) log') as (log' & Hl' & Ha').
    { destruct (replied data) eqn:Ew.
      - pose proof (proj1 (Forall_forall _ _) Hq data Hd) as Hok.
        destruct (handleRequest_typed data Hok Ew _ _ _ Eh) as [|(_ & msg & r & Hl & Hm)]; [done|].
        exists [(msg, r)]. split; [done|]. apply Forall_singleton. by exists data.
      - pose proof (handleRequest_answers data) as Hqt. rewrite Ew in Hqt.
        destruct (Hqt _ _ _ Eh) as [|[_ Hl]]; [done|]. exists []. split; [done|by apply Forall_nil]. }
    exists (log ++ log'). split; [|apply Forall_app; auto]. unfold logged in *.
    destruct Hlog as (El & Eb & Em), Hl' as (-> & -> & ->). by rewrite El, Eb, Em, app_assoc.
  - split; [exists log; auto|by apply Forall_nil].
Qed.

End typed.

(** ** The structs of the kernel, and a file system with one file *)

Module KernelTypes.
Definition attr_bytes (a : Attr) : bytes :=
  le_put 8 (at_Ino a) ++ le_put 8 (at_Size a) ++ le_put 8 (at_Blocks a) ++
  le_put 8 (at_Atime a) ++ le_put 8 (at_Mtime a) ++ le_put 8 (at_Ctime a) ++
  le_put 4 (at_Atimensec a) ++ le_put 4 (at_Mtimensec a) ++ le_put 4 (at_Ctimensec a) ++
  le_put 4 (at_Mode a) ++ le_put 4 (at_Nlink a) ++ le_put 4 (at_Uid a) ++ le_put 4 (at_Gid a) ++
  le_put 4 (at_Rdev a) ++ le_put 4 (at_Blksize a) ++ le_put 4 0.
#[export] Instance fuse_types : FuseTypes := {|
  entryOutBytes e := le_put 8 (eo_NodeId e) ++ le_put 8 (eo_Generation e) ++
    le_put 8 (eo_EntryTimeout e) ++ le_put 8 (eo_AttrTimeout e) ++ le_put 4 0 ++ le_put 4 0 ++
    attr_bytes (eo_Attr e);
  attrOutBytes a := le_put 8 (ao_Timeout a) ++ le_put 4 0 ++ le_put 4 0 ++ attr_bytes (ao_Attr a);
  openOutBytes f := le_put 8 0 ++ le_put 4 f ++ le_put 4 0;
  statfsOutBytes s := le_put 8 (sf_Blocks s) ++ le_put 8 (sf_Bfree s) ++ le_put 8 (sf_Bavail s) ++
    le_put 8 (sf_Files s) ++ le_put 8 (sf_Ffree s) ++ le_put 4 (sf_Bsize s) ++
    le_put 4 (sf_NameLen s) ++ le_put 4 (sf_Frsize s) ++ le_put 4 0 ++ replicate 24 Byte.x00;
  sizeof_ReadIn := 80;
|}.
#[export] Instance fuse_sizes : FuseSizes.
Proof.
  split; intros; cbn [fuse_types entryOutBytes attrOutBytes openOutBytes statfsOutBytes];
    unfold attr_bytes; by rewrite !length_app, !length_le_put.
Qed.

Definition request (op unique node uid : Z) (body : bytes) : bytes :=
  le_put 4 (40 + Z.of_nat (length body)) ++ le_put 4 op ++ le_put 8 unique ++ le_put 8 node ++
  le_put 4 uid ++ le_put 4 0 ++ le_put 4 1 ++ le_put 4 0 ++ body.
End KernelTypes.

(** A root directory (inode 1) with the file [hello] (inode 2). *)
Module SampleReplies.
Import KernelTypes.
Definition contents : bytes := str "hello, world".
#[export] Instance hello_fs : InodeOps := {|
  fsW := unit;
  inode := bool;                                   (* is it the file? *)
  i_root := false;
  i_GetInode n := if n =? 2 then mret true else err_st ErrInvalid;
  i_StatFs := mret zeroStatfs;
  i_Mode i := if i : bool then 0x1a4 else Z.lor ModeDir 0x1ed;
  i_Lookup i _ name := if (negb i && bool_decide (name = str "hello"))%bool then mret 2 else err_st ErrNotExist;
  i_FillAttr _ a := mret a;
  i_Readlink _ := err_st ErrInvalid;
  i_Open i _ := if i : bool then mret 0 else err_st ErrInvalid;
  i_OpenDir i := if i : bool then err_st (ErrErrno ENOTDIR) else mret 0;
  i_ReadDir _ _ _ _ _ := mret [];
  i_ReadAt i := if i : bool then Some (fun n off => mret (take n (drop (Z.to_nat off) contents), None)) else None;
  i_AddRef _ n w := (n, w);
  i_DelRef _ _ w := (0, w);
|}.

#[export] Instance hello_typed : InodeTyped (H := hello_fs).
Proof.
  split; intros; intros w; cbn in *; repeat case_match; simplify_eq/=; unfold ENOTDIR; try done; try lia.
  all: match goal with E : _ = (_, _) |- _ => injection E as <- _ end; cbn; try lia; try done.
  split; [rewrite length_take; lia|done].
Qed.

Definition server : FuseServer := {|
  fs := {| pf_w := tt : @fsW hello_fs; inoCache := ∅ |};
  fd_log := []; fd_faults := []; maxWrite := 131072; bufSize := 131368 |}.
Definition lookup : bytes := request opLookup 7 1 0 (str "hello" ++ [Byte.x00]).
Definition read : bytes := request opRead 8 2 0 (le_put 8 0 ++ le_put 8 7 ++ le_put 4 5 ++ le_put 20 0).
Definition missing : bytes := request opGetattr 9 3 0 (le_put 16 0).

(** Three requests are read, and handled in another order. *)
Definition events : list event :=
  [EvRead (Ok lookup); EvRead (Ok read); EvHandle read; EvRead (Ok missing); EvHandle missing; EvHandle lookup].
Definition after (n : list bytes) (s : FuseServer) : FuseServer := foldl (fun s d => snd (handleRequest d s)) s n.
Definition last : loop := {|
  sv := after [read; missing; lookup] server; reading := true; pending := []; closed := false |}.

Lemma handled d s : fst (handleRequest d s) = Ok tt -> handleRequest d s = (Ok tt, snd (handleRequest d s)).
Proof. destruct (handleRequest d s). cbn. by intros ->. Qed.

Lemma run : serve_steps (start_loop server) events last.
Proof.
  unfold events.
  eapply serve_steps_cons; [by apply step_request; [|vm_compute; lia]|].
  eapply serve_steps_cons; [by apply step_request; [|vm_compute; lia]|].
  eapply serve_steps_cons; [apply (step_handle _ [lookup] read []); [done|apply handled; vm_compute; reflexivity]|].
  eapply serve_steps_cons; [by apply step_request; [|vm_compute; lia]|].
  eapply serve_steps_cons; [apply (step_handle _ [lookup] missing []); [done|apply handled; vm_compute; reflexivity]|].
  eapply serve_steps_cons; [apply (step_handle _ [] lookup []); [done|apply handled; vm_compute; reflexivity]|].
  apply steps_refl.
Qed.

End SampleReplies.
