(* ===== verification/Mount.v ===== *)
(** * Mount: the database as the root of the file system

    [apkgdb/inode.go], [inode_linux.go] and [stat.go] (the [DB] as a
    [RootInode]), the inode of [ld.so.cache], and the symbolic links of
    [apkgfs/inode-symlink.go]: together the [InodeOps] the daemon serves. *)

From S2P Require Import Prelude GoLib Proto Fuse Serve Replies GoPath Sig Collate Natsort OsArch Bolt Store GoTime Pins Ldso Index Export Package Update Unsigned World Lookup.
Local Open Scope Z_scope.

(** ** Outside the repository: the inodes of SquashFS

    [squashfs.Inode]; [sqst] is the state of its objects. *)
Class SquashInodes `{Squashfs} := {
  sqst : Type;
  si_Mode : sqInode -> Z;
  si_Lookup : sqInode -> Z -> bytes -> ST sqst Z;
  si_FillAttr : sqInode -> Attr -> ST sqst Attr;
  si_Readlink : sqInode -> ST sqst bytes;
  si_Open : sqInode -> Z -> ST sqst Z;
  si_OpenDir : sqInode -> ST sqst Z;
  si_ReadDir : sqInode -> Z -> Z -> Z -> bool -> ST sqst bytes;
  si_ReadAt : sqInode -> nat -> Z -> ST sqst (bytes * option error);
  si_AddRef : sqInode -> Z -> sqst -> Z * sqst;
  si_DelRef : sqInode -> Z -> sqst -> Z * sqst;
}.

(** ** The attributes the virtual inodes fill in: the owner is root and the
    times are left as they were, but for the nanoseconds *)
Definition fill_attr (ino size mode : Z) (a : Attr) : Attr := {|
  at_Ino := ino; at_Size := size; at_Blocks := 1; at_Atime := at_Atime a; at_Mtime := at_Mtime a;
  at_Ctime := at_Ctime a; at_Atimensec := 0; at_Mtimensec := 0; at_Ctimensec := 0;
  at_Mode := ModeToUnix mode; at_Nlink := 1; at_Uid := 0; at_Gid := 0; at_Rdev := 1;
  at_Blksize := 4096 |}.

(** ** [apkgfs/inode-symlink.go]: a link is its target *)
Module symlinkInodeObj.
Definition Lookup (name : bytes) : outcome Z := Err ErrInvalid.
Definition Mode : Z := Z.lor ModeSymlink 0x124.
Definition IsDir : bool := false.
Definition Readlink (i : bytes) : outcome bytes := Ok i.
Definition Open (flags : Z) : outcome Z := Err ErrInvalid.
Definition OpenDir : outcome Z := Err ErrInvalid.
Definition ReadDir : outcome bytes := Err ErrInvalid.
Definition AddRef (count : Z) : Z := 1.
Definition DelRef (count : Z) : Z := 0.
(** Unlike the others, it keeps the number and the owner it is given. *)
Definition FillAttr (i : bytes) (a : Attr) : Attr := {|
  at_Ino := at_Ino a; at_Size := Z.of_nat (length i); at_Blocks := 1; at_Atime := at_Atime a;
  at_Mtime := at_Mtime a; at_Ctime := at_Ctime a; at_Atimensec := 0; at_Mtimensec := 0;
  at_Ctimensec := 0; at_Mode := ModeToUnix Mode; at_Nlink := 1; at_Uid := at_Uid a;
  at_Gid := at_Gid a; at_Rdev := 1; at_Blksize := 4096 |}.
End symlinkInodeObj.

Definition ldso_FillAttr (content : bytes) (a : Attr) : Attr :=
  fill_attr 2 (ldsoIno.Size content) ldsoIno.Mode a.

(** [ReadAt] of [ld.so.cache], with the error beside the bytes. *)
Definition ldso_ReadAt (content : bytes) (n : nat) (off : Z) : outcome (bytes * option error) :=
  match ldsoIno.ReadAt content n off with
  | Ok b => Ok (b, None)
  | Err e => Ok ([], Some e)
  | Panic => Panic
  end.

Section Mount.
Context `{BoltOps, LlrbOps, Ldcache, !Json, GoRange, GoSort, Ed25519, Jwt, Squashfs, !SquashInodes, Remote, PkgJson}.

(** ** The [DB] as an inode: [inode.go], [stat.go] *)

Definition db_Mode : Z := Z.lor ModeDir 0x124.
Definition db_IsDir : bool := true.
Definition db_Readlink : outcome bytes := Err ErrInvalid.
Definition db_Open (flags : Z) : outcome Z := Err ErrInvalid.
Definition db_OpenDir : outcome Z := Err ErrPermission.
Definition db_ReadDir : outcome bytes := Err ErrPermission.
Definition db_FillAttr (a : Attr) : Attr := fill_attr 1 4096 db_Mode a.

(** The root object exists: the default is never used. *)
Definition add_refcnt (l : nat) (delta : Z) (w : World) : Z * World :=
  match dbs w !! l with
  | Some d =>
      let v := u64 (refcnt d + delta) in
      (v, set_dbs (<[l := set_refcnt v d]> (dbs w)) w)
  | None => (0, w)
  end.
Definition db_AddRef (l : nat) (count : Z) (w : World) : Z * World := add_refcnt l count w.
(** [^(count - 1)] is the two's complement of [count]. *)
Definition db_DelRef (l : nat) (count : Z) (w : World) : Z * World :=
  add_refcnt l (Z.lnot (count - 1)) w.

(** [Length] takes the read lock. *)
Definition Length (d : DB) : outcome Z :=
  if locked d then Panic
  else match dbptr d with None => Ok 0 | Some _ => Ok (u64 (TxSize (file d))) end.

Definition Inodes (l : nat) : ST World Z := n ← nextInode l; mret (u64 (n - 1)).
Definition PackagesSize : Z := 0.

Definition StatFs (l : nat) : ST World StatfsOut :=
  d ← get_db l;
  len ← lift_st (Length d);
  n ← Inodes l;
  mret {| sf_Blocks := len / 4096 + 1; sf_Bfree := 0; sf_Bavail := 0; sf_Files := u64 (n + 2);
          sf_Ffree := 0; sf_Bsize := 4096; sf_NameLen := 255; sf_Frsize := 4096 |}.

(** ** The file system of the database at [main] *)

Context (env : environ) (main : nat).

Definition fsState : Type := World * sqst.
Definition on_world {A} (m : ST World A) : ST fsState A := fun '(w, q) =>
  let '(o, w) := m w in (o, (w, q)).
Definition on_sq {A} (m : ST sqst A) : ST fsState A := fun '(w, q) =>
  let '(o, q) := m q in (o, (w, q)).

Definition ino_Mode (i : fsInode) : Z :=
  match i with
  | InoRoot _ => db_Mode
  | InoLdso _ _ => ldsoIno.Mode
  | InoPkg (InoSymlink _) => symlinkInodeObj.Mode
  | InoPkg (InoSquash s) => si_Mode s
  end.
Definition ino_Lookup (i : fsInode) (pid : Z) (name : bytes) : ST fsState Z :=
  match i with
  | InoRoot l => on_world (World.Lookup env l name)
  | InoLdso _ _ => lift_st (ldsoIno.Lookup name)
  | InoPkg (InoSymlink _) => lift_st (symlinkInodeObj.Lookup name)
  | InoPkg (InoSquash s) => on_sq (si_Lookup s pid name)
  end.
Definition ino_FillAttr (i : fsInode) (a : Attr) : ST fsState Attr :=
  match i with
  | InoRoot _ => mret (db_FillAttr a)
  | InoLdso _ c => mret (ldso_FillAttr c a)
  | InoPkg (InoSymlink t) => mret (symlinkInodeObj.FillAttr t a)
  | InoPkg (InoSquash s) => on_sq (si_FillAttr s a)
  end.
Definition ino_Readlink (i : fsInode) : ST fsState bytes :=
  match i with
  | InoRoot _ => lift_st db_Readlink
  | InoLdso _ _ => lift_st ldsoIno.Readlink
  | InoPkg (InoSymlink t) => lift_st (symlinkInodeObj.Readlink t)
  | InoPkg (InoSquash s) => on_sq (si_Readlink s)
  end.
Definition ino_Open (i : fsInode) (flags : Z) : ST fsState Z :=
  match i with
  | InoRoot _ => lift_st (db_Open flags)
  | InoLdso _ _ => lift_st (ldsoIno.Open flags)
  | InoPkg (InoSymlink _) => lift_st (symlinkInodeObj.Open flags)
  | InoPkg (InoSquash s) => on_sq (si_Open s flags)
  end.
Definition ino_OpenDir (i : fsInode) : ST fsState Z :=
  match i with
  | InoRoot _ => lift_st db_OpenDir
  | InoLdso _ _ => lift_st ldsoIno.OpenDir
  | InoPkg (InoSymlink _) => lift_st symlinkInodeObj.OpenDir
  | InoPkg (InoSquash s) => on_sq (si_OpenDir s)
  end.
Definition ino_ReadDir (i : fsInode) (nodeid offset size : Z) (plus : bool) : ST fsState bytes :=
  match i with
  | InoRoot _ => lift_st db_ReadDir
  | InoLdso _ _ => lift_st ((fun _ => []) <$> ldsoIno.ReadDir)
  | InoPkg (InoSymlink _) => lift_st symlinkInodeObj.ReadDir
  | InoPkg (InoSquash s) => on_sq (si_ReadDir s nodeid offset size plus)
  end.
Definition ino_ReadAt (i : fsInode) : option (nat -> Z -> ST fsState (bytes * option error)) :=
  match i with
  | InoRoot _ | InoPkg (InoSymlink _) => None
  | InoLdso _ c => Some (fun n off => lift_st (ldso_ReadAt c n off))
  | InoPkg (InoSquash s) => Some (fun n off => on_sq (si_ReadAt s n off))
  end.
Definition ino_AddRef (i : fsInode) (count : Z) : fsState -> Z * fsState := fun '(w, q) =>
  match i with
  | InoRoot l => let '(v, w) := db_AddRef l count w in (v, (w, q))
  | InoLdso _ _ => (ldsoIno.AddRef count, (w, q))
  | InoPkg (InoSymlink _) => (symlinkInodeObj.AddRef count, (w, q))
  | InoPkg (InoSquash s) => let '(v, q) := si_AddRef s count q in (v, (w, q))
  end.
Definition ino_DelRef (i : fsInode) (count : Z) : fsState -> Z * fsState := fun '(w, q) =>
  match i with
  | InoRoot l => let '(v, w) := db_DelRef l count w in (v, (w, q))
  | InoLdso _ _ => (ldsoIno.DelRef count, (w, q))
  | InoPkg (InoSymlink _) => (symlinkInodeObj.DelRef count, (w, q))
  | InoPkg (InoSquash s) => let '(v, q) := si_DelRef s count q in (v, (w, q))
  end.

Definition mounted : InodeOps := {|
  fsW := fsState;
  inode := fsInode;
  i_root := InoRoot main;
  i_GetInode n := on_world (World.GetInode main n);
  i_StatFs := on_world (StatFs main);
  i_Mode := ino_Mode;
  i_Lookup := ino_Lookup;
  i_FillAttr := ino_FillAttr;
  i_Readlink := ino_Readlink;
  i_Open := ino_Open;
  i_OpenDir := ino_OpenDir;
  i_ReadDir := ino_ReadDir;
  i_ReadAt := ino_ReadAt;
  i_AddRef := ino_AddRef;
  i_DelRef := ino_DelRef;
|}.
End Mount.

(** ** What a client of the mount sees *)

Section client.
Context `{FuseTypes, BoltSpec, LlrbSpec, Ldcache, !Json, GoRange, GoSort, Ed25519Spec, Jwt, Squashfs, !SquashInodes, Remote, PkgJson}.
Context (env : environ) (main : nat).

#[local] Instance the_mount : InodeOps := mounted env main.

Definition the_world (s : FuseServer) : World := fst (pf_w (fs s)).

Lemma in_fs_eq {A} (m : ST PkgFS A) s o p :
  m (fs s) = (o, p) -> in_fs m s = (o, with_fs p s).
Proof. unfold in_fs. by intros ->. Qed.

Lemma orReply_Ok {A} u (m : ST PkgFS A) k s a p :
  m (fs s) = (Ok a, p) -> orReply u m k s = k a (with_fs p s).
Proof. intros E. unfold orReply. by rewrite (in_fs_eq _ _ _ _ E). Qed.

Lemma orReply_Err {A} u (m : ST PkgFS A) k s e p :
  m (fs s) = (Err e, p) -> orReply u m k s = send (replyErr u e) (with_fs p s).
Proof. intros E. unfold orReply. by rewrite (in_fs_eq _ _ _ _ E). Qed.

Lemma in_fs_bind {A B} (m : ST PkgFS A) (k : A -> ST FuseServer B) s a p :
  m (fs s) = (Ok a, p) -> (in_fs m ≫= k) s = k a (with_fs p s).
Proof. intros E. munfold. by rewrite (in_fs_eq _ _ _ _ E). Qed.

Lemma addToCache_miss n o p :
  inoCache p !! n = None ->
  addToCache n o p = (Ok tt, {| pf_w := pf_w p; inoCache := <[n := o]> (inoCache p) |}).
Proof. intros E. unfold addToCache. munfold. by rewrite E. Qed.

Lemma getInode_root p : getInode 1 p = (Ok (InoRoot main), p).
Proof. done. Qed.

Lemma getInode_hit n i p : n <> 1 -> inoCache p !! n = Some i -> getInode n p = (Ok i, p).
Proof.
  intros Hn Hc. unfold getInode. rewrite (proj2 (Z.eqb_neq _ _)) by done. munfold.
  unfold getInodeCache. by rewrite Hc.
Qed.

Lemma getInode_miss n o w q c w' :
  n <> 1 -> c !! n = None -> World.GetInode main n w = (o, w') ->
  getInode n {| pf_w := (w, q) : @fsW the_mount; inoCache := c |} =
    (o, {| pf_w := (w', q); inoCache := c |}).
Proof.
  intros Hn Hc E. unfold getInode. rewrite (proj2 (Z.eqb_neq _ _)) by done. munfold.
  unfold getInodeCache. cbn [inoCache]. rewrite Hc. unfold on_w, on_world. cbn. by rewrite E.
Qed.

Lemma on_w_lookup pid name n w q c w' :
  World.Lookup env main name w = (Ok n, w') ->
  on_w (i_Lookup i_root pid name) {| pf_w := (w, q) : @fsW the_mount; inoCache := c |} =
    (Ok n, {| pf_w := (w', q); inoCache := c |}).
Proof. intros E. unfold on_w. cbn. by rewrite E. Qed.

Lemma Lookup_plain name n w w' :
  split_suffix name = None -> name <> str "ld.so.cache" ->
  World.Lookup env main name w = (Ok n, w') -> internalLookup main name w = (Ok n, w').
Proof.
  intros Hs Hn. unfold World.Lookup. destruct (LastIndexByte name dot); [|discriminate].
  rewrite bool_decide_eq_false_2 by done. by rewrite Hs.
Qed.

(** The entry of a package's symbolic link. *)
Definition link_entry (n : Z) (target : bytes) : EntryOut := {|
  eo_NodeId := n; eo_Generation := 0; eo_EntryTimeout := 30; eo_AttrTimeout := 30;
  eo_Attr := symlinkInodeObj.FillAttr target (set_at_Ino n zeroAttr) |}.

Lemma doLookup_link h body s n w' target :
  ih_NodeId h = 1 -> n <> 1 -> inoCache (fs s) !! n = None ->
  World.Lookup env main (cstring body) (the_world s) = (Ok n, w') ->
  World.GetInode main n w' = (Ok (InoPkg (InoSymlink target)), w') ->
  doLookup h body s = (Ok tt, sent
    {| pf_w := (w', snd (pf_w (fs s))); inoCache := <[n := InoPkg (InoSymlink target)]> (inoCache (fs s)) |}
    (reply_msg (ih_Unique h) 0 (entryOutBytes (link_entry n target))) s).
Proof.
  destruct s as [[[w q] c] log fl mw bs]. unfold the_world. cbn [fs pf_w fst snd inoCache].
  intros Hnode Hn Hc El Eg. unfold doLookup. rewrite Hnode.
  erewrite (orReply_Ok (A := inode)) by apply getInode_root.
  erewrite orReply_Ok by (apply on_w_lookup, El).
  erewrite (orReply_Ok (A := inode)) by (apply getInode_miss; [done|done|exact Eg]).
  erewrite in_fs_bind by reflexivity.
  erewrite in_fs_bind by (apply addToCache_miss; exact Hc).
  erewrite orReply_Ok by reflexivity.
  etrans; [apply send_write|reflexivity].
Qed.

Lemma doReadlink_link h body s target :
  ih_NodeId h <> 1 -> inoCache (fs s) !! ih_NodeId h = Some (InoPkg (InoSymlink target)) ->
  doReadlink h body s = (Ok tt, sent (fs s) (reply_msg (ih_Unique h) 0 target) s).
Proof.
  destruct s as [p log fl mw bs]. cbn [fs]. intros Hn Hc. unfold doReadlink.
  erewrite (orReply_Ok (A := inode)) by (apply getInode_hit; [done|exact Hc]).
  erewrite orReply_Ok by (destruct p as [[w q] c]; reflexivity).
  etrans; [apply send_write|reflexivity].
Qed.

Lemma handle_lookup data s :
  ih_Opcode (parse_inHeader data) = opLookup ->
  handleRequest data s = doLookup (parse_inHeader data) (drop inHeaderSize data) s.
Proof. intros E. unfold handleRequest. by rewrite E. Qed.

Lemma handle_readlink data s :
  ih_Opcode (parse_inHeader data) = opReadlink ->
  handleRequest data s = doReadlink (parse_inHeader data) (drop inHeaderSize data) s.
Proof. intros E. unfold handleRequest. by rewrite E. Qed.

Lemma handle_read data s :
  ih_Opcode (parse_inHeader data) = opRead ->
  handleRequest data s = doRead (parse_inHeader data) (drop inHeaderSize data) s.
Proof. intros E. unfold handleRequest. by rewrite E. Qed.

Lemma lift_bind {A B} (a : A) (k : A -> ST FuseServer B) s : (lift_st (Ok a) ≫= k) s = k a s.
Proof. done. Qed.

Lemma on_w_lift {A} (a : A) p : on_w (lift_st (Ok a)) p = (Ok a, p).
Proof. by destruct p. Qed.

(** The name in a LOOKUP request. *)
Definition lookup_name (data : bytes) : bytes := cstring (drop inHeaderSize data).

(** What a client of the mount sees.  A LOOKUP in the root of a name that is no
    full package name is answered with the node of a symbolic link, and a
    READLINK of that node with the full name of a package of the database: the
    greatest version the pin of the channel allows, or the greatest version. *)
Theorem lookup_then_readlink dr s lk rl n w' :
  inv main dr (the_world s) -> ready dr dr ->
  (forall e p st, listed (file dr) e -> pkgCache (the_world s) !! e_hash e = Some p ->
     pkgs (the_world s) !! p = Some st -> pk_parent (dl_pkg st) = main) ->
  ih_Opcode (parse_inHeader lk) = opLookup -> ih_NodeId (parse_inHeader lk) = 1 ->
  split_suffix (lookup_name lk) = None -> lookup_name lk <> str "ld.so.cache" ->
  (forall e, listed (file dr) e -> e_name e <> lookup_name lk) ->
  World.Lookup env main (lookup_name lk) (the_world s) = (Ok n, w') ->
  inoCache (fs s) !! n = None ->
  ih_Opcode (parse_inHeader rl) = opReadlink -> ih_NodeId (parse_inHeader rl) = n ->
  exists e s1 s2, chosen (file dr) (channel dr) (lookup_name lk) false e /\
    handleRequest lk s = (Ok tt, s1) /\ handleRequest rl s1 = (Ok tt, s2) /\
    fst <$> fd_log s2 = (fst <$> fd_log s) ++
      [reply_msg (unique_of lk) 0 (entryOutBytes (link_entry n (e_name e)));
       reply_msg (unique_of rl) 0 (e_name e)].
Proof.
  intros I R Hun Hlk Hroot Hsfx Hld Hno El Hc Hrl Hn.
  pose proof (Lookup_plain _ _ _ _ Hsfx Hld El) as Ei.
  destruct (internalLookup_link main dr _ main dr _ n w' I (inv_root _ _ _ I) R Hun Ei)
    as (x & e & p & dr' & Hch & _ & _ & Hg & _).
  destruct x; [inversion Hch as [e' Le Hname| |]; subst; by destruct (Hno e Le)|]. cbn zeta in Hg.
  assert (n <> 1) as Hn1 by (intros ->; by cbn in Hg).
  exists e. rewrite handle_lookup by done. erewrite doLookup_link by done.
  eexists _, _. split; [done|]. split; [done|]. rewrite handle_readlink by done.
  rewrite (doReadlink_link _ _ _ (e_name e)); [split; [done|]| |].
  - cbn. by rewrite !fmap_app, <-app_assoc.
  - by rewrite Hn.
  - rewrite Hn. apply lookup_insert_eq.
Qed.

(** C40: Reading [ld.so.cache], whether its inode is cached or not: a READ gets exactly
    the bytes of the file from the offset on, at most as many as it asked for;
    at the end of the file, and past it, the answer is the error EIO instead of
    an empty one. *)
Theorem ldso_read_window s rd c off len :
  ih_Opcode (parse_inHeader rd) = opRead -> ih_NodeId (parse_inHeader rd) = 2 ->
  fst (getInode 2 (fs s)) = Ok (InoLdso main c) ->
  let body := drop inHeaderSize rd in
  (20 <= length body)%nat -> (sizeof_ReadIn <= length body + inHeaderSize)%nat ->
  off = le_at 8 8 body -> len = le_at 16 4 body -> 0 <= off < two63 ->
  exists s' r, handleRequest rd s = (Ok tt, s') /\
    let window := take (Z.to_nat len) (drop (Z.to_nat off) c) in
    fd_log s' = fd_log s ++
      [(if Z.of_nat (length c) <=? off then reply_msg (unique_of rd) EIO []
        else reply_msg (unique_of rd) 0 window, r)] /\
    Z.of_nat (length window) <= len.
Proof.
  intros Hop Hnode Hg body Hl Hs Hoff Hlen Hr. rewrite handle_read by done.
  unfold doRead. fold body. rewrite (proj2 (Z.ltb_ge _ _)) by lia.
  rewrite !slice_le_at by lia. cbn [Nat.sub]. rewrite <-Hoff, <-Hlen, Hnode, !lift_bind.
  pose proof (le_at_range 16 4 body) as Hlr. rewrite <-Hlen in Hlr.
  destruct (getInode 2 (fs s)) as [o p] eqn:Ei. cbn [fst] in Hg. subst o.
  erewrite (orReply_Ok (A := inode)) by exact Ei.
  assert (Hi : i64 off = off) by (by apply i64_small).
  cbn [i_ReadAt the_mount mounted ino_ReadAt]. rewrite Hi.
  set (window := take (Z.to_nat len) (drop (Z.to_nat off) c)).
  assert (Hw : Z.of_nat (length window) <= len) by (unfold window; rewrite length_take; lia).
  exists (sent p (if Z.of_nat (length c) <=? off then reply_msg (unique_of rd) EIO []
                  else reply_msg (unique_of rd) 0 window) s), (default None (head (fd_faults s))).
  split; [|done]. unfold ldso_ReadAt, ldsoIno.ReadAt. destruct (Z.leb_spec (Z.of_nat (length c)) off).
  - rewrite (orReply_Ok _ _ _ _ ([], Some ErrEOF) p) by apply on_w_lift.
    etrans; [apply send_write|reflexivity].
  - rewrite (proj2 (Z.ltb_ge off 0)) by lia. fold window.
    rewrite (orReply_Ok _ _ _ _ (window, None) p) by apply on_w_lift.
    destruct (Nat.ltb_spec 0 (length window)) as [|Hz]; [etrans; [apply send_write|reflexivity]|].
    rewrite (nil_length_inv window) by lia. etrans; [apply send_write|reflexivity].
Qed.
End client.

(** ** Concrete instance, for evaluation *)

Module SampleMount.
Import SampleWorld.
#[local] Existing Instance MapBolt.ops.
#[local] Existing Instance MapBolt.spec.
#[local] Existing Instance Sample.list_llrb.
#[local] Existing Instance Sample.list_llrb_spec.
#[local] Existing Instance SampleLd.ldcache.
#[local] Existing Instance SampleLd.json.
#[local] Existing Instance SampleLd.range.
#[local] Existing Instance Toy.toy_ed25519.
#[local] Existing Instance Toy.toy_ed25519_spec.
#[local] Existing Instance SampleUpd.jwt.
#[local] Existing Instance SamplePkg.squashfs.
#[local] Existing Instance SamplePkg.json.
#[local] Existing Instance SamplePkg.remote.

#[export] Existing Instance KernelTypes.fuse_types.
#[export] Instance go_fuse : GoFuse := plain_status.
#[export] Instance go_fuse_spec : GoFuseSpec := plain_status_spec.

(** Empty files that nobody refers to. *)
#[export] Instance squash_inodes : SquashInodes := {|
  sqst := unit;
  si_Mode _ := 0x1a4;
  si_Lookup _ _ _ := err_st ErrNotExist;
  si_FillAttr _ a := mret a;
  si_Readlink _ := err_st ErrInvalid;
  si_Open _ _ := mret 0;
  si_OpenDir _ := err_st ErrInvalid;
  si_ReadDir _ _ _ _ _ := err_st ErrInvalid;
  si_ReadAt _ _ _ := mret ([], None);
  si_AddRef _ n q := (n, q);
  si_DelRef _ _ q := (0, q);
|}.

#[export] Instance the_fs : InodeOps := mounted SampleRun.env 0.

Abbreviation request := KernelTypes.request.

Definition server (w : World) : FuseServer := {|
  fs := {| pf_w := (w, tt) : @fsW the_fs; inoCache := ∅ |};
  fd_log := []; fd_faults := []; maxWrite := 131072; bufSize := 131368 |}.

Definition lk : bytes := request opLookup 7 1 0 (str "media-libs.xvid" ++ [Byte.x00]).
Definition rl : bytes := request opReadlink 8 1000 0 [].
(** ACCESS by root. *)
Definition ac (unique : Z) : bytes := request opAccess unique 1 0 (le_put 8 1).
End SampleMount.

Module SampleClient.
Import SampleWorld SampleMount.
#[local] Existing Instance MapBolt.ops.
#[local] Existing Instance MapBolt.spec.
#[local] Existing Instance Sample.list_llrb.
#[local] Existing Instance Sample.list_llrb_spec.
#[local] Existing Instance SampleLd.ldcache.
#[local] Existing Instance SampleLd.json.
#[local] Existing Instance SampleLd.range.
#[local] Existing Instance Toy.toy_ed25519.
#[local] Existing Instance Toy.toy_ed25519_spec.
#[local] Existing Instance SampleUpd.jwt.
#[local] Existing Instance SamplePkg.squashfs.
#[local] Existing Instance SamplePkg.remote.

Lemma front_ends_agree_witness :
  exists m out st pl s', method_of (request opGetattr 9 1 0 []) = Some m /\
    fst (m (fs (server world))) = Ok (0, out) /\ agree (st, pl) (0, out) /\
    handleRequest (request opGetattr 9 1 0 []) (server world) = (Ok tt, s') /\
    fst <$> fd_log s' = [reply_msg 9 st pl].
Proof.
  pose proof (front_ends_agree (request opGetattr 9 1 0 []) (server world)
    (as_bytes attrOutBytes (GetAttr 1)) eq_refl) as Ha.
  assert (fst <$> fst (as_bytes attrOutBytes (GetAttr 1) (fs (server world))) = Ok 0) as Hst
    by (vm_compute; reflexivity).
  destruct (as_bytes attrOutBytes (GetAttr 1) (fs (server world))) as [[[st' out]|e|] p] eqn:E;
    [|discriminate Hst..].
  destruct Ha as (st & pl & Hag & Hh). injection Hst as ->. exists (as_bytes attrOutBytes (GetAttr 1)).
  exists out, st, pl. eexists. split; [reflexivity|]. split; [rewrite E; reflexivity|].
  split; [exact Hag|]. split; [exact Hh|]. reflexivity.
Defined.

Lemma handle_access unique s :
  unique = 3 \/ unique = 4 ->
  handleRequest (ac unique) s = (Ok tt, sent (fs s) (reply_msg unique 0 []) s).
Proof. intros [-> | ->]; (etrans; [|apply send_write]); reflexivity. Qed.

(** Two requests, handled in the opposite order. *)
Definition s1 : FuseServer := sent (fs (server world)) (reply_msg 4 0 []) (server world).
Definition s2 : FuseServer := sent (fs s1) (reply_msg 3 0 []) s1.
Definition run : list Fuse.event :=
  [EvRead (Ok (ac 3)); EvRead (Ok (ac 4)); EvHandle (ac 4); EvHandle (ac 3);
   EvRead (Err (ErrErrno ENODEV)); EvDone].
Definition the_loop (s : FuseServer) (r : bool) (p : list bytes) (c : bool) : loop :=
  {| sv := s; reading := r; pending := p; Fuse.closed := c |}.

Lemma run_steps : serve_steps (start_loop (server world)) run (the_loop s2 false [] true).
Proof.
  unfold run. eapply serve_steps_cons.
  { apply step_request; [reflexivity|]. apply Nat.leb_le. vm_compute. reflexivity. }
  eapply serve_steps_cons.
  { apply step_request; [reflexivity|]. apply Nat.leb_le. vm_compute. reflexivity. }
  eapply serve_steps_cons.
  { apply (step_handle _ [ac 3] (ac 4) [] s1); [vm_compute; reflexivity|]. apply handle_access. by right. }
  eapply serve_steps_cons.
  { apply (step_handle _ [] (ac 3) [] s2); [reflexivity|]. apply handle_access. by left. }
  eapply serve_steps_cons; [by apply step_unmounted|].
  eapply serve_steps_cons; [by apply step_done|]. constructor.
Qed.

Lemma serve_answers_witness : exists log, fd_log s2 = log /\ answered log ≡ₚ [3; 4].
Proof.
  destruct (serve_answers (server world) run (the_loop s2 false [] true) run_steps)
    as (log & Hlog & _ & Hc).
  exists log. split; [exact Hlog|]. specialize (Hc eq_refl).
  change (undelivered _) with (@nil Z) in Hc. rewrite app_nil_r in Hc. exact Hc.
Defined.

(** A RELEASE is handled without an answer. *)
Lemma release_dropped s : handleRequest (request opRelease 6 1000 0 (replicate 24 Byte.x00)) s = (Ok tt, s) /\
  awaits (request opRelease 6 1000 0 (replicate 24 Byte.x00)) = true.
Proof. split; reflexivity. Qed.

(** The first four steps of [run]: two requests accepted, one of them handled. *)
Lemma run_started :
  serve_steps (start_loop (server world)) [EvRead (Ok (ac 3)); EvRead (Ok (ac 4)); EvHandle (ac 4)]
    (the_loop s1 true [ac 3] false).
Proof.
  eapply serve_steps_cons.
  { apply step_request; [reflexivity|]. apply Nat.leb_le. vm_compute. reflexivity. }
  eapply serve_steps_cons.
  { apply step_request; [reflexivity|]. apply Nat.leb_le. vm_compute. reflexivity. }
  eapply serve_steps_cons; [|constructor].
  refine (step_handle _ [ac 3] (ac 4) [] s1 _ _); [vm_compute; reflexivity|]. apply handle_access. by right.
Qed.

Lemma serve_terminates_witness :
  exists tr l, serve_steps (start_loop (server world)) tr l /\ Fuse.closed l = true /\
    handled tr ≡ₚ [ac 3; ac 4].
Proof.
  destruct (serve_terminates (server world) _ (the_loop s1 true [ac 3] false) run_started eq_refl)
    as [Hg Ht].
  - constructor; [|constructor]; intros s; rewrite handle_access by auto; discriminate.
  - destruct (Hg eq_refl) as (l1 & Hs1).
    assert (serve_steps (the_loop s1 true [ac 3] false) [gone] l1) as Hs1'
      by (eapply serve_steps_cons; [exact Hs1|constructor]).
    destruct (Ht [gone] l1 (or_introl eq_refl) Hs1') as [(tr & l & Hs & Hc) Hb].
    destruct (Hb tr l Hs) as [_ Hh]. specialize (Hh Hc).
    assert (received (Z.to_nat (bufSize (server world))) tr = []) as Hr.
    { apply (drained_reads _ l1 tr l); [|exact Hs]. apply gone_stops in Hs1 as ->. reflexivity. }
    eexists _, l. split; [eapply serve_steps_app; [exact run_started|eapply serve_steps_app; [exact Hs1'|exact Hs]]|].
    split; [exact Hc|]. etrans; [exact Hh|]. rewrite !received_app, Hr. vm_compute. reflexivity.
Defined.

(** INIT, version 7.31. *)
Definition ini : bytes :=
  request opInit 1 0 0 (le_put 4 7 ++ le_put 4 31 ++ le_put 4 65536 ++ le_put 4 (Z.ones 32) ++
                        replicate 48 Byte.x00).
Lemma handleInit_negotiates_witness :
  exists m r s, handleInit (Ok ini) (server world) = (Ok tt, s) /\ fd_log s = [(m, r)] /\
    le_at 20 4 m = 28.
Proof.
  assert (fst (handleInit (Ok ini) (server world)) = Ok tt) as Ho by (vm_compute; reflexivity).
  destruct (handleInit (Ok ini) (server world)) as [o s] eqn:E. cbn [fst] in Ho. subst o.
  pose proof (handleInit_negotiates _ _ _ _ E) as Hn.
  assert (init_ok ini = true) as Hi by (vm_compute; reflexivity).
  rewrite Hi in Hn. destruct Hn as (m & r & Hl & _ & _ & _ & _ & _ & Hmin & _).
  exists m, r, s. split; [reflexivity|]. split; [exact Hl|]. etrans; [exact Hmin|]. vm_compute. reflexivity.
Defined.

Lemma store_cache_no_size_witness :
  exists m r s, InodeNotifyStoreCache 2 0 (str "abc") (server world) = (Ok tt, s) /\
    fd_log s = [(m, r)] /\ le_at 32 4 m = 0 /\ drop 40 m = str "abc".
Proof.
  destruct (InodeNotifyStoreCache 2 0 (str "abc") (server world)) as [o s] eqn:E.
  assert (o = Ok tt) as -> by (injection E as <- _; reflexivity).
  destruct (store_cache_no_size _ _ _ _ _ _ E) as (m & r & Hl & _ & _ & Hz & Hd & _).
  exists m, r, s. split; [reflexivity|]. split; [exact Hl|]. split; [exact Hz|exact Hd].
Defined.

Lemma Lookup_sample : World.Lookup SampleRun.env 0 (str "media-libs.xvid") world = (Ok 1000, w1).
Proof.
  destruct lookup_1 as (dr1 & p & E & _). etrans; [|exact E]. reflexivity.
Qed.

Lemma lookup_then_readlink_witness :
  exists e s, handleRequest rl (snd (handleRequest lk (server world))) = (Ok tt, s) /\
    fst <$> fd_log s = [reply_msg 7 0 (entryOutBytes (link_entry 1000 (e_name e)));
                        reply_msg 8 0 (e_name e)].
Proof.
  destruct (lookup_then_readlink SampleRun.env 0 (the_db None) (server world) lk rl 1000 w1)
    as (e & t1 & t2 & _ & E1 & E2 & Hl).
  - exact world_inv.
  - exact (world_ready None 1000 ltac:(lia)).
  - intros e q st _ Hq. exfalso. revert Hq. unfold the_world, world, pkgCache; cbn. by rewrite lookup_empty.
  - reflexivity.
  - reflexivity.
  - vm_compute. reflexivity.
  - vm_compute. discriminate.
  - intros e He En. destruct (sample_listed e He) as [[En' _]|[En' _]];
      rewrite En' in En; vm_compute in En; discriminate En.
  - exact Lookup_sample.
  - reflexivity.
  - reflexivity.
  - reflexivity.
  - exists e, t2. split; [|exact Hl].
    etrans; [exact (f_equal (fun q => handleRequest rl (snd q)) E1)|exact E2].
Defined.

Definition rd : bytes := request opRead 5 2 0 (le_put 8 0 ++ le_put 8 1 ++ le_put 4 2 ++ replicate 20 Byte.x00).
(** The root with a cache file of four bytes. *)
Definition ld_server : FuseServer :=
  server (set_dbs {[ 0%nat := set_ldso (str "ldso") (the_db None) ]} world).
(** At the end of the file the front ends give different statuses. *)
Lemma end_of_file_statuses :
  fst (Fuse.Read 2 4 2 (fs ld_server)) = Ok (ENOSYS, []) /\
  fst <$> fd_log (snd (handleRequest
    (request opRead 5 2 0 (le_put 8 0 ++ le_put 8 4 ++ le_put 4 2 ++ replicate 20 Byte.x00)) ld_server)) =
    [reply_msg 5 EIO []].
Proof. split; vm_compute; reflexivity. Qed.

Lemma ldso_read_window_witness :
  exists s r, handleRequest rd ld_server = (Ok tt, s) /\ fd_log s = [(reply_msg 5 0 (str "ds"), r)].
Proof.
  destruct (ldso_read_window SampleRun.env 0 ld_server rd (str "ldso") 1 2) as (s & r & E & Hl & _).
  - reflexivity.
  - reflexivity.
  - reflexivity.
  - apply Nat.leb_le. vm_compute. reflexivity.
  - apply Nat.leb_le. vm_compute. reflexivity.
  - vm_compute. reflexivity.
  - vm_compute. reflexivity.
  - unfold two63. lia.
  - exists s, r. split; [exact E|exact Hl].
Defined.
End SampleClient.
