(* ===== verification/Life.v ===== *)
(** * Life: the daemon in any order of operations

    [Lookup.v] follows the lookups on data that stays as it is.  Here the
    operations of a running daemon come in any order: lookups that open
    sub-databases, inode requests, updates and every other write, changes of
    the channel, events of the directory of unsigned images.  The invariant no
    longer refers to the data a number was reserved from, since an update may
    have replaced it. *)

From S2P Require Import Prelude GoLib GoPath Sig Collate Natsort OsArch Bolt Store GoTime Pins Ldso Index Export Package Update Unsigned World Lookup Proto Fuse Mount.
Local Open Scope Z_scope.

Section life.
Context `{BoltSpec, LlrbSpec, Ldcache, !Json, GoRange, GoSort, Ed25519Spec, Jwt, Squashfs, Remote, PkgJson}.

(** ** The invariant *)

(** [ref] is a package of [n] inodes, numbered from [v] (which is its link). *)
Definition holds_range (w : World) (ref : pkgref) (v n : Z) : Prop :=
  match ref with
  | RefPkg p => exists st, pkgs w !! p = Some st /\
      pk_startIno (dl_pkg st) = v /\ pk_inodes (dl_pkg st) = n
  | RefUnsigned u => exists p, u_heap (reg w) !! u = Some p /\ u_load p = true /\
      u_startIno p = v /\ u_inodes p = n
  end.

Definition items (dr : DB) : gmap Z item := llrb_items (ino dr).

Record base (r : nat) (dr : DB) (w : World) : Prop := {
  b_shape : shape r dr w;
  b_next : 1000 <= nextI dr < two64;
  b_dbs l d : dbs w !! l = Some d -> (l < db_next w)%nat /\ locked d = false /\ db_wf (file d);
  b_item v i : items dr !! v = Some i -> item_Value i = v /\ 1000 <= v /\
    exists n, holds_range w (item_ref i) v n /\ 0 <= n /\ v + n + 1 <= nextI dr;
  b_apart v i n v' i' : items dr !! v = Some i -> holds_range w (item_ref i) v n ->
    items dr !! v' = Some i' -> v < v' -> v + n + 1 <= v';
  b_cache h p : pkgCache w !! h = Some p -> exists st, pkgs w !! p = Some st /\
    pk_hash (dl_pkg st) = h /\
    items dr !! pk_startIno (dl_pkg st)
      = Some {| item_Value := pk_startIno (dl_pkg st); item_ref := RefPkg p |};
  b_pkg p st : pkgs w !! p = Some st ->
    (p < pkg_next w)%nat /\ is_Some (dbs w !! pk_parent (dl_pkg st));
  b_heap u p : u_heap (reg w) !! u = Some p -> (u < u_next (reg w))%nat;
  b_started u p : u_heap (reg w) !! u = Some p -> u_startIno p <> 0 ->
    items dr !! u_startIno p = Some {| item_Value := u_startIno p; item_ref := RefUnsigned u |};
}.

(** A hash that has a number has a package. *)
Definition numbered (w : World) : Prop := forall l d h v,
  dbs w !! l = Some d -> pkgI d !! h = Some v -> is_Some (pkgCache w !! h).

Record live (r : nat) (dr : DB) (w : World) : Prop := {
  lv_base :> base r dr w;
  lv_numbered : numbered w;
}.

(** ** What every operation keeps *)

Record unsigned_kept (p p' : unsignedPkg) : Prop := {
  uk_fn : u_fn p' = u_fn p;
  uk_pkg : u_pkg p' = u_pkg p;
  uk_load : u_load p = true -> u_load p' = true /\ u_inodes p' = u_inodes p /\ u_err p' = u_err p;
  uk_start : u_startIno p <> 0 -> u_startIno p' = u_startIno p;
}.

#[export] Instance unsigned_kept_preorder : PreOrder unsigned_kept.
Proof.
  split; [by intros p; split|]. intros x y z [A1 B1 C1 D1] [A2 B2 C2 D2]. split; [congruence..| |].
  - intros Hl. destruct (C1 Hl) as (Hl' & ? & ?). destruct (C2 Hl') as (? & ? & ?).
    split; [done|]. split; congruence.
  - intros Hs. rewrite D2 by (by rewrite D1). by apply D1.
Qed.

(** The heaps of packages. *)
Record heaps_kept (w w' : World) : Prop := {
  hk_pkg p st : pkgs w !! p = Some st ->
    exists st', pkgs w' !! p = Some st' /\ same_identity (dl_pkg st) (dl_pkg st');
  hk_unsigned u p : u_heap (reg w) !! u = Some p ->
    exists p', u_heap (reg w') !! u = Some p' /\ unsigned_kept p p';
}.

#[export] Instance heaps_kept_preorder : PreOrder heaps_kept.
Proof.
  split.
  - intros w. split; intros l x Hx; exists x; (split; [done|]); [apply same_identity_refl|reflexivity].
  - intros w1 w2 w3 [A1 B1] [A2 B2]. split.
    + intros p st (st2 & H2' & I2)%A1. destruct (A2 _ _ H2') as (st3 & H3' & I3).
      exists st3. split; [done|]. by eapply same_identity_trans.
    + intros u p (p2 & H2' & I2)%B1. destruct (B2 _ _ H2') as (p3 & H3' & I3).
      exists p3. split; [done|]. by etrans.
Qed.

Lemma holds_range_kept w w' ref v n :
  heaps_kept w w' -> v <> 0 -> holds_range w ref v n -> holds_range w' ref v n.
Proof.
  intros [A B] Hv. destruct ref as [p|u]; cbn.
  - intros (st & Hp & <- & <-). destruct (A _ _ Hp) as (st' & Hp' & Hid). exists st'.
    destruct Hid as (_ & -> & _ & _ & -> & _). done.
  - intros (p & Hp & Hl & Es & En). destruct (B _ _ Hp) as (p' & Hp' & [_ _ C D]).
    destruct (C Hl) as (Hl' & En' & _). exists p'. rewrite D, En' by congruence. done.
Qed.

Lemma holds_range_inj w ref v n v' n' :
  holds_range w ref v n -> holds_range w ref v' n' -> v = v' /\ n = n'.
Proof. destruct ref; cbn; [intros (? & ? & <- & <-) (? & ? & <- & <-)|intros (? & ? & _ & <- & <-) (? & ? & _ & <- & <-)]; simplify_eq; done. Qed.

(** Databases, numbers and packages stay; so does what the inode tree of the
    root at [r] leads to. *)
Record carries (r : nat) (w w' : World) : Prop := {
  ca_heaps : heaps_kept w w';
  ca_db l d : dbs w !! l = Some d -> exists d', dbs w' !! l = Some d' /\ conf d' = conf d /\
    forall h v, pkgI d !! h = Some v -> pkgI d' !! h = Some v;
  ca_items dr dr' v i : dbs w !! r = Some dr -> dbs w' !! r = Some dr' ->
    items dr !! v = Some i -> items dr' !! v = Some i;
  ca_cache h p : pkgCache w !! h = Some p -> pkgCache w' !! h = Some p;
}.

#[export] Instance carries_preorder r : PreOrder (carries r).
Proof.
  split.
  - intros w. split; [done| |intros; congruence|done]. intros l d Hd. by exists d.
  - intros w1 w2 w3 [A1 B1 C1 D1] [A2 B2 C2 D2]. split; [by etrans| | |auto].
    + intros l d (d2 & H2' & E2 & K2)%B1. destruct (B2 _ _ H2') as (d3 & H3' & E3 & K3).
      exists d3. split; [done|]. split; [congruence|auto].
    + intros dr dr' v i Hr Hr' Hi. destruct (B1 _ _ Hr) as (d2 & H2' & _). eauto.
Qed.

(** ** Changes that leave the tree alone *)

Record quiet_db (d d' : DB) : Prop := {
  q_conf : conf d' = conf d;
  q_parent : parent d' = parent d;
  q_ino : ino d' = ino d;
  q_next : nextI d <= nextI d';
  q_pkgI h v : pkgI d !! h = Some v -> pkgI d' !! h = Some v;
  q_locked : locked d' = false;
  q_wf : db_wf (file d');
}.

(** A database that did not exist before. *)
Record new_db (r : nat) (d : DB) : Prop := {
  n_parent : parent d = Some r;
  n_pkgI : pkgI d = ∅;
  n_locked : locked d = false;
  n_wf : db_wf (file d);
}.

Record quiet (r : nat) (w w' : World) : Prop := {
  qu_heaps : heaps_kept w w';
  qu_old l d : dbs w !! l = Some d -> exists d', dbs w' !! l = Some d' /\ quiet_db d d';
  qu_new l d' : dbs w' !! l = Some d' -> dbs w !! l = None -> (r < l)%nat /\ new_db r d';
  qu_db_next l d' : dbs w' !! l = Some d' -> (l < db_next w')%nat;
  qu_cache : pkgCache w' = pkgCache w;
  qu_pkg p st : pkgs w' !! p = Some st ->
    (p < pkg_next w')%nat /\ is_Some (dbs w' !! pk_parent (dl_pkg st));
  qu_heap u p : u_heap (reg w') !! u = Some p -> (u < u_next (reg w'))%nat;
  qu_started u p : u_heap (reg w') !! u = Some p -> u_startIno p <> 0 ->
    exists p0, u_heap (reg w) !! u = Some p0 /\ u_startIno p0 = u_startIno p;
}.

Lemma quiet_base r dr w w' :
  base r dr w -> quiet r w w' -> (forall dr', dbs w' !! r = Some dr' -> nextI dr' < two64) ->
  exists dr', base r dr' w' /\ items dr' = items dr /\ nextI dr <= nextI dr' /\ carries r w w'.
Proof.
  intros B Q Hnext. destruct (qu_old _ _ _ Q _ _ (sh_root _ _ _ (b_shape _ _ _ B))) as (dr' & Hr & Qr).
  assert (items dr' = items dr) as Ei by (unfold items; by rewrite (q_ino _ _ Qr)).
  pose proof (q_next _ _ Qr) as Hn. pose proof (b_next _ _ _ B) as Hb.
  exists dr'. split; [|split; [done|split; [done|]]].
  - split.
    + split; [done|rewrite (q_parent _ _ Qr); apply (b_shape _ _ _ B)|].
      intros l d' Hl Hne. destruct (dbs w !! l) as [d|] eqn:Ed.
      * destruct (qu_old _ _ _ Q _ _ Ed) as (d2 & Hd2 & Qd). rewrite Hl in Hd2. injection Hd2 as <-.
        rewrite (q_parent _ _ Qd). by apply (sh_child _ _ _ (b_shape _ _ _ B)).
      * destruct (qu_new _ _ _ Q _ _ Hl Ed) as [? [? _ _ _]]. done.
    + specialize (Hnext _ Hr). lia.
    + intros l d' Hl. split; [by eapply qu_db_next|]. destruct (dbs w !! l) as [d|] eqn:Ed.
      * destruct (qu_old _ _ _ Q _ _ Ed) as (d2 & Hd2 & Qd). rewrite Hl in Hd2. injection Hd2 as <-.
        by destruct Qd.
      * by destruct (qu_new _ _ _ Q _ _ Hl Ed) as [_ []].
    + intros v i Hi. rewrite Ei in Hi. destruct (b_item _ _ _ B v i Hi) as (Ev & Hv & n & Hr' & H0' & He).
      split; [done|]. split; [done|]. exists n. split; [|lia].
      eapply holds_range_kept; [apply Q|lia|done].
    + intros v i n v' i' Hi Hh Hi' Hlt. rewrite Ei in Hi, Hi'.
      destruct (b_item _ _ _ B v i Hi) as (Ev & Hv & n0 & Hr' & H0' & He).
      assert (holds_range w' (item_ref i) v n0) as Hr2 by (eapply holds_range_kept; [apply Q|lia|done]).
      destruct (holds_range_inj _ _ _ _ _ _ Hh Hr2) as [_ ->]. by eapply (b_apart _ _ _ B).
    + intros h p. rewrite (qu_cache _ _ _ Q). intros Hp.
      destruct (b_cache _ _ _ B _ _ Hp) as (st & Est & Eh & Eit).
      destruct (hk_pkg _ _ (qu_heaps _ _ _ Q) _ _ Est) as (st' & Est' & Hid). exists st'.
      rewrite Ei, (same_identity_startIno _ _ Hid), (same_identity_hash _ _ Hid). done.
    + apply (qu_pkg _ _ _ Q).
    + apply (qu_heap _ _ _ Q).
    + intros u p Hu Hs. destruct (qu_started _ _ _ Q u p Hu Hs) as (p0 & Hu0 & Es). rewrite Ei, <-Es.
      apply (b_started _ _ _ B); [done|congruence].
  - split; [apply Q| | |by rewrite (qu_cache _ _ _ Q)].
    + intros l d Hl. destruct (qu_old _ _ _ Q _ _ Hl) as (d' & Hl' & Qd). exists d'. by destruct Qd.
    + intros dr0 dr1 v i H0' H1'. rewrite (sh_root _ _ _ (b_shape _ _ _ B)) in H0'.
      rewrite Hr in H1'. injection H0' as <-. injection H1' as <-. by rewrite Ei.
Qed.

(** A change that gives no number keeps [live]. *)
Lemma quiet_live r dr w w' :
  live r dr w -> quiet r w w' -> (forall dr', dbs w' !! r = Some dr' -> nextI dr' < two64) ->
  (forall l d d', dbs w !! l = Some d -> dbs w' !! l = Some d' -> pkgI d' = pkgI d) ->
  exists dr', live r dr' w' /\ items dr' = items dr /\ nextI dr <= nextI dr' /\ carries r w w'.
Proof.
  intros [B N] Q Hnext Hp. destruct (quiet_base _ _ _ _ B Q Hnext) as (dr' & B' & Ei & Hn & C).
  exists dr'. split; [|done]. split; [done|]. intros l d' h v Hl Hv. rewrite (qu_cache _ _ _ Q).
  destruct (dbs w !! l) as [d|] eqn:Ed.
  - rewrite (Hp _ _ _ Ed Hl) in Hv. by eapply N.
  - destruct (qu_new _ _ _ Q _ _ Hl Ed) as [_ [_ Hz _ _]]. by rewrite Hz, lookup_empty in Hv.
Qed.

(** *** One database *)

Lemma heaps_same w w' : pkgs w' = pkgs w -> u_heap (reg w') = u_heap (reg w) -> heaps_kept w w'.
Proof.
  intros E1 E2. split; intros l x Hx; exists x; rewrite ?E1, ?E2; (split; [done|]);
    [apply same_identity_refl|reflexivity].
Qed.

Lemma set_db_quiet r dr w l d d' :
  base r dr w -> dbs w !! l = Some d -> quiet_db d d' -> quiet r w (set_dbs (<[l := d']> (dbs w)) w).
Proof.
  intros B Hd Q.
  assert (forall k, is_Some ((<[l := d']> (dbs w)) !! k) <-> is_Some (dbs w !! k)) as Hk.
  { intros k. rewrite lookup_insert_is_Some. split; [intros [<-|[_ ?]]; [by rewrite Hd|done]|].
    intros Hs. destruct (decide (l = k)); auto. }
  split; cbn [dbs set_dbs db_next pkgCache pkgs pkg_next reg].
  - by apply heaps_same.
  - intros k dk Hdk. destruct (decide (k = l)) as [->|Hne].
    + exists d'. rewrite lookup_insert_eq. by simplify_eq.
    + exists dk. rewrite lookup_insert_ne by done. split; [done|].
      by destruct (b_dbs _ _ _ B _ _ Hdk) as (_ & ? & ?).
  - intros k dk Hdk Hn. apply mk_is_Some, Hk in Hdk. rewrite Hn in Hdk. by destruct Hdk.
  - intros k dk Hdk. apply mk_is_Some, Hk in Hdk as [d0 Hd0]. by apply (b_dbs _ _ _ B k d0).
  - done.
  - intros p st Hp. rewrite Hk. by apply (b_pkg _ _ _ B).
  - apply (b_heap _ _ _ B).
  - intros u p Hu _. by exists p.
Qed.

(** The fields of a database the invariant is about. *)
Definition same_core (d d' : DB) : Prop :=
  conf d' = conf d /\ parent d' = parent d /\ ino d' = ino d /\ nextI d' = nextI d /\
  pkgI d' = pkgI d.

Lemma set_db_live r dr w l d d' :
  live r dr w -> dbs w !! l = Some d -> same_core d d' -> locked d' = false -> db_wf (file d') ->
  exists dr', live r dr' (set_dbs (<[l := d']> (dbs w)) w) /\ nextI dr' = nextI dr /\
    carries r w (set_dbs (<[l := d']> (dbs w)) w).
Proof.
  intros L Hd (Ec & Ep & Ei & En & Ek) Hl Hw. pose proof (lv_base _ _ _ L) as B.
  assert (quiet_db d d') as Q by (split; [done|done|done|lia|by rewrite Ek|done|done]).
  pose proof (set_db_quiet _ _ _ _ _ _ B Hd Q) as Qw.
  assert (forall k d1 d2, dbs w !! k = Some d1 -> (<[l := d']> (dbs w)) !! k = Some d2 ->
    nextI d2 = nextI d1 /\ pkgI d2 = pkgI d1) as Hs.
  { intros k d1 d2 H1' H2'. destruct (decide (k = l)) as [->|Hne].
    - rewrite lookup_insert_eq in H2'. simplify_eq. done.
    - rewrite lookup_insert_ne in H2' by done. by simplify_eq. }
  pose proof (sh_root _ _ _ (b_shape _ _ _ B)) as Hr. pose proof (b_next _ _ _ B) as Hb.
  destruct (quiet_live _ _ _ _ L Qw) as (dr' & L' & _ & _ & C).
  - intros dr' Hr'. destruct (Hs _ _ _ Hr Hr') as [-> _]. lia.
  - intros k d1 d2 H1' H2'. by destruct (Hs _ _ _ H1' H2').
  - exists dr'. split; [done|]. split; [|done].
    by destruct (Hs _ _ _ Hr (sh_root _ _ _ (b_shape _ _ _ L'))).
Qed.

(** *** The registry of unsigned images *)

Record reg_step (g g' : registry) : Prop := {
  rs_kept u p : u_heap g !! u = Some p -> exists p', u_heap g' !! u = Some p' /\ unsigned_kept p p';
  rs_back u p' : u_heap g' !! u = Some p' ->
    (exists p, u_heap g !! u = Some p /\ u_startIno p = u_startIno p') \/
    (u < u_next g')%nat /\ u_startIno p' = 0;
  rs_next : (u_next g <= u_next g')%nat;
}.

Lemma reg_step_same g g' : u_heap g' = u_heap g -> u_next g' = u_next g -> reg_step g g'.
Proof. intros Eh En. split; rewrite ?Eh, ?En; [|eauto|done]. intros u p Hu. by exists p. Qed.

(** No database, package or number changes. *)
Lemma same_dbs_live r dr w w' :
  live r dr w -> dbs w' = dbs w -> db_next w' = db_next w -> pkgCache w' = pkgCache w ->
  pkg_next w' = pkg_next w -> heaps_kept w w' -> reg_step (reg w) (reg w') ->
  (forall p st, pkgs w' !! p = Some st -> exists st0, pkgs w !! p = Some st0 /\
     pk_parent (dl_pkg st0) = pk_parent (dl_pkg st)) ->
  live r dr w' /\ carries r w w'.
Proof.
  intros L Ed En Ec Ep Hk [R1 R2 R3] Hp. pose proof (lv_base _ _ _ L) as B.
  assert (quiet r w w') as Q.
  { split; rewrite ?Ed, ?En, ?Ec, ?Ep; [done| |by intros ? ? -> | |done| | |].
    - intros l d Hl. exists d. split; [done|]. by destruct (b_dbs _ _ _ B _ _ Hl) as (_ & ? & ?).
    - intros l d Hl. by apply (b_dbs _ _ _ B l d).
    - intros p st (st0 & Hst0 & <-)%Hp. by apply (b_pkg _ _ _ B).
    - intros u p [(p0 & Hu & _)|[Hu _]]%R2; [|done]. pose proof (b_heap _ _ _ B _ _ Hu). lia.
    - intros u p [(p0 & Hu & Es)|[_ Hz]]%R2 Hs; [by exists p0|done]. }
  pose proof (sh_root _ _ _ (b_shape _ _ _ B)) as Hr.
  destruct (quiet_live _ _ _ _ L Q) as (dr' & L' & _ & _ & C).
  - rewrite Ed, Hr. intros ? [= <-]. apply (b_next _ _ _ B).
  - rewrite Ed. intros; congruence.
  - pose proof (sh_root _ _ _ (b_shape _ _ _ L')) as Hr'. rewrite Ed, Hr in Hr'. by injection Hr' as <-.
Qed.

Lemma set_reg_live r dr w g :
  live r dr w -> reg_step (reg w) g -> live r dr (set_reg g w) /\ carries r w (set_reg g w).
Proof.
  intros L R. apply (same_dbs_live r dr w (set_reg g w)); try done.
  - split; [|apply R]. intros p st Hp. exists st. split; [done|apply same_identity_refl].
  - intros p st Hp. by exists st.
Qed.

Lemma set_pkg_live r dr w p st st' :
  live r dr w -> pkgs w !! p = Some st -> same_identity (dl_pkg st) (dl_pkg st') ->
  live r dr (set_pkg p st' w) /\ carries r w (set_pkg p st' w).
Proof.
  intros L Hp Hid. apply (same_dbs_live r dr w (set_pkg p st' w)); try done.
  - split; [|by intros u q Hu; exists q]. intros q stq Hq. cbn [pkgs set_pkg].
    destruct (decide (q = p)) as [->|Hne].
    + exists st'. rewrite lookup_insert_eq. split; [done|congruence].
    + exists stq. rewrite lookup_insert_ne by done. split; [done|apply same_identity_refl].
  - by apply reg_step_same.
  - intros q stq. cbn [pkgs set_pkg]. rewrite lookup_insert_Some. intros [[<- <-]|[_ Hq]].
    + exists st. split; [done|]. by destruct Hid as [-> _].
    + by exists stq.
Qed.

Lemma open_kept p o :
  open p = o -> o = Panic \/ exists p', o = Ok p' /\ unsigned_kept p p' /\ u_load p' = true /\
    u_startIno p' = u_startIno p.
Proof.
  unfold open. destruct (u_load p) eqn:El; [intros <-; right; by exists p|].
  destruct (sq_Open (u_fn p)); intros <-; [right..|by left];
    (eexists; split; [reflexivity|]; split; [split; cbn; congruence|done]).
Qed.

Lemma set_unsigned_step g u p p' :
  u_heap g !! u = Some p -> unsigned_kept p p' -> u_startIno p' = u_startIno p ->
  reg_step g (set_unsigned u p' g).
Proof.
  intros Hu K Es. split; cbn [set_unsigned u_heap u_next].
  - intros k q Hq. destruct (decide (k = u)) as [->|Hne].
    + exists p'. rewrite lookup_insert_eq. by simplify_eq.
    + exists q. rewrite lookup_insert_ne by done. done.
  - intros k q. rewrite lookup_insert_Some. intros [[<- <-]|[_ Hq]]; left; eauto.
  - done.
Qed.

Lemma lookupUnsigned_step osV arch name g o g' :
  lookupUnsigned osV arch name g = (o, g') -> o <> Panic ->
  (o = Ok None /\ g' = g) \/
  exists u p, o = Ok (Some u) /\ u_heap g' !! u = Some p /\ u_load p = true /\ reg_step g g'.
Proof.
  unfold lookupUnsigned. destruct (unsignedMap g ≫= _); [|intros [= <- <-]; auto].
  destruct (List.find _ _) as [[n u]|]; [|intros [= <- <-]; auto].
  destruct (u_heap g !! u) as [p|] eqn:Eu; [|by intros [= <- <-]].
  destruct (open_kept p _ eq_refl) as [-> |(p' & -> & K & Hl & Es)]; intros [= <- <-] Ho; [done|].
  right. exists u, p'. split; [done|]. cbn [set_unsigned u_heap]. rewrite lookup_insert_eq.
  split; [done|]. split; [done|]. by eapply set_unsigned_step.
Qed.

Lemma addUnsignedFile_step p f stat g g' :
  (forall u q, u_heap g !! u = Some q -> (u < u_next g)%nat) ->
  addUnsignedFile p f stat g = Ok g' -> reg_step g g'.
Proof.
  intros Hf. unfold addUnsignedFile. destruct (cleanUnsignedName f) as [[name ao]|];
    [|intros [= <-]; by apply reg_step_same].
  destruct stat as [[]| |]; [|intros [= <-]; by apply reg_step_same..|done].
  destruct (unsignedMap g); [|done]. intros [= <-]. split; cbn [u_heap u_next].
  - intros u q Hu. exists q. rewrite lookup_insert_ne by (pose proof (Hf _ _ Hu); lia). done.
  - intros u q. rewrite lookup_insert_Some. intros [[<- <-]|[_ Hu]]; [right; split; [lia|done]|eauto].
  - lia.
Qed.

Lemma removeUnsignedFile_step f g : reg_step g (removeUnsignedFile f g).
Proof.
  unfold removeUnsignedFile. destruct (cleanUnsignedName f) as [[name ao]|]; [|by apply reg_step_same].
  destruct (unsignedMap g ≫= _); by apply reg_step_same.
Qed.

(** ** A package that enters the inode tree

    [i] is the item of [n] inodes, behind every other one. *)

Record enters (r : nat) (dr : DB) (i : item) (n : Z) (w w' : World) : Prop := {
  en_dbs : dbs w' = <[r := set_ino (ReplaceOrInsert (ino dr) i) dr]> (dbs w);
  en_db_next : db_next w' = db_next w;
  en_heaps : heaps_kept w w';
  en_range : holds_range w' (item_ref i) (item_Value i) n;
  en_bounds : 1000 <= item_Value i /\ 0 <= n /\ item_Value i + n + 1 <= nextI dr;
  en_last v' i' n' : items dr !! v' = Some i' -> holds_range w (item_ref i') v' n' ->
    v' + n' + 1 <= item_Value i;
  en_cache h p : pkgCache w' !! h = Some p -> pkgCache w !! h = Some p \/
    exists st, pkgs w' !! p = Some st /\ pk_hash (dl_pkg st) = h /\
      i = {| item_Value := pk_startIno (dl_pkg st); item_ref := RefPkg p |};
  en_cached h p : pkgCache w !! h = Some p -> pkgCache w' !! h = Some p;
  en_pkg p st : pkgs w' !! p = Some st ->
    (p < pkg_next w')%nat /\ is_Some (dbs w !! pk_parent (dl_pkg st));
  en_heap u p : u_heap (reg w') !! u = Some p -> (u < u_next (reg w'))%nat;
  en_started u p : u_heap (reg w') !! u = Some p -> u_startIno p <> 0 ->
    (exists p0, u_heap (reg w) !! u = Some p0 /\ u_startIno p0 = u_startIno p) \/
    i = {| item_Value := u_startIno p; item_ref := RefUnsigned u |};
}.

Definition with_item (i : item) (dr : DB) : DB := set_ino (ReplaceOrInsert (ino dr) i) dr.

Lemma items_with_item i dr : items (with_item i dr) = <[item_Value i := i]> (items dr).
Proof. unfold items, with_item. cbn. by rewrite ReplaceOrInsert_items. Qed.

Section enters.
Context (r : nat) (dr : DB) (i : item) (n : Z) (w w' : World).
Context (B : base r dr w) (E : enters r dr i n w w').

Lemma enters_lookup k d' :
  dbs w' !! k = Some d' ->
  exists d, dbs w !! k = Some d /\ d' = (if decide (k = r) then with_item i dr else d).
Proof.
  rewrite (en_dbs _ _ _ _ _ _ E). destruct (decide (k = r)) as [->|Hne].
  - rewrite lookup_insert_eq. intros [= <-]. exists dr. split; [apply (b_shape _ _ _ B)|done].
  - rewrite lookup_insert_ne by done. by exists d'.
Qed.

(** The items before are below the new one. *)
Lemma enters_below v j : items dr !! v = Some j -> 
  v < item_Value i /\ forall m, holds_range w' (item_ref j) v m ->
    holds_range w (item_ref j) v m /\ v + m + 1 <= item_Value i.
Proof.
  intros Hj. destruct (b_item _ _ _ B v j Hj) as (_ & Hv & k & Hr & H0' & _).
  pose proof (en_last _ _ _ _ _ _ E _ _ _ Hj Hr). split; [lia|]. intros m Hm.
  assert (holds_range w' (item_ref j) v k) as Hr' by (eapply holds_range_kept; [apply E|lia|done]).
  destruct (holds_range_inj _ _ _ _ _ _ Hm Hr') as [_ ->]. done.
Qed.

Lemma enters_item v j :
  items (with_item i dr) !! v = Some j -> (v = item_Value i /\ j = i) \/ items dr !! v = Some j.
Proof. rewrite items_with_item, lookup_insert_Some. naive_solver. Qed.

Lemma enters_old v j : items dr !! v = Some j -> items (with_item i dr) !! v = Some j.
Proof.
  intros Hj. destruct (enters_below v j Hj) as [Hlt _]. rewrite items_with_item.
  rewrite lookup_insert_ne; [done|lia].
Qed.

Lemma enters_new : items (with_item i dr) !! item_Value i = Some i.
Proof. by rewrite items_with_item, lookup_insert_eq. Qed.

Lemma enters_base : base r (with_item i dr) w' /\ carries r w w'.
Proof.
  pose proof (b_shape _ _ _ B) as S. split.
  - split.
    + split; [by rewrite (en_dbs _ _ _ _ _ _ E), lookup_insert_eq|apply S|].
      intros k d' (d & Hd & ->)%enters_lookup Hne. rewrite decide_False by done. by apply (sh_child _ _ _ S).
    + apply (b_next _ _ _ B).
    + intros k d' (d & Hd & ->)%enters_lookup. rewrite (en_db_next _ _ _ _ _ _ E).
      destruct (b_dbs _ _ _ B k d Hd) as (? & ? & ?). case_decide; [|done].
      split; [done|]. apply (b_dbs _ _ _ B r dr), (sh_root _ _ _ S).
    + intros v j [[-> ->]|Hj]%enters_item.
      * destruct (en_bounds _ _ _ _ _ _ E) as (? & ? & ?). split; [done|]. split; [done|].
        exists n. split; [apply E|done].
      * destruct (b_item _ _ _ B v j Hj) as (Ev & Hv & k & Hr & H0' & He). split; [done|].
        split; [done|]. exists k. split; [|done]. eapply holds_range_kept; [apply E|lia|done].
    + intros v j m v' j' Hj Hm Hj' Hlt. apply enters_item in Hj as [[-> ->]|Hj].
      { apply enters_item in Hj' as [[-> ->]|Hj']; [lia|]. apply enters_below in Hj' as [? _]. lia. }
      destruct (enters_below v j Hj) as [_ Hb]. destruct (Hb m Hm) as [Hm0 Hle].
      apply enters_item in Hj' as [[-> ->]|Hj']; [done|]. by eapply (b_apart _ _ _ B).
    + intros h p [Hp|(st & Hp & Hh & ->)]%(en_cache _ _ _ _ _ _ E).
      * destruct (b_cache _ _ _ B h p Hp) as (st & Hst & Hh & Hi).
        destruct (hk_pkg _ _ (en_heaps _ _ _ _ _ _ E) _ _ Hst) as (st' & Hst' & Hid). exists st'.
        rewrite (same_identity_startIno _ _ Hid), (same_identity_hash _ _ Hid).
        split; [done|]. split; [done|]. by apply enters_old.
      * exists st. split; [done|]. split; [done|]. by rewrite items_with_item, lookup_insert_eq.
    + intros p st Hp. destruct (en_pkg _ _ _ _ _ _ E p st Hp) as [? Hs]. split; [done|].
      rewrite (en_dbs _ _ _ _ _ _ E), lookup_insert_is_Some'. by right.
    + apply (en_heap _ _ _ _ _ _ E).
    + intros u p Hu Hs. destruct (en_started _ _ _ _ _ _ E u p Hu Hs) as [(p0 & Hu0 & Es)|Ei].
      * apply enters_old. rewrite <-Es. apply (b_started _ _ _ B); [done|congruence].
      * rewrite items_with_item, Ei. by rewrite lookup_insert_eq.
  - split.
    + apply E.
    + intros k d Hd. rewrite (en_dbs _ _ _ _ _ _ E). destruct (decide (k = r)) as [->|Hne].
      * rewrite lookup_insert_eq. exists (with_item i dr). rewrite (sh_root _ _ _ S) in Hd. by simplify_eq.
      * rewrite lookup_insert_ne by done. by exists d.
    + intros d1 d2 v j H1' H2' Hj. rewrite (sh_root _ _ _ S) in H1'. injection H1' as <-.
      rewrite (en_dbs _ _ _ _ _ _ E), lookup_insert_eq in H2'. injection H2' as <-. by apply enters_old.
    + apply (en_cached _ _ _ _ _ _ E).
Qed.
End enters.

(** ** Lookups of signed packages *)

Definition same_files (w w' : World) : Prop := forall k, file <$> dbs w' !! k = file <$> dbs w !! k.

Lemma assigned_quiet r dr w l d h next :
  base r dr w -> dbs w !! l = Some d -> pkgI d !! h = None -> nextI dr <= next ->
  quiet r w (assigned r l h (nextI dr) next w) /\ same_files w (assigned r l h (nextI dr) next w).
Proof.
  intros B Hd Hn Hle. set (w1 := assigned _ _ _ _ _ _).
  assert (forall k d', dbs w1 !! k = Some d' -> exists d0, dbs w !! k = Some d0) as Hback.
  { intros k d' (d0 & H0' & _)%assigned_lookup. eauto. }
  split; [split|].
  - by apply heaps_same.
  - intros k d0 Hd0. exists (assign r l h (nextI dr) next k d0).
    split; [apply assigned_lookup; eauto|].
    destruct (b_dbs _ _ _ B _ _ Hd0) as (_ & Hl0 & Hw0).
    destruct (assign_fields r l h (nextI dr) next k d0) as (Ff & Fp & Fi & Fc & _ & Fl & _ & _ & Fn & _).
    split; [done..| | | |].
    + rewrite Fn. case_decide as Hk; [|lia]. subst k. pose proof (sh_root _ _ _ (b_shape _ _ _ B)). 
      assert (d0 = dr) as -> by congruence. done.
    + intros h0 v0 Hv0. apply assign_pkgI. right. split; [|done]. intros [-> ->]. congruence.
    + by rewrite Fl.
    + by rewrite Ff.
  - intros k d' Hk Hn'. destruct (Hback _ _ Hk). congruence.
  - intros k d' Hk. destruct (Hback _ _ Hk) as [d0 Hd0]. by apply (b_dbs _ _ _ B k d0).
  - done.
  - intros p st Hp. destruct (b_pkg _ _ _ B p st Hp) as [? [d0 Hd0]]. split; [done|].
    eexists. apply assigned_lookup. eauto.
  - apply (b_heap _ _ _ B).
  - intros u p Hu _. by exists p.
  - intros k. unfold w1, assigned. cbn [dbs set_dbs]. rewrite map_lookup_imap.
    destruct (dbs w !! k) as [d0|]; [|done]. cbn. f_equal.
    apply (assign_fields r l h (nextI dr) next k d0).
Qed.

(** A new package: its record is built and enters the tree. *)
Lemma cached_enters r dr w l d h p0 :
  base r dr w -> dbs w !! l = Some d -> pkgCache w !! h = None ->
  stored_pkg l (file d) (pk_startIno p0) h = Ok p0 -> 1000 <= pk_startIno p0 -> 0 <= pk_inodes p0 ->
  pk_startIno p0 + pk_inodes p0 + 1 <= nextI dr ->
  (forall v' i' n', items dr !! v' = Some i' -> holds_range w (item_ref i') v' n' ->
     v' + n' + 1 <= pk_startIno p0) ->
  enters r dr {| item_Value := pk_startIno p0; item_ref := RefPkg (pkg_next w) |} (pk_inodes p0)
    w (cached r dr p0 w).
Proof.
  intros B Hd Hc Hp H1' H2' H3' Hlast. destruct (stored_pkg_fields _ _ _ _ _ Hp) as (Hpar & _ & Hh & _).
  assert (forall q st, pkgs w !! q = Some st -> q <> pkg_next w) as Hfresh.
  { intros q st Hq. pose proof (proj1 (b_pkg _ _ _ B q st Hq)). lia. }
  split; cbn [item_Value item_ref dbs cached db_next pkgCache pkgs pkg_next reg].
  - done.
  - done.
  - split; [|intros u q Hu; by exists q]. intros q st Hq. exists st. cbn [pkgs cached].
    rewrite lookup_insert_ne by (intros <-; by apply Hfresh in Hq).
    split; [done|apply same_identity_refl].
  - exists (fresh_dl p0). cbn. by rewrite lookup_insert_eq.
  - done.
  - done.
  - intros h0 q. rewrite Hh, lookup_insert_Some. intros [[<- <-]|[_ Hq]]; [right|by left].
    exists (fresh_dl p0). by rewrite lookup_insert_eq.
  - intros h0 q Hq. rewrite Hh, lookup_insert_ne; [done|]. intros <-. congruence.
  - intros q st. rewrite lookup_insert_Some. intros [[<- <-]|[_ Hq]].
    + split; [lia|]. cbn. rewrite Hpar. by exists d.
    + destruct (b_pkg _ _ _ B q st Hq). split; [lia|done].
  - apply (b_heap _ _ _ B).
  - intros u q Hu Hs. left. by exists q.
Qed.

(** A number is given: no package, and no other number, changes. *)
Lemma pkgIno_gives r dr w l d e :
  live r dr w -> dbs w !! l = Some d -> listed (file d) e -> nextI dr + e_inodes e + 1 < two64 ->
  pkgI d !! e_hash e = None ->
  exists dr1 w1 d1, pkgIno l (p2p_value e) w = (Ok (nextI dr), w1) /\ base r dr1 w1 /\
    carries r w w1 /\ reg w1 = reg w /\ pkgCache w1 = pkgCache w /\ pkgs w1 = pkgs w /\
    same_files w w1 /\ items dr1 = items dr /\ nextI dr1 = nextI dr + (e_inodes e + 1) /\
    dbs w1 !! l = Some d1 /\ file d1 = file d /\ pkgI d1 !! e_hash e = Some (nextI dr) /\
    forall k d' h v, dbs w1 !! k = Some d' -> pkgI d' !! h = Some v ->
      h = e_hash e \/ is_Some (pkgCache w !! h).
Proof.
  intros L Hd (We & _) Hfit En. pose proof (lv_base _ _ _ L) as B. set (h := e_hash e) in *.
  pose proof (b_next _ _ _ B) as Hnext. destruct (We) as (_ & _ & Hino).
  pose proof (pkgIno_new r dr w l d e (b_shape _ _ _ B) Hd We En) as E1.
  rewrite u64_alloc in E1 by (done || lia). set (next := nextI dr + (e_inodes e + 1)) in *.
  fold h in E1. set (w1 := assigned r l h (nextI dr) next w) in *.
  destruct (assigned_quiet r dr w l d h next B Hd En ltac:(lia)) as [Q F]. fold w1 in Q, F.
  destruct (assign_fields r l h (nextI dr) next r dr) as (_ & _ & _ & _ & _ & _ & _ & _ & Hdr1 & _).
  rewrite decide_True in Hdr1 by done. set (dr1 := assign r l h (nextI dr) next r dr) in *.
  destruct (assign_fields r l h (nextI dr) next l d) as (Ff & _ & _ & _ & _ & _ & _ & _ & _ & Fk).
  rewrite decide_True in Fk by done. set (d1 := assign r l h (nextI dr) next l d) in *.
  assert (dbs w1 !! r = Some dr1) as R1
    by (apply assigned_lookup; exists dr; split; [apply (b_shape _ _ _ B)|done]).
  destruct (quiet_base _ _ _ _ B Q) as (dr1' & B1 & Ei & _ & C1).
  { rewrite R1. intros ? [= <-]. unfold next in Hdr1. lia. }
  pose proof (sh_root _ _ _ (b_shape _ _ _ B1)) as Er. rewrite R1 in Er. injection Er as <-.
  exists dr1, w1, d1. do 8 (split; [done|]). split; [done|].
  split; [apply assigned_lookup; eauto|]. split; [done|]. split; [rewrite Fk; apply lookup_insert_eq|].
  intros k d' h0 v0 (d0 & Hd0 & ->)%assigned_lookup Hv0.
  apply assign_pkgI in Hv0 as [(_ & -> & _)|[_ Hv0]]; [by left|]. right. by eapply (lv_numbered _ _ _ L).
Qed.

(** What an instantiation leaves: the number of the hash and its package. *)
Lemma live_instantiate r dr w l d e :
  live r dr w -> dbs w !! l = Some d -> listed (file d) e -> nextI dr + e_inodes e + 1 < two64 ->
  exists n dr' w', instantiate l (file d) (p2p_value e) w = (Ok n, w') /\ live r dr' w' /\
    carries r w w' /\ reg w' = reg w /\ same_files w w' /\
    (forall m, pkgI d !! e_hash e = Some m -> n = m /\ w' = w) /\
    (pkgCache w !! e_hash e = None -> exists p p0, pkgCache w' !! e_hash e = Some p /\
       pkgs w' !! p = Some (fresh_dl p0) /\ stored_pkg l (file d) n (e_hash e) = Ok p0 /\
       pk_startIno p0 = n /\ pk_name p0 = e_name e).
Proof.
  intros L Hd Le Hfit. pose proof (lv_base _ _ _ L) as B.
  destruct (b_dbs _ _ _ B _ _ Hd) as (_ & Hl & Hw). destruct (Le) as (We & Se & _).
  destruct (pkgI d !! e_hash e) as [n|] eqn:En.
  { destruct (lv_numbered _ _ _ L _ _ _ _ Hd En) as [p Hp].
    exists n, dr, w. split; [by apply (instantiate_again l _ e w d n p)|].
    split; [exact L|]. split; [reflexivity|]. split; [done|]. split; [by intros k|].
    split; [by intros m [= ->]|]. intros ?. congruence. }
  destruct (pkgIno_gives r dr w l d e L Hd Le Hfit En)
    as (dr1 & w1 & d1 & E1 & B1 & C1 & Rg & Ecw & Epw & F & Ei & Hdr1 & D1 & Ff & Hnum & Hold).
  unfold instantiate. munfold. rewrite E1, hash_slice by apply We.
  destruct (pkgCache w !! e_hash e) as [p|] eqn:Ec.
  - exists (nextI dr), dr1, w1. unfold getPkgTx. munfold. rewrite Ecw, Ec. split; [done|]. split.
    { split; [done|]. intros k d' h0 v0 Hk Hv0. rewrite Ecw.
      destruct (Hold _ _ _ _ Hk Hv0) as [->|?]; [by exists p|done]. }
    by repeat (split; [done|]).
  - destruct (stored_pkg_listed l (file d) (nextI dr) e (listed_buckets _ _ Hw Le) We Se)
      as (p0 & Ep0 & Hname & Hin0). pose proof (stored_pkg_fields _ _ _ _ _ Ep0) as (_ & Hs0 & Hh0 & _).
    pose proof (b_next _ _ _ B) as Hnext. destruct (We) as (_ & _ & Hino).
    rewrite <-Ff in Ep0. rewrite <-Ff. rewrite <-Ecw in Ec.
    rewrite (getPkgTx_new r dr1 w1 l d1 (nextI dr) (e_hash e) p0 (b_shape _ _ _ B1) D1 Ec Ep0).
    assert (enters r dr1 {| item_Value := pk_startIno p0; item_ref := RefPkg (pkg_next w1) |}
      (pk_inodes p0) w1 (cached r dr1 p0 w1)) as En1.
    { apply (cached_enters r dr1 w1 l d1 (e_hash e) p0); try done; try lia; [by rewrite Hs0|].
      intros v' i' n' Hi Hr. rewrite Ei in Hi. destruct (b_item _ _ _ B v' i' Hi) as (_ & Hv' & n2 & Hr2 & _ & He).
      assert (holds_range w (item_ref i') v' n') as Hr1 by (unfold holds_range in *; by rewrite Epw, Rg in Hr).
      destruct (holds_range_inj _ _ _ _ _ _ Hr1 Hr2) as [_ ->]. lia. }
    destruct (enters_base _ _ _ _ _ _ B1 En1) as [B2 C2].
    exists (nextI dr), (cached_root dr1 p0 w1), (cached r dr1 p0 w1).
    split; [done|]. split; [split; [exact B2|]|split; [by etrans|split; [done|split; [|split; [done|]]]]].
    + intros k d' h0 v0 Hk Hv0. apply (enters_lookup _ _ _ _ _ _ B1 En1) in Hk as (d0 & Hd0 & ->).
      cbn [pkgCache cached]. rewrite Hh0, lookup_insert_is_Some', Ecw.
      destruct (Hold k d0 h0 v0 Hd0) as [->|?]; [|by left|by right].
      case_decide; [|done]. subst. pose proof (sh_root _ _ _ (b_shape _ _ _ B1)). by simplify_eq.
    + intros k. rewrite <-(F k). cbn [dbs cached]. destruct (decide (k = r)) as [->|Hne].
      * by rewrite lookup_insert_eq, (sh_root _ _ _ (b_shape _ _ _ B1)).
      * by rewrite lookup_insert_ne.
    + intros _. exists (pkg_next w1), p0. cbn [pkgCache pkgs cached].
      by rewrite Hh0, !lookup_insert_eq.
Qed.

(** ** Lookups of unsigned packages *)

(** A package that gets its number: what [pkgInoUnsigned] stores in it. *)
Definition numbered_unsigned (v : Z) (sq : superblock) (p : unsignedPkg) : unsignedPkg := {|
  u_fn := u_fn p; u_pkg := u_pkg p; u_startIno := v; u_inodes := u_inodes p;
  u_load := u_load p; u_squash := Some sq; u_err := u_err p |}.

(** The world after it: [dr1] is the root with the new counter. *)
Definition unsigned_entered (r u : nat) (v : Z) (dr1 : DB) (p : unsignedPkg) (w : World) : World :=
  set_dbs (<[r := with_item {| item_Value := v; item_ref := RefUnsigned u |} dr1]> (dbs w))
    (set_reg (set_unsigned u p (reg w)) w).

Lemma insert_insert_same {A} (m : gmap nat A) k x y : <[k := x]> (<[k := y]> m) = <[k := x]> m.
Proof. apply insert_insert_eq. Qed.

Lemma set_unsigned_id w u p : u_heap (reg w) !! u = Some p -> set_reg (set_unsigned u p (reg w)) w = w.
Proof. intros Hu. unfold set_unsigned. rewrite insert_id by done. by destruct w as [?????[]??]. Qed.

Lemma pkgInoUnsigned_new r dr w l d u p o w' :
  base r dr w -> dbs w !! l = Some d -> u_heap (reg w) !! u = Some p -> u_startIno p = 0 ->
  0 <= u_inodes p -> nextI dr + u_inodes p + 1 < two64 ->
  pkgInoUnsigned l u w = (o, w') -> o <> Panic \/ is_Some (sq_SetInodeOffset (u_squash p) (nextI dr)) ->
  exists sq, o = Ok (nextI dr) /\ sq_SetInodeOffset (u_squash p) (nextI dr) = Some sq /\
    w' = unsigned_entered r u (nextI dr) (set_nextI (nextI dr + u_inodes p + 1) dr)
           (numbered_unsigned (nextI dr) sq p)
           (set_dbs (<[r := set_nextI (nextI dr + u_inodes p + 1) dr]> (dbs w)) w).
Proof.
  intros B Hd Hu Hs Hn Hfit. pose proof (b_next _ _ _ B) as Hnext.
  unfold pkgInoUnsigned, in_unsigned, insert_item, upd_db, get_db. munfold. rewrite Hu. cbn [negb].
  rewrite Hs, Z.eqb_refl. cbn [negb].
  rewrite (set_unsigned_id w u p Hu).
  rewrite (allocInodes_spec r dr w l d _ (b_shape _ _ _ B) Hd).
  rewrite (u64_small (u_inodes p + 1)), u64_small by lia.
  replace (nextI dr + (u_inodes p + 1)) with (nextI dr + u_inodes p + 1) by lia.
  cbn [reg set_dbs set_reg]. rewrite Hu. cbn [reg set_dbs set_reg u_heap set_unsigned u_squash].
  destruct (sq_SetInodeOffset (u_squash p) (nextI dr)) as [sq|]; [|by intros [= <- <-] [?|[??]]].
  rewrite lookup_insert_eq. cbn [dbs set_dbs set_reg].
  set (dr1 := set_nextI (nextI dr + u_inodes p + 1) dr).
  assert (shape r dr w) as S by apply B.
  assert (exists d1, (<[r := dr1]> (dbs w)) !! l = Some d1 /\ tree_of l d1 = r) as (d1 & -> & ->).
  { destruct (decide (l = r)) as [->|Hne].
    - exists dr1. rewrite lookup_insert_eq. split; [done|]. unfold tree_of. cbn.
      by rewrite (sh_root_parent _ _ _ S).
    - exists d. rewrite lookup_insert_ne by done. split; [done|]. by apply (shape_loc r dr w). }
  cbn [dbs set_dbs set_reg]. rewrite lookup_insert_eq. intros [= <- <-] _. exists sq. do 2 (split; [done|]).
  unfold unsigned_entered, set_unsigned, set_reg, set_dbs, numbered_unsigned, with_item. cbn. f_equal.
  by rewrite insert_insert_same.
Qed.

Lemma unsigned_enters r dr1 w u p v sq :
  base r dr1 w -> u_heap (reg w) !! u = Some p -> u_load p = true -> u_startIno p = 0 ->
  1000 <= v -> 0 <= u_inodes p -> v + u_inodes p + 1 <= nextI dr1 ->
  (forall v' i' n', items dr1 !! v' = Some i' -> holds_range w (item_ref i') v' n' -> v' + n' + 1 <= v) ->
  enters r dr1 {| item_Value := v; item_ref := RefUnsigned u |} (u_inodes p) w
    (unsigned_entered r u v dr1 (numbered_unsigned v sq p) w).
Proof.
  intros B Hu Hload Hs H1' H2' H3' Hlast.
  split; cbn [item_Value item_ref dbs unsigned_entered set_dbs set_reg db_next pkgCache pkgs pkg_next reg
    set_unsigned u_heap u_next].
  - done.
  - done.
  - split; [intros q st Hq; exists st; split; [done|apply same_identity_refl]|].
    intros k q Hq. cbn. destruct (decide (k = u)) as [->|Hne].
    + rewrite lookup_insert_eq. assert (q = p) as -> by congruence. eexists. split; [reflexivity|].
      by split; cbn.
    + rewrite lookup_insert_ne by done. by exists q.
  - eexists. cbn. rewrite lookup_insert_eq. by repeat split.
  - done.
  - done.
  - auto.
  - auto.
  - intros q st Hq. by apply (b_pkg _ _ _ B).
  - intros k q. rewrite lookup_insert_Some. intros [[<- _]|[_ Hq]]; by eapply (b_heap _ _ _ B).
  - intros k q. rewrite lookup_insert_Some. intros [[<- <-]|[_ Hq]] Hs'; [by right|]. left. by exists q.
Qed.

Lemma live_unsigned r dr w l d u p o w' :
  live r dr w -> dbs w !! l = Some d -> u_heap (reg w) !! u = Some p -> u_load p = true ->
  0 <= u_inodes p -> nextI dr + u_inodes p + 1 < two64 ->
  pkgInoUnsigned l u w = (o, w') -> o <> Panic ->
  exists n dr', o = Ok n /\ live r dr' w' /\ carries r w w' /\ same_files w w' /\
    items dr' !! n = Some {| item_Value := n; item_ref := RefUnsigned u |} /\
    exists p', u_heap (reg w') !! u = Some p' /\ u_pkg p' = u_pkg p.
Proof.
  intros L Hd Hu Hload Hn Hfit E Ho. pose proof (lv_base _ _ _ L) as B.
  destruct (decide (u_startIno p = 0)) as [Hs|Hs].
  2: { exists (u_startIno p), dr. revert E. unfold pkgInoUnsigned, in_unsigned. munfold.
       rewrite Hu. rewrite (proj2 (Z.eqb_neq _ _)) by done. cbn [negb]. intros [= <- <-].
       rewrite (set_unsigned_id w u p Hu).
       split; [done|]. split; [done|]. split; [reflexivity|]. split; [by intros k|].
       split; [by apply (b_started _ _ _ B)|]. by exists p. }
  destruct (pkgInoUnsigned_new _ _ _ _ _ _ _ _ _ B Hd Hu Hs Hn Hfit E (or_introl Ho)) as (sq & -> & _ & ->).
  pose proof (b_next _ _ _ B) as Hnext. pose proof (b_shape _ _ _ B) as S.
  destruct (b_dbs _ _ _ B _ _ (sh_root _ _ _ S)) as (_ & Hl & Hw).
  set (dr1 := set_nextI (nextI dr + u_inodes p + 1) dr).
  assert (quiet_db dr dr1) as Qd by (split; try done; cbn; lia).
  pose proof (set_db_quiet _ _ _ _ _ _ B (sh_root _ _ _ S) Qd) as Q.
  set (w1 := set_dbs (<[r := dr1]> (dbs w)) w) in *.
  assert (dbs w1 !! r = Some dr1) as R1 by (cbn; by rewrite lookup_insert_eq).
  destruct (quiet_live _ _ _ _ L Q) as (dr1' & L1 & Ei & _ & C1).
  { rewrite R1. intros ? [= <-]. cbn. lia. }
  { intros k d0 d0' H0' H1'. destruct (decide (k = r)) as [->|Hne].
    - rewrite R1 in H1'. rewrite (sh_root _ _ _ S) in H0'. by simplify_eq.
    - cbn in H1'. rewrite lookup_insert_ne in H1' by done. by simplify_eq. }
  pose proof (sh_root _ _ _ (b_shape _ _ _ L1)) as Er. rewrite R1 in Er. injection Er as <-.
  assert (enters r dr1 {| item_Value := nextI dr; item_ref := RefUnsigned u |} (u_inodes p) w1
    (unsigned_entered r u (nextI dr) dr1 (numbered_unsigned (nextI dr) sq p) w1)) as En1.
  { apply unsigned_enters; try done; [apply L1|lia|].
    intros v' i' n' Hi Hr. rewrite Ei in Hi. destruct (b_item _ _ _ B v' i' Hi) as (_ & _ & n2 & Hr2 & _ & He).
    change (holds_range w1 (item_ref i') v' n') with (holds_range w (item_ref i') v' n') in Hr.
    destruct (holds_range_inj _ _ _ _ _ _ Hr Hr2) as [_ ->]. lia. }
  destruct (enters_base _ _ _ _ _ _ (lv_base _ _ _ L1) En1) as [B2 C2].
  exists (nextI dr), (with_item {| item_Value := nextI dr; item_ref := RefUnsigned u |} dr1).
  split; [done|]. split; [split; [exact B2|]|].
  - intros k d' h v Hk Hv. apply (enters_lookup _ _ _ _ _ _ (lv_base _ _ _ L1) En1) in Hk as (d0 & Hd0 & ->).
    apply (lv_numbered _ _ _ L1 k d0 h v Hd0). by case_decide; simplify_eq.
  - split; [by etrans|]. split; [|split].
    + intros k. cbn. rewrite insert_insert_same. destruct (decide (k = r)) as [->|Hne].
      * by rewrite lookup_insert_eq, (sh_root _ _ _ S).
      * by rewrite lookup_insert_ne.
    + exact (enters_new dr1 {| item_Value := nextI dr; item_ref := RefUnsigned u |}).
    + exists (numbered_unsigned (nextI dr) sq p). cbn. by rewrite lookup_insert_eq.
Qed.

(** ** Lookups by name *)

(** What a computation keeps whatever its outcome. *)
Definition keeps (R : relation World) {A} (m : ST World A) : Prop :=
  forall w o w', m w = (o, w') -> R w w'.

Section keeps.
Context (R : relation World) `{!PreOrder R}.

Lemma keeps_bind {A B} (m : ST World A) (f : A -> ST World B) :
  keeps R m -> (forall a, keeps R (f a)) -> keeps R (m ≫= f).
Proof.
  intros Hm Hf w o w' E. apply bind_cases in E as [(a & w1 & E1 & E2)|(om & E1 & _)].
  - etrans; [by eapply Hm|by eapply Hf].
  - by eapply Hm.
Qed.
Lemma keeps_lift {A} (o : outcome A) : keeps R (lift_st o).
Proof. intros w ? w' [= _ <-]. done. Qed.
Lemma keeps_ret {A} (a : A) : keeps R (mret a).
Proof. intros w ? w' [= _ <-]. done. Qed.
Lemma keeps_get : keeps R get_st.
Proof. intros w ? w' [= _ <-]. done. Qed.
Lemma keeps_get_db l : keeps R (get_db l).
Proof. intros w o w'. unfold get_db. destruct (dbs w !! l); by intros [= _ <-]. Qed.
Lemma keeps_alloc fuel l c :
  (forall k v, keeps R (upd_db k (set_nextI v))) -> keeps R (alloc_loop fuel l c).
Proof.
  intros Hu. revert l. induction fuel as [|fuel IH]; intros l; cbn [alloc_loop]; [apply keeps_lift|].
  apply keeps_bind; [apply keeps_get_db|]. intros d. destruct (parent d); [apply IH|].
  apply keeps_bind; [apply Hu|]. intros _. apply keeps_ret.
Qed.
End keeps.

(** The data of the databases and the sizes of the unsigned images. *)
Definition same_sizes (w w' : World) : Prop :=
  same_files w w' /\
  forall u, u_inodes <$> u_heap (reg w') !! u = u_inodes <$> u_heap (reg w) !! u.
#[export] Instance same_sizes_preorder : PreOrder same_sizes.
Proof.
  split; [by intros w; split; intros ?|]. intros x y z [A1 B1] [A2 B2].
  split; intros k; [by rewrite (A2 k)|by rewrite B2].
Qed.

Lemma upd_db_sizes l f : (forall d, file (f d) = file d) -> keeps same_sizes (upd_db l f).
Proof.
  intros Hf w o w'. unfold upd_db. destruct (dbs w !! l) as [d|] eqn:Ed; intros [= _ <-]; [|done].
  split; [|done]. intros k. cbn. destruct (decide (k = l)) as [->|Hne].
  - by rewrite lookup_insert_eq, Ed; cbn; rewrite Hf.
  - by rewrite lookup_insert_ne.
Qed.

Lemma in_unsigned_sizes {A} u (m : ST unsignedPkg A) :
  (forall p, u_inodes (snd (m p)) = u_inodes p) -> keeps same_sizes (in_unsigned u m).
Proof.
  intros Hm w o w'. unfold in_unsigned. destruct (u_heap (reg w) !! u) as [p|] eqn:Eu; [|by intros [= _ <-]].
  specialize (Hm p). destruct (m p) as [o1 p']. intros [= _ <-]. split; [by intros k|]. intros k. cbn.
  destruct (decide (k = u)) as [->|Hne].
  - rewrite lookup_insert_eq, Eu. cbn. by f_equal.
  - by rewrite lookup_insert_ne.
Qed.

Lemma pkgInoUnsigned_sizes l u : keeps same_sizes (pkgInoUnsigned l u).
Proof.
  unfold pkgInoUnsigned, allocInodes, insert_item.
  repeat first
    [apply keeps_bind; [apply _| |intros ?]|apply keeps_lift; apply _|apply keeps_ret; apply _
    |apply keeps_get_db; apply _|apply upd_db_sizes; done|apply in_unsigned_sizes; done
    |apply keeps_alloc; [apply _|intros]|case_match].
Qed.

Lemma instantiate_sizes l b v : keeps same_sizes (instantiate l b v).
Proof.
  assert (forall p, keeps same_sizes (new_pkg p)) as Hn by (intros p w o w' [= _ <-]; done).
  unfold instantiate, pkgIno, getPkgTx, allocInodes, insert_item.
  repeat first
    [apply keeps_bind; [apply _| |intros ?]|apply keeps_lift; apply _|apply keeps_ret; apply _
    |apply keeps_get; apply _|apply keeps_get_db; apply _|apply upd_db_sizes; done|apply Hn
    |apply keeps_alloc; [apply _|intros]|case_match].
Qed.

(** The counter can not overflow: one more package, of those the databases and
    the directory hold, fits. *)
Definition data_room (dr : DB) (w : World) : Prop := forall l d e,
  dbs w !! l = Some d -> listed (file d) e -> nextI dr + e_inodes e + 1 < two64.
Definition room (dr : DB) (w : World) : Prop := data_room dr w /\
  forall u p, u_heap (reg w) !! u = Some p ->
    0 <= u_inodes p /\ nextI dr + u_inodes p + 1 < two64.

Lemma data_room_same dr w w' : same_files w w' -> data_room dr w' -> data_room dr w.
Proof.
  intros F Hr l d e Hd Le. specialize (F l). rewrite Hd in F.
  destruct (dbs w' !! l) as [d'|] eqn:Ed; [|done]. injection F as F.
  apply (Hr l d' e Ed). by rewrite F.
Qed.

(** The data stays as it is in any lookup. *)
#[export] Instance same_files_preorder : PreOrder same_files.
Proof. split; [by intros w k|]. intros x y z A B k. by rewrite (B k). Qed.

Lemma keeps_mono (R S : relation World) {A} (m : ST World A) :
  (forall w w', R w w' -> S w w') -> keeps R m -> keeps S m.
Proof. intros HRS Hm w o w' E. by eapply HRS, Hm. Qed.

Lemma in_reg_files {A} (m : ST registry A) : keeps same_files (in_reg m).
Proof. intros w o w'. unfold in_reg. destruct (m (reg w)). by intros [= _ <-]. Qed.

Lemma internalLookup_files l name : keeps same_files (internalLookup l name).
Proof.
  assert (forall v b, keeps same_files (instantiate l b v)) as Hi
    by (intros; eapply keeps_mono; [|apply instantiate_sizes]; by intros ? ? []).
  assert (forall k u, keeps same_files (pkgInoUnsigned k u)) as Hu
    by (intros; eapply keeps_mono; [|apply pkgInoUnsigned_sizes]; by intros ? ? []).
  unfold internalLookup, tx_lookup.
  repeat first
    [apply in_reg_files|apply Hi|apply Hu
    |eapply keeps_mono; [|apply in_unsigned_sizes; done]; by intros ? ? []
    |apply keeps_get_db; apply _|apply keeps_bind; [apply _| |intros ?]
    |apply keeps_lift; apply _|apply keeps_ret; apply _|case_match].
Qed.

(** What a lookup by name may do: nothing, or give a package its number. *)
Definition looked_up (r : nat) (w : World) (o : outcome Z) (w' : World) : Prop :=
  (exists e, o = Err e /\ w' = w) \/
  exists n dr', o = Ok n /\ live r dr' w' /\ carries r w w' /\ same_files w w'.

Lemma live_tx_lookup r dr w l d name o w' :
  live r dr w -> dbs w !! l = Some d -> data_room dr w ->
  tx_lookup l (file d) name w = (o, w') -> looked_up r w o w'.
Proof.
  intros L Hd Hroom. rewrite (tx_lookup_select l d) by done.
  destruct (b_dbs _ _ _ (lv_base _ _ _ L) _ _ Hd) as (_ & _ & Hw).
  destruct (select_spec (file d) (channel d) name Hw) as (s & -> & Hs).
  destruct s as [[x v]|]; [|intros [= <- <-]; left; eauto].
  destruct Hs as (e & -> & Hc). pose proof (chosen_listed _ _ _ _ _ Hc) as Le.
  destruct (live_instantiate r dr w l d e L Hd Le (Hroom _ _ _ Hd Le))
    as (n & dr' & w2 & E2 & L' & C & _ & F & _).
  intros E. right. destruct x; munfold; rewrite E2 in E; injection E as <- <-; by eexists _, dr'.
Qed.

(** An unsigned package always gets its number. *)
Lemma pkgInoUnsigned_not_err l u w e w' : pkgInoUnsigned l u w <> (Err e, w').
Proof.
  assert (forall fuel k c w e w', alloc_loop fuel k c w <> (Err e, w')) as Ha.
  { induction fuel as [|fuel IH]; intros k c w2 e2 w2'; cbn [alloc_loop]; [done|].
    unfold get_db, upd_db. munfold. destruct (dbs w2 !! k) as [d|] eqn:Ed; [|done].
    destruct (parent d); [apply IH|]. by rewrite Ed. }
  unfold pkgInoUnsigned, in_unsigned, allocInodes, insert_item, get_db, upd_db. munfold.
  destruct (u_heap (reg w) !! u); [|done]. destruct (negb _); [done|].
  match goal with |- context [alloc_loop ?f ?k ?c ?w] =>
    pose proof (Ha f k c w) as Ha'; destruct (alloc_loop f k c w) as [[v|e1|] w1] end; [|by destruct (Ha' e1 w1)|done].
  repeat (case_match; simplify_eq; try done).
Qed.

Lemma live_internalLookup r dr w l name o w' :
  live r dr w -> room dr w' ->
  internalLookup l name w = (o, w') -> o <> Panic -> looked_up r w o w'.
Proof.
  intros L Hroom E0. assert (data_room dr w) as Hdata
    by (eapply data_room_same; [by eapply internalLookup_files|apply Hroom]).
  revert E0. unfold internalLookup.
  destruct (IndexByte name dot) as [i|]; [|intros [= <- <-]; left; eauto].
  unfold get_db, in_reg. munfold. destruct (dbs w !! l) as [d|] eqn:Hd; [|by intros [= <- <-]].
  destruct (b_dbs _ _ _ (lv_base _ _ _ L) _ _ Hd) as (_ & Hl & _).
  destruct (lookupUnsigned _ _ name (reg w)) as [ou g] eqn:Eu.
  destruct (decide (ou = Panic)) as [->|Hou]; [by intros [= <- <-]|].
  destruct (lookupUnsigned_step _ _ _ _ _ _ Eu Hou) as [[-> ->]|(u & p & -> & Hu & Hload & Rg)].
  { rewrite set_reg_id, Hl. destruct (dbptr d); [|intros [= <- <-]; left; eauto].
    intros E _. by eapply live_tx_lookup. }
  destruct (set_reg_live r dr w g L Rg) as [L1 C1]. set (w1 := set_reg g w) in *.
  destruct (pkgInoUnsigned l u w1) as [o1 w2] eqn:E1. intros E Ho.
  destruct (pkgInoUnsigned_sizes l u _ _ _ E1) as [F2 Z2].
  assert (o1 <> Panic /\ w' = w2) as [Ho1 ->].
  { destruct o1 as [n| |]; [|by simplify_eq..]. split; [done|]. revert E. unfold in_unsigned.
    destruct (u_heap (reg w2) !! u) as [q|] eqn:Eq; [|by intros [= <- <-]].
    rewrite (set_unsigned_id w2 u q Eq). by intros [= _ <-]. }
  destruct Hroom as [_ Hroom]. specialize (Z2 u). change (reg w1) with g in Z2. rewrite Hu in Z2.
  destruct (u_heap (reg w2) !! u) as [q|] eqn:Eq; [|done]. injection Z2 as Eq2.
  destruct (Hroom u q Eq) as [R1 R2]. rewrite Eq2 in R1, R2.
  destruct (live_unsigned r dr w1 l d u p o1 w2 L1 Hd Hu Hload R1 R2 E1 Ho1)
    as (v & dr' & -> & L2 & C2 & F & _).
  right. revert E. unfold in_unsigned. rewrite Eq. rewrite (set_unsigned_id w2 u q Eq).
  intros [= <-]. eexists _, dr'. split; [reflexivity|]. split; [done|]. split; [by etrans|].
  intros k. rewrite (F k). done.
Qed.

(** ** Sub-databases *)

(** The data files a process finds are well formed. *)
Definition env_ok (env : environ) : Prop := forall fn b, env_file env fn = Some b -> db_wf b.

Lemma init_db_wf env d b d' :
  locked d = false -> db_wf (file d) -> init_db env d = (Ok b, d') ->
  locked d' = false /\ db_wf (file d').
Proof.
  intros Hl Hw. unfold init_db, try_st. munfold.
  destruct (buildLdso d) as [o1 d1] eqn:E1. apply buildLdso_frame in E1 as (S1 & F1 & _ & L1 & _).
  rewrite Hl in L1. rewrite <-F1 in Hw. destruct o1 as [[]|e|]; [| |done].
  all: destruct (CurrentVersion d1) as [v| |]; [|done..]; case_bool_decide.
  all: try (intros [= _ <-]; done).
  all: destruct (download (env_net env) [] d1) as [o2 d2] eqn:E2; destruct o2; [|done..];
    intros [= _ <-]; destruct (download_cases _ _ _ _ _ L1 E2) as (L2 & S2 & _ & W);
    (split; [done|]); destruct W as [[-> _]|(v' & f & _ & _ & _ & h & data & _ & Hi)]; [done|];
    by apply (index_effect_wf _ _ _ _ Hi).
Qed.

Lemma open_db_new env prefix name path os arch d b d' :
  env_ok env -> open_db env prefix name path os arch = Ok d -> init_db env d = (Ok b, d') ->
  parent d' = None /\ pkgI d' = ∅ /\ locked d' = false /\ db_wf (file d') /\ nextI d' = 1000 /\
  ino d' = llrb_New.
Proof.
  intros He Eo Ei. unfold open_db in Eo. destruct (env_open env); [done|]. injection Eo as <-.
  match type of Ei with init_db env ?d = _ => set (d0 := d) in * end.
  assert (db_wf (file d0)) as Hw.
  { cbn. destruct (env_file env _) eqn:Ef; [by eapply He|apply db_wf_empty]. }
  destruct (init_db_wf _ d0 _ _ eq_refl Hw Ei) as [Hl' Hw'].
  apply init_db_frame in Ei as (_ & _ & Ft & _ & Fp & Fn & Fk & _); [|done].
  by rewrite Fp, Fk, Fn, Ft.
Qed.

(** What [NewOsArch] adds. *)
Lemma NewOsArch_cases env prefix name path os arch w o w' :
  env_ok env -> NewOsArch env prefix name path os arch w = (o, w') ->
  let g := initUnsigned (loadUnsigned w) (reg w) in
  (is_ok o = false /\ w' = set_reg g w) \/
  exists d b, o = Ok (db_next w) /\ parent d = None /\ pkgI d = ∅ /\ locked d = false /\
    db_wf (file d) /\ nextI d = 1000 /\ ino d = llrb_New /\
    w' = {| dbs := <[db_next w := d]> (dbs w); db_next := S (db_next w); pkgs := pkgs w;
            pkg_next := pkg_next w; pkgCache := pkgCache w; reg := g;
            loadUnsigned := loadUnsigned w; threads := threads w ++ [(db_next w, b)] |}.
Proof.
  intros He. unfold NewOsArch. destruct (open_db env prefix name path os arch) as [d| |] eqn:Eo;
    [|intros [= <- <-]; by left..].
  destruct (init_db env d) as [[b| |] d'] eqn:Ei; [|intros [= <- <-]; by left..].
  intros [= <- <-]. right. destruct (open_db_new _ _ _ _ _ _ _ _ _ He Eo Ei) as (?&?&?&?&?&?).
  by exists d', b.
Qed.

Lemma initUnsigned_step b g : reg_step g (initUnsigned b g).
Proof. unfold initUnsigned. destruct b; by apply reg_step_same. Qed.

(** The world after [SubGet] has made the database [d] for the platform [s]. *)
Definition sub_opened (r : nat) (dr : DB) (s : ArchOS) (d : DB) (b : bool) (w : World) : World := {|
  dbs := <[r := set_sub (<[s := db_next w]> (sub dr)) dr]>
           (<[db_next w := set_channel (channel dr) (set_parent (Some r) d)]> (dbs w));
  db_next := S (db_next w); pkgs := pkgs w; pkg_next := pkg_next w; pkgCache := pkgCache w;
  reg := initUnsigned (loadUnsigned w) (reg w); loadUnsigned := loadUnsigned w;
  threads := threads w ++ [(db_next w, b)] |}.

Lemma SubGet_cases env r dr s w o w' :
  env_ok env -> base r dr w -> SubGet env r s w = (o, w') ->
  w' = w \/ w' = set_reg (initUnsigned (loadUnsigned w) (reg w)) w \/
  exists d b, parent d = None /\ pkgI d = ∅ /\ locked d = false /\ db_wf (file d) /\
    w' = sub_opened r dr s d b w.
Proof.
  intros He B. pose proof (sh_root _ _ _ (b_shape _ _ _ B)) as Hr.
  destruct (b_dbs _ _ _ B _ _ Hr) as (Hlt & _ & _).
  unfold SubGet, get_db, upd_db. munfold. rewrite Hr.
  destruct (_ && _); [intros [= _ <-]; by left|]. destruct (sub dr !! s); [intros [= _ <-]; by left|].
  destruct (NewOsArch env _ _ _ _ _ w) as [o1 w1] eqn:E1. intros E.
  destruct (NewOsArch_cases _ _ _ _ _ _ _ _ _ He E1) as [[Ho ->]|(d & b & -> & Hp & Hk & Hl & Hw & _ & _ & ->)].
  { right. left. by destruct o1; [|injection E as _ <-..]. }
  right. right. exists d, b. do 4 (split; [done|]). revert E. cbn [dbs set_dbs].
  rewrite !lookup_insert_eq. cbn [dbs set_dbs]. rewrite !lookup_insert_eq. cbn [dbs set_dbs].
  rewrite !lookup_insert_ne by lia. rewrite Hr. intros [= _ <-].
  unfold sub_opened, set_dbs. cbn. f_equal. by rewrite !insert_insert_same.
Qed.

Lemma live_SubGet env r dr s w o w' :
  env_ok env -> live r dr w -> SubGet env r s w = (o, w') ->
  exists dr', live r dr' w' /\ carries r w w' /\ nextI dr' = nextI dr.
Proof.
  intros He L E. pose proof (lv_base _ _ _ L) as B. pose proof (sh_root _ _ _ (b_shape _ _ _ B)) as Hr.
  destruct (b_dbs _ _ _ B _ _ Hr) as (Hlt & Hlr & Hwr).
  destruct (SubGet_cases _ _ _ _ _ _ _ He B E) as [->|[->|(d & b & Hp & Hk & Hl & Hw & ->)]].
  { by exists dr. }
  { exists dr. destruct (set_reg_live r dr w _ L (initUnsigned_step (loadUnsigned w) (reg w))) as [? ?]. done. }
  set (w' := sub_opened r dr s d b w). set (d2 := set_channel (channel dr) (set_parent (Some r) d)).
  set (dr2 := set_sub (<[s := db_next w]> (sub dr)) dr).
  assert (forall k, dbs w' !! k = if decide (k = r) then Some dr2
    else if decide (k = db_next w) then Some d2 else dbs w !! k) as Hd.
  { intros k. unfold w', sub_opened. cbn [dbs]. repeat case_decide; subst;
      [by rewrite lookup_insert_eq| |]; rewrite lookup_insert_ne by done;
      [by rewrite lookup_insert_eq|by rewrite lookup_insert_ne]. }
  assert (dbs w !! db_next w = None) as Hnx.
  { destruct (dbs w !! db_next w) as [d0|] eqn:E0; [|done].
    pose proof (proj1 (b_dbs _ _ _ B _ _ E0)). lia. }
  pose proof (initUnsigned_step (loadUnsigned w) (reg w)) as Rg.
  assert (forall k dk, dbs w !! k = Some dk -> dbs w' !! k = Some (if decide (k = r) then dr2 else dk)) as Hold.
  { intros k dk Hdk. rewrite Hd. repeat case_decide; [done| |done]. subst. congruence. }
  assert (quiet r w w') as Q.
  { split.
    - split; [|apply Rg]. intros p st Hst. exists st. split; [done|apply same_identity_refl].
    - intros k dk Hdk. eexists. split; [by apply Hold|]. destruct (b_dbs _ _ _ B _ _ Hdk) as (_ & ? & ?).
      case_decide; [|done]. subst. assert (dk = dr) as -> by congruence. done.
    - intros k dk. rewrite Hd. intros Hdk Hn. repeat case_decide; simplify_eq. split; [done|].
      by split.
    - intros k dk. rewrite Hd. cbn [db_next w' sub_opened]. repeat case_decide; intros; simplify_eq; [lia..|].
      pose proof (proj1 (b_dbs _ _ _ B k dk ltac:(done))). lia.
    - done.
    - intros p st Hst. destruct (b_pkg _ _ _ B p st Hst) as [? [dk Hdk]]. split; [done|].
      eexists. by apply Hold.
    - intros u p Hu. destruct Rg as [R1 R2 R3]. destruct (R2 u p Hu) as [(p0 & Hu0 & _)|[? _]]; [|done].
      pose proof (b_heap _ _ _ B _ _ Hu0). cbn. lia.
    - intros u p Hu Hs. destruct Rg as [R1 R2 R3]. destruct (R2 u p Hu) as [(p0 & Hu0 & Es)|[_ Hz]]; [|done].
      by exists p0. }
  pose proof (b_next _ _ _ B) as Hnext.
  destruct (quiet_live _ _ _ _ L Q) as (dr' & L' & _ & _ & C).
  - rewrite Hd, decide_True by done. intros ? [= <-]. cbn. lia.
  - intros k dk dk' H1' H2'. rewrite (Hold _ _ H1') in H2'. injection H2' as <-.
    case_decide; [|done]. subst. by assert (dk = dr) as -> by congruence.
  - exists dr'. split; [done|]. split; [done|]. pose proof (sh_root _ _ _ (b_shape _ _ _ L')) as Hr'.
    rewrite Hd, decide_True in Hr' by done. by injection Hr' as <-.
Qed.
Lemma room_next dr dr' w : nextI dr' = nextI dr -> room dr w -> room dr' w.
Proof. unfold room, data_room. by intros ->. Qed.

(** A lookup that fails changes nothing. *)
Lemma internalLookup_err r dr w l name e w' :
  live r dr w -> data_room dr w -> internalLookup l name w = (Err e, w') -> w' = w.
Proof.
  intros L Hroom. unfold internalLookup. destruct (IndexByte name dot) as [i|]; [|by intros [= _ <-]].
  unfold get_db, in_reg. munfold. destruct (dbs w !! l) as [d|] eqn:Hd; [|done].
  destruct (b_dbs _ _ _ (lv_base _ _ _ L) _ _ Hd) as (_ & Hl & _).
  destruct (lookupUnsigned _ _ name (reg w)) as [ou g] eqn:Eu.
  destruct (decide (ou = Panic)) as [->|Hou]; [done|].
  destruct (lookupUnsigned_step _ _ _ _ _ _ Eu Hou) as [[-> ->]|(u & p & -> & Hu & Hload & Rg)].
  { rewrite set_reg_id, Hl. destruct (dbptr d); [|by intros [= _ <-]]. intros E.
    destruct (live_tx_lookup _ _ _ _ _ _ _ _ L Hd Hroom E) as [(? & _ & ->)|(n & dr' & [=] & _)]. done. }
  destruct (pkgInoUnsigned l u _) as [[v|e1|] w2] eqn:E1; [| |done].
  - unfold in_unsigned. by destruct (u_heap (reg w2) !! u).
  - by apply pkgInoUnsigned_not_err in E1.
Qed.

Lemma live_fallback r dr w l name sname o w' :
  live r dr w -> room dr w' -> with_fallback l name sname w = (o, w') -> o <> Panic ->
  looked_up r w o w'.
Proof.
  intros L Hroom. unfold with_fallback. destruct (internalLookup l name w) as [o1 w1] eqn:E1. intros E Ho.
  assert (o1 <> Panic) as Ho1 by (intros ->; by injection E as <- <-).
  destruct (decide (o1 = Err ErrNotExist)) as [->|Hne].
  - assert (data_room dr w) as Hdata.
    { eapply data_room_same; [|apply Hroom]. etrans; by eapply internalLookup_files. }
    pose proof (internalLookup_err _ _ _ _ _ _ _ L Hdata E1) as ->. by eapply live_internalLookup.
  - assert (o = o1 /\ w' = w1) as [-> ->].
    { destruct o1 as [|[]|]; by simplify_eq/=. }
    by eapply live_internalLookup.
Qed.

(** [Lookup]: any suffix, any platform. *)
Lemma live_Lookup env r dr w name o w' :
  env_ok env -> live r dr w -> room dr w' -> World.Lookup env r name w = (o, w') -> o <> Panic ->
  exists dr', live r dr' w' /\ carries r w w'.
Proof.
  intros He L Hroom. pose proof (sh_root _ _ _ (b_shape _ _ _ L)) as Hr.
  assert (forall w1 dr1, live r dr1 w1 -> carries r w w1 -> looked_up r w1 o w' ->
    exists dr', live r dr' w' /\ carries r w w') as Hdone.
  { intros w1 dr1 L1 C1 [(e & _ & ->)|(n & dr' & _ & L' & C' & _)]; [by exists dr1|].
    exists dr'. split; [done|by etrans]. }
  unfold World.Lookup. destruct (LastIndexByte name dot) as [i|]; [|intros [= <- <-] _; by exists dr].
  case_bool_decide; [intros [= <- <-] _; by exists dr|].
  destruct (split_suffix name) as [[sname s]|].
  2: { intros E Ho. apply (Hdone w dr); [done|done|]. by eapply live_internalLookup. }
  unfold get_db. munfold. rewrite Hr. destruct (_ && _).
  { intros E Ho. apply (Hdone w dr); [done|done|]. by eapply live_fallback. }
  destruct (SubGet env r s w) as [o1 w1] eqn:E1.
  destruct (live_SubGet _ _ _ _ _ _ _ He L E1) as (dr1 & L1 & C1 & En).
  destruct o1 as [l|e|]; intros E Ho; [|injection E as <- <-; by exists dr1..].
  apply (Hdone w1 dr1 L1 C1). eapply live_fallback; [done| |done|done]. by apply room_next with dr.
Qed.
End life.
