(* ===== verification/Running.v ===== *)
(** * Running: the theorems of a running daemon

    The operations of the daemon as one step relation, over the invariant of
    [Life.v]: inode numbers that were given out stay valid under lookups,
    updates, new sub-databases and changes of the directory of images. *)

From S2P Require Import Prelude GoLib GoPath Sig Collate Natsort OsArch Bolt Store GoTime Pins Ldso Index Export Package Update Unsigned World Lookup Proto Fuse Mount Life.
Local Open Scope Z_scope.

Section running.
Context `{BoltSpec, LlrbSpec, Ldcache, !Json, GoRange, GoSort, Ed25519Spec, Jwt, Squashfs, Remote, PkgJson}.

(** ** Inode requests *)

(** The item an inode number belongs to, and its size. *)
Definition owned (dr : DB) (w : World) (n : Z) (v : Z) (i : item) : Prop :=
  items dr !! v = Some i /\ exists k, holds_range w (item_ref i) v k /\ v <= n <= v + k.

Lemma owned_bounds r dr w n v i :
  base r dr w -> owned dr w n v i -> item_Value i = v /\ 1000 <= v <= n /\ n < nextI dr.
Proof.
  intros B (Hi & k & Hh & Hn). destruct (b_item _ _ _ B v i Hi) as (Ev & Hv & k' & Hh' & _ & He).
  destruct (holds_range_inj _ _ _ _ _ _ Hh Hh') as [_ ->]. split; [done|lia].
Qed.

Lemma owned_first r dr w n v i :
  base r dr w -> owned dr w n v i -> DescendFirst (ino dr) n = Some i.
Proof.
  intros B (Hi & k & Hh & Hn). destruct (b_item _ _ _ B v i Hi) as (Ev & Hv & _).
  destruct (DescendFirst (ino dr) n) as [j|] eqn:E.
  - apply DescendFirst_Some in E as (Hj & Hle & Hmax). specialize (Hmax _ _ Hi ltac:(lia)).
    destruct (decide (item_Value j = v)) as [Ej|Hne].
    + rewrite Ej in Hj. unfold items in Hi. congruence.
    + pose proof (b_apart _ _ _ B v i k (item_Value j) j Hi Hh Hj ltac:(lia)). lia.
  - pose proof (DescendFirst_None _ _ E _ _ Hi). lia.
Qed.

(** Two owners of one number are the same. *)
Lemma owned_inj r dr w n v i v' i' :
  base r dr w -> owned dr w n v i -> owned dr w n v' i' -> i = i' /\ v = v'.
Proof.
  intros B O O'. pose proof (owned_first _ _ _ _ _ _ B O). pose proof (owned_first _ _ _ _ _ _ B O').
  assert (i = i') as <- by congruence.
  destruct (owned_bounds _ _ _ _ _ _ B O) as [<- _], (owned_bounds _ _ _ _ _ _ B O') as [<- _]. done.
Qed.

(** What [GetInode] does with a number that has an owner. *)
Definition routed (i : item) (n : Z) : ST World fsInode :=
  match item_ref i with
  | RefPkg p =>
      s ← in_pkg p get_st;
      pd ← get_db (pk_parent (dl_pkg s));
      InoPkg <$> in_pkg p (handleLookup (conf pd) n)
  | RefUnsigned u => InoPkg <$> in_unsigned u (unsigned_handleLookup n)
  end.

Lemma in_unsigned_get u p w :
  u_heap (reg w) !! u = Some p -> in_unsigned u (fun s => (Ok s, s)) w = (Ok p, w).
Proof. intros Hu. unfold in_unsigned. rewrite Hu. by rewrite set_unsigned_id. Qed.

Lemma GetInode_owned r dr w n v i :
  base r dr w -> owned dr w n v i -> GetInode r n w = routed i n w.
Proof.
  intros B O. destruct (owned_bounds _ _ _ _ _ _ B O) as (Ev & Hv & Hn).
  pose proof (owned_first _ _ _ _ _ _ B O) as Hd. destruct O as (Hi & k & Hh & Hr).
  destruct (b_item _ _ _ B v i Hi) as (_ & _ & k' & Hh' & Hk & Hend).
  destruct (holds_range_inj _ _ _ _ _ _ Hh Hh') as [_ <-]. pose proof (b_next _ _ _ B).
  unfold GetInode, routed, get_db. rewrite !(proj2 (Z.eqb_neq n _)) by lia. munfold.
  rewrite (sh_root _ _ _ (b_shape _ _ _ B)), Hd. destruct i as [v' [p|u]]; cbn in *.
  - destruct Hh as (st & Hp & Es & En). rewrite (in_pkg_get p st w Hp), Es, En, u64_small by lia.
    by rewrite (proj2 (Z.ltb_lt _ _)) by lia.
  - destruct Hh as (q & Hu & _ & Es & En). rewrite (in_unsigned_get u q w Hu), Es, En, u64_small by lia.
    by rewrite (proj2 (Z.ltb_lt _ _)) by lia.
Qed.

(** A number without an owner, other than the root and [ld.so.cache], is refused. *)
Lemma GetInode_unowned r dr w n :
  base r dr w -> n <> 1 -> n <> 2 -> (forall v i, ~ owned dr w n v i) ->
  GetInode r n w = (Err ErrInvalid, w).
Proof.
  intros B H1' H2' Hno. unfold GetInode, get_db. rewrite !(proj2 (Z.eqb_neq n _)) by done. munfold.
  rewrite (sh_root _ _ _ (b_shape _ _ _ B)). destruct (DescendFirst (ino dr) n) as [i|] eqn:E; [|done].
  apply DescendFirst_Some in E as (Hi & Hle & _).
  destruct (b_item _ _ _ B _ i Hi) as (_ & Hv & k & Hh & Hk & Hend). pose proof (b_next _ _ _ B).
  assert (~ n <= item_Value i + k) as Hgt.
  { intros Hn. apply (Hno (item_Value i) i). split; [done|]. exists k. split; [done|lia]. }
  destruct i as [v' [p|u]]; cbn in *.
  - destruct Hh as (st & Hp & Es & En). rewrite (in_pkg_get p st w Hp), Es, En, u64_small by lia.
    by rewrite (proj2 (Z.ltb_ge _ _)) by lia.
  - destruct Hh as (q & Hu & _ & Es & En). rewrite (in_unsigned_get u q w Hu), Es, En, u64_small by lia.
    by rewrite (proj2 (Z.ltb_ge _ _)) by lia.
Qed.

Lemma unsigned_handleLookup_loaded n p o p' :
  u_load p = true -> unsigned_handleLookup n p = (o, p') -> p' = p.
Proof. intros Hl. unfold unsigned_handleLookup, open. rewrite Hl. by intros [= _ <-]. Qed.

Lemma owned_dec r dr w n :
  base r dr w -> (exists v i, owned dr w n v i) \/ (forall v i, ~ owned dr w n v i).
Proof.
  intros B. destruct (DescendFirst (ino dr) n) as [i|] eqn:E.
  - pose proof E as (Hi & Hle & _)%DescendFirst_Some.
    destruct (b_item _ _ _ B _ i Hi) as (_ & Hv & k & Hh & _). destruct (decide (n <= item_Value i + k)) as [Hn|Hn].
    + left. exists (item_Value i), i. split; [done|]. exists k. split; [done|lia].
    + right. intros v j O. pose proof (owned_first _ _ _ _ _ _ B O). assert (j = i) as -> by congruence.
      destruct (owned_bounds _ _ _ _ _ _ B O) as [<- _]. destruct O as (_ & k' & Hh' & Hr).
      destruct (holds_range_inj _ _ _ _ _ _ Hh Hh') as [_ <-]. lia.
  - right. intros v i O. pose proof (owned_first _ _ _ _ _ _ B O). congruence.
Qed.

Lemma live_routed r dr w i n v o w' :
  live r dr w -> owned dr w n v i -> routed i n w = (o, w') -> o <> Panic ->
  live r dr w' /\ carries r w w'.
Proof.
  intros L (Hi & k & Hh & _). unfold routed. destruct i as [v' [p|u]]; cbn in Hh |- *; munfold.
  - destruct Hh as (st & Hp & _). rewrite (in_pkg_get p st w Hp). unfold get_db.
    destruct (b_pkg _ _ _ (lv_base _ _ _ L) p st Hp) as [_ [d ->]]. unfold in_pkg. rewrite Hp.
    destruct (handleLookup (conf d) n st) as [o1 st1] eqn:E. intros E2 Ho.
    assert (o1 <> Panic /\ w' = set_pkg p st1 w) as [Ho1 ->] by (destruct o1; by simplify_eq/=).
    apply (set_pkg_live r dr w p st st1 L Hp). by eapply handleLookup_identity.
  - destruct Hh as (q & Hu & Hl & _). unfold in_unsigned. rewrite Hu.
    destruct (unsigned_handleLookup n q) as [o1 q1] eqn:E. apply unsigned_handleLookup_loaded in E as ->; [|done].
    rewrite set_unsigned_id by done. intros E2 _. assert (w' = w) as -> by (destruct o1; by simplify_eq/=). done.
Qed.

Lemma live_GetInode r dr w n o w' :
  live r dr w -> GetInode r n w = (o, w') -> o <> Panic -> live r dr w' /\ carries r w w'.
Proof.
  intros L E Ho. pose proof (lv_base _ _ _ L) as B.
  destruct (decide (n = 1)) as [->|H1']; [by injection E as <- <-|].
  destruct (decide (n = 2)) as [->|H2'].
  { revert E. unfold GetInode, get_db. change (2 =? 1) with false. munfold.
    rewrite (sh_root _ _ _ (b_shape _ _ _ B)). by intros [= <- <-]. }
  destruct (owned_dec r dr w n B) as [(v & i & O)|Hno].
  - rewrite (GetInode_owned _ _ _ _ _ _ B O) in E. by eapply live_routed.
  - rewrite (GetInode_unowned r dr w n B H1' H2' Hno) in E. by injection E as <- <-.
Qed.

(** An owner stays the owner. *)
Lemma owned_carried r dr w dr' w' n v i :
  base r dr w -> base r dr' w' -> carries r w w' -> owned dr w n v i -> owned dr' w' n v i.
Proof.
  intros B B' C (Hi & k & Hh & Hn). split.
  - eapply (ca_items _ _ _ C); [apply B|apply B'|done].
  - exists k. split; [|done]. destruct (b_item _ _ _ B v i Hi) as (_ & Hv & _).
    eapply holds_range_kept; [apply C|lia|done].
Qed.

(** ** Writes *)

(** The operations on one database that change its data. *)
Inductive write_op : ST DB unit -> Prop :=
  | op_index f : write_op (index f)
  | op_add rpath p : wf_entry (entry_of rpath p) -> write_op (AddPackage rpath p)
  | op_remove name : write_op (RemovePackage name)
  | op_set_pin channel prefix version : write_op (SetPin channel prefix version)
  | op_delete_pin channel prefix : write_op (DeletePin channel prefix)
  | op_update net : write_op (update net)
  | op_thread req ws : write_op (updateThread req ws)
  | op_ldso : write_op buildLdso.

Lemma same_but_ldso_core d d' : same_but_ldso d d' -> same_core d d'.
Proof. unfold same_but_ldso, same_core. tauto. Qed.
Lemma same_meta_core d d' : same_meta d d' -> same_core d d'.
Proof. intros M. by apply same_but_ldso_core, same_meta_but_ldso. Qed.

Lemma write_tx_core {A} (fn : ST bdb A) d o d' :
  locked d = false -> with_write (Update fn) d = (o, d') -> locked d' = false /\ same_core d d'.
Proof.
  intros Hl E. destruct (write_tx_spec fn d Hl) as (o2 & d2 & E2 & M & L & _).
  rewrite E in E2. injection E2 as <- <-. split; [done|by apply same_meta_core].
Qed.

Lemma update_kept net d o d' : locked d = false -> update net d = (o, d') -> kept d d'.
Proof.
  intros Hl E. assert (logged_update net d = (match o with Panic => Panic | _ => Ok tt end, d')) as E2.
  { unfold logged_update, try_st. munfold. rewrite E. by destruct o. }
  by apply logged_update_kept in E2 as [K _].
Qed.

Lemma write_op_keeps m d o d' :
  write_op m -> locked d = false -> db_wf (file d) -> m d = (o, d') ->
  locked d' = false /\ same_core d d' /\ db_wf (file d').
Proof.
  intros Hm Hl Hw. destruct Hm; intros E.
  - assert (db_wf (file d')) by by eapply index_wf. apply index_cases in E; [|done].
    destruct (check_file _ f) as [[h data]| |]; [|by destruct E as [_ ->]..].
    destruct E as (? & ? & _). split; [done|]. split; [by apply same_but_ldso_core|done].
  - assert (db_wf (file d')) by by eapply AddPackage_wf.
    by destruct (write_tx_core _ _ _ _ Hl E).
  - assert (db_wf (file d')) by by eapply RemovePackage_wf.
    by destruct (write_tx_core _ _ _ _ Hl E).
  - assert (db_wf (file d')) by by eapply SetPin_wf.
    by destruct (write_tx_core _ _ _ _ Hl E).
  - assert (db_wf (file d')) by by eapply DeletePin_wf.
    by destruct (write_tx_core _ _ _ _ Hl E).
  - destruct (update_kept _ _ _ _ Hl E) as (S & Ev & L). split; [done|].
    split; [by apply same_but_ldso_core|by apply (evolves_wf (conf d) (file d))].
  - destruct (updateThread_kept _ _ _ _ _ Hl E) as (S & Ev & L). split; [done|].
    split; [by apply same_but_ldso_core|by apply (evolves_wf (conf d) (file d))].
  - apply buildLdso_frame in E as (S & -> & _ & -> & _). split; [done|].
    split; [by apply same_but_ldso_core|done].
Qed.

Lemma live_in_db r dr w l {A} (m : ST DB A) o w' :
  live r dr w ->
  (forall d o d', locked d = false -> db_wf (file d) -> m d = (o, d') ->
     locked d' = false /\ same_core d d' /\ db_wf (file d')) ->
  in_db l m w = (o, w') -> exists dr', live r dr' w' /\ carries r w w'.
Proof.
  intros L Hm. unfold in_db. destruct (dbs w !! l) as [d|] eqn:Ed; [|intros [= _ <-]; by exists dr].
  destruct (m d) as [o1 d1] eqn:E1. intros [= _ <-].
  destruct (b_dbs _ _ _ (lv_base _ _ _ L) _ _ Ed) as (_ & Hl & Hw).
  destruct (Hm _ _ _ Hl Hw E1) as (Hl1 & Hc & Hw1).
  destruct (set_db_live r dr w l d d1 L Ed Hc Hl1 Hw1) as (dr' & L' & _ & C). by exists dr'.
Qed.

Lemma live_upd_db r dr w l f o w' :
  live r dr w -> (forall d, same_core d (f d) /\ locked (f d) = locked d /\ file (f d) = file d) ->
  upd_db l f w = (o, w') -> exists dr', live r dr' w' /\ carries r w w'.
Proof.
  intros L Hf E. assert (in_db l (upd_st f) w = (o, w')) as E'.
  { revert E. unfold upd_db, in_db. munfold. by destruct (dbs w !! l). }
  eapply live_in_db; [done| |exact E']. intros d o1 d1 Hl Hw [= <- <-].
  destruct (Hf d) as (? & -> & ->). done.
Qed.

(** A computation that keeps the invariant whatever its outcome. *)
Definition stays {A} (r : nat) (m : ST World A) : Prop := forall dr w o w',
  live r dr w -> m w = (o, w') -> exists dr', live r dr' w' /\ carries r w w'.

Lemma stays_ret {A} r (a : A) : stays r (mret a).
Proof. intros dr w o w' L [= _ <-]. by exists dr. Qed.
Lemma stays_lift {A} r (o : outcome A) : stays r (lift_st o).
Proof. intros dr w o' w' L [= _ <-]. by exists dr. Qed.
Lemma stays_get r l : stays r (get_db l).
Proof. intros dr w o w' L. unfold get_db. destruct (dbs w !! l); intros [= _ <-]; by exists dr. Qed.
Lemma stays_bind {A B} r (m : ST World A) (f : A -> ST World B) :
  stays r m -> (forall a, stays r (f a)) -> stays r (m ≫= f).
Proof.
  intros Hm Hf dr w o w' L E. apply bind_cases in E as [(a & w1 & E1 & E)|(om & E1 & _)].
  - destruct (Hm _ _ _ _ L E1) as (dr1 & L1 & C1). destruct (Hf a _ _ _ _ L1 E) as (dr2 & L2 & C2).
    exists dr2. split; [done|by etrans].
  - by eapply Hm.
Qed.
Lemma stays_try {A} r (m : ST World A) : stays r m -> stays r (try_st m).
Proof.
  intros Hm dr w o w' L E. unfold try_st in E. destruct (m w) as [o1 w1] eqn:E1.
  destruct (Hm _ _ _ _ L E1) as (dr1 & L1 & C1). exists dr1. by destruct o1; simplify_eq/=.
Qed.
Lemma stays_upd r l f :
  (forall d, same_core d (f d) /\ locked (f d) = locked d /\ file (f d) = file d) -> stays r (upd_db l f).
Proof. intros Hf dr w o w' L E. by eapply live_upd_db. Qed.

Lemma stays_SetChannel r l ch : stays r (SetChannel l ch).
Proof.
  apply stays_bind; [by apply stays_upd|]. intros _. apply stays_bind; [apply stays_get|]. intros d.
  induction (snd <$> map_to_list (sub d)) as [|k ls IH]; cbn [upd_all]; [apply stays_ret|].
  apply stays_bind; [by apply stays_upd|done].
Qed.

(** Closing a database, its sub-databases first. *)
Lemma close_db_keeps d o d' :
  locked d = false -> db_wf (file d) -> close_db d = (o, d') ->
  locked d' = false /\ same_core d d' /\ db_wf (file d').
Proof.
  intros Hl Hw. unfold close_db, close_body, with_Lock, dbrw_Lock, defer_st, os_call. munfold. rewrite Hl.
  change (Store.closed (set_locked true d)) with (Store.closed d).
  change (dbptr (set_locked true d)) with (dbptr d).
  destruct (Store.closed d); [by intros E; simplify_eq/=|].
  destruct (dbptr d); [|by intros E; simplify_eq/=]. unfold set_closed. cbn [faults set_locked].
  destruct (faults d) as [|[e|] fs]; by intros E; simplify_eq/=.
Qed.

Lemma stays_close r fuel l : stays r (close_loop fuel l).
Proof.
  revert l. induction fuel as [|fuel IH]; intros l; cbn [close_loop]; [apply stays_lift|].
  apply stays_bind; [apply stays_get|]. intros d. apply stays_bind.
  - induction (map_to_list (sub d)) as [|e es IHe]; cbn [foldr]; [apply stays_ret|].
    apply stays_bind; [apply stays_try, IH|]. intros _. apply stays_bind; [by apply stays_upd|done].
  - intros _ dr w o w' L E. eapply live_in_db; [done| |exact E]. apply close_db_keeps.
Qed.

(** ** The steps of a running daemon

    The root database is at [r].  A lookup may open a sub-database; it is taken
    only while the counter of inodes has room for one more package. *)
Inductive life (r : nat) (w w' : World) : Prop :=
  | life_lookup env dr name o :
      env_ok env -> dbs w !! r = Some dr -> room dr w' ->
      World.Lookup env r name w = (o, w') -> o <> Panic -> life r w w'
  | life_inode n o : GetInode r n w = (o, w') -> o <> Panic -> life r w w'
  | life_write l m o : write_op m -> in_db l m w = (o, w') -> life r w w'
  | life_channel ch o : SetChannel r ch w = (o, w') -> life r w w'
  | life_target l t o : SetNotifyTarget l t w = (o, w') -> life r w w'
  | life_close l o : Close l w = (o, w') -> life r w w'
  | life_timer p o : in_pkg p timer_fires w = (o, w') -> life r w w'
  | life_ref delta : w' = snd (add_refcnt r delta w) -> life r w w'
  | life_scan p f stat g :
      addUnsignedFile p f stat (reg w) = Ok g -> w' = set_reg g w -> life r w w'
  | life_event p ev g : handle_event p ev (reg w) = Ok g -> w' = set_reg g w -> life r w w'.

Lemma live_step r dr w w' :
  live r dr w -> life r w w' -> exists dr', live r dr' w' /\ carries r w w'.
Proof.
  intros L [env dr0 name o He Hr Hroom E Ho|n o E Ho|l m o Hm E|ch o E|l t o E|l o E|p o E|delta ->|p f stat g E ->|p ev g E ->].
  - rewrite (sh_root _ _ _ (b_shape _ _ _ L)) in Hr. injection Hr as <-. by eapply live_Lookup.
  - exists dr. by eapply live_GetInode.
  - eapply live_in_db; [done| |done]. intros d o1 d' Hl Hw. by apply write_op_keeps.
  - by eapply stays_SetChannel.
  - eapply live_upd_db; [done| |exact E]. by intros d.
  - by apply (stays_close r (S (db_next w)) l dr w o).
  - revert E. unfold in_pkg. destruct (pkgs w !! p) as [st|] eqn:Hp; [|intros [= _ <-]; by exists dr].
    unfold timer_fires. destruct (dl_timers st) as [|k]; intros [= _ <-]; exists dr;
      by apply (set_pkg_live r dr w p st).
  - unfold add_refcnt. destruct (dbs w !! r) as [d|] eqn:Ed; [|by exists dr].
    destruct (b_dbs _ _ _ L _ _ Ed) as (_ & Hl & Hw).
    destruct (set_db_live r dr w r d (set_refcnt (u64 (refcnt d + delta)) d) L Ed) as (dr' & L' & _ & C);
      [done..|]. by exists dr'.
  - exists dr. apply set_reg_live; [done|]. eapply addUnsignedFile_step; [|done]. apply (b_heap _ _ _ L).
  - exists dr. apply set_reg_live; [done|]. revert E. unfold handle_event.
    destruct (ev_Create ev).
    + destruct (addUnsignedFile _ _ _ _) as [g1| |] eqn:E1; [|done..]. intros [= <-].
      apply addUnsignedFile_step in E1; [|apply (b_heap _ _ _ L)].
      destruct (ev_Remove ev); [|done]. destruct E1 as [A1 A2 A3].
      destruct (removeUnsignedFile_step (path_Base (ev_Name ev)) g1) as [R1 R2 R3]. split.
      * intros u q (q1 & Hq1 & K1)%A1. destruct (R1 _ _ Hq1) as (q2 & Hq2 & K2). exists q2.
        split; [done|by etrans].
      * intros u q [(q1 & Hq1 & <-)|[? ?]]%R2; [|by right].
        destruct (A2 _ _ Hq1) as [?|[? ?]]; [by left|right; split; [lia|done]].
      * lia.
    + intros [= <-]. destruct (ev_Remove ev); [apply removeUnsignedFile_step|by apply reg_step_same].
Qed.

Lemma live_steps r dr w w' :
  live r dr w -> rtc (life r) w w' -> exists dr', live r dr' w' /\ carries r w w'.
Proof.
  intros L Hs. revert dr L. induction Hs as [w|w w1 w' Hs _ IH]; intros dr L; [by exists dr|].
  destruct (live_step _ _ _ _ L Hs) as (dr1 & L1 & C1). destruct (IH _ L1) as (dr2 & L2 & C2).
  exists dr2. split; [done|by etrans].
Qed.

(** The state of a process that has just started; [b] is the flag
    [-load_unsigned]. *)
Definition started (b : bool) : World := {|
  dbs := ∅; db_next := 0; pkgs := ∅; pkg_next := 0; pkgCache := ∅;
  reg := {| unsignedMap := None; u_heap := ∅; u_next := 0 |};
  loadUnsigned := b; threads := [] |}.

Lemma New_live env b goos goarch eos earch prefix name path r w :
  env_ok env -> New env goos goarch eos earch prefix name path (started b) = (Ok r, w) ->
  exists dr, live r dr w.
Proof.
  intros He E. unfold New in E.
  destruct (NewOsArch_cases _ _ _ _ _ _ _ _ _ He E) as [[Ho _]|(d & b' & [= ->] & Hp & Hk & Hl & Hw & Hn & Hi & ->)];
    [done|]. cbn [db_next started dbs pkgs pkg_next pkgCache reg loadUnsigned threads].
  assert (items d = ∅) as Hit by (unfold items; by rewrite Hi, llrb_New_items).
  assert (u_heap (initUnsigned b (reg (started b))) = ∅) as Hu by by destruct b.
  exists d. split; [split|]; cbn [dbs pkgs pkg_next pkgCache reg db_next].
  - split; cbn [dbs]; [by rewrite lookup_insert_eq|done|].
    intros l d0. rewrite lookup_insert_Some, lookup_empty. naive_solver.
  - rewrite Hn. unfold two64. lia.
  - intros l d0. rewrite lookup_insert_Some, lookup_empty. intros [[<- <-]|[_ ?]]; [|done]. split; [lia|done].
  - intros v i. by rewrite Hit, lookup_empty.
  - intros v i n v' i'. by rewrite Hit, lookup_empty.
  - intros h p. by rewrite lookup_empty.
  - intros p st. by rewrite lookup_empty.
  - intros u p. cbn in Hu. by rewrite Hu, lookup_empty.
  - intros u p. cbn in Hu. by rewrite Hu, lookup_empty.
  - intros l d0 h v. cbn [dbs]. rewrite lookup_insert_Some, lookup_empty. intros [[_ <-]|[_ ?]]; [|done].
    by rewrite Hk, lookup_empty.
Qed.

(** C7: the inode numbers of a running daemon.  After [New] and any sequence of
    lookups (which may open sub-databases), inode requests, updates and other
    writes, changes of the channel and events of the directory of unsigned
    images, the invariant holds: the data of every database is well formed and
    no write lock is held, every hash with a number has its package, ranges of
    numbers are allocated and disjoint.  Then every number but the two special
    ones either belongs to exactly one package, and [GetInode] asks that one,
    or to none, and [GetInode] refuses it. *)
Theorem daemon_inodes env b goos goarch eos earch prefix name path r w0 w :
  env_ok env ->
  New env goos goarch eos earch prefix name path (started b) = (Ok r, w0) ->
  rtc (life r) w0 w ->
  exists dr, live r dr w /\ forall n, n <> 1 -> n <> 2 ->
    (exists v i, owned dr w n v i /\ (forall v' i', owned dr w n v' i' -> i' = i) /\
       1000 <= v <= n /\ n < nextI dr /\ GetInode r n w = routed i n w) \/
    (forall v i, ~ owned dr w n v i) /\ GetInode r n w = (Err ErrInvalid, w).
Proof.
  intros He E Hs. destruct (New_live _ _ _ _ _ _ _ _ _ _ _ He E) as (dr0 & L0).
  destruct (live_steps _ _ _ _ L0 Hs) as (dr & L & _). exists dr. split; [done|]. intros n H1' H2'.
  pose proof (lv_base _ _ _ L) as B. destruct (owned_dec r dr w n B) as [(v & i & O)|Hno].
  - left. exists v, i. split; [done|]. split; [intros v' i' O'; by destruct (owned_inj _ _ _ _ _ _ _ _ B O O')|].
    destruct (owned_bounds _ _ _ _ _ _ B O) as (_ & ? & ?). split; [done|]. split; [done|].
    by apply (GetInode_owned r dr w n v i).
  - right. split; [done|]. by apply GetInode_unowned with dr.
Qed.

(** *** Links *)

Lemma link_of_owned r dr w n v i t w1 :
  base r dr w -> owned dr w n v i -> routed i n w = (Ok (InoPkg (InoSymlink t)), w1) ->
  n = v /\ w1 = w /\ match item_ref i with
    | RefPkg p => exists st, pkgs w !! p = Some st /\ pk_startIno (dl_pkg st) = v /\ t = pk_name (dl_pkg st)
    | RefUnsigned u => exists p, u_heap (reg w) !! u = Some p /\ u_load p = true /\ u_err p = None /\
        u_startIno p = v /\ t = u_pkg p
    end.
Proof.
  intros B (Hi & k & Hh & _). unfold routed. destruct i as [v' [p|u]]; cbn [item_ref holds_range] in Hh |- *; munfold.
  - destruct Hh as (st & Hp & Es & _). rewrite (in_pkg_get p st w Hp). unfold get_db.
    destruct (b_pkg _ _ _ B p st Hp) as [_ [d ->]]. unfold in_pkg. rewrite Hp.
    destruct (handleLookup (conf d) n st) as [[o1| |] st1] eqn:E; [|done..]. intros [= -> <-].
    revert E. unfold handleLookup. munfold. destruct (Z.eqb_spec n (pk_startIno (dl_pkg st))) as [->|Hne].
    + intros [= <- <-]. split; [done|]. split; [|eauto]. unfold set_pkg. rewrite insert_id by done. by destruct w.
    + destruct (ensureDl (conf d) st) as [[[]| |] st2]; [|done..].
      destruct (pk_squash (dl_pkg st2)); [|done]. destruct (_ <=? _); [done|]. by destruct (sq_GetInode _ _).
  - destruct Hh as (q & Hu & Hl & Es & _). unfold in_unsigned. rewrite Hu.
    destruct (unsigned_handleLookup n q) as [[o1| |] q1] eqn:E; [|done..].
    pose proof (unsigned_handleLookup_loaded _ _ _ _ Hl E) as ->. rewrite set_unsigned_id by done.
    intros [= -> <-]. revert E. unfold unsigned_handleLookup, open. rewrite Hl.
    destruct (u_err q) eqn:Ee; [done|]. destruct (Z.eqb_spec n (u_startIno q)) as [->|Hne].
    + intros [= <-]. split; [done|]. split; [done|]. by exists q.
    + destruct (u_squash q); [|done]. destruct (_ <=? _); [done|]. by destruct (sq_GetInode _ _).
Qed.

Lemma link_carried r dr w dr' w' n t w1 :
  live r dr w -> live r dr' w' -> carries r w w' ->
  GetInode r n w = (Ok (InoPkg (InoSymlink t)), w1) ->
  w1 = w /\ GetInode r n w' = (Ok (InoPkg (InoSymlink t)), w').
Proof.
  intros L L' C E. pose proof (lv_base _ _ _ L) as B. pose proof (lv_base _ _ _ L') as B'.
  destruct (decide (n = 1)) as [->|H1']; [done|]. destruct (decide (n = 2)) as [->|H2'].
  { revert E. unfold GetInode, get_db. change (2 =? 1) with false. munfold.
    by rewrite (sh_root _ _ _ (b_shape _ _ _ B)). }
  destruct (owned_dec r dr w n B) as [(v & i & O)|Hno];
    [|by rewrite (GetInode_unowned r dr w n B H1' H2' Hno) in E].
  rewrite (GetInode_owned _ _ _ _ _ _ B O) in E. pose proof (owned_carried _ _ _ _ _ _ _ _ B B' C O) as O'.
  rewrite (GetInode_owned _ _ _ _ _ _ B' O').
  destruct (link_of_owned _ _ _ _ _ _ _ _ B O E) as (-> & -> & Hl). split; [done|].
  unfold routed. destruct i as [v' [p|u]]; cbn [item_ref] in Hl |- *; munfold.
  - destruct Hl as (st & Hp & Es & ->). destruct (hk_pkg _ _ (ca_heaps _ _ _ C) _ _ Hp) as (st' & Hp' & Hid).
    rewrite (in_pkg_get p st' w' Hp'). unfold get_db. destruct (b_pkg _ _ _ B' p st' Hp') as [_ [d ->]].
    unfold in_pkg. rewrite Hp', handleLookup_link by (by rewrite (same_identity_startIno _ _ Hid)).
    unfold set_pkg. rewrite insert_id by done. destruct Hid as (_ & _ & _ & _ & _ & -> & _). by destruct w'.
  - destruct Hl as (q & Hu & Hl & He & Es & ->).
    destruct (hk_unsigned _ _ (ca_heaps _ _ _ C) _ _ Hu) as (q' & Hu' & [_ Ep Kl Ks]).
    destruct (Kl Hl) as (Hl' & _ & He'). unfold in_unsigned. rewrite Hu'.
    unfold unsigned_handleLookup, open. rewrite Hl', He', He, Ks, Es, Z.eqb_refl, Ep, set_unsigned_id; [done..|].
    destruct O as (Hi & _). destruct (b_item _ _ _ B _ _ Hi) as (_ & ? & _). lia.
Qed.

(** C35: inode numbers are permanent.  Whatever happens later, an update that
    removes or replaces the package included, a number that belongs to a
    package keeps belonging to it, and a link that was read once reads the
    same for as long as the daemon runs. *)
Theorem numbers_permanent r dr w w' :
  live r dr w -> rtc (life r) w w' ->
  (forall n v i, owned dr w n v i ->
     exists dr', dbs w' !! r = Some dr' /\ owned dr' w' n v i /\ GetInode r n w' = routed i n w') /\
  (forall n t w1, GetInode r n w = (Ok (InoPkg (InoSymlink t)), w1) ->
     GetInode r n w' = (Ok (InoPkg (InoSymlink t)), w')).
Proof.
  intros L Hs. destruct (live_steps _ _ _ _ L Hs) as (dr' & L' & C). split.
  - intros n v i O. exists dr'. split; [apply (b_shape _ _ _ L')|].
    pose proof (owned_carried _ _ _ _ _ _ _ _ (lv_base _ _ _ L) (lv_base _ _ _ L') C O) as O'.
    split; [done|]. exact (GetInode_owned r dr' w' n v i (lv_base _ _ _ L') O').
  - intros n t w1 E. exact (proj2 (link_carried _ _ _ _ _ _ _ _ L L' C E)).
Qed.

Lemma cached_link r dr w h p st :
  live r dr w -> pkgCache w !! h = Some p -> pkgs w !! p = Some st ->
  GetInode r (pk_startIno (dl_pkg st)) w = (Ok (InoPkg (InoSymlink (pk_name (dl_pkg st)))), w).
Proof.
  intros L Hc Hp. pose proof (lv_base _ _ _ L) as B.
  destruct (b_cache _ _ _ B h p Hc) as (st' & Hp' & _ & Hi). assert (st' = st) as -> by congruence.
  destruct (b_item _ _ _ B _ _ Hi) as (_ & Hv & k & Hh & Hk & _).
  assert (owned dr w (pk_startIno (dl_pkg st)) (pk_startIno (dl_pkg st))
    {| item_Value := pk_startIno (dl_pkg st); item_ref := RefPkg p |}) as O.
  { split; [done|]. exists k. split; [done|lia]. }
  rewrite (GetInode_owned _ _ _ _ _ _ B O). unfold routed, get_db. cbn [item_ref]. munfold.
  rewrite (in_pkg_get p st w Hp). destruct (b_pkg _ _ _ B p st Hp) as [_ [d ->]].
  unfold in_pkg. rewrite Hp, handleLookup_link by done. unfold set_pkg. rewrite insert_id by done. by destruct w.
Qed.

Lemma lookup_link r dr w l d name n w1 :
  live r dr w -> dbs w !! l = Some d -> unsignedMap (reg w) = None -> data_room dr w ->
  (forall e p st, listed (file d) e -> pkgCache w !! e_hash e = Some p -> pkgs w !! p = Some st ->
     pkgI d !! e_hash e = Some (pk_startIno (dl_pkg st)) /\ pk_name (dl_pkg st) = e_name e) ->
  internalLookup l name w = (Ok n, w1) ->
  exists x e dr1, chosen (file d) (channel d) name x e /\ live r dr1 w1 /\
    GetInode r (if x : bool then n - 1 else n) w1 = (Ok (InoPkg (InoSymlink (e_name e))), w1).
Proof.
  intros L Hd Hu Hroom Hag E. pose proof (lv_base _ _ _ L) as B.
  destruct (b_dbs _ _ _ B _ _ Hd) as (_ & Hl & Hw).
  rewrite (internalLookup_select l d name w Hu Hd Hl) in E.
  destruct (IndexByte name dot); [|done]. destruct (dbptr d); [|done].
  destruct (select_spec (file d) (channel d) name Hw) as (s & Es & Hsel). rewrite Es in E.
  destruct s as [[x v]|]; [|done]. destruct Hsel as (e & -> & Hc). exists x, e.
  pose proof (chosen_listed _ _ _ _ _ Hc) as Le.
  destruct (live_instantiate r dr w l d e L Hd Le (Hroom _ _ _ Hd Le))
    as (m & dr1 & w2 & Ei & L1 & C1 & _ & _ & Hold & Hnew).
  assert (w2 = w1 /\ n = if x then u64 (m + 1) else m) as [-> ->]
    by (destruct x; munfold; rewrite Ei in E; by injection E as <- <-).
  assert (exists p st, pkgCache w1 !! e_hash e = Some p /\ pkgs w1 !! p = Some st /\
    pk_startIno (dl_pkg st) = m /\ pk_name (dl_pkg st) = e_name e) as (p & st & Hpc & Hp & <- & <-).
  { destruct (pkgCache w !! e_hash e) as [p|] eqn:Ec.
    2: { destruct (Hnew eq_refl) as (p & p0 & ? & ? & _ & ? & ?). by exists p, (fresh_dl p0). }
    destruct (b_cache _ _ _ B _ _ Ec) as (st & Hp & _ & _).
    destruct (Hag e p st Le Ec Hp) as [Hn Hnm]. destruct (Hold _ Hn) as [-> ->]. by exists p, st. }
  pose proof (cached_link _ _ _ _ _ _ L1 Hpc Hp) as Hlink.
  assert ((if x then (if x then u64 (pk_startIno (dl_pkg st) + 1) else pk_startIno (dl_pkg st)) - 1
           else if x then u64 (pk_startIno (dl_pkg st) + 1) else pk_startIno (dl_pkg st))
    = pk_startIno (dl_pkg st)) as ->.
  { destruct x; [|done]. pose proof (lv_base _ _ _ L1) as B1. pose proof (b_next _ _ _ B1).
    destruct (b_cache _ _ _ B1 _ _ Hpc) as (st' & Hp' & _ & Hi). assert (st' = st) as -> by congruence.
    destruct (b_item _ _ _ B1 _ _ Hi) as (_ & ? & k & _ & ? & ?). rewrite u64_small by lia. lia. }
  exists dr1. done.
Qed.

(** A name that was resolved keeps its meaning.  A lookup in a database
    chooses the exact package, or the greatest version the pin allows, or the
    greatest version, of the data at that time; the number it answers leads to
    the link of that very package in every later state of the daemon, after any
    updates.  (The hypothesis on the cache is that packages of this database
    were loaded by it, under their present name.) *)
Theorem lookup_survives r dr w l d name n w1 w' :
  live r dr w -> dbs w !! l = Some d -> unsignedMap (reg w) = None -> data_room dr w ->
  (forall e p st, listed (file d) e -> pkgCache w !! e_hash e = Some p -> pkgs w !! p = Some st ->
     pkgI d !! e_hash e = Some (pk_startIno (dl_pkg st)) /\ pk_name (dl_pkg st) = e_name e) ->
  internalLookup l name w = (Ok n, w1) -> rtc (life r) w1 w' ->
  exists x e, chosen (file d) (channel d) name x e /\
    GetInode r (if x : bool then n - 1 else n) w' = (Ok (InoPkg (InoSymlink (e_name e))), w').
Proof.
  intros L Hd Hu Hroom Hag E Hs.
  destruct (lookup_link _ _ _ _ _ _ _ _ L Hd Hu Hroom Hag E) as (x & e & dr1 & Hc & L1 & Eg).
  destruct (live_steps _ _ _ _ L1 Hs) as (dr' & L' & C). exists x, e. split; [done|].
  exact (proj2 (link_carried _ _ _ _ _ _ _ _ L1 L' C Eg)).
Qed.
End running.

(** ** An update that removes a package *)

Module SampleRunning.
Import SampleWorld.
#[local] Existing Instance MapBolt.ops.
#[local] Existing Instance MapBolt.spec.
#[local] Existing Instance Sample.list_llrb.
#[local] Existing Instance Sample.list_llrb_spec.
#[local] Existing Instance SampleLd.ldcache.
#[local] Existing Instance SampleLd.json.
#[local] Existing Instance SampleLd.range.
#[local] Existing Instance Toy.toy_ed25519.
#[local] Existing Instance Toy.toy_ed25519_spec.
#[local] Existing Instance SampleUpd.jwt.
#[local] Existing Instance SamplePkg.squashfs.
#[local] Existing Instance SamplePkg.json.
#[local] Existing Instance SamplePkg.remote.

Definition dated_file : bdb := snd (tx_put infoBucket versionKey (str "20220601015543") b2).
Lemma has_info : has b2 infoBucket.
Proof. apply has_bucket_has. vm_compute. reflexivity. Qed.

Lemma env_is_ok : env_ok SampleRun.env.
Proof.
  intros fn b H. destruct sample_wf as (Hw & Hh & _). apply (Some_inj dated_file) in H.
  rewrite <- H. clear H.
  destruct (tx_put_ok infoBucket versionKey (str "20220601015543") b2 has_info) as (b' & E & Hc);
    [vm_compute; reflexivity..|]. unfold dated_file. rewrite E. cbn [snd]. apply (db_wf_same b2); [done| |].
  - intros m Hm. apply (changed_ne _ _ _ _ _ Hc). intros ->. revert Hm. bucket_dec.
  - eapply Forall_impl; [exact Hh|]. intros m Hm. by eapply changed_has.
Qed.

Lemma world_live : live 0 (the_db None) world.
Proof.
  assert (forall l d, dbs world !! l = Some d ->
    l = 0%nat /\ d = the_db None \/ l = 1%nat /\ d = the_db (Some 0%nat)) as Hd.
  { intros l d. unfold world, dbs. rewrite !lookup_insert_Some, lookup_singleton_Some. naive_solver. }
  assert (items (the_db None) = ∅) as Hi
    by (unfold items, the_db, ino; by rewrite (llrb_New_items (LlrbSpec := Sample.list_llrb_spec))).
  split; [split|].
  - apply inv_shape, world_inv.
  - vm_compute. split; congruence.
  - intros l d Hl. assert (locked d = false /\ file d = b2) as [-> ->] by by destruct (Hd _ _ Hl) as [[_ ->]|[_ ->]].
    split; [|split; [done|apply sample_wf]]. cbn [db_next world].
    destruct (Hd _ _ Hl) as [[-> _]|[-> _]]; lia.
  - intros v i. by rewrite Hi, lookup_empty.
  - intros v i n v' i'. by rewrite Hi, lookup_empty.
  - intros h p. unfold world, pkgCache. by rewrite lookup_empty.
  - intros p st. unfold world, pkgs. by rewrite lookup_empty.
  - intros u p. unfold world, reg, u_heap. by rewrite lookup_empty.
  - intros u p. unfold world, reg, u_heap. by rewrite lookup_empty.
  - intros l d h v Hl. assert (pkgI d = ∅) as -> by by destruct (Hd _ _ Hl) as [[_ ->]|[_ ->]].
    by rewrite lookup_empty.
Qed.

Lemma world_room : data_room (the_db None) world.
Proof.
  intros l d e Hl Le. assert (file d = b2) as Ef.
  { revert Hl. unfold world, dbs. rewrite !lookup_insert_Some, lookup_singleton_Some.
    intros [[_ <-]|[_ [_ <-]]]; reflexivity. }
  rewrite Ef in Le. destruct (sample_listed e Le) as [[_ ->]|[_ ->]]; vm_compute; reflexivity.
Qed.

(** The package that [media-libs.xvid] resolves to is removed. *)
Definition removed : World := snd (in_db 0 (RemovePackage (str "media-libs.xvid.1")) w1).
Lemma removal : life 0 w1 removed.
Proof.
  apply (life_write 0 w1 removed 0 (RemovePackage (str "media-libs.xvid.1"))
    (fst (in_db 0 (RemovePackage (str "media-libs.xvid.1")) w1))); [apply op_remove|].
  unfold removed. by destruct (in_db 0 _ w1).
Qed.
Lemma no_longer_found :
  fst (lookup0 0 (str "media-libs.xvid") removed) = Err ErrNotExist /\
  fst (GetInode 0 1000 w1) = Ok (InoPkg (InoSymlink (e_name e2))).
Proof. vm_compute. split; reflexivity. Qed.

Lemma lookup_survives_witness :
  fst (lookup0 0 (str "media-libs.xvid") removed) = Err ErrNotExist /\
  exists x e, chosen b2 (str "stable") (str "media-libs.xvid") x e /\
    GetInode 0 (if x : bool then 999 else 1000) removed
      = (Ok (InoPkg (InoSymlink (e_name e))), removed).
Proof.
  split; [exact (proj1 no_longer_found)|]. destruct lookup_1 as (dr1 & p & E & _).
  apply (lookup_survives 0 (the_db None) world 0 (the_db None) (str "media-libs.xvid") 1000 w1 removed
    world_live eq_refl eq_refl world_room).
  - intros e q st _ Hq. exfalso. revert Hq. unfold world, pkgCache. by rewrite lookup_empty.
  - exact E.
  - apply rtc_once, removal.
Defined.

Lemma w1_heap : u_heap (reg w1) = ∅.
Proof. vm_compute. reflexivity. Qed.

Lemma w1_room : room (the_db None) w1.
Proof.
  destruct lookup_1 as (dr1 & p & E & _). split.
  - exact (data_room_same _ w1 world (fun l => eq_sym (internalLookup_files 0 _ world _ w1 E l)) world_room).
  - intros u q Hq. exfalso. rewrite w1_heap in Hq. exact (lookup_empty_Some u q Hq).
Qed.

(** The world after the lookup is reached from a live one. *)
Lemma w1_live : exists dr, live 0 dr w1.
Proof.
  destruct lookup_1 as (dr1 & p & E & _).
  destruct (live_internalLookup 0 (the_db None) world 0 (str "media-libs.xvid") (Ok 1000) w1 world_live w1_room E)
    as [(e & [=] & _)|(n & dr' & _ & L & _)]; [done|by exists dr'].
Qed.

Lemma numbers_permanent_witness :
  fst (lookup0 0 (str "media-libs.xvid") removed) = Err ErrNotExist /\
  GetInode 0 1000 removed = (Ok (InoPkg (InoSymlink (e_name e2))), removed).
Proof.
  split; [exact (proj1 no_longer_found)|]. destruct w1_live as [dr L].
  destruct (GetInode 0 1000 w1) as [o w2] eqn:E. pose proof (proj2 no_longer_found) as Ho.
  rewrite E in Ho. cbn [fst] in Ho. subst o.
  exact (proj2 (numbers_permanent 0 dr w1 removed L (rtc_once _ _ removal)) 1000 (e_name e2) w2 E).
Defined.

Lemma daemon_inodes_witness :
  exists w0 w, New SampleRun.env (str "linux") (str "amd64") [] [] (str "https://data.apkg.net/")
      (str "main") (str "/var/lib/apkg") (started true) = (Ok 0%nat, w0) /\
    rtc (life 0) w0 w /\ exists dr, live 0 dr w.
Proof.
  assert (fst (New SampleRun.env (str "linux") (str "amd64") [] [] (str "https://data.apkg.net/")
    (str "main") (str "/var/lib/apkg") (started true)) = Ok 0%nat) as Ho by (vm_compute; reflexivity).
  destruct (New SampleRun.env (str "linux") (str "amd64") [] [] (str "https://data.apkg.net/")
    (str "main") (str "/var/lib/apkg") (started true)) as [o w0] eqn:E.
  cbn [fst] in Ho. subst o.
  destruct (in_db 0 (RemovePackage (str "media-libs.xvid.1")) w0) as [o w] eqn:Ew.
  assert (rtc (life 0) w0 w) as Hs
    by exact (rtc_once _ _ (life_write 0 w0 w 0 _ o (op_remove _) Ew)).
  exists w0, w. split; [reflexivity|]. split; [exact Hs|].
  destruct (daemon_inodes SampleRun.env true _ _ _ _ _ _ _ 0 w0 w env_is_ok E Hs) as (dr & L & _).
  exists dr. exact L.
Defined.
End SampleRunning.
