(* ===== verification/Images.v ===== *)
(** * Images: concurrent lookups of unsigned images

    [World.v] runs [pkgInoUnsigned] as a whole.  Here it is the sequence of its
    steps ([apkgdb/lookup.go]): the atomic load of the number, [pkgIlk], the second
    look, the allocation under [nextIlk] of the root, the atomic store, the offset
    of the superblock, the insertion into the inode tree, and giving the lock
    back.  Any number of lookups run at once, in any of the databases that
    share a root.  An image belongs to one database, that of its platform. *)

From S2P Require Import Prelude Threads GoLib GoPath Sig Collate Natsort OsArch Bolt Store GoTime Pins Ldso Index Export Package Update Unsigned World Lookup Proto Fuse Mount Life Running.
Local Open Scope Z_scope.

(** ** The steps *)

(** Where a call is: before the load; after it found no number; holding
    [pkgIlk]; after the second look; with a number that is not stored yet; stored;
    with the offset set; in the tree, still holding the lock; at the end. *)
Inductive mpc :=
  | MStart | MWait | MLocked | MChecked | MAlloc (v : Z) | MStored (v : Z) | MOffset (v : Z)
  | MTree (v : Z) | MDone (v : Z).

(** A call of [pkgInoUnsigned] in the database [mt_db] for the image [mt_img]. *)
Record mthread := { mt_db : nat; mt_img : nat; mt_pc : mpc }.
Definition set_mpc (pc : mpc) (th : mthread) : mthread :=
  {| mt_db := mt_db th; mt_img := mt_img th; mt_pc := pc |}.

Section steps.
Context `{BoltOps, LlrbOps, Ldcache, !Json, GoRange, GoSort, Ed25519, Jwt, Squashfs, Remote, PkgJson}.

(** [ms_lk] has the holder of [pkgIlk] of each database. *)
Record mst := { ms_w : World; ms_lk : gmap nat nat; ms_th : list mthread }.

Definition move (t : nat) (th : mthread) (pc : mpc) (w : World) (lk : gmap nat nat) (s : mst) : mst :=
  {| ms_w := w; ms_lk := lk; ms_th := <[t := set_mpc pc th]> (ms_th s) |}.

Definition store_image (u : nat) (p : unsignedPkg) (w : World) : World :=
  set_reg (set_unsigned u p (reg w)) w.
Definition set_startIno (v : Z) (p : unsignedPkg) : unsignedPkg := {|
  u_fn := u_fn p; u_pkg := u_pkg p; u_startIno := v; u_inodes := u_inodes p;
  u_load := u_load p; u_squash := u_squash p; u_err := u_err p |}.
Definition set_squash (sq : superblock) (p : unsignedPkg) : unsignedPkg := {|
  u_fn := u_fn p; u_pkg := u_pkg p; u_startIno := u_startIno p; u_inodes := u_inodes p;
  u_load := u_load p; u_squash := Some sq; u_err := u_err p |}.

(** One step of the call [t]; [None] when it waits for the lock or is over, or
    when the source would fail, which [images_finish] excludes. *)
Definition mstep (t : nat) (s : mst) : option mst :=
  th ← ms_th s !! t;
  let l := mt_db th in
  let u := mt_img th in
  let w := ms_w s in
  let lk := ms_lk s in
  d ← dbs w !! l;
  p ← u_heap (reg w) !! u;
  match mt_pc th with
  | MStart => Some (move t th (if u_startIno p =? 0 then MWait else MDone (u_startIno p)) w lk s)
  | MWait =>
      match lk !! l with
      | Some _ => None
      | None => Some (move t th MLocked w (<[l := t]> lk) s)
      end
  | MLocked =>
      if u_startIno p =? 0 then Some (move t th MChecked w lk s)
      else Some (move t th (MDone (u_startIno p)) w (delete l lk) s)
  | MChecked =>
      match allocInodes l (u64 (u_inodes p + 1)) w with
      | (Ok v, w') => Some (move t th (MAlloc v) w' lk s)
      | _ => None
      end
  | MAlloc v => Some (move t th (MStored v) (store_image u (set_startIno v p) w) lk s)
  | MStored v =>
      sq ← sq_SetInodeOffset (u_squash p) v;
      Some (move t th (MOffset v) (store_image u (set_squash sq p) w) lk s)
  | MOffset v =>
      match insert_item (tree_of l d) {| item_Value := v; item_ref := RefUnsigned u |} w with
      | (Ok _, w') => Some (move t th (MTree v) w' lk s)
      | _ => None
      end
  | MTree v => Some (move t th (MDone v) w (delete l lk) s)
  | MDone _ => None
  end.

(** The calls [l], before their first step. *)
Definition mstart (w : World) (l : list (nat * nat)) : mst :=
  {| ms_w := w; ms_lk := ∅;
     ms_th := (fun x => {| mt_db := x.1; mt_img := x.2; mt_pc := MStart |}) <$> l |}.

(** Whole calls one after the other, with their results. *)
Inductive calls (ths : list (nat * nat)) (w0 : World) : list (nat * Z) -> World -> Prop :=
  | calls_nil : calls ths w0 [] w0
  | calls_snoc l w t k u v w' :
      calls ths w0 l w -> ths !! t = Some (k, u) -> pkgInoUnsigned k u w = (Ok v, w') ->
      calls ths w0 (l ++ [(t, v)]) w'.

(** ** Where a call is *)

Definition holds (th : mthread) : Prop :=
  match mt_pc th with
  | MLocked | MChecked | MAlloc _ | MStored _ | MOffset _ | MTree _ => True
  | _ => False
  end.
(** A call has its result from the moment it is decided. *)
Definition mresult (pc : mpc) : option Z :=
  match pc with
  | MAlloc v | MStored v | MOffset v | MTree v | MDone v => Some v
  | _ => None
  end.
(** The image is not complete yet, or not in the tree. *)
Definition half (pc : mpc) : option Z :=
  match pc with MAlloc v | MStored v => Some v | _ => None end.
Definition pending (pc : mpc) : option Z :=
  match pc with MAlloc v | MStored v | MOffset v => Some v | _ => None end.
Definition mdone (th : mthread) : bool := match mt_pc th with MDone _ => true | _ => false end.
Definition mwork (th : mthread) : nat :=
  match mt_pc th with
  | MStart => 8 | MWait => 7 | MLocked => 6 | MChecked => 5 | MAlloc _ => 4 | MStored _ => 3
  | MOffset _ => 2 | MTree _ => 1 | MDone _ => 0
  end.
End steps.

Abbreviation msteps := (rtc (fun s s' => exists t, mstep t s = Some s')).

(** ** What whole calls see *)

Section linearize.
Context `{BoltSpec, LlrbSpec, Ldcache, !Json, GoRange, GoSort, Ed25519Spec, Jwt, Squashfs, Remote, PkgJson}.

Abbreviation heap w := (u_heap (reg w)).

(** An image with its database, opened by [lookupUnsigned]. *)
Definition opened (w : World) (x : nat * nat) : Prop :=
  exists d p, dbs w !! x.1 = Some d /\ heap w !! x.2 = Some p /\ u_load p = true /\ 0 <= u_inodes p /\
    (u_startIno p = 0 -> forall v, is_Some (sq_SetInodeOffset (u_squash p) v)).

(** The inodes of an image, its link included. *)
Definition extent (w : World) (u : nat) : nat :=
  match heap w !! u with Some p => Z.to_nat (u_inodes p + 1) | None => 0%nat end.

Section run.
Context (r : nat) (w0 : World) (ths : list (nat * nat)).
Context (Hopen : Forall (opened w0) ths).
Context (Hone : forall x y, x ∈ ths -> y ∈ ths -> x.2 = y.2 -> x.1 = y.1).

(** [w'] is the state with every image complete that has its number, and all of
    them in the tree. *)
Record sees (s : mst) (w' : World) : Prop := {
  se_world : w' = set_dbs (dbs w') (set_reg {|
    unsignedMap := unsignedMap (reg (ms_w s)); u_heap := heap w'; u_next := u_next (reg (ms_w s)) |} (ms_w s));
  se_dbs k : k <> r -> dbs w' !! k = dbs (ms_w s) !! k;
  se_root : exists dr tr, dbs (ms_w s) !! r = Some dr /\ dbs w' !! r = Some (set_ino tr dr) /\
    forall v i, llrb_items tr !! v = Some i <-> items dr !! v = Some i \/
      exists t th, ms_th s !! t = Some th /\ pending (mt_pc th) = Some v /\
        i = {| item_Value := v; item_ref := RefUnsigned (mt_img th) |};
  se_half t th v : ms_th s !! t = Some th -> half (mt_pc th) = Some v ->
    exists p sq, heap (ms_w s) !! mt_img th = Some p /\ sq_SetInodeOffset (u_squash p) v = Some sq /\
      heap w' !! mt_img th = Some (numbered_unsigned v sq p) /\
      u_startIno p = match mt_pc th with MAlloc _ => 0 | _ => v end;
  se_whole u : (forall t th, ms_th s !! t = Some th -> mt_img th = u -> half (mt_pc th) = None) ->
    heap w' !! u = heap (ms_w s) !! u;
  se_pending t th v dr : ms_th s !! t = Some th -> pending (mt_pc th) = Some v ->
    dbs (ms_w s) !! r = Some dr -> items dr !! v = None;
}.

Definition cost (th : mthread) : nat :=
  match mresult (mt_pc th) with Some _ => 0%nat | None => extent w0 (mt_img th) end.

Record minv (l : list (nat * Z)) (w' : World) (s : mst) : Prop := {
  mi_calls : calls ths w0 l w';
  mi_carries : carries r w0 w';
  mi_live : exists dr, live r dr w' /\ nextI dr + Z.of_nat (total cost (ms_th s)) < two64;
  mi_sees : sees s w';
  mi_ths : (fun th => (mt_db th, mt_img th)) <$> ms_th s = ths;
  mi_lock : holders mt_db holds (ms_lk s) (ms_th s);
  mi_nodup : NoDup l.*1;
  mi_done : results (fun th => mresult (mt_pc th)) l (ms_th s);
  mi_number t th v : ms_th s !! t = Some th -> mresult (mt_pc th) = Some v ->
    exists p, heap w' !! mt_img th = Some p /\ u_startIno p = v /\ v <> 0;
  mi_checked t th p : ms_th s !! t = Some th -> mt_pc th = MChecked ->
    heap (ms_w s) !! mt_img th = Some p -> u_startIno p = 0;
  mi_fresh x p : x ∈ ths -> heap w' !! x.2 = Some p -> u_startIno p = 0 -> heap w0 !! x.2 = Some p;
}.

(** *** Calls of one image *)

Lemma thread_elem l w' s t th : minv l w' s -> ms_th s !! t = Some th -> (mt_db th, mt_img th) ∈ ths.
Proof.
  intros I Ht. rewrite <-(mi_ths _ _ _ I). apply list_elem_of_fmap. exists th.
  split; [done|]. by eapply list_elem_of_lookup_2.
Qed.

(** Two calls for one image are in one database; only one of them can be inside. *)
Lemma same_image l w' s t th t' th' :
  minv l w' s -> ms_th s !! t = Some th -> ms_th s !! t' = Some th' -> mt_img th = mt_img th' ->
  holds th -> holds th' -> t = t'.
Proof.
  intros I Ht Ht' Hi. eapply (holders_alone mt_db holds); [apply I|done..|].
  apply (Hone _ _ (thread_elem _ _ _ _ _ I Ht) (thread_elem _ _ _ _ _ I Ht') Hi).
Qed.

Lemma half_holds th v : half (mt_pc th) = Some v -> holds th.
Proof. unfold holds. by destruct (mt_pc th). Qed.

(** A caller inside, with its image complete: what it sees is what is there. *)
Lemma whole_image l w' s t th :
  minv l w' s -> ms_th s !! t = Some th -> holds th -> half (mt_pc th) = None ->
  heap w' !! mt_img th = heap (ms_w s) !! mt_img th.
Proof.
  intros I Ht Hh Hn. apply (se_whole _ _ (mi_sees _ _ _ I)). intros t' th' Ht' Hi.
  destruct (half (mt_pc th')) as [v|] eqn:Hv; [|done].
  assert (t' = t) as -> by (eapply same_image; [done..|by eapply half_holds|done]). congruence.
Qed.

(** A number that is stored is the one whole calls see. *)
Lemma started_image l w' s u p :
  minv l w' s -> heap (ms_w s) !! u = Some p -> u_startIno p <> 0 ->
  exists p', heap w' !! u = Some p' /\ u_startIno p' = u_startIno p.
Proof.
  intros I Hu Hs. pose proof (mi_sees _ _ _ I) as S.
  destruct (decide (Exists (fun th => mt_img th = u /\ half (mt_pc th) <> None) (ms_th s))) as [He|He].
  - apply Exists_exists in He as (th & [t Ht]%list_elem_of_lookup & <- & Hv).
    destruct (half (mt_pc th)) as [v|] eqn:Hh; [|done].
    destruct (se_half _ _ S _ _ _ Ht Hh) as (p2 & sq & Hp2 & _ & Hw & Hst). simplify_eq.
    exists (numbered_unsigned v sq p). split; [done|]. rewrite Hst in Hs |- *. cbn.
    by destruct (mt_pc th).
  - rewrite (se_whole _ _ S); [by exists p|]. intros t th Ht Hi. apply not_Exists_Forall in He.
    2: { intros ?. apply _. }
    rewrite Forall_lookup in He. specialize (He _ _ Ht). destruct (half (mt_pc th)) eqn:E; [|done].
    exfalso. apply He. split; [done|]. by rewrite E.
Qed.

(** A call for an image that has its number changes nothing. *)
Lemma call_started k u w p :
  heap w !! u = Some p -> u_startIno p <> 0 -> pkgInoUnsigned k u w = (Ok (u_startIno p), w).
Proof.
  intros Hu Hs. unfold pkgInoUnsigned, in_unsigned. munfold. rewrite Hu.
  rewrite (proj2 (Z.eqb_neq _ _)) by done. cbn [negb]. by rewrite (set_unsigned_id w u p Hu).
Qed.

(** *** What a step does to it *)

Section step.
Context (s : mst) (w' : World) (t : nat) (th : mthread) (Ht : ms_th s !! t = Some th).

Lemma move_lookup pc w lk t' :
  ms_th (move t th pc w lk s) !! t' = if decide (t' = t) then Some (set_mpc pc th) else ms_th s !! t'.
Proof. by apply (moved_lookup _ _ th). Qed.

(** A step that changes no data. *)
Lemma sees_same pc lk :
  sees s w' -> half (mt_pc th) = None -> half pc = None -> pending pc = pending (mt_pc th) ->
  sees (move t th pc (ms_w s) lk s) w'.
Proof.
  intros S Hh Hh' Hp. split.
  - apply S.
  - apply S.
  - destruct (se_root _ _ S) as (dr & tr & Hr & Hr' & Hi). exists dr, tr. split; [done|]. split; [done|].
    intros v i. rewrite (Hi v i). apply or_iff_compat_l. split.
    + intros (t' & th' & Ht' & Hpe & ->). exists t'. setoid_rewrite move_lookup. case_decide as Hd; [|by exists th'].
      subst t'. assert (th' = th) as -> by congruence. exists (set_mpc pc th). split; [done|]. by rewrite <-Hpe.
    + intros (t' & th' & Ht' & Hpe & ->). revert Ht'. rewrite move_lookup.
      case_decide as Hd; [|intros ?; by exists t', th'].
      subst t'. intros [= <-]. exists t, th. split; [done|]. cbn in Hpe. by rewrite <-Hp.
  - intros t' th' v. rewrite move_lookup. case_decide; [intros [= <-]; cbn; congruence|]. apply (se_half _ _ S).
  - intros u Hu. apply (se_whole _ _ S). intros t' th' Ht' Hi. destruct (decide (t' = t)) as [->|Hne].
    + by assert (th' = th) as -> by congruence.
    + apply (Hu t'); [|done]. by rewrite move_lookup, decide_False.
  - intros t' th' v dr. rewrite move_lookup. case_decide; [|apply (se_pending _ _ S)].
    intros [= <-] Hpe. apply (se_pending _ _ S t th); [done|]. by rewrite <-Hp.
Qed.

(** The steps on the image alone. *)
Lemma sees_image pc lk p q :
  sees s w' -> pending pc = pending (mt_pc th) -> heap (ms_w s) !! mt_img th = Some p ->
  (forall t' th', ms_th s !! t' = Some th' -> t' <> t -> mt_img th' = mt_img th -> half (mt_pc th') = None) ->
  (forall v, half pc = Some v -> u_startIno q = (match pc with MAlloc _ => 0 | _ => v end) /\
     exists sq, sq_SetInodeOffset (u_squash q) v = Some sq /\
       heap w' !! mt_img th = Some (numbered_unsigned v sq q)) ->
  (half pc = None -> heap w' !! mt_img th = Some q) ->
  sees (move t th pc (store_image (mt_img th) q (ms_w s)) lk s) w'.
Proof.
  intros S Hp Hu Halone Hhalf Hwhole.
  assert (forall u, u <> mt_img th -> heap (store_image (mt_img th) q (ms_w s)) !! u = heap (ms_w s) !! u) as Hne
    by (intros u Hu'; cbn; by rewrite lookup_insert_ne).
  assert (heap (store_image (mt_img th) q (ms_w s)) !! mt_img th = Some q) as Heq
    by (cbn; by rewrite lookup_insert_eq).
  set (w1 := store_image (mt_img th) q (ms_w s)) in *.
  split; change (ms_w (move t th pc w1 lk s)) with w1.
  - rewrite (se_world _ _ S) at 1. done.
  - apply S.
  - destruct (se_root _ _ S) as (dr & tr & Hr & Hr' & Hi). exists dr, tr. split; [done|]. split; [done|].
    intros v i. rewrite (Hi v i). apply or_iff_compat_l. split.
    + intros (t' & th' & Ht' & Hpe & ->). exists t'. setoid_rewrite move_lookup. case_decide as Hd; [|by exists th'].
      subst t'. assert (th' = th) as -> by congruence. exists (set_mpc pc th). split; [done|]. by rewrite <-Hpe.
    + intros (t' & th' & Ht' & Hpe & ->). revert Ht'. rewrite move_lookup.
      case_decide as Hd; [|intros ?; by exists t', th'].
      subst t'. intros [= <-]. exists t, th. split; [done|]. cbn in Hpe. by rewrite <-Hp.
  - intros t' th' v. rewrite move_lookup. case_decide as Hd.
    + subst t'. intros [= <-] Hv. cbn in Hv. destruct (Hhalf v Hv) as (Hst & sq & Hsq & Hw).
      exists q, sq. by split.
    + intros Ht' Hv. assert (mt_img th' <> mt_img th) as Hi.
      { intros Hi. by rewrite (Halone t' th' Ht' Hd Hi) in Hv. }
      rewrite (Hne _ Hi). by apply (se_half _ _ S t').
  - intros u Hu'. destruct (decide (u = mt_img th)) as [->|Hi].
    + rewrite Heq. apply Hwhole. apply (Hu' t (set_mpc pc th)); [|done]. by rewrite move_lookup, decide_True.
    + rewrite (Hne _ Hi). apply (se_whole _ _ S). intros t' th' Ht' Hti. destruct (decide (t' = t)) as [->|Hd].
      { congruence. }
      apply (Hu' t'); [|done]. by rewrite move_lookup, decide_False.
  - intros t' th' v dr. rewrite move_lookup. case_decide; [|apply (se_pending _ _ S)].
    intros [= <-] Hpe. apply (se_pending _ _ S t th); [done|]. by rewrite <-Hp.
Qed.

(** The insertion into the tree. *)
Lemma sees_insert v lk dr :
  sees s w' -> mt_pc th = MOffset v -> dbs (ms_w s) !! r = Some dr ->
  (forall t' th', ms_th s !! t' = Some th' -> t' <> t -> pending (mt_pc th') <> Some v) ->
  let i := {| item_Value := v; item_ref := RefUnsigned (mt_img th) |} in
  (forall i', items dr !! v = Some i' -> i' = i) ->
  sees (move t th (MTree v) (set_dbs (<[r := with_item i dr]> (dbs (ms_w s))) (ms_w s)) lk s) w'.
Proof.
  intros S Hpc Hdr Hsame i Hold. set (w1 := set_dbs _ _).
  split; change (ms_w (move t th (MTree v) w1 lk s)) with w1.
  - rewrite (se_world _ _ S) at 1. done.
  - intros k Hk. cbn. rewrite lookup_insert_ne by done. by apply S.
  - destruct (se_root _ _ S) as (dr2 & tr & Hr & Hr' & Hi). rewrite Hdr in Hr. injection Hr as <-.
    exists (with_item i dr), tr.
    split; [unfold w1; cbn; by rewrite lookup_insert_eq|]. split; [done|].
    intros v' i'. rewrite (Hi v' i'). rewrite items_with_item. cbn [item_Value i]. rewrite lookup_insert_Some. split.
    + intros [Hi'|(t' & th' & Ht' & Hpe & ->)].
      * destruct (decide (v = v')) as [<-|Hne]; [left; left; by rewrite (Hold _ Hi')|left; by right].
      * destruct (decide (t' = t)) as [->|Hne].
        -- assert (th' = th) as -> by congruence. rewrite Hpc in Hpe. injection Hpe as <-. left. by left.
        -- right. exists t', th'. split; [by rewrite move_lookup, decide_False|done].
    + intros [[[<- <-]|[Hne Hi']]|(t' & th' & Ht' & Hpe & ->)].
      * right. exists t, th. rewrite Hpc. done.
      * by left.
      * revert Ht'. rewrite move_lookup. case_decide; [intros [= <-]; done|]. intros Ht'. right. by exists t', th'.
  - intros t' th' v'. rewrite move_lookup. case_decide; [intros [= <-]; done|]. apply (se_half _ _ S).
  - intros u Hu. apply (se_whole _ _ S). intros t' th' Ht' Hi. destruct (decide (t' = t)) as [->|Hne].
    + assert (th' = th) as -> by congruence. by rewrite Hpc.
    + apply (Hu t'); [|done]. by rewrite move_lookup, decide_False.
  - intros t' th' v' dr'. rewrite move_lookup. case_decide as Hd; [intros [= <-]; done|]. intros Ht' Hpe.
    unfold w1. cbn. rewrite lookup_insert_eq. intros [= <-]. rewrite items_with_item, lookup_insert_ne.
    + by apply (se_pending _ _ S t' th').
    + intros <-. by apply (Hsame t' th').
Qed.
End step.

(** *** The invariant after a step *)

Section kept.
Context (l : list (nat * Z)) (w' : World) (s : mst) (t : nat) (th : mthread).
Context (I : minv l w' s) (Ht : ms_th s !! t = Some th).

(** Who is between the two looks and the allocation sees its image unchanged. *)
Definition apart (w : World) : Prop := forall t' th',
  ms_th s !! t' = Some th' -> t' <> t -> mt_pc th' = MChecked ->
  heap w !! mt_img th' = heap (ms_w s) !! mt_img th'.

Lemma move_threads pc w lk :
  (fun th => (mt_db th, mt_img th)) <$> ms_th (move t th pc w lk s) = ths.
Proof.
  cbn [ms_th move]. rewrite list_fmap_insert. rewrite <-(mi_ths _ _ _ I). apply list_insert_id.
  by rewrite list_lookup_fmap, Ht.
Qed.

Lemma move_checked pc w lk :
  apart w -> (pc = MChecked -> forall p, heap w !! mt_img th = Some p -> u_startIno p = 0) ->
  forall t' th' p, ms_th (move t th pc w lk s) !! t' = Some th' -> mt_pc th' = MChecked ->
    heap w !! mt_img th' = Some p -> u_startIno p = 0.
Proof.
  intros Ha Hc t' th' p. rewrite move_lookup by done. case_decide as Hd.
  - intros [= <-] Hpc. by apply Hc.
  - intros Ht' Hpc Hp. rewrite (Ha t' th') in Hp by done. by eapply (mi_checked _ _ _ I).
Qed.

(** A step that whole calls do not see. *)
Lemma minv_silent pc w lk :
  holders mt_db holds lk (ms_th (move t th pc w lk s)) -> sees (move t th pc w lk s) w' ->
  mresult pc = mresult (mt_pc th) -> apart w ->
  (pc = MChecked -> forall p, heap w !! mt_img th = Some p -> u_startIno p = 0) ->
  minv l w' (move t th pc w lk s).
Proof.
  intros Hl S Hr Ha Hc. split; try apply I; try done.
  - destruct (mi_live _ _ _ I) as (dr & L & Hn). exists dr. split; [done|].
    pose proof (total_insert cost _ t th (set_mpc pc th) Ht) as E. cbn [ms_th move].
    assert (cost (set_mpc pc th) = cost th) as Ec by (unfold cost; cbn; by rewrite Hr). lia.
  - by apply move_threads.
  - by apply (results_same _ _ _ t th (set_mpc pc th) (mi_done _ _ _ I)).
  - intros t' th' v. rewrite move_lookup by done. case_decide as Hd; [|apply (mi_number _ _ _ I)].
    intros [= <-]. cbn. rewrite Hr. by apply (mi_number _ _ _ I t th).
  - by apply move_checked.
Qed.

(** The step at which a call takes effect. *)
Lemma minv_call pc w lk v w1 dr1 :
  holders mt_db holds lk (ms_th (move t th pc w lk s)) -> sees (move t th pc w lk s) w1 ->
  mresult (mt_pc th) = None -> mresult pc = Some v ->
  pkgInoUnsigned (mt_db th) (mt_img th) w' = (Ok v, w1) -> carries r w' w1 -> live r dr1 w1 ->
  (forall dr, live r dr w' -> nextI dr1 <= nextI dr + Z.of_nat (cost th)) ->
  (exists p, heap w1 !! mt_img th = Some p /\ u_startIno p = v /\ v <> 0) ->
  (forall u p, heap w1 !! u = Some p -> u_startIno p = 0 -> heap w' !! u = Some p) ->
  apart w -> minv (l ++ [(t, v)]) w1 (move t th pc w lk s).
Proof.
  intros Hl S Hn Hr E C L Hnext Hnum Hfresh Ha. split.
  - apply (calls_snoc ths w0 l w' t (mt_db th) (mt_img th)); [apply I| |done].
    by rewrite <-(mi_ths _ _ _ I), list_lookup_fmap, Ht.
  - etrans; [apply I|done].
  - exists dr1. split; [done|]. destruct (mi_live _ _ _ I) as (dr & L0 & Hlt). specialize (Hnext dr L0).
    pose proof (total_insert cost _ t th (set_mpc pc th) Ht) as Et. cbn [ms_th move].
    assert (cost (set_mpc pc th) = 0%nat) as Ec by (unfold cost; cbn; by rewrite Hr). lia.
  - done.
  - by apply move_threads.
  - done.
  - by apply (results_snoc_nodup _ _ _ _ _ _ (mi_done _ _ _ I) (mi_nodup _ _ _ I) Ht).
  - by apply (results_add _ _ _ t th (set_mpc pc th) _ (mi_done _ _ _ I)).
  - intros t' th' v'. rewrite move_lookup by done. case_decide as Hd.
    + intros [= <-]. cbn. rewrite Hr. by intros [= <-].
    + intros Ht' Hv. destruct (mi_number _ _ _ I _ _ _ Ht' Hv) as (p & Hp & Hs & H0').
      destruct (hk_unsigned _ _ (ca_heaps _ _ _ C) _ _ Hp) as (p' & Hp' & K).
      exists p'. split; [done|]. split; [|done]. rewrite (uk_start _ _ K); congruence.
  - apply move_checked; [done|]. by intros ->.
  - intros x p Hx Hp Hs. apply (mi_fresh _ _ _ I); [done| |done]. by apply Hfresh.
Qed.

(** A call that finds the number. *)
Lemma minv_found pc lk p :
  heap (ms_w s) !! mt_img th = Some p -> u_startIno p <> 0 ->
  mresult (mt_pc th) = None -> pc = MDone (u_startIno p) ->
  holders mt_db holds lk (ms_th (move t th pc (ms_w s) lk s)) ->
  minv (l ++ [(t, u_startIno p)]) w' (move t th pc (ms_w s) lk s).
Proof.
  intros Hp Hs Hn -> Hl. destruct (started_image _ _ _ _ _ I Hp Hs) as (p' & Hp' & Es).
  destruct (mi_live _ _ _ I) as (dr & L & _).
  apply (minv_call _ _ _ _ w' dr); try done.
  - apply sees_same; try done; [apply I|..]; by destruct (mt_pc th).
  - rewrite <-Es. by apply call_started; [|congruence].
  - intros dr2 L2. pose proof (sh_root _ _ _ (b_shape _ _ _ L)). pose proof (sh_root _ _ _ (b_shape _ _ _ L2)).
    assert (dr2 = dr) as -> by congruence. lia.
  - exists p'. by rewrite Es.
Qed.
End kept.

(** *** The steps *)

Lemma sees_shape s w' dr' : shape r dr' w' -> sees s w' ->
  exists dr tr, dr' = set_ino tr dr /\ shape r dr (ms_w s) /\
    forall v i, llrb_items tr !! v = Some i <-> items dr !! v = Some i \/
      exists t th, ms_th s !! t = Some th /\ pending (mt_pc th) = Some v /\
        i = {| item_Value := v; item_ref := RefUnsigned (mt_img th) |}.
Proof.
  intros Sh S. destruct (se_root _ _ S) as (dr & tr & Hr & Hr' & Hi).
  pose proof (sh_root _ _ _ Sh) as Hr2. assert (dr' = set_ino tr dr) as -> by congruence.
  exists dr, tr. split; [done|]. split; [|done]. split; [done|apply (sh_root_parent _ _ _ Sh)|].
  intros k d Hd Hne. rewrite <-(se_dbs _ _ S) in Hd by done. by apply (sh_child _ _ _ Sh).
Qed.

(** An image waiting for its number is as it was opened. *)
Lemma fresh_image l w' s t th p :
  minv l w' s -> ms_th s !! t = Some th -> mt_pc th = MChecked -> heap (ms_w s) !! mt_img th = Some p ->
  u_startIno p = 0 /\ heap w' !! mt_img th = Some p /\ u_load p = true /\ 0 <= u_inodes p /\
  cost th = Z.to_nat (u_inodes p + 1) /\ forall v, is_Some (sq_SetInodeOffset (u_squash p) v).
Proof.
  intros I Ht Hpc Hp. pose proof (mi_checked _ _ _ I _ _ _ Ht Hpc Hp) as Hs.
  assert (heap w' !! mt_img th = Some p) as Hp'.
  { rewrite (whole_image _ _ _ _ _ I Ht); [done|unfold holds; by rewrite Hpc|by rewrite Hpc]. }
  pose proof (thread_elem _ _ _ _ _ I Ht) as Hin.
  pose proof (mi_fresh _ _ _ I _ _ Hin Hp' Hs) as Hp0. cbn in Hp0.
  rewrite Forall_forall in Hopen. destruct (Hopen _ Hin) as (d & p0 & _ & Hp1 & Hload & Hn & Hsq).
  cbn in Hp1. assert (p0 = p) as -> by congruence. repeat split; try done; [|by apply Hsq].
  unfold cost, extent. by rewrite Hpc, Hp0.
Qed.

(** Nobody else is inside for the image of a caller inside. *)
Lemma apart_image l w' s t th w :
  minv l w' s -> ms_th s !! t = Some th -> holds th ->
  (forall u, u <> mt_img th -> heap w !! u = heap (ms_w s) !! u) -> apart s t w.
Proof.
  intros I Ht Hh Hw t' th' Ht' Hne Hpc. apply Hw. intros Hi. apply Hne.
  eapply same_image; [done..|unfold holds; by rewrite Hpc|done].
Qed.

(** The allocation, where the call takes effect. *)
Lemma sees_alloc s t th w' lk dr tr v n p sq :
  ms_th s !! t = Some th -> mt_pc th = MChecked -> sees s w' -> dbs (ms_w s) !! r = Some dr ->
  (forall v i, llrb_items tr !! v = Some i <-> items dr !! v = Some i \/
      exists t th, ms_th s !! t = Some th /\ pending (mt_pc th) = Some v /\
        i = {| item_Value := v; item_ref := RefUnsigned (mt_img th) |}) ->
  llrb_items tr !! v = None -> heap (ms_w s) !! mt_img th = Some p -> u_startIno p = 0 ->
  (forall t' th', ms_th s !! t' = Some th' -> t' <> t -> mt_img th' = mt_img th -> half (mt_pc th') = None) ->
  sq_SetInodeOffset (u_squash p) v = Some sq ->
  sees (move t th (MAlloc v) (set_dbs (<[r := set_nextI n dr]> (dbs (ms_w s))) (ms_w s)) lk s)
    (unsigned_entered r (mt_img th) v (set_nextI n (set_ino tr dr)) (numbered_unsigned v sq p)
      (set_dbs (<[r := set_nextI n (set_ino tr dr)]> (dbs w')) w')).
Proof.
  intros Ht Hpc S Hr Hi Hv Hp Hs Halone Hsq. set (w1 := set_dbs _ (ms_w s)).
  set (i := {| item_Value := v; item_ref := RefUnsigned (mt_img th) |}).
  split; change (ms_w (move t th (MAlloc v) w1 lk s)) with w1.
  - rewrite (se_world _ _ S). done.
  - intros k Hk. unfold w1. cbn. rewrite !lookup_insert_ne by done. by apply S.
  - exists (set_nextI n dr), (ReplaceOrInsert tr i). unfold w1. cbn. rewrite !lookup_insert_eq.
    split; [done|]. split; [done|]. intros v' i'. rewrite ReplaceOrInsert_items. cbn [item_Value i].
    rewrite lookup_insert_Some, Hi. split.
    + intros [[<- <-]|[Hne [Hi'|(t' & th' & Ht' & Hpe & ->)]]]; [|by left|].
      * right. exists t, (set_mpc (MAlloc v) th). split; [|done].
        by apply list_lookup_insert_eq, lookup_lt_Some with th.
      * right. exists t', th'. split; [|done]. rewrite list_lookup_insert_ne; [done|].
        intros <-. assert (th' = th) as -> by congruence. by rewrite Hpc in Hpe.
    + assert (forall j, ~ (items dr !! v = Some j \/ exists t th, ms_th s !! t = Some th /\
        pending (mt_pc th) = Some v /\ j = {| item_Value := v; item_ref := RefUnsigned (mt_img th) |})) as Hno.
      { intros j Hj%Hi. congruence. }
      intros [Hi'|(t' & th' & Ht' & Hpe & ->)].
      * right. split; [intros <-; apply (Hno i'); by left|by left].
      * apply list_lookup_insert_Some in Ht' as [(<- & <- & _)|[Hne Ht']].
        { left. cbn in Hpe. injection Hpe as <-. done. }
        right. split; [intros <-; eapply Hno; right; by exists t', th'|]. right. by exists t', th'.
  - intros t' th' v'. rewrite move_lookup by done. case_decide as Hd.
    + intros [= <-] [= <-]. exists p, sq. cbn. by rewrite lookup_insert_eq.
    + intros Ht' Hh. destruct (se_half _ _ S _ _ _ Ht' Hh) as (p2 & sq2 & Hp2 & Hsq2 & Hw2 & Hs2).
      exists p2, sq2. do 2 (split; [done|]). split; [|done]. cbn. rewrite lookup_insert_ne; [done|].
      intros E. by rewrite (Halone t' th' Ht' Hd) in Hh.
  - intros u Hu. cbn. destruct (decide (u = mt_img th)) as [->|Hne].
    + specialize (Hu t (set_mpc (MAlloc v) th)). rewrite move_lookup, decide_True in Hu by done. by specialize (Hu eq_refl eq_refl).
    + rewrite lookup_insert_ne by done. apply (se_whole _ _ S). intros t' th' Ht' E.
      apply (Hu t'); [|done]. assert (t' <> t) by (intros ->; congruence). by rewrite move_lookup, decide_False.
  - intros t' th' v' dr'. rewrite move_lookup by done. unfold w1. cbn. rewrite lookup_insert_eq. case_decide as Hd.
    + intros [= <-] [= <-] [= <-]. apply eq_None_not_Some. intros [j Hj].
      assert (llrb_items tr !! v = Some j) by (apply Hi; by left). congruence.
    + intros Ht' Hpe [= <-]. exact (se_pending _ _ S t' th' v' dr Ht' Hpe Hr).
Qed.

Section one_step.
Context (l : list (nat * Z)) (w' : World) (s : mst) (t : nat) (th : mthread) (p : unsignedPkg).
Context (I : minv l w' s) (Ht : ms_th s !! t = Some th).
Context (Hp : heap (ms_w s) !! mt_img th = Some p).

(** The others of the image are outside. *)
Lemma others_outside : holds th -> forall t' th',
  ms_th s !! t' = Some th' -> t' <> t -> mt_img th' = mt_img th -> half (mt_pc th') = None.
Proof.
  intros Hh t' th' Ht' Hne Hi. destruct (half (mt_pc th')) as [v|] eqn:Hv; [|done].
  exfalso. apply Hne. eapply same_image; [done..|by eapply half_holds|done].
Qed.

Lemma image_alloc d n w1 :
  mt_pc th = MChecked -> dbs (ms_w s) !! mt_db th = Some d ->
  allocInodes (mt_db th) (u64 (u_inodes p + 1)) (ms_w s) = (Ok n, w1) ->
  exists w2, minv (l ++ [(t, n)]) w2 (move t th (MAlloc n) w1 (ms_lk s) s).
Proof.
  intros Hpc Hd E. destruct (fresh_image _ _ _ _ _ _ I Ht Hpc Hp) as (Hs & Hp' & Hload & Hn0 & Hcost & Hsq).
  destruct (mi_live _ _ _ I) as (dr' & L & Hroom). pose proof (lv_base _ _ _ L) as B.
  pose proof (b_next _ _ _ B) as Hnext. pose proof (mi_sees _ _ _ I) as S.
  destruct (sees_shape _ _ _ (b_shape _ _ _ B) S) as (dr & tr & -> & Sh & Hi). cbn [nextI set_ino] in *.
  assert (nextI dr + u_inodes p + 1 < two64) as Hfit.
  { pose proof (total_insert cost _ t th (set_mpc (MDone 0) th) Ht) as Et.
    assert (cost (set_mpc (MDone 0) th) = 0%nat) as Ec by done. lia. }
  rewrite (allocInodes_spec r dr _ _ d _ Sh Hd) in E. injection E as <- <-.
  rewrite (u64_small (u_inodes p + 1)), u64_small by lia.
  replace (nextI dr + (u_inodes p + 1)) with (nextI dr + u_inodes p + 1) by lia.
  assert (exists d', dbs w' !! mt_db th = Some d') as [d' Hd'].
  { destruct (decide (mt_db th = r)) as [->|Hne]; [eexists; apply (sh_root _ _ _ (b_shape _ _ _ B))|].
    exists d. by rewrite (se_dbs _ _ S). }
  destruct (pkgInoUnsigned (mt_db th) (mt_img th) w') as [o w2] eqn:Ec.
  destruct (pkgInoUnsigned_new _ _ _ _ _ _ _ _ _ B Hd' Hp' Hs Hn0 Hfit Ec (or_intror (Hsq _))) as (sq & -> & Esq & ->).
  destruct (live_unsigned _ _ _ _ _ _ _ _ _ L Hd' Hp' Hload Hn0 Hfit Ec ltac:(done))
    as (v & dr2 & [= <-] & L2 & C2 & _ & Hi2 & _).
  cbn [nextI set_ino] in *. eexists. eapply minv_call; [done|done| | | |done|exact Ec|done|exact L2| | | |].
  - apply (holders_same mt_db holds _ _ t th); [apply I|done..|]. unfold holds. by rewrite Hpc.
  - apply (sees_alloc s t th w' _ dr tr (nextI dr) _ p sq); try done; [apply (sh_root _ _ _ Sh)| |].
    + apply eq_None_not_Some. intros [i Hv]. destruct (b_item _ _ _ B (nextI dr) i Hv) as (_ & _ & k & _ & ? & Hle).
      cbn in Hle. lia.
    + apply others_outside. unfold holds. by rewrite Hpc.
  - by rewrite Hpc.
  - intros dr3 L3. pose proof (sh_root _ _ _ (b_shape _ _ _ L3)) as E3.
    rewrite (sh_root _ _ _ (b_shape _ _ _ B)) in E3. injection E3 as <-.
    pose proof (sh_root _ _ _ (b_shape _ _ _ L2)) as E2. cbn in E2. rewrite lookup_insert_eq in E2.
    injection E2 as <-. cbn. lia.
  - eexists. split; [cbn; by rewrite lookup_insert_eq|]. cbn. lia.
  - intros u q. cbn. rewrite lookup_insert_Some. intros [[<- <-]|[_ Hq]] Hz; [cbn in Hz; lia|done].
  - eapply apart_image; [done..|unfold holds; by rewrite Hpc|]. done.
Qed.

Lemma image_store v :
  mt_pc th = MAlloc v ->
  minv l w' (move t th (MStored v) (store_image (mt_img th) (set_startIno v p) (ms_w s)) (ms_lk s) s).
Proof.
  intros Hpc. assert (holds th) as Hh by (unfold holds; by rewrite Hpc).
  destruct (se_half _ _ (mi_sees _ _ _ I) t th v Ht ltac:(by rewrite Hpc)) as (p2 & sq & Hp2 & Hsq & Hw & _).
  assert (p2 = p) as -> by congruence.
  apply minv_silent; try done; [..|by rewrite Hpc|].
  - apply (holders_same mt_db holds _ _ t th); [apply I|done..].
  - apply (sees_image s w' t th Ht _ _ p); try done; [apply I|by rewrite Hpc|by apply others_outside|].
    intros v' [= <-]. split; [done|]. exists sq. done.
  - eapply apart_image; [done..|]. intros u Hu. cbn. by rewrite lookup_insert_ne.
Qed.

Lemma image_offset v sq :
  mt_pc th = MStored v -> sq_SetInodeOffset (u_squash p) v = Some sq ->
  minv l w' (move t th (MOffset v) (store_image (mt_img th) (set_squash sq p) (ms_w s)) (ms_lk s) s).
Proof.
  intros Hpc Esq. assert (holds th) as Hh by (unfold holds; by rewrite Hpc).
  destruct (se_half _ _ (mi_sees _ _ _ I) t th v Ht ltac:(by rewrite Hpc)) as (p2 & sq2 & Hp2 & Hsq & Hw & Hs).
  assert (p2 = p) as -> by congruence. assert (sq2 = sq) as -> by congruence. rewrite Hpc in Hs.
  apply minv_silent; try done; [..|by rewrite Hpc|].
  - apply (holders_same mt_db holds _ _ t th); [apply I|done..].
  - apply (sees_image s w' t th Ht _ _ p); try done; [apply I|by rewrite Hpc|by apply others_outside|].
    intros _. rewrite Hw. unfold numbered_unsigned, set_squash. by rewrite Hs.
  - eapply apart_image; [done..|]. intros u Hu. cbn. by rewrite lookup_insert_ne.
Qed.

Lemma image_insert v d w1 a :
  mt_pc th = MOffset v -> dbs (ms_w s) !! mt_db th = Some d ->
  insert_item (tree_of (mt_db th) d) {| item_Value := v; item_ref := RefUnsigned (mt_img th) |} (ms_w s) = (Ok a, w1) ->
  minv l w' (move t th (MTree v) w1 (ms_lk s) s).
Proof.
  intros Hpc Hd E. assert (holds th) as Hh by (unfold holds; by rewrite Hpc).
  destruct (mi_live _ _ _ I) as (dr' & L & _). pose proof (mi_sees _ _ _ I) as S.
  destruct (sees_shape _ _ _ (b_shape _ _ _ L) S) as (dr & tr & _ & Sh & Hi).
  rewrite (shape_loc r dr (ms_w s)) in E by done. unfold insert_item, upd_db in E.
  rewrite (sh_root _ _ _ Sh) in E. injection E as _ <-.
  assert (llrb_items tr !! v = Some {| item_Value := v; item_ref := RefUnsigned (mt_img th) |}) as Hv.
  { apply Hi. right. exists t, th. by rewrite Hpc. }
  apply minv_silent; try done; [| |by rewrite Hpc].
  - apply (holders_same mt_db holds _ _ t th); [apply I|done..].
  - apply (sees_insert s w' t th Ht v _ dr); try done; [apply Sh|..].
    + intros t' th' Ht' Hne Hpe. apply Hne. assert (mt_img th' = mt_img th) as Hi'; [|].
      2: { eapply same_image; [done..|unfold holds; by destruct (mt_pc th')|done]. }
      assert (llrb_items tr !! v = Some {| item_Value := v; item_ref := RefUnsigned (mt_img th') |}) as Hv'
        by (apply Hi; right; by exists t', th').
      congruence.
    + intros i' Hi'. assert (llrb_items tr !! v = Some i') by (apply Hi; by left). congruence.
Qed.

Lemma image_quiet pc lk :
  holders mt_db holds lk (ms_th (move t th pc (ms_w s) lk s)) ->
  half (mt_pc th) = None -> half pc = None -> pending pc = pending (mt_pc th) ->
  mresult pc = mresult (mt_pc th) -> (pc = MChecked -> u_startIno p = 0) ->
  minv l w' (move t th pc (ms_w s) lk s).
Proof.
  intros Hl Hh Hh' Hpe Hr Hc. apply minv_silent; try done.
  - by apply sees_same; [|apply I|..].
  - intros Epc q Hq. rewrite Hp in Hq. injection Hq as <-. by apply Hc.
Qed.
End one_step.

Lemma mstep_inv l w' s t s' :
  minv l w' s -> mstep t s = Some s' -> exists l' w2, minv (l ++ l') w2 s'.
Proof.
  intros I E. unfold mstep in E. destruct (ms_th s !! t) as [th|] eqn:Ht; [|done]. cbn [mbind option_bind] in E.
  destruct (dbs (ms_w s) !! mt_db th) as [d|] eqn:Hd; [|done]. cbn [mbind option_bind] in E.
  destruct (heap (ms_w s) !! mt_img th) as [p|] eqn:Hp; [|done]. cbn [mbind option_bind] in E.
  destruct (mt_pc th) as [| | | |v|v|v|v|v] eqn:Hpc.
  - destruct (Z.eqb_spec (u_startIno p) 0) as [Hs|Hs]; injection E as <-.
    + exists [], w'. rewrite app_nil_r. apply (image_quiet l w' s t th p I Ht Hp); rewrite ?Hpc; try done.
      apply (holders_same mt_db holds _ _ t th); [apply I|done..|]. unfold holds. by rewrite Hpc.
    + exists [(t, u_startIno p)], w'. apply (minv_found l w' s t th I Ht _ _ p); rewrite ?Hpc; try done.
      apply (holders_same mt_db holds _ _ t th); [apply I|done..|]. unfold holds. by rewrite Hpc.
  - destruct (ms_lk s !! mt_db th) eqn:Hl; [done|]. injection E as <-. exists [], w'. rewrite app_nil_r.
    apply (image_quiet l w' s t th p I Ht Hp); rewrite ?Hpc; try done.
    by apply (holders_take mt_db holds _ _ t th); [apply I|..].
  - assert (holds th) as Hh by (unfold holds; by rewrite Hpc).
    destruct (Z.eqb_spec (u_startIno p) 0) as [Hs|Hs]; injection E as <-.
    + exists [], w'. rewrite app_nil_r. apply (image_quiet l w' s t th p I Ht Hp); rewrite ?Hpc; try done.
      by apply (holders_same mt_db holds _ _ t th); [apply I|..].
    + exists [(t, u_startIno p)], w'. apply (minv_found l w' s t th I Ht _ _ p); rewrite ?Hpc; try done.
      apply (holders_drop mt_db holds _ _ t th); [apply I|done..|by intros []].
  - destruct (allocInodes _ _ (ms_w s)) as [[n| |] w1] eqn:Ea; [|done..]. injection E as <-.
    exists [(t, n)]. by eapply image_alloc.
  - injection E as <-. exists [], w'. rewrite app_nil_r. by apply image_store.
  - destruct (sq_SetInodeOffset (u_squash p) v) as [sq|] eqn:Esq; [|done]. injection E as <-.
    exists [], w'. rewrite app_nil_r. by apply image_offset.
  - destruct (insert_item _ _ (ms_w s)) as [[a| |] w1] eqn:Ei; [|done..]. injection E as <-.
    exists [], w'. rewrite app_nil_r. by eapply image_insert.
  - injection E as <-. exists [], w'. rewrite app_nil_r.
    assert (holds th) as Hh by (unfold holds; by rewrite Hpc).
    apply (image_quiet l w' s t th p I Ht Hp); rewrite ?Hpc; try done.
    apply (holders_drop mt_db holds _ _ t th); [apply I|done..|by intros []].
  - done.
Qed.

Lemma msteps_inv l w' s s' :
  minv l w' s -> msteps s s' -> exists l' w2, minv (l ++ l') w2 s'.
Proof.
  intros I Hs. revert l w' I. induction Hs as [s|s s1 s' [t E] _ IH]; intros l w' I.
  - exists [], w'. by rewrite app_nil_r.
  - destruct (mstep_inv _ _ _ _ _ I E) as (l1 & w1 & I1). destruct (IH _ _ I1) as (l2 & w2 & I2).
    exists (l1 ++ l2), w2. by rewrite app_assoc.
Qed.

Lemma mstart_pc t th : ms_th (mstart w0 ths) !! t = Some th -> mt_pc th = MStart.
Proof. cbn. rewrite list_lookup_fmap. by destruct (ths !! t); intros [= <-]. Qed.

Lemma mstart_inv dr :
  live r dr w0 -> nextI dr + Z.of_nat (total (fun x => extent w0 x.2) ths) < two64 ->
  minv [] w0 (mstart w0 ths).
Proof.
  intros L Hroom. split.
  - constructor.
  - reflexivity.
  - exists dr. split; [done|].
    replace (total cost (ms_th (mstart w0 ths))) with (total (fun x => extent w0 x.2) ths); [done|].
    cbn [ms_th mstart]. generalize ths. intros l. induction l as [|x l IH]; [done|].
    rewrite fmap_cons, !total_cons. by rewrite IH.
  - split.
    + by destruct w0 as [????? []].
    + done.
    + exists dr, (ino dr). split; [apply (sh_root _ _ _ (b_shape _ _ _ L))|].
      split; [rewrite (sh_root _ _ _ (b_shape _ _ _ L)); by destruct dr|].
      intros v i. split; [by left|]. intros [Hi|(t & th & Ht & Hpe & _)]; [done|].
      by rewrite (mstart_pc _ _ Ht) in Hpe.
    + intros t th v Ht. by rewrite (mstart_pc _ _ Ht).
    + done.
    + intros t th v d Ht. by rewrite (mstart_pc _ _ Ht).
  - cbn. rewrite <-list_fmap_compose. rewrite <-(list_fmap_id ths) at 2. apply list_fmap_ext. by intros i [x y] _.
  - intros k t. split; [intros Hk; cbn in Hk; by rewrite lookup_empty in Hk|]. intros (th & Ht & _ & Hh). unfold holds in Hh.
    by rewrite (mstart_pc _ _ Ht) in Hh.
  - constructor.
  - intros t v. split; [by intros ?%elem_of_nil|]. intros (th & Ht & Hr). by rewrite (mstart_pc _ _ Ht) in Hr.
  - intros t th v Ht. by rewrite (mstart_pc _ _ Ht).
  - intros t th q Ht. by rewrite (mstart_pc _ _ Ht).
  - done.
Qed.

(** ** Progress *)

Lemma mstep_work t s s' : mstep t s = Some s' -> (total mwork (ms_th s') < total mwork (ms_th s))%nat.
Proof.
  unfold mstep. destruct (ms_th s !! t) as [th|] eqn:Ht; [|done]. cbn [mbind option_bind].
  assert (forall pc w lk, (mwork (set_mpc pc th) < mwork th)%nat ->
    (total mwork (ms_th (move t th pc w lk s)) < total mwork (ms_th s))%nat) as Hg.
  { intros pc w lk Hw. cbn [move ms_th]. pose proof (total_insert mwork _ t th (set_mpc pc th) Ht). lia. }
  destruct (dbs (ms_w s) !! mt_db th) as [d|]; [|done]. cbn [mbind option_bind].
  destruct (heap (ms_w s) !! mt_img th) as [p|]; [|done]. cbn [mbind option_bind].
  unfold mwork in Hg at 2. destruct (mt_pc th); try case_match; try case_match; try done;
    try (intros [= <-]; apply Hg; cbn; lia).
  destruct (sq_SetInodeOffset _ _); [|done]. intros [= <-]; apply Hg; cbn; lia.
Qed.

(** A call finds its database and its image. *)
Lemma thread_data l w' s t th :
  minv l w' s -> ms_th s !! t = Some th ->
  exists d p, dbs (ms_w s) !! mt_db th = Some d /\ heap (ms_w s) !! mt_img th = Some p.
Proof.
  intros I Ht. pose proof (mi_sees _ _ _ I) as S.
  destruct (se_root _ _ S) as (dr & _ & Hr & _).
  pose proof (thread_elem _ _ _ _ _ I Ht) as Hin. rewrite Forall_forall in Hopen.
  destruct (Hopen _ Hin) as (d0 & p0 & Hd0 & Hp0 & _). cbn in Hd0, Hp0.
  destruct (ca_db _ _ _ (mi_carries _ _ _ I) _ _ Hd0) as (d' & Hd' & _).
  destruct (hk_unsigned _ _ (ca_heaps _ _ _ (mi_carries _ _ _ I)) _ _ Hp0) as (p' & Hp' & _).
  assert (exists d, dbs (ms_w s) !! mt_db th = Some d) as [d Hdb].
  { destruct (decide (mt_db th = r)) as [->|Hne]; [by exists dr|].
    exists d'. by rewrite <-(se_dbs _ _ S). }
  exists d. destruct (decide (Exists (fun x => mt_img x = mt_img th /\ half (mt_pc x) <> None) (ms_th s))) as [He|He].
  - apply Exists_exists in He as (x & [k Hk]%list_elem_of_lookup & <- & Hv).
    destruct (half (mt_pc x)) as [v|] eqn:Ex; [|done].
    destruct (se_half _ _ S _ _ _ Hk Ex) as (p & _ & ? & _). by exists p.
  - exists p'. split; [done|]. rewrite <-(se_whole _ _ S); [done|]. intros k x Hk Hx.
    apply not_Exists_Forall in He; [|intros ?; apply _]. rewrite Forall_lookup in He. specialize (He _ _ Hk).
    destruct (half (mt_pc x)) eqn:E; [|done]. exfalso. apply He. by rewrite E.
Qed.

(** Inside, a call never waits. *)
Lemma inside_steps l w' s t th :
  minv l w' s -> ms_th s !! t = Some th -> mdone th = false ->
  (holds th \/ ms_lk s !! mt_db th = None) -> exists s', mstep t s = Some s'.
Proof.
  intros I Ht Hd Hh. pose proof (mi_sees _ _ _ I) as S.
  destruct (mi_live _ _ _ I) as (dr' & L & _).
  destruct (sees_shape _ _ _ (b_shape _ _ _ L) S) as (dr & tr & _ & Sh & _).
  destruct (thread_data _ _ _ _ _ I Ht) as (d & p & Hdb & Hp).
  unfold mstep. rewrite Ht. cbn [mbind option_bind]. rewrite Hdb. cbn [mbind option_bind]. rewrite Hp.
  cbn [mbind option_bind]. unfold mdone in Hd. unfold holds in Hh.
  destruct (mt_pc th) as [| | | |v|v|v|v|v] eqn:Hpc; try done.
  - eauto.
  - destruct Hh as [[]| ->]. eauto.
  - case_match; eauto.
  - rewrite (allocInodes_spec r dr _ _ d _ Sh Hdb). eauto.
  - eauto.
  - destruct (se_half _ _ S t th v Ht ltac:(by rewrite Hpc)) as (p2 & sq & Hp2 & Hsq & _).
    assert (p2 = p) as -> by congruence. rewrite Hsq. cbn. eauto.
  - rewrite (shape_loc r dr (ms_w s)) by done. unfold insert_item, upd_db. rewrite (sh_root _ _ _ Sh). eauto.
  - eauto.
Qed.

Lemma minv_progress l w' s :
  minv l w' s -> forallb mdone (ms_th s) = true \/ exists t s', mstep t s = Some s'.
Proof.
  intros I. destruct (forallb mdone (ms_th s)) eqn:Hn; [by left|right].
  destruct (decide (Forall (fun th => mdone th = true) (ms_th s))) as [Hd|Hd].
  { exfalso. apply not_true_iff_false in Hn. apply Hn, forallb_forall.
    intros x Hx%list_elem_of_In. by eapply Forall_forall in Hd. }
  apply not_Forall_Exists in Hd; [|intros ?; apply _].
  apply Exists_exists in Hd as (th & [t Ht]%list_elem_of_lookup & Hf%not_true_is_false).
  destruct (ms_lk s !! mt_db th) as [t2|] eqn:El.
  - pose proof El as (th2 & Ht2 & _ & Hh)%(mi_lock _ _ _ I). exists t2.
    apply (inside_steps l w' s t2 th2); [done..| |by left]. unfold mdone, holds in *. by destruct (mt_pc th2).
  - exists t. apply (inside_steps l w' s t th); [done..|by right].
Qed.

(** When every call is over, the state is that of whole calls. *)
Definition same_items (w w' : World) : Prop :=
  w' = set_dbs (dbs w') w /\ (forall k, k <> r -> dbs w' !! k = dbs w !! k) /\
  exists dr tr, dbs w !! r = Some dr /\ dbs w' !! r = Some (set_ino tr dr) /\ llrb_items tr = items dr.

Lemma minv_over l w' s :
  minv l w' s -> forallb mdone (ms_th s) = true ->
  l.*1 ≡ₚ seq 0 (length ths) /\ same_items (ms_w s) w' /\
  forall t th v, ms_th s !! t = Some th -> mt_pc th = MDone v ->
    exists dr, dbs (ms_w s) !! r = Some dr /\
      items dr !! v = Some {| item_Value := v; item_ref := RefUnsigned (mt_img th) |}.
Proof.
  intros I Hd. pose proof (mi_sees _ _ _ I) as S. rewrite forallb_forall in Hd.
  assert (forall t th, ms_th s !! t = Some th -> exists v, mt_pc th = MDone v) as Hf.
  { intros t th Ht. specialize (Hd th ltac:(apply list_elem_of_In; by eapply list_elem_of_lookup_2)).
    unfold mdone in Hd. destruct (mt_pc th); naive_solver. }
  destruct (se_root _ _ S) as (dr & tr & Hr & Hr' & Hi).
  assert (llrb_items tr = items dr) as Et.
  { apply map_eq. intros v. apply option_eq. intros i. rewrite Hi. split; [|by left].
    intros [?|(t & th & Ht & Hpe & _)]; [done|]. destruct (Hf _ _ Ht) as [v' E]. by rewrite E in Hpe. }
  split; [|split].
  - assert (length ths = length (ms_th s)) as -> by by rewrite <-(mi_ths _ _ _ I), length_fmap.
    apply (results_all _ _ _ (mi_done _ _ _ I) (mi_nodup _ _ _ I)).
    intros t th Ht. destruct (Hf _ _ Ht) as [v ->]. by eexists.
  - split; [|split; [apply S|by exists dr, tr]].
    assert (heap w' = heap (ms_w s)) as Eh.
    { apply map_eq. intros u. apply (se_whole _ _ S). intros t th Ht _. by destruct (Hf _ _ Ht) as [v ->]. }
    rewrite (se_world _ _ S) at 1. rewrite Eh. unfold set_dbs, set_reg. cbn. f_equal. by destruct (reg (ms_w s)).
  - intros t th v Ht Hpc. exists dr. split; [done|].
    destruct (mi_number _ _ _ I t th v Ht ltac:(by rewrite Hpc)) as (p & Hp & <- & H0').
    destruct (mi_live _ _ _ I) as (dr' & L & _).
    pose proof (b_started _ _ _ L _ _ Hp H0') as Hit.
    pose proof (sh_root _ _ _ (b_shape _ _ _ L)) as Hr2. assert (dr' = set_ino tr dr) as -> by congruence.
    by rewrite <-Et.
Qed.

(** *** Before the tree has the image *)

(** What is in the tree is complete. *)
Lemma tree_range l w' s dr v i k :
  minv l w' s -> dbs (ms_w s) !! r = Some dr -> items dr !! v = Some i ->
  holds_range w' (item_ref i) v k -> holds_range (ms_w s) (item_ref i) v k.
Proof.
  intros I Hr Hi. pose proof (mi_sees _ _ _ I) as S. destruct (item_ref i) as [q|u]; cbn.
  - rewrite (se_world _ _ S). done.
  - intros (p & Hp & Hl & Es & En). exists p. split; [|done]. rewrite <-(se_whole _ _ S); [done|].
    intros t th Ht Hu. destruct (half (mt_pc th)) as [v'|] eqn:Hh; [|done]. exfalso.
    destruct (se_half _ _ S _ _ _ Ht Hh) as (p2 & sq & _ & _ & Hw & _). rewrite Hu, Hp in Hw.
    injection Hw as ->. cbn in Es. subst v'.
    assert (pending (mt_pc th) = Some v) as Hpe by by destruct (mt_pc th).
    pose proof (se_pending _ _ S _ _ _ _ Ht Hpe Hr). congruence.
Qed.

Lemma pending_refused l w' s t th v :
  minv l w' s -> ms_th s !! t = Some th -> pending (mt_pc th) = Some v ->
  GetInode r v (ms_w s) = (Err ErrInvalid, ms_w s).
Proof.
  intros I Ht Hpe. pose proof (mi_sees _ _ _ I) as S. destruct (mi_live _ _ _ I) as (dr' & L & _).
  pose proof (lv_base _ _ _ L) as B.
  destruct (sees_shape _ _ _ (b_shape _ _ _ B) S) as (dr & tr & -> & Sh & Hi).
  assert (items (set_ino tr dr) !! v = Some {| item_Value := v; item_ref := RefUnsigned (mt_img th) |}) as Hv.
  { apply Hi. right. by exists t, th. }
  destruct (b_item _ _ _ B _ _ Hv) as (_ & Hv1 & _). pose proof (b_next _ _ _ B) as Hnext. cbn in Hnext.
  pose proof (se_pending _ _ S _ _ _ _ Ht Hpe (sh_root _ _ _ Sh)) as Hn.
  unfold GetInode, get_db. rewrite !(proj2 (Z.eqb_neq v _)) by lia. munfold. rewrite (sh_root _ _ _ Sh).
  destruct (DescendFirst (ino dr) v) as [i|] eqn:E; [|done].
  apply DescendFirst_Some in E as (Hit & Hle & _).
  assert (item_Value i <> v) as Hne by (intros Ev; rewrite Ev in Hit; unfold items in Hn; congruence).
  assert (items (set_ino tr dr) !! item_Value i = Some i) as Hit' by (apply Hi; by left).
  destruct (b_item _ _ _ B _ _ Hit') as (_ & Hi1 & k & Hh & Hk & Hend). cbn [nextI set_ino] in Hend.
  pose proof (b_apart _ _ _ B _ _ _ _ _ Hit' Hh Hv ltac:(lia)) as Hap.
  apply (tree_range _ _ _ dr _ _ _ I (sh_root _ _ _ Sh) Hit) in Hh. destruct i as [v' [p|u]]; cbn in *.
  - destruct Hh as (st & Hp & Es & En). rewrite (in_pkg_get p st _ Hp), Es, En, u64_small by lia.
    by rewrite (proj2 (Z.ltb_ge _ _)) by lia.
  - destruct Hh as (q & Hu & _ & Es & En). rewrite (in_unsigned_get u q _ Hu), Es, En, u64_small by lia.
    by rewrite (proj2 (Z.ltb_ge _ _)) by lia.
Qed.

(** Once the number is stored, a call that begins answers it. *)
Lemma stored_answered l w' s t th v t' th' :
  minv l w' s -> ms_th s !! t = Some th -> pending (mt_pc th) = Some v -> mt_pc th <> MAlloc v ->
  ms_th s !! t' = Some th' -> mt_img th' = mt_img th -> mt_pc th' = MStart ->
  mstep t' s = Some (move t' th' (MDone v) (ms_w s) (ms_lk s) s).
Proof.
  intros I Ht Hpe Hna Ht' Hi Hpc. pose proof (mi_sees _ _ _ I) as S.
  destruct (thread_data _ _ _ _ _ I Ht') as (d & p & Hd & Hp).
  assert (u_startIno p = v /\ v <> 0) as [Hs Hv].
  { rewrite Hi in Hp. destruct (mi_number _ _ _ I t th v Ht ltac:(by destruct (mt_pc th))) as (p' & Hp' & Es & Hv).
    split; [|done]. destruct (half (mt_pc th)) as [v2|] eqn:Hh.
    - destruct (se_half _ _ S _ _ _ Ht Hh) as (p2 & sq & Hp2 & _ & _ & Hst).
      assert (p2 = p) as -> by congruence. destruct (mt_pc th); simplify_eq/=; done.
    - rewrite (whole_image _ _ _ _ _ I Ht) in Hp'; [congruence|unfold holds; by destruct (mt_pc th)|done]. }
  unfold mstep. rewrite Ht'. cbn [mbind option_bind]. rewrite Hd. cbn [mbind option_bind]. rewrite Hp.
  cbn [mbind option_bind]. rewrite Hpc, (proj2 (Z.eqb_neq _ _)), Hs by congruence. done.
Qed.

End run.

(** ** Theorems *)

(** What the calls start from: a state of the running daemon, opened images, each
    of one database, and enough numbers for all of them. *)
Record ready (r : nat) (dr : DB) (w : World) (ths : list (nat * nat)) : Prop := {
  rd_live : live r dr w;
  rd_opened : Forall (opened w) ths;
  rd_one x y : x ∈ ths -> y ∈ ths -> x.2 = y.2 -> x.1 = y.1;
  rd_room : nextI dr + Z.of_nat (total (fun x => extent w x.2) ths) < two64;
}.

Lemma ready_inv r dr w ths s :
  ready r dr w ths -> msteps (mstart w ths) s -> exists l w', minv r w ths l w' s.
Proof.
  intros [L Ho H1' Hn] Hs. assert (minv r w ths [] w (mstart w ths)) as I by by eapply mstart_inv.
  destruct (msteps_inv r w ths Ho H1' _ _ _ _ I Hs) as (l & w' & I'). by exists l, w'.
Qed.

(** C13: concurrent lookups of unsigned images are linearizable.  Whatever the
    schedule, the numbers are those of whole calls of [pkgInoUnsigned] in some
    order, which keeps that of time; when all calls are over, the state is the one
    after those calls, the inode trees with the same entries, and every number
    leads to its image. *)
Theorem images_linearize r dr w0 ths s1 s :
  ready r dr w0 ths -> msteps (mstart w0 ths) s1 -> msteps s1 s ->
  exists l1 l2 w',
    calls ths w0 (l1 ++ l2) w' /\ NoDup (l1 ++ l2).*1 /\
    (forall t th v, ms_th s1 !! t = Some th -> mt_pc th = MDone v -> (t, v) ∈ l1) /\
    (forall t th, ms_th s1 !! t = Some th -> mt_pc th = MStart -> t ∉ l1.*1) /\
    (forall t th v, ms_th s !! t = Some th -> mt_pc th = MDone v -> (t, v) ∈ l1 ++ l2) /\
    (forallb mdone (ms_th s) = true ->
       (l1 ++ l2).*1 ≡ₚ seq 0 (length ths) /\ same_items r (ms_w s) w' /\
       forall t th v, ms_th s !! t = Some th -> mt_pc th = MDone v ->
         exists dr, dbs (ms_w s) !! r = Some dr /\
           items dr !! v = Some {| item_Value := v; item_ref := RefUnsigned (mt_img th) |}).
Proof.
  intros Hr Hs1 Hs. destruct (ready_inv _ _ _ _ _ Hr Hs1) as (l1 & w1 & I1).
  destruct (msteps_inv r w0 ths (rd_opened _ _ _ _ Hr) (rd_one _ _ _ _ Hr) _ _ _ _ I1 Hs) as (l2 & w2 & I).
  exists l1, l2, w2. split; [apply I|]. split; [apply I|].
  split; [intros t th v Ht Hpc; apply (mi_done _ _ _ _ _ _ I1); exists th; by rewrite Hpc|].
  split; [intros t th Ht Hpc; eapply (results_fresh _ _ _ _ _ (mi_done _ _ _ _ _ _ I1) Ht); by rewrite Hpc|].
  split; [intros t th v Ht Hpc; apply (mi_done _ _ _ _ _ _ I); exists th; by rewrite Hpc|].
  intros Hd. by apply (minv_over r w0 ths).
Qed.

(** Every lookup of an unsigned image finishes.  In every state the calls can
    reach, all are over or one of them can go on: the locks cannot deadlock and no
    call fails; and n calls take at most 8n steps. *)
Theorem images_finish r dr w0 ths :
  ready r dr w0 ths ->
  (forall s, msteps (mstart w0 ths) s ->
     forallb mdone (ms_th s) = true \/ exists t s', mstep t s = Some s') /\
  (forall k s, nsteps (fun s s' => exists t, mstep t s = Some s') k (mstart w0 ths) s ->
     (k <= 8 * length ths)%nat).
Proof.
  intros Hr. split.
  - intros s (l & w' & I)%(ready_inv _ _ _ _ _ Hr). eapply minv_progress; [apply Hr|exact I].
  - intros k s Hk. assert (total mwork (ms_th s) + k <= total mwork (ms_th (mstart w0 ths)))%nat as Hb.
    { revert Hk. apply (nsteps_total ms_th). intros s1 s2 [t Ht]. by apply mstep_work in Ht. }
    pose proof (total_bound mwork 8 (ms_th (mstart w0 ths))) as Ht. cbn [ms_th mstart] in Ht.
    rewrite length_fmap in Ht. cbn [ms_th mstart] in Hb.
    specialize (Ht ltac:(apply Forall_fmap, Forall_true; intros x; cbn; lia)). lia.
Qed.

(** C14: a number is given out before it is answered for.  From the allocation to
    the insertion into the tree, [GetInode] of the root refuses the number of the
    image; but as soon as it is stored, a call that begins returns it. *)
Theorem number_before_tree r dr w0 ths s t th v :
  ready r dr w0 ths -> msteps (mstart w0 ths) s ->
  ms_th s !! t = Some th -> pending (mt_pc th) = Some v ->
  GetInode r v (ms_w s) = (Err ErrInvalid, ms_w s) /\
  (mt_pc th <> MAlloc v -> forall t' th',
     ms_th s !! t' = Some th' -> mt_img th' = mt_img th -> mt_pc th' = MStart ->
     mstep t' s = Some (move t' th' (MDone v) (ms_w s) (ms_lk s) s)).
Proof.
  intros Hr (l & w' & I)%(ready_inv _ _ _ _ _ Hr) Ht Hpe. split.
  - eapply pending_refused; [exact I|done..].
  - intros Hna t' th'. eapply stored_answered; [apply Hr|apply Hr|exact I|done..].
Qed.
End linearize.

(** ** Three calls, two of them for one image *)

Module SampleImages.
Import SampleWorld SampleRunning.
#[local] Existing Instance MapBolt.ops.
#[local] Existing Instance MapBolt.spec.
#[local] Existing Instance Sample.list_llrb.
#[local] Existing Instance Sample.list_llrb_spec.
#[local] Existing Instance SampleLd.ldcache.
#[local] Existing Instance SampleLd.json.
#[local] Existing Instance SampleLd.range.
#[local] Existing Instance Toy.toy_ed25519.
#[local] Existing Instance Toy.toy_ed25519_spec.
#[local] Existing Instance SampleUpd.jwt.
#[local] Existing Instance SamplePkg.squashfs.
#[local] Existing Instance SamplePkg.json.
#[local] Existing Instance SamplePkg.remote.

Definition image (name : bytes) : unsignedPkg := {|
  u_fn := name ++ squashfsSuffix; u_pkg := name; u_startIno := 0; u_inodes := 4; u_load := true;
  u_squash := Some 4; u_err := None |}.
Definition images : gmap nat unsignedPkg :=
  {[ 0%nat := image (str "sys.a.core.1.linux.amd64"); 1%nat := image (str "sys.b.core.1.linux.arm64") ]}.
Definition start : World :=
  set_reg {| unsignedMap := Some ∅; u_heap := images; u_next := 2 |} world.
Definition ths : list (nat * nat) := [(0, 0); (0, 0); (1, 1)]%nat.

Lemma image_cases u p : images !! u = Some p -> (u < 2)%nat /\ u_startIno p = 0.
Proof.
  unfold images. rewrite lookup_insert_Some, lookup_singleton_Some.
  intros [[<- <-]|[_ [<- <-]]]; split; done || lia.
Qed.

Lemma start_live : live 0 (the_db None) start.
Proof.
  apply (set_reg_live 0 (the_db None) world _ world_live). split.
  - intros u p. unfold world, reg, u_heap. by rewrite lookup_empty.
  - intros u p Hu%image_cases. by right.
  - cbn. lia.
Qed.

Lemma start_opened k u d : dbs start !! k = Some d -> (u < 2)%nat -> opened start (k, u).
Proof.
  intros Hd Hu. assert (exists p, images !! u = Some p /\ u_load p = true /\ 0 <= u_inodes p /\
    forall v, is_Some (sq_SetInodeOffset (u_squash p) v)) as (p & Hp & Hl & Hn & Hs).
  { destruct u as [|[|u]]; [exists (image (str "sys.a.core.1.linux.amd64"))
                             |exists (image (str "sys.b.core.1.linux.arm64"))|lia];
      (split; [vm_compute; reflexivity|]); (split; [done|]); (split; [done|]); by eexists. }
  by exists d, p.
Qed.

Lemma start_ready : ready 0 (the_db None) start ths.
Proof.
  split.
  - apply start_live.
  - apply Forall_cons. split; [exact (start_opened 0 0 (the_db None) eq_refl ltac:(lia))|].
    apply Forall_cons. split; [exact (start_opened 0 0 (the_db None) eq_refl ltac:(lia))|].
    apply Forall_cons. split; [exact (start_opened 1 1 (the_db (Some 0%nat)) eq_refl ltac:(lia))|].
    apply Forall_nil_2.
  - assert (forall x, x ∈ ths -> x.1 = x.2) as Hx.
    { intros x. unfold ths. rewrite !elem_of_cons, elem_of_nil. naive_solver. }
    intros x y Hx1 Hy1 E. by rewrite (Hx x Hx1), (Hx y Hy1).
  - vm_compute. reflexivity.
Qed.

(** The second call begins when the first has stored the number; the third runs in
    between, in the other database. *)
Definition begun : list nat := [0; 0; 0; 0; 2; 2; 0; 2; 2]%nat.
Definition schedule : list nat := begun ++ [1; 2; 2; 0; 2; 0; 2; 0]%nat.
Definition pcs (o : option mst) : option (list mpc) := (fun s => mt_pc <$> ms_th s) <$> o.
Definition run (l : list nat) : option mst := exec mstep l (mstart start ths).

Lemma begun_pcs : pcs (run begun) = Some [MStored 1000; MStart; MAlloc 1005].
Proof. vm_compute. reflexivity. Qed.
Lemma schedule_pcs : pcs (run schedule) = Some [MDone 1000; MDone 1000; MDone 1005].
Proof. vm_compute. reflexivity. Qed.

Lemma run_pcs l ps : pcs (run l) = Some ps -> exists s, run l = Some s /\ mt_pc <$> ms_th s = ps /\
  msteps (mstart start ths) s.
Proof.
  unfold pcs. destruct (run l) as [s|] eqn:E; [|done]. intros [= Hp]. exists s. split; [done|].
  split; [done|]. by apply (exec_steps mstep l).
Qed.

Lemma pcs_done (s : mst) vs : mt_pc <$> ms_th s = MDone <$> vs -> forallb mdone (ms_th s) = true.
Proof.
  intros E. apply forallb_forall. intros x [t Ht]%list_elem_of_In%list_elem_of_lookup.
  apply (f_equal (.!! t)) in E. rewrite !list_lookup_fmap, Ht in E.
  destruct (vs !! t); [|done]. injection E as E. unfold mdone. by rewrite E.
Qed.

Lemma images_linearize_witness :
  exists s l w', run schedule = Some s /\ mt_pc <$> ms_th s = [MDone 1000; MDone 1000; MDone 1005] /\
    calls ths start l w' /\ l.*1 ≡ₚ seq 0 3 /\ same_items 0 (ms_w s) w'.
Proof.
  destruct (run_pcs schedule _ schedule_pcs) as (s & Es & Hp & Hs).
  destruct (images_linearize 0 (the_db None) start ths _ s start_ready (rtc_refl _ _) Hs)
    as (l1 & l2 & w' & Hc & _ & _ & _ & _ & Hd).
  destruct (Hd (pcs_done s [1000; 1000; 1005] Hp)) as (Hperm & Hw & _).
  exists s, (l1 ++ l2), w'. split; [exact Es|]. split; [exact Hp|]. split; [exact Hc|]. split; [exact Hperm|exact Hw].
Defined.

Lemma images_finish_witness :
  (exists t s', mstep t (mstart start ths) = Some s') /\ (length schedule <= 8 * length ths)%nat.
Proof.
  destruct (images_finish 0 (the_db None) start ths start_ready) as [Hgo Hn]. split.
  - destruct (Hgo _ (rtc_refl _ _)) as [Hd|Hd]; [discriminate Hd|exact Hd].
  - destruct (run_pcs schedule _ schedule_pcs) as (s & Es & _).
    apply (Hn (length schedule) s). apply (exec_nsteps mstep). exact Es.
Defined.

Lemma number_before_tree_witness :
  exists s s', run begun = Some s /\ GetInode 0 1000 (ms_w s) = (Err ErrInvalid, ms_w s) /\
    mstep 1 s = Some s' /\ ms_w s' = ms_w s /\ mt_pc <$> ms_th s' !! 1%nat = Some (MDone 1000).
Proof.
  destruct (run_pcs begun _ begun_pcs) as (s & Es & Hp & Hs).
  assert (forall t pc, [MStored 1000; MStart; MAlloc 1005] !! t = Some pc ->
    exists th, ms_th s !! t = Some th /\ mt_pc th = pc) as Hth.
  { intros t pc. rewrite <-Hp, list_lookup_fmap. destruct (ms_th s !! t) as [th|]; [|done].
    intros [= <-]. by exists th. }
  destruct (Hth 0%nat _ eq_refl) as (th & Ht & Epc). destruct (Hth 1%nat _ eq_refl) as (th' & Ht' & Epc').
  assert (mt_img th' = mt_img th) as Hi.
  { assert (forall t th, ms_th s !! t = Some th -> ths !! t = Some (mt_db th, mt_img th)) as Hths.
    { destruct (ready_inv _ _ _ _ _ start_ready Hs) as (l & w' & I). intros t x Hx.
      rewrite <-(mi_ths _ _ _ _ _ _ I), list_lookup_fmap, Hx. done. }
    pose proof (Hths _ _ Ht) as E1. pose proof (Hths _ _ Ht') as E2. cbn in E1, E2. congruence. }
  destruct (number_before_tree 0 (the_db None) start ths s 0%nat th 1000 start_ready Hs Ht)
    as [Hget Hone]; [by rewrite Epc|].
  specialize (Hone ltac:(by rewrite Epc) 1%nat th' Ht' Hi Epc').
  exists s. eexists. split; [exact Es|]. split; [exact Hget|]. split; [exact Hone|]. split; [reflexivity|].
  cbn. rewrite (list_lookup_insert_eq (ms_th s)); [reflexivity|]. by apply lookup_lt_Some with th'.
Defined.
End SampleImages.
