(* ===== verification/Session.v ===== *)
(** * Session: a client of the mount, while the daemon runs

    The event loop of the FUSE server over the mounted database, interleaved
    with everything else the daemon does: updates and other writes, new
    sub-databases, unsigned images.  Every request a handler serves is a
    sequence of steps of [Running.v] ([handle_keeps]), and the cache of inodes
    stays consistent with the database, so that what the kernel was told about a
    name holds for as long as the mount lives ([mount_resolves]): this in any
    state of the daemon, with unsigned images and shared packages too.  Which
    package the node belongs to is stated for a lookup without these. *)

From S2P Require Import Prelude GoLib GoPath Sig Collate Natsort OsArch Bolt Store GoTime Pins Ldso Index Export Package Update Unsigned World Lookup Proto Fuse Serve Replies Mount Life Running.
Local Open Scope Z_scope.

Section session.
Context `{FuseTypes, BoltSpec, LlrbSpec, Ldcache, !Json, GoRange, GoSort, Ed25519Spec, Jwt, Squashfs, !SquashInodes, Remote, PkgJson}.
Context (env : environ) (main : nat) (Henv : env_ok env).

#[local] Abbreviation the_mount := (Mount.the_mount env main).
#[local] Hint Extern 0 InodeOps => exact the_mount : typeclass_instances.

Definition wof (p : PkgFS) : World := fst (pf_w p).

(** ** The cache of inodes *)

(** [i] is the object of number [n]: the root, [ld.so.cache], the link of the
    package the number starts, or a file inside one. *)
Definition right (w : World) (n : Z) (i : fsInode) : Prop :=
  match i with
  | InoRoot l => n = 1 /\ l = main
  | InoLdso _ _ => n = 2
  | InoPkg (InoSymlink t) => GetInode main n w = (Ok (InoPkg (InoSymlink t)), w)
  | InoPkg (InoSquash _) => exists dr v it, dbs w !! main = Some dr /\ owned dr w n v it /\ n <> v
  end.

Lemma live_root dr w : live main dr w -> dbs w !! main = Some dr.
Proof. intros L. apply (sh_root _ _ _ (b_shape _ _ _ (lv_base _ _ _ L))). Qed.

Lemma right_carried dr w dr' w' n i :
  live main dr w -> live main dr' w' -> carries main w w' -> right w n i -> right w' n i.
Proof.
  intros L L' C. destruct i as [l|l c|[t|sq]]; cbn; [done|done| |].
  - intros E. exact (proj2 (link_carried _ _ _ _ _ _ _ _ L L' C E)).
  - intros (dr0 & v & it & Hr & O & Hn). rewrite (live_root _ _ L) in Hr. injection Hr as <-.
    exists dr', v, it. split; [by apply live_root|]. split; [|done].
    by apply (owned_carried main dr w dr' w' n v it (lv_base _ _ _ L) (lv_base _ _ _ L') C).
Qed.

Lemma routed_pkg it n w i w' : routed it n w = (Ok i, w') -> exists j, i = InoPkg j.
Proof.
  unfold routed. destruct (item_ref it) as [p|u]; munfold.
  - destruct (in_pkg p _ w) as [[s|e|] w1]; [|done..].
    destruct (get_db _ w1) as [[d|e|] w2]; [|done..].
    destruct (in_pkg p _ w2) as [[j|e|] w3]; [|done..]. intros [= <- _]. by exists j.
  - destruct (in_unsigned u _ w) as [[j|e|] w1]; [|done..]. intros [= <- _]. by exists j.
Qed.

(** What [GetInode] returns is right. *)
Lemma routed_right dr w n v it i w' :
  live main dr w -> owned dr w n v it -> routed it n w = (Ok i, w') ->
  live main dr w' -> carries main w w' -> right w' n i.
Proof.
  intros L O E L' C. pose proof (lv_base _ _ _ L) as B.
  destruct (routed_pkg _ _ _ _ _ E) as [[t|sq] ->].
  - cbn. pose proof (link_of_owned _ _ _ _ _ _ _ _ B O E) as (-> & -> & _).
    rewrite (GetInode_owned _ _ _ _ _ _ B O). exact E.
  - exists dr, v, it. split; [by apply live_root|].
    split; [by apply (owned_carried main dr w dr w' n v it B (lv_base _ _ _ L') C)|].
    intros ->. destruct O as (Hi & k & Hh & _). revert E. unfold routed.
    destruct it as [v' [p|u]]; cbn [item_ref holds_range] in Hh |- *; munfold.
    + destruct Hh as (st & Hp & Es & _). rewrite (in_pkg_get p st w Hp). unfold get_db.
      destruct (b_pkg _ _ _ B p st Hp) as [_ [d ->]]. unfold in_pkg. rewrite Hp.
      by rewrite handleLookup_link by done.
    + destruct Hh as (q & Hu & Hl & Es & _). unfold in_unsigned. rewrite Hu.
      unfold unsigned_handleLookup, open. rewrite Hl, Es, Z.eqb_refl. by destruct (u_err q).
Qed.

Lemma GetInode_right dr w n i w' :
  live main dr w -> GetInode main n w = (Ok i, w') -> right w' n i.
Proof.
  intros L E. pose proof (lv_base _ _ _ L) as B.
  destruct (live_GetInode _ _ _ _ _ _ L E) as [L' C]; [done|].
  destruct (decide (n = 1)) as [->|H1']; [by injection E as <- <-|].
  destruct (decide (n = 2)) as [->|H2'].
  { revert E. unfold GetInode, get_db. change (2 =? 1) with false. munfold.
    rewrite (live_root _ _ L). by intros [= <- <-]. }
  destruct (owned_dec main dr w n B) as [(v & it & O)|Hno].
  - rewrite (GetInode_owned _ _ _ _ _ _ B O) in E. exact (routed_right dr w n v it i w' L O E L' C).
  - by rewrite (GetInode_unowned main dr w n B H1' H2' Hno) in E.
Qed.

(** ** The file system *)

(** The database is live and the cache right. *)
Record good (p : PkgFS) : Prop := {
  gd_live : exists dr, live main dr (wof p);
  gd_cache n i : inoCache p !! n = Some i -> right (wof p) n i;
}.
Definition evolves (p p' : PkgFS) : Prop := rtc (life main) (wof p) (wof p').

#[local] Instance evolves_preorder : PreOrder evolves.
Proof. split; [intros p; apply rtc_refl|intros p1 p2 p3; apply (rtc_trans (R := life main))]. Qed.

Lemma right_evolves p p' n i :
  good p -> evolves p p' -> right (wof p) n i -> right (wof p') n i.
Proof.
  intros [[dr L] _] Ev. destruct (live_steps _ _ _ _ L Ev) as (dr' & L' & C). by eapply right_carried.
Qed.

Lemma good_evolves p p' :
  good p -> evolves p p' ->
  (forall n i, inoCache p' !! n = Some i -> inoCache p !! n = Some i \/ right (wof p') n i) -> good p'.
Proof.
  intros G Ev Hc. split.
  - destruct (gd_live _ G) as [dr L]. destruct (live_steps _ _ _ _ L Ev) as (dr' & L' & _). by exists dr'.
  - intros n i [Hi|?]%Hc; [|done]. eapply right_evolves; [done..|]. by apply (gd_cache _ G).
Qed.

(** From [p], [m] goes to a good state by steps of the daemon, and what it
    returns has [Q] there. *)
Definition does {A} (m : ST PkgFS A) (Q : A -> PkgFS -> Prop) (p : PkgFS) : Prop := forall o p',
  m p = (o, p') -> o <> Panic -> good p' /\ evolves p p' /\ forall a, o = Ok a -> Q a p'.

Lemma does_ret {A} (a : A) (Q : A -> PkgFS -> Prop) p : good p -> Q a p -> does (mret a) Q p.
Proof. intros G Ha o p' [= <- <-] _. split; [done|]. split; [apply rtc_refl|]. by intros ? [= <-]. Qed.

Lemma does_bind {A B} (m : ST PkgFS A) (k : A -> ST PkgFS B) Q R p :
  does m Q p -> (forall a p', good p' -> evolves p p' -> Q a p' -> does (k a) R p') -> does (m ≫= k) R p.
Proof.
  intros Hm Hk o p' E Ho. revert E. munfold. destruct (m p) as [o1 p1] eqn:E1.
  destruct o1 as [a|e|]; [|intros [= <- <-]..]; [|by destruct (Hm _ _ E1) as (G1 & V1 & _)|done].
  destruct (Hm _ _ E1) as (G1 & V1 & Q1); [done|]. intros E.
  destruct (Hk a p1 G1 V1 (Q1 _ eq_refl) _ _ E Ho) as (G & V & HR).
  split; [done|]. split; [by etrans|done].
Qed.

(** A call on the inodes leaves the cache alone. *)
Lemma does_on_w {A} (m : ST fsW A) p :
  good p -> (forall o w', m (pf_w p) = (o, w') -> o <> Panic -> rtc (life main) (wof p) (fst w')) ->
  does (on_w m) (fun _ _ => True) p.
Proof.
  intros G Hm o p' E Ho. unfold on_w in E. destruct (m (pf_w p)) as [o1 w'] eqn:E1. injection E as -> <-.
  assert (evolves p {| pf_w := w'; inoCache := inoCache p |}) as V by exact (Hm _ _ eq_refl Ho).
  split; [|done]. eapply good_evolves; [done|exact V|]. by left.
Qed.

(** Calls on SquashFS objects, and those that touch nothing. *)
Lemma does_sq {A} (m : ST sqst A) p : good p -> does (on_w (on_sq m)) (fun _ _ => True) p.
Proof.
  intros G. apply does_on_w; [done|]. unfold wof. destruct (pf_w p) as [w q]. cbn.
  destruct (m q) as [o1 q']. intros o w' [= _ <-] _. apply rtc_refl.
Qed.
Lemma does_lift {A} (a : outcome A) p : good p -> does (on_w (lift_st a)) (fun _ _ => True) p.
Proof. intros G. apply does_on_w; [done|]. intros o w' [= _ <-] _. apply rtc_refl. Qed.

Lemma does_getInode n p :
  good p -> does (getInode n) (fun i p' => right (wof p') n i /\ (n = 1 -> p' = p)) p.
Proof.
  intros G o p' E Ho. unfold getInode in E. destruct (Z.eqb_spec n 1) as [->|Hn].
  { injection E as <- <-. split; [done|]. split; [done|]. by intros i [= <-]. }
  revert E. munfold. unfold getInodeCache. destruct (inoCache p !! n) as [i|] eqn:Ec.
  { intros [= <- <-]. split; [done|]. split; [done|]. intros ? [= <-]. split; [by apply (gd_cache _ G)|done]. }
  unfold on_w, on_world. destruct p as [[w q] c]; cbn. destruct (GetInode main n w) as [o1 w'] eqn:Eg.
  intros [= <- <-]. destruct (gd_live _ G) as [dr L]. cbn in L.
  assert (evolves {| pf_w := (w, q) : @fsW the_mount; inoCache := c |}
    {| pf_w := (w', q) : @fsW the_mount; inoCache := c |}) as V by (by apply rtc_once, (life_inode _ _ _ n o1)).
  split; [eapply good_evolves; [done|exact V|by left]|]. split; [done|]. intros i ->.
  split; [by eapply GetInode_right|done].
Qed.

(** There are numbers left for the package of a name that is looked up now. *)
Definition has_room (w : World) (name : bytes) : Prop := forall o w' dr,
  dbs w !! main = Some dr -> World.Lookup env main name w = (o, w') -> room dr w'.

Lemma does_lookup i n pid name p :
  good p -> right (wof p) n i -> (n = 1 -> has_room (wof p) name) ->
  does (on_w (i_Lookup i pid name)) (fun _ _ => True) p.
Proof.
  intros G Hi Hroom. destruct i as [l|l c|[t|sq]]; cbn; [|by apply does_lift|by apply does_lift|by apply does_sq].
  destruct Hi as [-> ->]. apply does_on_w; [done|]. specialize (Hroom eq_refl). revert Hroom.
  destruct (gd_live _ G) as [dr L]. revert L. unfold wof. destruct (pf_w p) as [w q]. cbn. intros L Hroom.
  destruct (World.Lookup env main name w) as [o1 w1] eqn:E. intros o w' [= <- <-] Ho.
  apply rtc_once, (life_lookup _ _ _ env dr name o1 Henv); [by apply live_root| |done|done].
  by eapply Hroom; [apply live_root|].
Qed.

Lemma does_ref (f : fsW -> Z * fsW) p :
  good p -> rtc (life main) (wof p) (fst (snd (f (pf_w p)))) -> does (on_ref f) (fun _ _ => True) p.
Proof.
  intros G Hf o p' E _. unfold on_ref in E. destruct (f (pf_w p)) as [v w'] eqn:E1. injection E as <- <-.
  assert (evolves p {| pf_w := w'; inoCache := inoCache p |}) as V by done.
  split; [|done]. eapply good_evolves; [done|exact V|by left].
Qed.

Lemma ref_steps n i c p : right (wof p) n i ->
  rtc (life main) (wof p) (fst (snd (i_AddRef i c (pf_w p)))) /\
  rtc (life main) (wof p) (fst (snd (i_DelRef i c (pf_w p)))).
Proof.
  unfold wof. destruct (pf_w p) as [w q]. destruct i as [l|l b|[t|sq]]; cbn; intros Hi; [|done|done|].
  - destruct Hi as [_ ->]. unfold db_AddRef, db_DelRef.
    split; [destruct (add_refcnt main c w) as [v w1] eqn:E|destruct (add_refcnt main _ w) as [v w1] eqn:E];
      apply rtc_once, (life_ref _ _ _ _ (f_equal snd (eq_sym E))).
  - destruct (si_AddRef sq c q), (si_DelRef sq c q). done.
Qed.

Lemma does_AddRef n i c p :
  good p -> right (wof p) n i -> does (on_ref (i_AddRef i c)) (fun _ _ => True) p.
Proof. intros G Hi. apply does_ref; [done|]. apply (ref_steps n i c p Hi). Qed.
Lemma does_DelRef n i c p :
  good p -> right (wof p) n i -> does (on_ref (i_DelRef i c)) (fun _ _ => True) p.
Proof. intros G Hi. apply does_ref; [done|]. apply (ref_steps n i c p Hi). Qed.

Lemma does_set_cache f p :
  good p -> (forall n i, f (inoCache p) !! n = Some i -> inoCache p !! n = Some i \/ right (wof p) n i) ->
  does (set_cache f) (fun _ _ => True) p.
Proof.
  intros G Hf o p' [= <- <-] _. assert (evolves p {| pf_w := pf_w p; inoCache := f (inoCache p) |}) as V
    by apply rtc_refl.
  split; [|done]. eapply good_evolves; [exact G|exact V|exact Hf].
Qed.

(** *** The cache *)

Lemma does_addToCache n i p :
  good p -> right (wof p) n i -> does (addToCache n i) (fun _ _ => True) p.
Proof.
  intros G Hi. unfold addToCache. eapply does_bind; [by apply (does_ret p (fun a p' => a = p /\ p' = p))|].
  intros ? p1 _ _ [-> ->]. destruct (inoCache p !! n) as [c|] eqn:Ec.
  - pose proof (gd_cache _ G _ _ Ec) as Hc. eapply does_bind; [by apply (does_AddRef n)|].
    intros v p2 G2 V2 _. destruct (v =? 0); [by apply does_ret|].
    eapply does_bind; [apply (does_AddRef n); [done|by apply (right_evolves p)]|]. intros v3 p3 G3 V3 _.
    eapply does_bind; [apply (does_DelRef n); [done|apply (right_evolves p); [done|by etrans|done]]|].
    intros v4 p4 G4 _ _. by apply does_ret.
  - apply does_set_cache; [done|]. intros m j. rewrite lookup_insert_Some. intros [[<- <-]|[_ ?]]; auto.
Qed.

Lemma does_removeFromCache n k p : good p -> does (removeFromCache n k) (fun _ _ => True) p.
Proof.
  intros G. unfold removeFromCache. eapply does_bind; [by apply (does_ret p (fun a p' => a = p /\ p' = p))|].
  intros ? p1 _ _ [-> ->]. destruct (inoCache p !! n) as [c|] eqn:Ec; [|by apply does_ret].
  eapply does_bind; [by apply (does_DelRef n); [|apply (gd_cache _ G)]|]. intros v p2 G2 _ _.
  destruct (_ || _); [|by apply does_ret]. apply does_set_cache; [done|].
  intros m j. rewrite lookup_delete_Some. intros [_ ?]. by left.
Qed.

(** ** The handlers *)

Definition keeps_on (hd : ST FuseServer unit) (s : FuseServer) : Prop := forall o s',
  hd s = (o, s') -> o <> Panic -> good (fs s') /\ evolves (fs s) (fs s').

Lemma keeps_send msg s : good (fs s) -> keeps_on (send (fd_Write msg)) s.
Proof. intros G o s'. rewrite send_write. intros [= _ <-] _. done. Qed.

Lemma keeps_or {A} u (m : ST PkgFS A) Q k s :
  does m Q (fs s) -> (forall a s', good (fs s') -> evolves (fs s) (fs s') -> Q a (fs s') -> keeps_on (k a) s') ->
  keeps_on (orReply u m k) s.
Proof.
  intros Hm Hk o s' E Ho. unfold orReply in E. destruct (m (fs s)) as [o1 p1] eqn:E1.
  rewrite (in_fs_eq env main _ _ _ _ E1) in E. destruct o1 as [a|e|]; [| |by injection E as <-].
  - destruct (Hm _ _ E1) as (G1 & V1 & Q1); [done|].
    destruct (Hk a (with_fs p1 s) G1 V1 (Q1 _ eq_refl) _ _ E Ho) as [G V]. split; [done|by etrans].
  - destruct (Hm _ _ E1) as (G1 & V1 & _); [done|].
    destruct (keeps_send _ (with_fs p1 s) G1 _ _ E Ho) as [G V]. split; [done|by etrans].
Qed.

Lemma keeps_fs {A} (m : ST PkgFS A) Q (k : A -> ST FuseServer unit) s :
  does m Q (fs s) -> (forall p, match fst (m p) with Err _ => False | _ => True end) ->
  (forall a s', good (fs s') -> evolves (fs s) (fs s') -> Q a (fs s') -> keeps_on (k a) s') ->
  keeps_on (in_fs m ≫= k) s.
Proof.
  intros Hm Hne Hk o s' E Ho. revert E. munfold. specialize (Hne (fs s)).
  destruct (m (fs s)) as [o1 p1] eqn:E1. rewrite (in_fs_eq env main _ _ _ _ E1).
  destruct o1 as [a|e|]; [|done|by intros [= <-]]. intros E.
  destruct (Hm _ _ E1) as (G1 & V1 & Q1); [done|].
  destruct (Hk a (with_fs p1 s) G1 V1 (Q1 _ eq_refl) _ _ E Ho) as [G V]. split; [done|by etrans].
Qed.

Lemma keeps_if (b : bool) h1 h2 s : keeps_on h1 s -> keeps_on h2 s -> keeps_on (if b then h1 else h2) s.
Proof. by destruct b. Qed.
Lemma keeps_on_ret s : good (fs s) -> keeps_on (mret tt) s.
Proof. intros G o s' [= _ <-] _. done. Qed.

Lemma keeps_in_fs (m : ST PkgFS unit) Q s : does m Q (fs s) -> keeps_on (in_fs m) s.
Proof.
  intros Hm o s' E Ho. destruct (m (fs s)) as [o1 p1] eqn:E1.
  rewrite (in_fs_eq env main _ _ _ _ E1) in E. injection E as <- <-. by destruct (Hm _ _ E1 Ho) as (? & ? & _).
Qed.

(** The calls on an object that only SquashFS objects act on. *)
Lemma does_call {A} (m : ST fsW A) p :
  (exists a, m = lift_st a) \/ (exists k, m = on_sq k) -> good p -> does (on_w m) (fun _ _ => True) p.
Proof. intros [[k ->]|[k ->]] G; by (apply does_lift || apply does_sq). Qed.

Lemma StatFs_same l w o w' : StatFs l w = (o, w') -> w' = w.
Proof.
  unfold StatFs, Inodes. munfold. unfold get_db. destruct (dbs w !! l) as [d|]; [|by intros [= _ <-]].
  destruct (Length d); [|by intros [= _ <-]..].
  assert (forall fuel k, snd (next_loop fuel k w) = w) as Hn.
  { induction fuel as [|fuel IH]; intros k; [done|]. cbn [next_loop]. munfold. unfold get_db.
    destruct (dbs w !! k) as [d0|]; [|done]. by destruct (parent d0). }
  unfold nextInode. specialize (Hn (S l) l). destruct (next_loop (S l) l w) as [[n|e|] w1];
    cbn in Hn; subst w1; by intros [= _ <-].
Qed.

Lemma does_StatFs p : good p -> does (on_w i_StatFs) (fun _ _ => True) p.
Proof.
  intros G. apply does_on_w; [done|]. unfold wof. destruct (pf_w p) as [w q]. cbn. intros o w'.
  destruct (StatFs main w) as [o1 w1] eqn:E. apply StatFs_same in E as ->. by intros [= _ <-] _.
Qed.

Ltac by_object i := destruct i as [?|? ?|[?|?]];
  (left; eexists; reflexivity) || (right; eexists; reflexivity).
Ltac call i := eapply keeps_or; [apply does_call; [by_object i|done]|]; intros ? ? ? ? _.
Ltac start := eapply keeps_or; [by apply does_getInode|]; intros i s1 G1 V1 [Hi Hp1].

Lemma keeps_on_lift {A} (v : outcome A) (k : A -> ST FuseServer unit) s :
  (forall e, v <> Err e) -> (forall a, keeps_on (k a) s) -> keeps_on (lift_st v ≫= k) s.
Proof.
  intros Hv Hk o s'. munfold. destruct v as [a|e|]; [apply Hk|by destruct (Hv e)|by intros [= <-]].
Qed.

Lemma doRead_keeps h body s : good (fs s) -> keeps_on (doRead h body) s.
Proof.
  intros G. apply keeps_if; [by apply keeps_send|].
  apply keeps_on_lift; [intros e; unfold slice; by case_decide|]. intros off.
  apply keeps_on_lift; [intros e; unfold slice; by case_decide|]. intros size.
  start. destruct (@i_ReadAt the_mount i) as [readAt|] eqn:Er; [|by apply keeps_send].
  eapply (keeps_or _ _ (fun _ _ => True)).
  { destruct i as [l|l c|[t|sq]]; cbn in Er; [done| |done|]; injection Er as <-;
      [by apply does_lift|by apply does_sq]. }
  intros [buf err] s2 G2 _ _. apply keeps_if; [by apply keeps_send|]. destruct err; by apply keeps_send.
Qed.

Lemma doReadDir_keeps h body plus s : good (fs s) -> keeps_on (doReadDir h body plus) s.
Proof.
  intros G. apply keeps_if; [by apply keeps_send|]. start. apply keeps_if; [by apply keeps_send|].
  call i. by apply keeps_send.
Qed.

(** Every request is handled by steps of the daemon. *)
Lemma handle_keeps data s :
  good (fs s) -> (ih_Opcode (parse_inHeader data) = opLookup -> has_room (wof (fs s)) (lookup_name data)) ->
  keeps_on (handleRequest data) s.
Proof.
  intros G Hroom. unfold handleRequest, lookup_name in *. set (h := parse_inHeader data) in *.
  revert Hroom. generalize (drop inHeaderSize data). intros body Hroom.
  assert (forall st, keeps_on (send (replyStatus (ih_Unique h) st)) s) as Hst by (intros; by apply keeps_send).
  destruct (Z.eqb_spec (ih_Opcode h) opLookup) as [El|_].
  { unfold doLookup. start.
    eapply keeps_or; [eapply does_lookup; [done|exact Hi|]|].
    { intros Hn. rewrite (Hp1 Hn). auto. }
    intros n s2 G2 V2 _. eapply keeps_or; [by apply does_getInode|]. intros si s3 G3 V3 [Hsi _].
    eapply keeps_fs; [by apply (does_AddRef n)| |].
    { intros p. unfold on_ref. by destruct (i_AddRef _ _ _). }
    intros _ s4 G4 V4 _. eapply keeps_fs; [apply does_addToCache; [done|by apply (right_evolves (fs s3))]| |].
    { intros p. pose proof (addToCache_no_err n si p). by destruct (addToCache n si p) as [[]]. }
    intros _ s5 G5 V5 _. call si. by apply keeps_send. }
  apply keeps_if; [apply keeps_if; [by apply keeps_on_ret|by eapply keeps_in_fs, does_removeFromCache]|].
  apply keeps_if.
  { apply keeps_if; [by apply keeps_on_ret|]. generalize (Z.to_nat (le_at 0 4 body)) (drop 8 body).
    intros k. clear Hst Hroom. revert s G. induction k as [|k IH]; intros s G b; cbn [batch_loop]; [by apply keeps_on_ret|].
    apply keeps_if; [by apply keeps_on_ret|]. eapply keeps_fs; [by apply does_removeFromCache| |].
    { intros p. apply removeFromCache_no_err. }
    intros _ s1 G1 V1 _. by apply IH. }
  apply keeps_if; [unfold doGetAttr; start; call i; by apply keeps_send|].
  apply keeps_if; [unfold doReadlink; start; call i; by apply keeps_send|].
  apply keeps_if.
  { apply keeps_if; [done|]. apply keeps_if; [done|]. start. call i. by apply keeps_send. }
  apply keeps_if; [by apply doRead_keeps|].
  apply keeps_if; [by apply keeps_on_ret|].
  apply keeps_if; [eapply keeps_or; [by apply does_StatFs|]; intros; by apply keeps_send|].
  apply keeps_if.
  { unfold doOpenDir. start. apply keeps_if; [by apply keeps_send|]. call i. by apply keeps_send. }
  apply keeps_if; [by apply doReadDir_keeps|]. apply keeps_if; [by apply doReadDir_keeps|].
  apply keeps_if.
  { repeat (apply keeps_if; [done|]). start. apply keeps_if; by apply keeps_send. }
  repeat (apply keeps_if; [by (apply keeps_on_ret || done)|]). done.
Qed.

(** ** The session *)

Definition world_of (l : loop) : World := wof (fs (sv l)).
Definition put_world (w : World) (l : loop) : loop := {|
  sv := with_fs {| pf_w := (w, snd (pf_w (fs (sv l)))) : @fsW the_mount; inoCache := inoCache (fs (sv l)) |} (sv l);
  reading := reading l; pending := pending l; closed := closed l |}.

(** A step of the server, or anything else the daemon does. *)
Inductive session (l : loop) : loop -> Prop :=
  | session_serve e l' :
      (forall data, e = EvHandle data -> ih_Opcode (parse_inHeader data) = opLookup ->
         has_room (world_of l) (lookup_name data)) ->
      serve_step l e l' -> session l l'
  | session_daemon w : life main (world_of l) w -> session l (put_world w l).

Lemma session_good l l' :
  good (fs (sv l)) -> session l l' -> good (fs (sv l')) /\ evolves (fs (sv l)) (fs (sv l')).
Proof.
  intros G [e l0 Hroom Hs|w Hw].
  - destruct Hs as [| | | | |l1 before data after s Hp Eh|]; try done.
    destruct (handle_keeps data (sv l1) G (Hroom data eq_refl) _ _ Eh) as [? ?]; done.
  - assert (evolves (fs (sv l)) (fs (sv (put_world w l)))) as V by by apply rtc_once.
    split; [|done]. eapply good_evolves; [exact G|exact V|by left].
Qed.

Lemma sessions_good l l' :
  good (fs (sv l)) -> rtc session l l' -> good (fs (sv l')) /\ evolves (fs (sv l)) (fs (sv l')).
Proof.
  intros G Hs. induction Hs as [l|l l1 l2 Hs _ IH]; [done|].
  destruct (session_good _ _ G Hs) as [G1 V1]. destruct (IH G1) as [G2 V2]. split; [done|by etrans].
Qed.

(** *** Links over the wire *)

Abbreviation link t := (InoPkg (InoSymlink t)).

(** What [doLookup] answers for node [n]; [link_entry n t] is that of a link. *)
Definition entry (n : Z) (attr : Attr) : EntryOut := {|
  eo_NodeId := n; eo_Generation := 0; eo_EntryTimeout := 30; eo_AttrTimeout := 30; eo_Attr := attr |}.

Lemma getInode_link n t p :
  good p -> GetInode main n (wof p) = (Ok (link t), wof p) -> getInode n p = (Ok (link t), p).
Proof.
  intros G E. assert (n <> 1) as H1' by (intros ->; by cbn in E).
  destruct (inoCache p !! n) as [i|] eqn:Ec.
  - rewrite (getInode_hit env main n i p H1' Ec). pose proof (gd_cache _ G _ _ Ec) as Hi.
    destruct i as [l|l c|[t'|sq]]; cbn in Hi; [by destruct Hi| | |].
    + subst n. exfalso. revert E. unfold GetInode, get_db. change (2 =? 1) with false. munfold.
      by destruct (dbs (wof p) !! main).
    + rewrite E in Hi. by injection Hi as ->.
    + destruct Hi as (dr & v & it & Hr & O & Hn). destruct (gd_live _ G) as [dr' L].
      rewrite (live_root _ _ L) in Hr. injection Hr as ->. pose proof (lv_base _ _ _ L) as B.
      rewrite (GetInode_owned _ _ _ _ _ _ B O) in E. by destruct (link_of_owned _ _ _ _ _ _ _ _ B O E).
  - destruct p as [[w q] c]. cbn in *. exact (getInode_miss env main n _ w q c w H1' Ec E).
Qed.

Lemma readlink_reply rl s t :
  good (fs s) -> ih_Opcode (parse_inHeader rl) = opReadlink ->
  GetInode main (ih_NodeId (parse_inHeader rl)) (wof (fs s)) = (Ok (link t), wof (fs s)) ->
  handleRequest rl s = (Ok tt, sent (fs s) (reply_msg (unique_of rl) 0 t) s).
Proof.
  intros G Ho E. rewrite (handle_readlink env main) by done. unfold doReadlink.
  erewrite (orReply_Ok env main) by (by apply getInode_link).
  destruct s as [[[w q] c] log fl mw bs]. erewrite (orReply_Ok env main) by reflexivity.
  etrans; [apply send_write|reflexivity].
Qed.

Lemma addToCache_link n t p :
  good p -> GetInode main n (wof p) = (Ok (link t), wof p) ->
  exists p', addToCache n (link t) p = (Ok tt, p') /\ wof p' = wof p.
Proof.
  intros G E. assert (n <> 1) as H1' by (intros ->; by cbn in E).
  pose proof (getInode_link n t p G E) as Eg. unfold addToCache. munfold.
  destruct (inoCache p !! n) as [i|] eqn:Ec; [|by eexists].
  rewrite (getInode_hit env main n i p H1' Ec) in Eg. injection Eg as ->.
  destruct p as [[w q] c]. by eexists.
Qed.

(** The state after a successful lookup in the root that leads to a link. *)
Lemma lookup_reply lk s n w' t :
  good (fs s) -> ih_Opcode (parse_inHeader lk) = opLookup -> ih_NodeId (parse_inHeader lk) = 1 ->
  has_room (wof (fs s)) (lookup_name lk) ->
  World.Lookup env main (lookup_name lk) (wof (fs s)) = (Ok n, w') ->
  GetInode main n w' = (Ok (link t), w') ->
  exists p', wof p' = w' /\ handleRequest lk s =
    (Ok tt, sent p' (reply_msg (unique_of lk) 0 (entryOutBytes (link_entry n t))) s).
Proof.
  intros G Ho Hroot Hroom El Eg. rewrite (handle_lookup env main) by done. unfold doLookup.
  rewrite Hroot. erewrite (orReply_Ok env main) by (apply (getInode_root env main)).
  fold (lookup_name lk) in *. destruct s as [[[w q] c] log fl mw bs]. unfold wof in *; cbn in G, Hroom, El.
  set (p1 := {| pf_w := (w', q) : @fsW the_mount; inoCache := c |}).
  assert (on_w (i_Lookup i_root (ih_Pid (parse_inHeader lk)) (lookup_name lk))
    {| pf_w := (w, q) : @fsW the_mount; inoCache := c |} = (Ok n, p1)) as El1 by by apply on_w_lookup.
  assert (good p1) as G1.
  { by destruct (does_lookup (InoRoot main) 1 (ih_Pid (parse_inHeader lk)) (lookup_name lk) _ G
      (conj eq_refl eq_refl) (fun _ => Hroom) _ _ El1) as [? _]. }
  erewrite (orReply_Ok env main) by exact El1.
  erewrite (orReply_Ok env main) by (apply getInode_link; [exact G1|exact Eg]).
  erewrite (in_fs_bind env main) by reflexivity.
  destruct (addToCache_link n t p1 G1 Eg) as (p2 & Ea & Ew).
  erewrite (in_fs_bind env main) by exact Ea.
  exists p2. split; [exact Ew|]. destruct p2 as [[w2 q2] c2].
  erewrite (orReply_Ok env main) by reflexivity. etrans; [apply send_write|reflexivity].
Qed.

Lemma handled_reply l data msg p l' :
  handleRequest data (sv l) = (Ok tt, sent p msg (sv l)) -> serve_step l (EvHandle data) l' ->
  fs (sv l') = p /\ exists r, fd_log (sv l') = fd_log (sv l) ++ [(msg, r)].
Proof.
  intros Eh Hs. inversion Hs as [| | | | |l0 b d a s Hp E|]; subst. rewrite Eh in E. injection E as <-.
  split; [done|]. by eexists.
Qed.

(** *** Any LOOKUP in the root *)

Lemma orReply_done {A} u (m : ST PkgFS A) k s s' :
  orReply u m k s = (Ok tt, s') ->
  (exists e p, s' = sent p (reply_msg u (toErrno e) []) s) \/
  (exists a p, m (fs s) = (Ok a, p) /\ k a (with_fs p s) = (Ok tt, s')).
Proof.
  destruct (m (fs s)) as [[a|e|] p] eqn:E.
  - rewrite (orReply_Ok env main _ _ _ _ _ _ E). right. by exists a, p.
  - rewrite (orReply_Err env main _ _ _ _ _ _ E). unfold replyErr, replyStatus, reply. rewrite send_write.
    intros [= <-]. left. by exists e, p.
  - unfold orReply. by rewrite (in_fs_eq env main _ _ _ _ E).
Qed.

Lemma in_fs_done {A} (m : ST PkgFS A) (k : A -> ST FuseServer unit) s s' :
  (in_fs m ≫= k) s = (Ok tt, s') -> exists a p, m (fs s) = (Ok a, p) /\ k a (with_fs p s) = (Ok tt, s').
Proof.
  munfold. destruct (m (fs s)) as [o p] eqn:E. rewrite (in_fs_eq env main _ _ _ _ E).
  destruct o as [a|e|]; [|done..]. by exists a, p.
Qed.

(** The answer to a LOOKUP: an error, or an entry for the object of its number. *)
Lemma lookup_answer lk s s' :
  good (fs s) -> ih_Opcode (parse_inHeader lk) = opLookup -> ih_NodeId (parse_inHeader lk) = 1 ->
  has_room (wof (fs s)) (lookup_name lk) -> handleRequest lk s = (Ok tt, s') ->
  (exists e p, s' = sent p (reply_msg (unique_of lk) (toErrno e) []) s) \/
  (exists p n i attr, good p /\ right (wof p) n i /\
     (forall t, i = link t -> attr = symlinkInodeObj.FillAttr t (set_at_Ino n zeroAttr)) /\
     s' = sent p (reply_msg (unique_of lk) 0 (entryOutBytes (entry n attr))) s).
Proof.
  intros G Ho Hroot Hroom. rewrite (handle_lookup env main) by done. unfold doLookup. rewrite Hroot.
  erewrite (orReply_Ok env main) by (apply (getInode_root env main)).
  intros [(e & p & ->)|(n & p1 & E1 & E)]%orReply_done; [left; by exists e, p|].
  destruct (does_lookup (InoRoot main) 1 (ih_Pid (parse_inHeader lk)) (lookup_name lk) _ G
    (conj eq_refl eq_refl) (fun _ => Hroom) _ _ E1) as (G1 & _ & _); [done|].
  apply orReply_done in E as [(e & p & ->)|(i & p2 & E2 & E)]; [left; by exists e, p|].
  destruct (does_getInode n p1 G1 _ _ E2) as (G2 & _ & Hi); [done|]. destruct (Hi i eq_refl) as [R2 _].
  apply in_fs_done in E as (v & p3 & E3 & E).
  destruct (does_AddRef n i 1 p2 G2 R2 _ _ E3) as (G3 & V3 & _); [done|].
  apply in_fs_done in E as (u & p4 & E4 & E).
  destruct (does_addToCache n i p3 G3 (right_evolves p2 p3 n i G2 V3 R2) _ _ E4) as (G4 & V4 & _); [done|].
  apply orReply_done in E as [(e & p & ->)|(attr & p5 & E5 & E)]; [left; by exists e, p|].
  assert (good p5 /\ evolves p4 p5) as [G5 V5].
  { destruct (does_call (i_FillAttr i (set_at_Ino n zeroAttr)) p4 ltac:(by_object i) G4 _ _ E5)
      as (? & ? & _); [done|]. by split. }
  right. exists p5, n, i, attr. split; [done|].
  split; [by apply (right_evolves p4), (right_evolves p3), (right_evolves p2)|]. split.
  - intros t ->. destruct p4 as [[w q] c]. by injection E5 as <- _.
  - unfold reply in E. rewrite send_write in E. by injection E as <-.
Qed.

(** A link stays: whatever comes in between, READLINK answers its target. *)
Lemma link_stays p l2 rl l3 n t :
  good p -> right (wof p) n (link t) -> evolves p (fs (sv l2)) -> good (fs (sv l2)) ->
  ih_Opcode (parse_inHeader rl) = opReadlink -> ih_NodeId (parse_inHeader rl) = n ->
  serve_step l2 (EvHandle rl) l3 ->
  exists r, fd_log (sv l3) = fd_log (sv l2) ++ [(reply_msg (unique_of rl) 0 t, r)].
Proof.
  intros G R V G2 Hrl Hn S3. pose proof (right_evolves _ _ _ _ G V R) as R2. cbn in R2. rewrite <-Hn in R2.
  by destruct (handled_reply _ _ _ _ _ (readlink_reply rl _ _ G2 Hrl R2) S3) as (_ & r & ?); exists r.
Qed.

(** The package a plain name leads to. *)
Lemma lookup_chosen lk s d n w' :
  good (fs s) -> dbs (wof (fs s)) !! main = Some d -> unsignedMap (reg (wof (fs s))) = None ->
  has_room (wof (fs s)) (lookup_name lk) ->
  (forall e p st, listed (file d) e -> pkgCache (wof (fs s)) !! e_hash e = Some p ->
     pkgs (wof (fs s)) !! p = Some st ->
     pkgI d !! e_hash e = Some (pk_startIno (dl_pkg st)) /\ pk_name (dl_pkg st) = e_name e) ->
  ih_Opcode (parse_inHeader lk) = opLookup -> ih_NodeId (parse_inHeader lk) = 1 ->
  split_suffix (lookup_name lk) = None -> lookup_name lk <> str "ld.so.cache" ->
  (forall e, listed (file d) e -> e_name e <> lookup_name lk) ->
  World.Lookup env main (lookup_name lk) (wof (fs s)) = (Ok n, w') ->
  exists e p, chosen (file d) (channel d) (lookup_name lk) false e /\ right (wof p) n (link (e_name e)) /\
    handleRequest lk s =
      (Ok tt, sent p (reply_msg (unique_of lk) 0 (entryOutBytes (link_entry n (e_name e)))) s).
Proof.
  intros G Hd Hu Hroom Hag Hlk Hroot Hsfx Hld Hno El. destruct (gd_live _ G) as [dr L].
  assert (dr = d) as -> by (rewrite (live_root _ _ L) in Hd; by injection Hd).
  pose proof (Lookup_plain env main _ _ _ _ Hsfx Hld El) as Ei.
  assert (data_room d (wof (fs s))) as Hdr.
  { eapply data_room_same; [by eapply internalLookup_files|]. by eapply Hroom. }
  destruct (lookup_link main d (wof (fs s)) main d (lookup_name lk) n w' L Hd Hu Hdr Hag Ei)
    as (x & e & d1 & Hch & L1 & Eg).
  destruct x; [inversion Hch as [e' Le Hname| |]; subst; by destruct (Hno e Le)|].
  destruct (lookup_reply lk s n w' (e_name e) G Hlk Hroot Hroom El Eg) as (p1 & Ew & Eh).
  exists e, p1. split; [done|]. split; [|done]. cbn. by rewrite Ew.
Qed.

End session.

(** ** A package that is removed between the lookup and the readlink *)

Module SampleSession.
Import SampleWorld SampleMount SampleClient SampleRunning.
#[local] Existing Instance MapBolt.ops.
#[local] Existing Instance MapBolt.spec.
#[local] Existing Instance Sample.list_llrb.
#[local] Existing Instance Sample.list_llrb_spec.
#[local] Existing Instance SampleLd.ldcache.
#[local] Existing Instance SampleLd.json.
#[local] Existing Instance SampleLd.range.
#[local] Existing Instance Toy.toy_ed25519.
#[local] Existing Instance Toy.toy_ed25519_spec.
#[local] Existing Instance SampleUpd.jwt.
#[local] Existing Instance SamplePkg.squashfs.
#[local] Existing Instance SamplePkg.json.
#[local] Existing Instance SamplePkg.remote.

Definition l0 : loop := {|
  sv := server world; reading := true; pending := [lk; rl]; closed := false |}.

Lemma l0_good : good SampleRun.env 0 (fs (sv l0)).
Proof.
  split; [exists (the_db None); exact world_live|]. intros n i. unfold l0, server. cbn [sv fs inoCache].
  by rewrite lookup_empty.
Qed.
Lemma l0_room : has_room SampleRun.env 0 (world_of SampleRun.env 0 l0) (lookup_name lk).
Proof.
  intros o w' dr Hr E. replace (lookup_name lk) with (str "media-libs.xvid") in E by (vm_compute; reflexivity).
  change (world_of SampleRun.env 0 l0) with world in Hr, E. rewrite Lookup_sample in E.
  pose proof (f_equal snd E) as Ew. change (w1 = w') in Ew. destruct Ew.
  rewrite (live_root 0 _ _ world_live) in Hr. destruct (Some_inj _ _ Hr). exact w1_room.
Qed.

Lemma w1_link : GetInode 0 1000 w1 = (Ok (InoPkg (InoSymlink (e_name e2))), w1).
Proof.
  destruct w1_live as [dr L]. destruct (GetInode 0 1000 w1) as [o w2] eqn:E.
  pose proof (proj2 no_longer_found) as Ho. rewrite E in Ho. cbn [fst] in Ho. subst o.
  rewrite <-E. exact (proj2 (link_carried _ _ _ _ _ _ _ _ L L (reflexivity _) E)).
Qed.
Lemma removed_link : GetInode 0 1000 removed = (Ok (InoPkg (InoSymlink (e_name e2))), removed).
Proof.
  destruct w1_live as [dr L]. destruct (live_step _ _ _ _ L removal) as (dr' & L' & C).
  exact (proj2 (link_carried _ _ _ _ _ _ _ _ L L' C w1_link)).
Qed.

Lemma lk_is : ih_Opcode (parse_inHeader lk) = opLookup /\ ih_NodeId (parse_inHeader lk) = 1 /\
  lookup_name lk = str "media-libs.xvid" /\ split_suffix (str "media-libs.xvid") = None.
Proof. vm_compute. repeat split. Qed.
Lemma rl_is : ih_Opcode (parse_inHeader rl) = opReadlink /\ ih_NodeId (parse_inHeader rl) = 1000.
Proof. vm_compute. split; reflexivity. Qed.
Lemma lookup_0 : World.Lookup SampleRun.env 0 (lookup_name lk) (world_of SampleRun.env 0 l0) = (Ok 1000, w1).
Proof. rewrite (proj1 (proj2 (proj2 lk_is))). exact Lookup_sample. Qed.

(** The two requests are handled; between them the package is removed. *)
Lemma session_run : exists l1 l2 l3,
  serve_step l0 (EvHandle lk) l1 /\ rtc (session SampleRun.env 0) l1 l2 /\
  world_of SampleRun.env 0 l2 = removed /\ serve_step l2 (EvHandle rl) l3.
Proof.
  destruct lk_is as (Hlk & Hroot & _), rl_is as (Hrl & Hn).
  destruct (lookup_reply SampleRun.env 0 env_is_ok lk (sv l0) 1000 w1 (e_name e2) l0_good Hlk Hroot l0_room
    lookup_0 w1_link) as (p1 & Ew & Eh).
  set (s1 := sent p1 (reply_msg (unique_of lk) 0 (entryOutBytes (link_entry 1000 (e_name e2)))) (sv l0)) in *.
  set (l1 := {| sv := s1; reading := true; pending := [rl]; Fuse.closed := false |}).
  assert (serve_step l0 (EvHandle lk) l1) as S1 by exact (step_handle l0 [] lk [rl] s1 eq_refl Eh).
  set (l2 := put_world SampleRun.env 0 removed l1).
  assert (session SampleRun.env 0 l1 l2) as S2.
  { apply session_daemon. unfold world_of, wof. change (fs (sv l1)) with p1. unfold wof in Ew. rewrite Ew.
    exact removal. }
  assert (good SampleRun.env 0 (fs (sv l2))) as G2.
  { apply (session_good SampleRun.env 0 env_is_ok l1); [|exact S2].
    apply (session_good SampleRun.env 0 env_is_ok l0 l1 l0_good).
    apply (session_serve SampleRun.env 0 l0 (EvHandle lk)); [|exact S1].
    intros data Ed _. injection Ed as <-. exact l0_room. }
  assert (GetInode 0 (ih_NodeId (parse_inHeader rl)) removed =
    (Ok (InoPkg (InoSymlink (e_name e2))), removed)) as Eg by (rewrite Hn; exact removed_link).
  pose proof (readlink_reply SampleRun.env 0 rl (sv l2) (e_name e2) G2 Hrl Eg) as Er.
  eexists l1, l2, _. split; [exact S1|]. split; [exact (rtc_once _ _ S2)|]. split; [reflexivity|].
  exact (step_handle l2 [] rl [] _ eq_refl Er).
Qed.

End SampleSession.
