(* ===== verification/Linux.v ===== *)
(** * Linux: mounting, unmounting and handing the mount over

    [apkgfs/server_linux.go], [New], [Serve] and [Unmount] of [fs.go], and
    [gracefulRestart] of [main.go]: the environment, the descriptors and the
    mounts of the process are explicit. *)

From S2P Require Import Prelude GoLib GoPath Collate Strconv Proto Fuse Serve Mount.
Local Open Scope Z_scope.

(** ** The operating system *)

Record mnt := { m_source : bytes; m_target : bytes; m_fstype : bytes; m_flags : Z; m_data : bytes }.

(** The environment has the variables once each, as "key=value"; [fds] are the
    open descriptors, [cloexec] those with the close-on-exec flag.  [sys_faults]
    are the outcomes of the coming system calls, [None] or the end of the list
    being a success; [execd] is the program the process has become. *)
Record os := {
  os_env : list bytes;
  fds : list Z;
  cloexec : list Z;
  next_fd : Z;
  mounts : list mnt;
  sys_faults : list (option error);
  execd : option (bytes * list bytes);
}.

Definition syscall : ST os unit := fun s =>
  (match default None (head (sys_faults s)) with None => Ok tt | Some e => Err e end,
   {| os_env := os_env s; fds := fds s; cloexec := cloexec s; next_fd := next_fd s; mounts := mounts s;
      sys_faults := tail (sys_faults s); execd := execd s |}).
Definition upd_fds (f : list Z -> list Z) : ST os unit := upd_st (fun s => {|
  os_env := os_env s; fds := f (fds s); cloexec := cloexec s; next_fd := next_fd s; mounts := mounts s;
  sys_faults := sys_faults s; execd := execd s |}).
Definition upd_mounts (f : list mnt -> list mnt) : ST os unit := upd_st (fun s => {|
  os_env := os_env s; fds := fds s; cloexec := cloexec s; next_fd := next_fd s; mounts := f (mounts s);
  sys_faults := sys_faults s; execd := execd s |}).
Definition set_env (e : list bytes) : ST os unit := upd_st (fun s => {|
  os_env := e; fds := fds s; cloexec := cloexec s; next_fd := next_fd s; mounts := mounts s;
  sys_faults := sys_faults s; execd := execd s |}).

(** Opened without [O_CLOEXEC]. *)
Definition sys_Open : ST os Z := fun s =>
  match syscall s with
  | (Ok _, s) =>
      (Ok (next_fd s), {| os_env := os_env s; fds := next_fd s :: fds s;
         cloexec := cloexec s; next_fd := next_fd s + 1;
         mounts := mounts s; sys_faults := sys_faults s; execd := execd s |})
  | (Err e, s) => (Err e, s)
  | (Panic, s) => (Panic, s)
  end.
(** [fcntl(fd, F_SETFD, 0)] clears the close-on-exec flag. *)
Definition sys_ClearCloexec (fd : Z) : ST os unit :=
  syscall;;
  upd_st (fun s => {| os_env := os_env s; fds := fds s; cloexec := filter (fun n => n <> fd) (cloexec s);
     next_fd := next_fd s; mounts := mounts s; sys_faults := sys_faults s; execd := execd s |}).
(** The errors of closing are ignored everywhere, and leave the descriptor closed. *)
Definition sys_Close (fd : Z) : ST os unit := upd_fds (filter (fun n => n <> fd)).
Definition sys_Mount (m : mnt) : ST os unit := syscall;; upd_mounts (cons m).
(** Unmounting takes the topmost mount of the target away. *)
Fixpoint unmount (target : bytes) (l : list mnt) : list mnt :=
  match l with
  | [] => []
  | m :: l => if bool_decide (m_target m = target) then l else m :: unmount target l
  end.
Definition sys_Unmount (target : bytes) : ST os unit := syscall;; upd_mounts (unmount target).
Definition sys_Exec (binary : bytes) (env : list bytes) : ST os unit :=
  syscall;;
  upd_st (fun s => {| os_env := os_env s; fds := fds s; cloexec := cloexec s; next_fd := next_fd s; mounts := mounts s;
                      sys_faults := sys_faults s; execd := Some (binary, env) |}).

(** ** The environment *)

Definition eq_sign : byte := Byte.x3d.
Definition env_prefix (key : bytes) : bytes := key ++ [eq_sign].
Definition Getenv (env : list bytes) (key : bytes) : bytes :=
  match List.find (fun e => HasPrefix e (env_prefix key)) env with
  | Some e => drop (length (env_prefix key)) e
  | None => []
  end.
Definition Unsetenv (env : list bytes) (key : bytes) : list bytes :=
  filter (fun e => HasPrefix e (env_prefix key) = false) env.

(** [setEnv]: the first entry with the key is replaced, or one is added. *)
Fixpoint setEnv (env : list bytes) (key value : bytes) : list bytes :=
  match env with
  | [] => [env_prefix key ++ value]
  | e :: env =>
      if HasPrefix e (env_prefix key) then (env_prefix key ++ value) :: env
      else e :: setEnv env key value
  end.

Definition FUSE_FD : bytes := str "APKG_FUSE_FD".
Definition MOUNT_POINT : bytes := str "APKG_MOUNT_POINT".

Definition inheritedFd : ST os (Z * bytes) :=
  s ← get_st;
  let fdStr := Getenv (os_env s) FUSE_FD in
  let mountPoint := Getenv (os_env s) MOUNT_POINT in
  if bool_decide (fdStr = []) || bool_decide (mountPoint = []) then mret (-1, [])
  else match Atoi fdStr with
       | Ok n =>
           set_env (Unsetenv (Unsetenv (os_env s) FUSE_FD) MOUNT_POINT);;
           mret (n, mountPoint)
       | _ => mret (-1, [])
       end.

(** ** Mounting *)

(** What the process finds: its user, and the mode of a path. *)
Record machine := {
  euid : Z; uid : Z; egid : Z;
  stat : bytes -> outcome Z;
  executable : outcome bytes;
}.

Definition S_IFMT : Z := 0xf000.
Definition MS_NOSUID : Z := 2.
Definition MS_NODEV : Z := 4.
Definition MS_NOATIME : Z := 1024.

Definition mount_opts (m : machine) (fd mode : Z) (allowOther : bool) : list bytes :=
  [str "fd=" ++ Itoa fd; str "rootmode=" ++ format_octal (Z.land mode S_IFMT);
   str "user_id=" ++ Itoa (euid m); str "group_id=" ++ Itoa (egid m);
   str "max_read=" ++ Itoa 131072] ++ (if allowOther then [str "allow_other"] else []).

Definition fuseMount (m : machine) (mountPoint : bytes) (allowOther : bool) : ST os Z :=
  fd ← sys_Open;
  match stat m mountPoint with
  | Panic => lift_st Panic
  | Err e => sys_Close fd;; err_st e
  | Ok mode =>
      err ← try_st (sys_Mount {|
        m_source := str "apkg"; m_target := mountPoint; m_fstype := str "fuse.apkg";
        m_flags := Z.lor MS_NOSUID (Z.lor MS_NODEV MS_NOATIME);
        m_data := Join (mount_opts m fd mode allowOther) Byte.x2c |});
      match err with
      | Some e => sys_Close fd;; err_st e
      | None => mret fd
      end
  end.

Definition fuseUnmount (mountPoint : bytes) : ST os unit := sys_Unmount mountPoint.

(** The connection [newFuseServer] keeps. *)
Record conn := { Fd : Z; MountPoint : bytes }.

(** [".name-rw"] and the like, in the parent directory. *)
Definition hidden (mountPoint suffix : bytes) : bytes :=
  path_Join [path_Dir mountPoint; str "." ++ path_Base mountPoint ++ suffix].

(** The mount point, and whether an overlay goes over it. *)
Definition choose_target (m : machine) (mountPoint : bytes) : ST os (bytes * bool) :=
  match stat m (hidden mountPoint (str "-rw")) with
  | Ok mode =>
      if (euid m =? 0) && (Z.land mode S_IFMT =? S_IFDIR) then
        err ← try_st syscall;                    (* MkdirAll of "-ro" *)
        match err with
        | Some _ => mret (mountPoint, false)
        | None =>
            err ← try_st syscall;                (* MkdirAll of "-work" *)
            match err with
            | Some _ => mret (mountPoint, false)
            | None => mret (hidden mountPoint (str "-ro"), true)
            end
        end
      else mret (mountPoint, false)
  | _ => mret (mountPoint, false)
  end.

Definition overlay (mountPoint actual : bytes) : mnt := {|
  m_source := str "overlay"; m_target := path_Join [path_Dir mountPoint; path_Base mountPoint];
  m_fstype := str "overlay"; m_flags := MS_NOATIME;
  m_data := str "lowerdir=" ++ actual ++ str ",upperdir=" ++ hidden mountPoint (str "-rw") ++
            str ",workdir=" ++ hidden mountPoint (str "-work") |}.

Definition doMount (m : machine) (mountPoint : bytes) : ST os conn :=
  inh ← inheritedFd;
  if 0 <=? inh.1 then mret {| Fd := inh.1; MountPoint := inh.2 |}
  else
    tgt ← choose_target m mountPoint;
    fd ← fuseMount m tgt.1 (uid m =? 0);
    if tgt.2 : bool then
      err ← try_st (sys_Mount (overlay mountPoint tgt.1));
      match err with
      | Some e =>
          _ ← try_st (fuseUnmount tgt.1);
          sys_Close fd;;
          err_st e
      | None => mret {| Fd := fd; MountPoint := tgt.1 |}
      end
    else mret {| Fd := fd; MountPoint := tgt.1 |}.

(** [New]: the directory is made first. *)
Definition New (m : machine) (mountPoint : bytes) : ST os conn :=
  syscall;; doMount m mountPoint.

Definition Unmount (c : conn) : ST os unit :=
  _ ← try_st (fuseUnmount (MountPoint c));
  sys_Close (Fd c).

(** ** Handing the mount over to a new binary *)

Definition exec_env (c : conn) (env : list bytes) : list bytes :=
  setEnv (setEnv env FUSE_FD (Itoa (Fd c))) MOUNT_POINT (MountPoint c).

Definition GracefulExec (c : conn) (newBinary : bytes) : ST os unit :=
  sys_ClearCloexec (Fd c);;
  s ← get_st;
  sys_Exec newBinary (exec_env c (os_env s)).

(** [gracefulRestart]: [None] when there is no server; the errors are logged. *)
Definition gracefulRestart (m : machine) (server : option conn) : ST os unit :=
  match executable m, server with
  | Ok exec, Some c => _ ← try_st (GracefulExec c exec); mret tt
  | _, _ => mret tt
  end.

(** The process after [exec]: the descriptors without the close-on-exec flag,
    the same mounts, the given environment. *)
Definition next_process (s : os) : option os :=
  match execd s with
  | Some (_, env) => Some {| os_env := env; fds := filter (fun n => n ∉ cloexec s) (fds s); cloexec := [];
                             next_fd := next_fd s; mounts := mounts s; sys_faults := sys_faults s;
                             execd := None |}
  | None => None
  end.

(** ** Serving a connection *)

Section serving.
Context `{FuseTypes, InodeOps}.

(** [faults] are the outcomes of the writes to the descriptor. *)
Definition newFuseServer (p : PkgFS) (faults : list (option error)) : FuseServer := {|
  fs := p; fd_log := []; fd_faults := faults; maxWrite := 0; bufSize := 0 |}.

(** [Serve]: the handshake reads the first message; the loop runs only after it. *)
Definition Serve (first : outcome bytes) (s : FuseServer) : FuseServer * option loop :=
  match handleInit first s with
  | (Ok _, s) => (s, Some (start_loop s))
  | (_, s) => (s, None)
  end.
End serving.

(** ** Lemmas on the environment *)

Lemma env_prefix_inj k k' v :
  eq_sign ∉ k -> eq_sign ∉ k' -> HasPrefix (env_prefix k ++ v) (env_prefix k') = true -> k = k'.
Proof.
  unfold env_prefix. intros Hk Hk' Hp. apply HasPrefix_spec in Hp as (t & E).
  rewrite <-!app_assoc in E. cbn in E.
  pose proof (IndexByte_app k v eq_sign Hk) as H1. rewrite E, (IndexByte_app k' t eq_sign Hk') in H1.
  injection H1 as Hl. by apply app_inj_1 in E as [? _].
Qed.

Lemma Getenv_setEnv env k v : Getenv (setEnv env k v) k = v.
Proof.
  unfold Getenv. induction env as [|e env IH]; cbn [setEnv].
  - cbn. by rewrite HasPrefix_app, drop_app_length.
  - destruct (HasPrefix e (env_prefix k)) eqn:E; cbn [List.find].
    + by rewrite HasPrefix_app, drop_app_length.
    + rewrite E. exact IH.
Qed.

Lemma Getenv_setEnv_ne env k k' v :
  eq_sign ∉ k -> eq_sign ∉ k' -> k <> k' -> Getenv (setEnv env k v) k' = Getenv env k'.
Proof.
  intros Hk Hk' Hne. unfold Getenv.
  assert (HasPrefix (env_prefix k ++ v) (env_prefix k') = false) as Hf.
  { apply not_true_is_false. intros Hp. by apply env_prefix_inj in Hp. }
  induction env as [|e env IH]; cbn [setEnv].
  - cbn [List.find]. by rewrite Hf.
  - destruct (HasPrefix e (env_prefix k)) eqn:E; cbn [List.find].
    + rewrite Hf. destruct (HasPrefix e (env_prefix k')) eqn:E'; [|done].
      apply HasPrefix_spec in E as (t & ->). by apply env_prefix_inj in E'.
    + destruct (HasPrefix e (env_prefix k')); [done|]. exact IH.
Qed.

Lemma find_filter_out (env : list bytes) (f : bytes -> bool) :
  List.find f (filter (fun e => f e = false) env) = None.
Proof.
  induction env as [|e env IH]; cbn; [done|]. case_decide as He; cbn; [|done]. by rewrite He.
Qed.

Lemma find_filter_in (env : list bytes) (f g : bytes -> bool) :
  List.find f env = None -> List.find f (filter (fun e => g e = false) env) = None.
Proof.
  induction env as [|e env IH]; cbn; [done|]. destruct (f e) eqn:E; [done|]. intros Hn.
  case_decide; cbn; [rewrite E|]; auto.
Qed.

Lemma Getenv_Unsetenv env k : Getenv (Unsetenv env k) k = [].
Proof. unfold Getenv, Unsetenv. by rewrite find_filter_out. Qed.

Lemma Getenv_Unsetenv_both env k k' :
  Getenv (Unsetenv (Unsetenv env k) k') k = [] /\ Getenv (Unsetenv (Unsetenv env k) k') k' = [].
Proof.
  split; [|apply Getenv_Unsetenv]. unfold Getenv, Unsetenv at 1.
  rewrite find_filter_in; [done|]. unfold Unsetenv. apply find_filter_out.
Qed.

Lemma exec_env_lookup c env :
  Getenv (exec_env c env) FUSE_FD = Itoa (Fd c) /\
  Getenv (exec_env c env) MOUNT_POINT = MountPoint c.
Proof.
  unfold exec_env. split; [|apply Getenv_setEnv].
  rewrite Getenv_setEnv_ne; [apply Getenv_setEnv| | |].
  - by apply (bool_decide_eq_true_1 _).
  - by apply (bool_decide_eq_true_1 _).
  - done.
Qed.

(** A call changes nothing but the outcomes to come. *)
Definition same_os (s s' : os) : Prop :=
  os_env s' = os_env s /\ fds s' = fds s /\ next_fd s' = next_fd s /\ mounts s' = mounts s /\
  execd s' = execd s /\ cloexec s' = cloexec s.

Lemma syscall_cases s o s' :
  syscall s = (o, s') -> same_os s s' /\ (o = Ok tt \/ exists e, o = Err e).
Proof.
  unfold syscall. intros [= <- <-]. split; [done|].
  destruct (default None (head (sys_faults s))); eauto.
Qed.

Lemma syscall_faults s o s' : syscall s = (o, s') -> sys_faults s' = drop 1 (sys_faults s).
Proof. unfold syscall. intros [= <- <-]. cbn. by destruct (sys_faults s). Qed.

Lemma GracefulExec_ok c bin s s' :
  GracefulExec c bin s = (Ok tt, s') ->
  fds s' = fds s /\ next_fd s' = next_fd s /\ mounts s' = mounts s /\
  execd s' = Some (bin, exec_env c (os_env s)) /\
  cloexec s' = filter (fun n => n <> Fd c) (cloexec s).
Proof.
  unfold GracefulExec, sys_ClearCloexec, sys_Exec. munfold.
  destruct (syscall s) as [o1 s1] eqn:E1.
  destruct (syscall_cases _ _ _ E1) as ((He & Hf & Hn & Hm & _ & Hc) & Ho).
  destruct Ho as [-> | (e & ->)]; [|discriminate].
  match goal with |- context [syscall ?t] => destruct (syscall t) as [o2 s2] eqn:E2 end.
  destruct (syscall_cases _ _ _ E2) as ((He2 & Hf2 & Hn2 & Hm2 & _ & Hc2) & Ho).
  destruct Ho as [-> | (e & ->)]; [|discriminate]. intros [= <-]. cbn in *.
  rewrite Hf2, Hn2, Hm2, Hc2, He, Hf, Hn, Hm, Hc. done.
Qed.

Lemma filter_keeps {A} (P : A -> Prop) `{!forall x, Decision (P x)} (l : list A) :
  (forall x, P x) -> filter P l = l.
Proof. intros HP. induction l as [|x l IH]; [done|]. by rewrite filter_cons_True, IH by done. Qed.

(** What [exec] leaves of the descriptors. *)
Definition survivors (s : os) (c : conn) : list Z := filter (fun n => n = Fd c \/ n ∉ cloexec s) (fds s).

Lemma next_process_fds c bin s s' s1 :
  GracefulExec c bin s = (Ok tt, s') -> next_process s' = Some s1 ->
  fds s1 = survivors s c /\ mounts s1 = mounts s /\ os_env s1 = exec_env c (os_env s) /\
  sys_faults s1 = sys_faults s'.
Proof.
  intros E. destruct (GracefulExec_ok _ _ _ _ E) as (Hf & _ & Hm & Hx & Hc).
  unfold next_process. rewrite Hx. intros [= <-]. cbn. split; [|done]. rewrite Hf, Hc. unfold survivors.
  apply list_filter_iff. intros n. rewrite list_elem_of_filter. destruct (decide (n = Fd c)); tauto.
Qed.

(** C25: The hand-over of the mount: when [GracefulExec] succeeds, the process it
    starts finds in its environment the descriptor and the mount point of the
    old one, for any mount point and whatever the environment was; its
    [doMount] takes them over without a system call, the mounts stay as they
    were, the open descriptors are the old ones without those marked
    close-on-exec, but that of the connection stays open whether it was marked
    or not, and the two variables are gone. *)
Theorem handover_inherits m mp c bin s s' :
  0 <= Fd c < two63 -> MountPoint c <> [] -> GracefulExec c bin s = (Ok tt, s') ->
  exists s1 s2, next_process s' = Some s1 /\ doMount m mp s1 = (Ok c, s2) /\
    fds s2 = filter (fun n => n = Fd c \/ n ∉ cloexec s) (fds s) /\
    (Fd c ∈ fds s -> Fd c ∈ fds s2) /\ (cloexec s = [] -> fds s2 = fds s) /\
    mounts s2 = mounts s /\ sys_faults s2 = sys_faults s' /\
    Getenv (os_env s2) FUSE_FD = [] /\ Getenv (os_env s2) MOUNT_POINT = [].
Proof.
  intros Hfd Hmp E. destruct (GracefulExec_ok _ _ _ _ E) as (_ & _ & _ & Hx & _).
  destruct (next_process s') as [s1|] eqn:En; [|unfold next_process in En; by rewrite Hx in En].
  destruct (next_process_fds _ _ _ _ _ E En) as (Hf & Hm & He & Hsf).
  eexists s1, _. split; [done|].
  destruct (exec_env_lookup c (os_env s)) as [G1 G2].
  unfold doMount, inheritedFd, set_env. munfold. rewrite He, G1, G2.
  rewrite !bool_decide_eq_false_2 by (done || apply Itoa_not_nil; lia). cbn [orb].
  rewrite Atoi_Itoa by lia. cbn [fst snd]. rewrite (proj2 (Z.leb_le _ _)) by lia.
  split; [by destruct c|]. cbn. unfold survivors in Hf. split; [done|]. split.
  { intros Hin. rewrite Hf. apply list_elem_of_filter. auto. }
  split. { intros Hc. rewrite Hf, Hc. by apply filter_keeps; right; apply not_elem_of_nil. }
  split; [done|]. split; [done|]. apply Getenv_Unsetenv_both.
Qed.

(** ** What mounting leaves behind *)

Lemma filter_fresh n l : Forall (fun fd => fd < n) l -> filter (fun x => x <> n) (n :: l) = l.
Proof.
  intros Hl. cbn. rewrite decide_False by naive_solver.
  induction Hl as [|x l Hx _ IH]; [done|]. cbn. rewrite decide_True by lia. by f_equal.
Qed.

(** [try_st] of a call that has no effect when it fails. *)
Lemma sys_Mount_cases x s o s' :
  sys_Mount x s = (o, s') ->
  os_env s' = os_env s /\ fds s' = fds s /\ next_fd s' = next_fd s /\ execd s' = execd s /\
  ((o = Ok tt /\ mounts s' = x :: mounts s) \/ ((exists e, o = Err e) /\ mounts s' = mounts s)).
Proof.
  unfold sys_Mount, upd_mounts. munfold. destruct (syscall s) as [o1 s1] eqn:E.
  destruct (syscall_cases _ _ _ E) as ((He & Hf & Hn & Hm & Hx & _) & [-> | (e & ->)]);
    intros [= <- <-]; cbn; rewrite ?Hm; eauto 10.
Qed.

Definition fuse_mount_at (target : bytes) (x : mnt) : Prop :=
  m_target x = target /\ m_fstype x = str "fuse.apkg".

Lemma fuseMount_cases m tgt b s o s' :
  Forall (fun fd => fd < next_fd s) (fds s) -> fuseMount m tgt b s = (o, s') ->
  match o with
  | Ok fd => fds s' = fd :: fds s /\ fd = next_fd s /\
      exists x, fuse_mount_at tgt x /\ mounts s' = x :: mounts s
  | Err _ => fds s' = fds s /\ mounts s' = mounts s
  | Panic => True
  end.
Proof.
  intros Hfr. unfold fuseMount, sys_Open, sys_Close, upd_fds. munfold.
  destruct (syscall s) as [o1 s1] eqn:E.
  destruct (syscall_cases _ _ _ E) as ((He & Hf & Hn & Hm & Hx & _) & [-> | (e & ->)]);
    [|intros [= <- <-]; done].
  set (s2 := {| os_env := os_env s1 |}).
  assert (filter (fun n => n <> next_fd s1) (fds s2) = fds s) as Hfil.
  { cbn. rewrite Hf. apply filter_fresh. by rewrite Hn. }
  destruct (stat m tgt) as [mode|e|]; [|intros [= <- <-]; done|intros [= <- <-]; done].
  unfold try_st. destruct (sys_Mount _ s2) as [o3 s3] eqn:E3.
  destruct (sys_Mount_cases _ _ _ _ E3) as (_ & Hf3 & _ & _ & [[-> Hm3]|[[e ->] Hm3]]);
    intros [= <- <-]; cbn.
  - rewrite Hf3, Hm3. cbn. rewrite Hf, Hm, Hn. split; [done|]. split; [done|].
    eexists. split; [|done]. by split.
  - rewrite Hf3, Hm3. cbn. rewrite Hm. by split.
Qed.

Lemma choose_target_cases m mp s o s' :
  choose_target m mp s = (o, s') ->
  same_os s s' /\ exists t, o = Ok t /\ (t = (mp, false) \/ t = (hidden mp (str "-ro"), true)).
Proof.
  unfold choose_target, try_st. munfold.
  destruct (stat m _) as [mode|e|]; [|intros [= <- <-]; split; [done|eauto]..].
  destruct (_ && _); [|intros [= <- <-]; split; [done|eauto]].
  destruct (syscall s) as [o1 s1] eqn:E1. destruct (syscall_cases _ _ _ E1) as (S1 & Ho).
  destruct Ho as [-> | (e & ->)]; [|intros [= <- <-]; split; [done|eauto]].
  destruct (syscall s1) as [o2 s2] eqn:E2. destruct (syscall_cases _ _ _ E2) as (S2 & Ho).
  assert (same_os s s2) by (unfold same_os in *; intuition congruence).
  destruct Ho as [-> | (e & ->)]; intros [= <- <-]; (split; [done|eauto]).
Qed.

(** The environment hands the connection [c] over. *)
Definition inherited (env : list bytes) (c : conn) : Prop :=
  Getenv env FUSE_FD <> [] /\ Getenv env MOUNT_POINT = MountPoint c /\ MountPoint c <> [] /\
  Atoi (Getenv env FUSE_FD) = Ok (Fd c) /\ 0 <= Fd c.

Lemma inheritedFd_cases s o s' :
  inheritedFd s = (o, s') ->
  fds s' = fds s /\ next_fd s' = next_fd s /\ mounts s' = mounts s /\ sys_faults s' = sys_faults s /\
  exists r, o = Ok r /\
    if 0 <=? r.1 then inherited (os_env s) {| Fd := r.1; MountPoint := r.2 |}
    else forall c, ~ inherited (os_env s) c.
Proof.
  unfold inheritedFd, set_env, inherited. munfold.
  destruct (bool_decide_reflect (Getenv (os_env s) FUSE_FD = [])) as [Hf|Hf];
    [intros [= <- <-]; do 4 (split; [done|]); eexists; split; [done|]; by intros c [? _]|].
  destruct (bool_decide_reflect (Getenv (os_env s) MOUNT_POINT = [])) as [Hm|Hm];
    [intros [= <- <-]; do 4 (split; [done|]); eexists; split; [done|]; intros c (_ & ? & ? & _); congruence|].
  cbn [orb]. destruct (Atoi _) as [n|e|]; intros [= <- <-]; do 4 (split; [done|]); eexists; (split; [done|]);
    cbn [fst snd]; [|by intros c (_ & _ & _ & ? & _)..].
  destruct (Z.leb_spec 0 n); [done|]. intros c (_ & _ & _ & [= ->] & ?). lia.
Qed.

Lemma doMount_cases m mp s o s' :
  Forall (fun fd => fd < next_fd s) (fds s) -> doMount m mp s = (o, s') ->
  match o with
  | Ok c =>
      (inherited (os_env s) c /\ fds s' = fds s /\ mounts s' = mounts s) \/
      ((forall c', ~ inherited (os_env s) c') /\ fds s' = Fd c :: fds s /\ (Fd c ∉ fds s) /\
       exists x over, fuse_mount_at (MountPoint c) x /\ mounts s' = over ++ x :: mounts s /\
         (over = [] /\ MountPoint c = mp \/
          over = [overlay mp (MountPoint c)] /\ MountPoint c = hidden mp (str "-ro")))
  | Err _ =>
      fds s' = fds s /\
      (mounts s' = mounts s \/
       exists x, fuse_mount_at (hidden mp (str "-ro")) x /\ mounts s' = x :: mounts s)
  | Panic => True
  end.
Proof.
  intros Hfr. unfold doMount. munfold. destruct (inheritedFd s) as [o1 s1] eqn:E1.
  destruct (inheritedFd_cases _ _ _ E1) as (Hf1 & Hn1 & Hm1 & _ & [ifd imp] & -> & Hinh). cbn [fst snd] in *.
  destruct (0 <=? ifd); [intros [= <- <-]; by left|].
  destruct (choose_target m mp s1) as [o2 s2] eqn:E2.
  destruct (choose_target_cases _ _ _ _ _ E2) as ((_ & Hf2 & Hn2 & Hm2 & _) & t & -> & Ht).
  destruct (fuseMount m t.1 _ s2) as [o3 s3] eqn:E3.
  apply fuseMount_cases in E3; [|by rewrite Hf2, Hn2, Hf1, Hn1].
  destruct o3 as [fd|e|]; cycle 1.
  { intros [= <- <-]. destruct E3 as [-> ->]. split; [congruence|left; congruence]. }
  { intros [= <- <-]. done. }
  destruct E3 as (Hf3 & Hfd & x & Hx & Hm3).
  rewrite Hf2, Hf1 in Hf3. rewrite Hm2, Hm1 in Hm3. rewrite Hn2, Hn1 in Hfd.
  assert (fd ∉ fds s) as Hni.
  { intros Hin. rewrite Forall_forall in Hfr. specialize (Hfr fd Hin). lia. }
  destruct Ht as [-> | ->]; cbn [fst snd] in *.
  { intros [= <- <-]. right. split; [done|]. split; [done|]. split; [done|]. exists x, []. naive_solver. }
  unfold try_st. destruct (sys_Mount _ s3) as [o4 s4] eqn:E4.
  destruct (sys_Mount_cases _ _ _ _ E4) as (_ & Hf4 & _ & _ & [[-> Hm4]|[[e ->] Hm4]]).
  { intros [= <- <-]. right. rewrite Hf4, Hf3. split; [done|]. split; [done|]. split; [done|].
    eexists x, [_]. rewrite Hm4, Hm3. naive_solver. }
  unfold fuseUnmount, sys_Unmount, sys_Close, upd_mounts, upd_fds. munfold.
  destruct (syscall s4) as [o5 s5] eqn:E5.
  destruct (syscall_cases _ _ _ E5) as ((_ & Hf5 & _ & Hm5 & _) & [-> | (e5 & ->)]); intros [= <- <-]; cbn;
    rewrite Hf5, Hf4, Hf3, Hm5, Hm4, Hm3.
  - split; [subst fd; by apply filter_fresh|]. left. cbn. destruct Hx as [-> _].
    by rewrite bool_decide_eq_true_2.
  - split; [subst fd; by apply filter_fresh|]. right. eauto.
Qed.


Lemma New_cases m mp s o s' :
  Forall (fun fd => fd < next_fd s) (fds s) -> New m mp s = (o, s') ->
  match o with
  | Ok c =>
      (inherited (os_env s) c /\ fds s' = fds s /\ mounts s' = mounts s) \/
      ((forall c', ~ inherited (os_env s) c') /\ fds s' = Fd c :: fds s /\ (Fd c ∉ fds s) /\
       exists x over, fuse_mount_at (MountPoint c) x /\ mounts s' = over ++ x :: mounts s /\
         (over = [] /\ MountPoint c = mp \/
          over = [overlay mp (MountPoint c)] /\ MountPoint c = hidden mp (str "-ro")))
  | Err _ =>
      fds s' = fds s /\
      (mounts s' = mounts s \/
       exists x, fuse_mount_at (hidden mp (str "-ro")) x /\ mounts s' = x :: mounts s)
  | Panic => True
  end.
Proof.
  intros Hfr. unfold New. intros [([] & s1 & E1 & E)|(om & E1 & Ho & Ho')]%bind_cases.
  - destruct (syscall_cases _ _ _ E1) as ((He & Hf & Hn & Hm & _) & _).
    apply doMount_cases in E; [|by rewrite Hf, Hn]. by rewrite He, Hf, Hm in E.
  - destruct (syscall_cases _ _ _ E1) as ((_ & Hf & _ & Hm & _) & _).
    destruct o; [done|split; [done|by left]|done].
Qed.

(** C39: The hand-over does not serve.  [Serve] starts with the handshake in
    the new process too, but the kernel sends INIT once per mount: whatever
    other request comes first is read and dropped without an answer, and the
    loop is never entered. *)
Theorem handover_dead `{FuseTypes, InodeOps} p faults data :
  ih_Opcode (parse_inHeader data) <> opInit ->
  Serve (Ok data) (newFuseServer p faults) = (newFuseServer p faults, None).
Proof.
  intros Hop. unfold Serve. pose proof (handleInit_cases data (newFuseServer p faults)) as Hc.
  cbn zeta in Hc. assert (init_ok data = false) as Hi.
  { unfold init_ok. cbn [ih_Opcode parse_inHeader].
    rewrite le_at_take by (apply Nat.leb_le; reflexivity).
    change (le_at 4 4 data) with (ih_Opcode (parse_inHeader data)).
    rewrite (proj2 (Z.eqb_neq _ _) Hop), andb_false_r. done. }
  rewrite Hi in Hc. by destruct Hc as (e & ->).
Qed.

(** ** Concrete instance, for evaluation *)

Module SampleLinux.
Import SampleMount.
Definition root_machine : machine := {|
  euid := 0; uid := 0; egid := 0;
  stat p := if bool_decide (p = str "/pkg/main") then Ok 0x41ed
            else if bool_decide (p = str "/pkg/.main-rw") then Ok 0x41ed
            else if bool_decide (p = str "/pkg/.main-ro") then Ok 0x41ed
            else Err ErrNotExist;
  executable := Ok (str "/usr/bin/apkg") |}.
(** Descriptors 0 to 2 are open. *)
Definition fresh (faults : list (option error)) : os := {|
  os_env := [str "HOME=/root"; str "APKG_MOUNT_POINT=/old"]; fds := [2; 1; 0]; cloexec := [];
  next_fd := 3;
  mounts := []; sys_faults := faults; execd := None |}.
Definition server3 : conn := {| Fd := 3; MountPoint := str "/pkg/.main-ro" |}.

(** A daemon with its connection, marked close-on-exec like another file. *)
Definition serving3 : os := {|
  os_env := [str "HOME=/root"; str "APKG_MOUNT_POINT=/old"]; fds := [4; 3; 2; 1; 0]; cloexec := [3; 4];
  next_fd := 5; mounts := []; sys_faults := []; execd := None |}.

Lemma handover_inherits_witness :
  exists s' s1 s2, GracefulExec server3 (str "/usr/bin/apkg") serving3 = (Ok tt, s') /\
    next_process s' = Some s1 /\ doMount root_machine (str "/pkg/main") s1 = (Ok server3, s2) /\
    fds s2 = [3; 2; 1; 0].
Proof.
  destruct (GracefulExec server3 (str "/usr/bin/apkg") serving3) as [o s'] eqn:E.
  assert (o = Ok tt) as -> by (change o with (fst (o, s')); rewrite <-E; reflexivity).
  destruct (handover_inherits root_machine (str "/pkg/main") server3 _ _ _
    ltac:(cbn; unfold two63; lia) ltac:(discriminate) E) as (s1 & s2 & E1 & E2 & Hf & _).
  exists s', s1, s2. split; [reflexivity|]. split; [exact E1|]. split; [exact E2|].
  rewrite Hf. vm_compute. reflexivity.
Defined.


Lemma handover_dead_witness :
  Serve (Ok SampleMount.lk) (newFuseServer (fs (SampleMount.server Lookup.SampleWorld.world)) []) =
    (newFuseServer (fs (SampleMount.server Lookup.SampleWorld.world)) [], None).
Proof. apply handover_dead. vm_compute. discriminate. Defined.
End SampleLinux.
