(* ===== verification/Darwin.v ===== *)
(** * Darwin: the other platform

    The Darwin half of [apkgfs] and [apkgdb]: mounting through go-fuse
    ([server_darwin.go], [fs_darwin.go]), the attributes ([inode_darwin.go],
    [inode-symlink_darwin.go]) and the methods of [PkgFS] that choose between
    the two servers ([fs.go]).  go-fuse is a parameter. *)

From S2P Require Import Prelude GoLib Collate Strconv Proto Fuse Serve GoPath Ldso Mount Linux.
Local Open Scope Z_scope.

(** ** Outside the repository: [fuse.Server] of go-fuse *)

Record MountOptions := { mo_AllowOther : bool; mo_Debug : bool; mo_FsName : bytes; mo_Name : bytes }.
Class GoServer := {
  gst : Type;                                       (* its state *)
  gserver : Type;
  fuse_NewServer : bytes -> MountOptions -> ST gst gserver;
  gs_Serve : gserver -> ST gst unit;
  gs_Unmount : gserver -> ST gst unit;
  gs_InodeNotify : gserver -> Z -> Z -> Z -> ST gst Z;                  (* a status *)
  gs_InodeNotifyStoreCache : gserver -> Z -> Z -> bytes -> ST gst Z;
}.

(** ** The attributes *)

(** Unlike on Linux the owner and the block size stay as they are. *)
Definition darwin_attr (ino size mode : Z) (a : Attr) : Attr := {|
  at_Ino := ino; at_Size := size; at_Blocks := 1; at_Atime := at_Atime a; at_Mtime := at_Mtime a;
  at_Ctime := at_Ctime a; at_Atimensec := 0; at_Mtimensec := 0; at_Ctimensec := 0;
  at_Mode := ModeToUnix mode; at_Nlink := 1; at_Uid := at_Uid a; at_Gid := at_Gid a; at_Rdev := 1;
  at_Blksize := at_Blksize a |}.
Definition darwin_db_FillAttr (a : Attr) : Attr := darwin_attr 1 4096 db_Mode a.
Definition darwin_ldso_FillAttr (content : bytes) (a : Attr) : Attr :=
  darwin_attr 2 (ldsoIno.Size content) ldsoIno.Mode a.
Definition darwin_symlink_FillAttr (i : bytes) (a : Attr) : Attr :=
  darwin_attr (at_Ino a) (Z.of_nat (length i)) symlinkInodeObj.Mode a.

(** The two platforms agree up to the owner and the block size. *)
Definition set_owner (uid gid blksize : Z) (a : Attr) : Attr := {|
  at_Ino := at_Ino a; at_Size := at_Size a; at_Blocks := at_Blocks a; at_Atime := at_Atime a;
  at_Mtime := at_Mtime a; at_Ctime := at_Ctime a; at_Atimensec := at_Atimensec a;
  at_Mtimensec := at_Mtimensec a; at_Ctimensec := at_Ctimensec a; at_Mode := at_Mode a;
  at_Nlink := at_Nlink a; at_Uid := uid; at_Gid := gid; at_Rdev := at_Rdev a; at_Blksize := blksize |}.

Lemma platforms_agree c t a :
  set_owner 0 0 4096 (darwin_db_FillAttr a) = db_FillAttr a /\
  set_owner 0 0 4096 (darwin_ldso_FillAttr c a) = ldso_FillAttr c a /\
  set_owner (at_Uid a) (at_Gid a) 4096 (darwin_symlink_FillAttr t a) = symlinkInodeObj.FillAttr t a.
Proof. done. Qed.

(** ** The server of a [PkgFS] *)

Section backend.
Context `{FuseTypes, InodeOps, GoServer}.

(** The fields [fuseServer] and [server]; at most one is set. *)
Inductive backend := Raw (c : conn) | Go (g : gserver) | NoServer.

Definition darwin_doMount (m : machine) (mountPoint : bytes) : ST gst backend :=
  g ← fuse_NewServer mountPoint
        {| mo_AllowOther := uid m =? 0; mo_Debug := false; mo_FsName := str "apkg"; mo_Name := str "apkg" |};
  mret (Go g).
Definition darwin_GracefulExec (newBinary : bytes) : outcome unit :=
  Err (ErrNew (str "graceful exec not supported on darwin")).

Definition PkgFS_String : bytes := str "APkgFS".
Definition getFuseServer (b : backend) : option conn :=
  match b with Raw c => Some c | _ => None end.

(** [Serve]: the raw server's event loop, or go-fuse's. *)
Definition PkgFS_Serve (b : backend) (first : outcome bytes) : ST (FuseServer * gst) (option loop) := fun '(s, q) =>
  match b with
  | Raw _ => let '(s, l) := Linux.Serve first s in (Ok l, (s, q))
  | Go g => let '(o, q) := gs_Serve g q in ((fun _ => None) <$> o, (s, q))
  | NoServer => (Ok None, (s, q))
  end.

(** The error of go-fuse is ignored. *)
Definition PkgFS_Unmount (b : backend) : ST (os * gst) unit := fun '(s, q) =>
  match b with
  | Raw c => let '(o, s) := Linux.Unmount c s in (o, (s, q))
  | Go g => let '(o, q) := try_st (gs_Unmount g) q in ((fun _ => tt) <$> o, (s, q))
  | NoServer => (Ok tt, (s, q))
  end.

Definition errNotify : error := ErrNew (str "error on notify: %s").
(** go-fuse is told of the content even when it is empty or the first call
    failed; only the status of the first call counts. *)
Definition PkgFS_NotifyInode (b : backend) (ino offt : Z) (data : bytes) : ST (FuseServer * gst) unit := fun '(s, q) =>
  match b with
  | Raw _ => let '(o, s) := NotifyInode ino offt data s in (o, (s, q))
  | Go g =>
      let '(o, q) :=
        (res ← gs_InodeNotify g ino offt (Z.of_nat (length data));
         _ ← gs_InodeNotifyStoreCache g ino offt data;
         if res =? OK then mret tt else err_st errNotify) q in
      (o, (s, q))
  | NoServer => (Ok tt, (s, q))
  end.

(** On Darwin there is no server to hand over: a graceful restart is refused. *)
Lemma darwin_never_restarts m mp q b q' s :
  darwin_doMount m mp q = (Ok b, q') -> gracefulRestart m (getFuseServer b) s = (Ok tt, s).
Proof.
  unfold darwin_doMount. munfold. destruct (fuse_NewServer _ _ q) as [[g|e|] q1]; [|done..].
  intros [= <- _]. cbn. unfold gracefulRestart. by destruct (executable m).
Qed.
End backend.
