(* ===== verification/Convert.v ===== *)
(** * Convert: building package files ([cmd/apkg-convert/process.go])

    [process] turns a SquashFS image into a signed package file: the hash table
    of its blocks, the metadata, the header, the signature, and the image.  The
    reader of SquashFS images and [json.Marshal] are parameters. *)

From S2P Require Import Prelude GoLib Sha256 GoPath Sig Collate OsArch Bolt Store Ldso Index Export Package Proto.
Local Open Scope Z_scope.

(** ** Outside the repository *)

Record dirent := { de_Name : bytes; de_IsDir : bool }.
Record fileInfo := { fi_Mode : Z; fi_Size : Z }.

(** A [squashfs.Superblock] as the converter uses it; the errors of [ReadDir]
    are ignored. *)
Record image := {
  im_InodeCnt : Z;
  im_ModTime : Z;
  im_ReadDir : bytes -> list dirent;
  im_Readlink : bytes -> outcome bytes;
  im_Lstat : bytes -> outcome fileInfo;
  im_ReadFile : bytes -> outcome bytes;
  im_Glob : bytes -> outcome (list bytes);
}.
Class SquashNew := squash_New : bytes -> outcome image.
Class MetaJson := Marshal_meta : PackageMeta -> outcome bytes.

(** ** [encoding/hex] *)

Definition hex_char (d : Z) : byte := z2b (if d <? 10 then 48 + d else 87 + d).
Definition hex (b : bytes) : bytes := b ≫= fun c => [hex_char (b2z c / 16); hex_char (b2z c mod 16)].

(** ** The file name *)

Record nameParts := {
  np_cat : bytes; np_name : bytes; np_subcat : bytes; np_version : list bytes;
  np_os : bytes; np_arch : bytes; np_comps : list bytes }.

Definition errFilename : error := ErrNew (str "invalid filename format").

Definition parsePackageFilename (filename : bytes) : outcome nameParts :=
  let fn_a := Split filename dot in
  let n := length fn_a in
  if (n <? 5)%nat then Err errFilename
  else
    let archStr := default [] (fn_a !! (n - 1)%nat) in
    let osStr := default [] (fn_a !! (n - 2)%nat) in
    let fn_a := take (n - 2) fn_a in
    Ok {| np_cat := default [] (fn_a !! 0%nat); np_name := default [] (fn_a !! 1%nat);
          np_subcat := default [] (fn_a !! 2%nat); np_version := drop 3 fn_a;
          np_os := osStr; np_arch := archStr; np_comps := take 3 fn_a |}.

(** The names of the package: with no version, then with one more part of the
    version at a time.  (The slice [tmp] shares the array of the split, and
    [append] writes each part over itself.) *)
Fixpoint version_names (tmp vs : list bytes) : list bytes :=
  Join tmp dot ::
  match vs with [] => [] | v :: vs => version_names (tmp ++ [v]) vs end.

(** ** The hash table *)

(** Doubled until the table has at most 1500 entries or blocks have 128 KiB:
    five times at most. *)
Fixpoint block_size_loop (fuel : nat) (fileSize blockSize : Z) : Z :=
  match fuel with
  | O => blockSize
  | S fuel =>
      if (1500 <? fileSize / blockSize) && (blockSize <? 131072)
      then block_size_loop fuel fileSize (blockSize * 2)
      else blockSize
  end.
Definition block_size (fileSize : Z) : Z := block_size_loop 6 fileSize 4096.

(** The blocks, the last one shorter; [length f] rounds are enough. *)
Fixpoint chunks (fuel : nat) (n : nat) (f : bytes) : list bytes :=
  match fuel, f with
  | S fuel, _ :: _ => take n f :: chunks fuel n (drop n f)
  | _, _ => []
  end.
Definition file_blocks (f : bytes) : list bytes :=
  chunks (length f) (Z.to_nat (block_size (Z.of_nat (length f)))) f.
Definition hash_table (f : bytes) : bytes := concat (Sum256 <$> file_blocks f).

(** ** The contents that go into the metadata *)

Section metadata.
Context (sb : image).

Definition up2 : bytes := str "../../".

Fixpoint virtual_links (pkg : bytes) (l : list dirent) (sub : gmap bytes bytes) : gmap bytes bytes :=
  match l with
  | [] => sub
  | e :: l =>
      virtual_links pkg l
        (match im_Readlink sb (path_Join [str ".virtual"; pkg; de_Name e]) with
         | Ok tgt => if HasPrefix tgt up2 then <[de_Name e := TrimPrefix tgt up2]> sub else sub
         | _ => sub
         end)
  end.
Fixpoint virtual_loop (l : list dirent) (virtual : gmap bytes (gmap bytes bytes))
    : gmap bytes (gmap bytes bytes) :=
  match l with
  | [] => virtual
  | e :: l =>
      virtual_loop l
        (if de_IsDir e then
           let sub := virtual_links (de_Name e) (im_ReadDir sb (path_Join [str ".virtual"; de_Name e])) ∅ in
           if (0 <? size sub)%nat then <[de_Name e := sub]> virtual else virtual
         else virtual)
  end.
Definition virtuals : gmap bytes (gmap bytes bytes) := virtual_loop (im_ReadDir sb (str ".virtual")) ∅.

Definition provide_globs (subcat arch : bytes) : list bytes :=
  if bool_decide (subcat = str "core") then [str "bin/*"; str "sbin/*"; str "udev/*"]
  else if bool_decide (subcat = str "libs") then
    if bool_decide (arch = str "amd64") then [str "lib32/*"; str "lib64/*"] else [str "lib/*"]
  else if bool_decide (subcat = str "dev") then
    [str "pkgconfig/*.pc"; str "cmake/*"; str "bin/*"; str "sbin/*"]
  else if bool_decide (subcat = str "mod") then
    [str "pkgconfig/*.pc"; str "cmake/*"; str "bin/*"; str "sbin/*";
     str "lib/python*/site-packages/*"]
  else if bool_decide (subcat = str "doc") then
    [str "man/man*/*"; str "man/*/man*/*"; str "info/*"]
  else [].

(** The metadata's copy of [/.ld.so.cache], of libraries only. *)
Definition ldso_copy (subcat : bytes) : outcome (option bytes) :=
  if bool_decide (subcat = str "libs") then
    match im_ReadFile sb (str ".ld.so.cache") with
    | Ok buf => Ok (Some buf)
    | Err ErrNotExist => Ok None
    | Err _ => Err (ErrNew (str "while reading .ld.so.cache"))
    | Panic => Panic
    end
  else Ok None.

(** [fs.ModeType] *)
Definition ModeType : Z :=
  foldr Z.lor 0 [ModeDir; ModeSymlink; ModeNamedPipe; ModeSocket; ModeDevice; ModeCharDevice;
                 Z.shiftl 1 19].

Definition provide_match (m : bytes) (provides : gmap bytes (option PackageMetaFile))
    : gmap bytes (option PackageMetaFile) :=
  match provides !! m with
  | Some _ => provides
  | None =>
      match im_Lstat sb m with
      | Ok st =>
          if Z.land (fi_Mode st) ModeType =? ModeSymlink then
            match im_Readlink sb m with
            | Ok v =>
                match IndexByte v slash with
                | None => <[m := Some {| mf_Mode := 0; mf_Size := 0; mf_Symlink := v |}]> provides
                | Some _ => provides
                end
            | _ => provides
            end
          else <[m := Some {| mf_Mode := fi_Mode st; mf_Size := fi_Size st; mf_Symlink := [] |}]> provides
      | _ => provides
      end
  end.
Fixpoint provide_loop (globs : list bytes) (provides : gmap bytes (option PackageMetaFile))
    : outcome (gmap bytes (option PackageMetaFile)) :=
  match globs with
  | [] => Ok provides
  | g :: globs =>
      match im_Glob sb g with
      | Ok matches => provide_loop globs (foldl (fun p m => provide_match m p) provides matches)
      | Err _ => Err (ErrNew (str "while glob"))
      | Panic => Panic
      end
  end.
End metadata.

(** ** The layout *)

Definition signOffset (metaLen tableLen : Z) : Z := 124 + metaLen + tableLen.
Definition padding (signOffset : Z) : Z :=
  let p := 512 - signOffset mod 512 in
  if p <? SignatureSize then p + 512 else p.

(** The timestamps and sizes are converted to unsigned integers of their width. *)
Definition header_bytes (created : Z) (meta table : bytes) (blockSize : Z) : bytes :=
  let mlen := Z.of_nat (length meta) in
  let tlen := Z.of_nat (length table) in
  let so := signOffset mlen tlen in
  str "APKG" ++ be_put 4 1 ++ be_put 8 0 ++ be_put 8 created ++ be_put 8 0 ++
  be_put 4 124 ++ be_put 4 mlen ++ Sum256 meta ++
  be_put 4 (124 + mlen) ++ be_put 4 tlen ++ Sum256 table ++
  be_put 4 so ++ be_put 4 (so + padding so) ++ be_put 4 blockSize.

(** [copy(signbuf, sig)] into the zeroed buffer. *)
Definition sign_buf (n : Z) (sig : bytes) : bytes := sig ++ replicate (Z.to_nat n - length sig) Byte.x00.

Section convert.
Context `{Ed25519, !SquashNew, !MetaJson}.

(** The metadata of an image. *)
Definition make_meta (f filename : bytes) (np : nameParts) (sb : image)
    (ldso : option bytes) (provides : gmap bytes (option PackageMetaFile)) : PackageMeta := {|
  BaseName := np_name np; FullName := filename; MetaName := Join (np_comps np) dot;
  Names := version_names (np_comps np) (np_version np);
  MetaVersion := Join (np_version np) dot; MetaArch := np_arch np; MetaOS := np_os np;
  BlockSize := block_size (Z.of_nat (length f)); Blocks := Z.of_nat (length (file_blocks f));
  Category := np_cat np; Subcat := np_subcat np;
  Hash := hex (Sum256 (hash_table f)); Inodes := im_InodeCnt sb; LDSO := ldso;
  Provides := provides; MetaSize := Z.of_nat (length f); Virtual := virtuals sb;
  Created := [im_ModTime sb; 0] |}.

Definition errMetaLong : error := ErrNew (str "metadata too long, should be below 1MB").
Definition errSigBuf : error := ErrNew (str "signature buffer not large enough").

Definition sig_blob (pub blob : bytes) : bytes :=
  (PutUvarint 1 ++ WriteVarblob pub) ++ WriteVarblob blob.

(** The signature, made without the size check of [apkgsig.Sign]. *)
Definition sign_header (k : HsmKey) (header : bytes) : outcome bytes :=
  pub ← PublicBlob k;
  blob ← KeySign k header;
  _ ← VerifyPkg header (sig_blob pub blob);
  Ok (sig_blob pub blob).

(** Everything before the output is opened: the elements of the path below the
    output directory, and the pieces in the order they are written. *)
Definition prepare (k : HsmKey) (filename f : bytes) : outcome (list bytes * list bytes) :=
  sb ← squash_New f;
  let table := hash_table f in
  let filename_f := TrimSuffix (path_Base filename) (str ".squashfs") in
  np ← parsePackageFilename filename_f;
  ldso ← ldso_copy sb (np_subcat np);
  provides ← provide_loop sb (provide_globs (np_subcat np) (np_arch np)) ∅;
  meta ← Marshal_meta (make_meta f filename_f np sb ldso provides);
  check (negb (1048576 <? Z.of_nat (length meta))) errMetaLong;;
  let pad := padding (signOffset (Z.of_nat (length meta)) (Z.of_nat (length table))) in
  let header := header_bytes (im_ModTime sb) meta table (block_size (Z.of_nat (length f))) in
  sigB ← sign_header k header;
  check (negb (pad <? Z.of_nat (length sigB))) errSigBuf;;
  Ok ([Join (np_comps np) slash;
       filename_f ++ str "-" ++ take 7 (hex (Sum256 header)) ++ str ".apkg"],
      [header; meta; table; sign_buf pad sigB; f]).

(** ** Writing the output *)

(** The files of the output directory; [cv_faults] are the outcomes of the
    coming system calls: a failing one has an error, and the number of bytes it
    wrote if it is a write. *)
Record cvState := { cv_files : gmap bytes bytes; cv_faults : list (option (nat * error)) }.

Definition cv_call : ST cvState unit := fun s =>
  (match default None (head (cv_faults s)) with None => Ok tt | Some (_, e) => Err e end,
   {| cv_files := cv_files s; cv_faults := tail (cv_faults s) |}).
Definition cv_set (path v : bytes) : ST cvState unit := upd_st (fun s =>
  {| cv_files := <[path := v]> (cv_files s); cv_faults := cv_faults s |}).

(** One write; it may stop in the middle. *)
Definition cv_write (path done p : bytes) : ST cvState unit := fun s =>
  let fault := default None (head (cv_faults s)) in
  (match fault with None => Ok tt | Some (_, e) => Err e end,
   {| cv_files := <[path := done ++ match fault with None => p | Some (j, _) => take j p end]> (cv_files s);
      cv_faults := tail (cv_faults s) |}).
(** What was written so far stays when a write fails.  The seek before the last
    piece is part of its call: a failing seek is one that wrote nothing. *)
Fixpoint cv_writes (path done : bytes) (ps : list bytes) : ST cvState unit :=
  match ps with
  | [] => mret tt
  | p :: ps =>
      cv_write path done p;;
      cv_writes path (done ++ p) ps
  end.

(** Where the output of [process] goes. *)
Definition out_path (home : bytes) (r : list bytes * list bytes) : bytes :=
  path_Join ([home; str "projects/apkg-tools/repo/apkg/dist/main"] ++ r.1).

Definition process (k : HsmKey) (home filename f : bytes) : ST cvState unit :=
  r ← lift_st (prepare k filename f);
  let out := out_path home r in
  cv_call;;                                      (* MkdirAll *)
  cv_call;;                                      (* Create truncates *)
  cv_set out [];;
  cv_writes out [] r.2.
End convert.

(** ** The size of blocks and of the table *)

Lemma block_size_spec n :
  let r := block_size n in
  r ∈ [4096; 8192; 16384; 32768; 65536; 131072] /\ (n / r <= 1500 \/ r = 131072).
Proof.
  unfold block_size. cbn [block_size_loop]. cbn [Z.mul Pos.mul].
  repeat match goal with
  | |- context [?a <? ?b] => destruct (Z.ltb_spec a b); cbn [andb]; try lia
  end; (split; [set_solver|lia]).
Qed.

Lemma block_size_range n : 4096 <= block_size n <= 131072.
Proof.
  destruct (block_size_spec n) as [Hin _]. cbn zeta in Hin. set_unfold in Hin. lia.
Qed.

Lemma chunks_spec fuel n f :
  (0 < n)%nat -> (length f <= fuel)%nat ->
  concat (chunks fuel n f) = f /\
  (forall i b, chunks fuel n f !! i = Some b -> b = take n (drop (n * i) f) /\ b <> []) /\
  (length f <= n * length (chunks fuel n f) < length f + n)%nat.
Proof.
  intros Hn. revert f. induction fuel as [|fuel IH]; intros f Hf.
  - destruct f; [|cbn in Hf; lia]. cbn. split; [done|]. split; [done|lia].
  - destruct f as [|c f]; [cbn; split; [done|]; split; [done|lia]|].
    set (g := c :: f) in *. change (chunks (S fuel) n g) with (take n g :: chunks fuel n (drop n g)).
    assert (0 < length g)%nat by (cbn; lia).
    destruct (IH (drop n g)) as (Hc & Hl & Hlen); [rewrite length_drop; lia|].
    cbn [concat length]. rewrite Hc, take_drop. split; [done|]. split.
    + intros [|i] b; cbn [lookup list_lookup].
      * intros [= <-]. rewrite Nat.mul_0_r. split; [done|]. destruct n; [lia|done].
      * intros Hb. destruct (Hl i b Hb) as [-> Hne]. split; [|done].
        rewrite drop_drop. do 2 f_equal. lia.
    + rewrite length_drop in Hlen. rewrite Nat.mul_succ_r.
      destruct (decide (length g < n)%nat); [|lia].
      assert (length (chunks fuel n (drop n g)) = 0)%nat as -> by nia. lia.
Qed.

Lemma length_hash_table f : length (hash_table f) = (32 * length (file_blocks f))%nat.
Proof.
  unfold hash_table. induction (file_blocks f) as [|b l IH]; [done|]. cbn [fmap list_fmap concat].
  rewrite length_app, length_Sum256, IH. cbn [length]. lia.
Qed.

Lemma hash_table_entry f i b :
  file_blocks f !! i = Some b -> take 32 (drop (32 * i) (hash_table f)) = Sum256 b.
Proof.
  unfold hash_table. revert i. induction (file_blocks f) as [|c l IH]; intros i; [done|].
  destruct i as [|i]; cbn [lookup list_lookup fmap list_fmap concat].
  - intros [= ->]. rewrite drop_0. by apply take_app_length'; rewrite length_Sum256.
  - intros Hi. rewrite drop_app_ge by (rewrite length_Sum256; lia). rewrite length_Sum256.
    replace (32 * S i - 32)%nat with (32 * i)%nat by lia. by apply IH.
Qed.

(** ** The header, read back *)

Lemma length_header created meta table bs : length (header_bytes created meta table bs) = pkgHeaderLen.
Proof. unfold header_bytes. rewrite !length_app, !length_be_put, !length_Sum256. done. Qed.

Lemma ST_bind_ok {S A B} (m : ST S A) (k : A -> ST S B) s a s' :
  m s = (Ok a, s') -> (m ≫= k) s = k a s'.
Proof. intros E. munfold. by rewrite E. Qed.

Lemma ReadBEs_put2 n a b rest :
  0 <= a < 256 ^ Z.of_nat n -> 0 <= b < 256 ^ Z.of_nat n ->
  ReadBEs n 2 (be_put n a ++ be_put n b ++ rest) = (Ok [a; b], rest).
Proof.
  intros Ha Hb. unfold ReadBEs. munfold. rewrite app_assoc.
  rewrite ReadFull_app by (rewrite length_app, !length_be_put; lia). cbn [split_be].
  rewrite take_app_length', drop_app_length' by (by rewrite length_be_put).
  rewrite take_ge by (by rewrite length_be_put). by rewrite !be_get_put_small.
Qed.

Lemma ReadBEs_put3 n a b c rest :
  0 <= a < 256 ^ Z.of_nat n -> 0 <= b < 256 ^ Z.of_nat n -> 0 <= c < 256 ^ Z.of_nat n ->
  ReadBEs n 3 (be_put n a ++ be_put n b ++ be_put n c ++ rest) = (Ok [a; b; c], rest).
Proof.
  intros Ha Hb Hc. unfold ReadBEs. munfold.
  replace (be_put n a ++ be_put n b ++ be_put n c ++ rest)
    with ((be_put n a ++ be_put n b ++ be_put n c) ++ rest) by (by rewrite <-!app_assoc).
  rewrite ReadFull_app by (rewrite !length_app, !length_be_put; lia). cbn [split_be].
  repeat (rewrite ?take_app_length', ?drop_app_length' by (by rewrite length_be_put)).
  rewrite take_ge by (by rewrite length_be_put). by rewrite !be_get_put_small.
Qed.

Lemma be_put_mod n z : be_put n (z mod 256 ^ Z.of_nat n) = be_put n z.
Proof. unfold be_put. by rewrite le_put_mod. Qed.

(** The sizes that fit the fields of the header. *)
Definition sizes_fit (meta table : bytes) : Prop :=
  124 + Z.of_nat (length meta) + Z.of_nat (length table) + 1024 < two32.

Lemma padding_range so : 0 <= so -> SignatureSize <= padding so <= 611 /\ (512 | so + padding so).
Proof.
  intros Hs. unfold padding. pose proof (Z.mod_pos_bound so 512 ltac:(lia)) as Hm.
  assert (SignatureSize = 99) as -> by done.
  pose proof (Z.div_mod so 512 ltac:(lia)) as Hd.
  destruct (Z.ltb_spec (512 - so mod 512) 99).
  - split; [lia|]. exists (so / 512 + 2). lia.
  - split; [lia|]. exists (so / 512 + 1). lia.
Qed.

Lemma read_apkg_fields k l created meta table bs :
  sizes_fit meta table -> 0 <= bs < two32 ->
  (forall a b, 0 <= a < two32 -> 0 <= b < two32 ->
     fst (ReadBEs 4 k (be_put 4 a ++ be_put 4 b ++ be_put 4 bs)) = Ok (l a b)) ->
  let mlen := Z.of_nat (length meta) in
  let tlen := Z.of_nat (length table) in
  let so := signOffset mlen tlen in
  fst (read_apkg k (drop 4 (header_bytes created meta table bs))) = Ok {|
    a_flags := 0; a_sec := i64 (u64 created); a_nsec := 0;
    a_metaOff := 124; a_metaLen := mlen; a_metaHash := Sum256 meta;
    a_tableOff := 124 + mlen; a_tableLen := tlen; a_tableHash := Sum256 table;
    a_last := l so (so + padding so) |}.
Proof.
  intros Hfit Hbs Hl mlen tlen so. unfold sizes_fit in Hfit. fold mlen tlen in Hfit.
  assert (0 <= mlen /\ 0 <= tlen) as [Hm Ht] by lia.
  assert (0 <= so) as Hso by (unfold so, signOffset; lia).
  pose proof (padding_range so Hso) as [Hp _].
  assert (so + padding so < two32) as Hd by (unfold so, signOffset in *; lia).
  unfold header_bytes. fold mlen tlen so.
  change (drop 4 (str "APKG" ++ ?x)) with x.
  rewrite <-(be_put_mod 8 created). change (created mod 256 ^ Z.of_nat 8) with (u64 created).
  pose proof (u64_range created) as Hc. revert Hc. generalize (u64 created). intros c Hc.
  change SignatureSize with 99 in Hp. clearbody so mlen tlen.
  revert Hp Hd. generalize (padding so). intros pad Hp Hd. unfold two64, two32 in *.
  unfold read_apkg.
  erewrite ST_bind_ok by (apply ReadBE_put; cbn; lia).
  erewrite ST_bind_ok by reflexivity.
  erewrite ST_bind_ok by (apply ReadBE_put; cbn; lia).
  erewrite ST_bind_ok by (apply ReadBEs_put2; cbn; lia).
  erewrite ST_bind_ok by (apply ReadBEs_put2; cbn; lia).
  erewrite ST_bind_ok by (apply ReadFull_app, length_Sum256).
  erewrite ST_bind_ok by (apply ReadBEs_put2; cbn; lia).
  erewrite ST_bind_ok by (apply ReadFull_app, length_Sum256).
  specialize (Hl so (so + pad) ltac:(lia) ltac:(lia)). munfold.
  destruct (ReadBEs 4 k _) as [[la|e|] r]; cbn [fst] in *; [|discriminate..].
  by injection Hl as ->.
Qed.

Lemma read_apkg_header created meta table bs :
  sizes_fit meta table -> 0 <= bs < two32 ->
  let so := signOffset (Z.of_nat (length meta)) (Z.of_nat (length table)) in
  exists h h3, fst (read_apkg 2 (drop 4 (header_bytes created meta table bs))) = Ok h /\
    fst (read_apkg 3 (drop 4 (header_bytes created meta table bs))) = Ok h3 /\
    a_metaOff h = 124 /\ a_metaLen h = Z.of_nat (length meta) /\ a_metaHash h = Sum256 meta /\
    a_tableOff h = 124 + Z.of_nat (length meta) /\ a_tableLen h = Z.of_nat (length table) /\
    a_tableHash h = Sum256 table /\ at_ (a_last h) 0 = so /\
    a_last h3 = [so; so + padding so; bs].
Proof.
  intros Hfit Hbs so.
  pose proof (read_apkg_fields 2 (fun a b => [a; b]) created meta table bs Hfit Hbs) as H2.
  pose proof (read_apkg_fields 3 (fun a b => [a; b; bs]) created meta table bs Hfit Hbs) as H3.
  cbn zeta in H2, H3. rewrite H2, H3; [eexists _, _; done|..]; clear -Hbs; intros a b Ha Hb.
  - rewrite <-(app_nil_r (be_put 4 bs)). by rewrite ReadBEs_put3.
  - by rewrite ReadBEs_put2.
Qed.

(** ** What is written *)

Lemma file_ReadAt_mid F a b c n off :
  F = a ++ b ++ c -> n = length b -> off = Z.of_nat (length a) -> file_ReadAt F n off = Ok b.
Proof.
  intros -> -> ->. unfold file_ReadAt. rewrite Nat2Z.id, drop_app_length, take_app_length.
  by rewrite decide_False by lia.
Qed.

Section written.
Context `{Ed25519Spec, !SquashNew, !MetaJson, PkgJson, Squashfs, Remote}.

Lemma cv_call_cases s o s' :
  cv_call s = (o, s') -> cv_files s' = cv_files s /\ (o = Ok tt \/ exists e, o = Err e).
Proof.
  unfold cv_call. intros [= <- <-]. split; [done|].
  destruct (default None (head (cv_faults s))) as [[]|]; eauto.
Qed.

Lemma cv_writes_ok path ps done s s' :
  cv_files s !! path = Some done -> cv_writes path done ps s = (Ok tt, s') ->
  cv_files s' !! path = Some (done ++ concat ps).
Proof.
  revert done s. induction ps as [|p ps IH]; intros done s Hd; cbn [cv_writes concat].
  - intros [= <-]. by rewrite app_nil_r.
  - munfold. unfold cv_write at 1. destruct (default None (head (cv_faults s))) as [[j e]|]; [done|].
    intros Hw. apply IH in Hw; [by rewrite Hw, <-app_assoc|]. cbn. apply lookup_insert_eq.
Qed.

(** A write that fails leaves a prefix. *)
Lemma cv_writes_prefix path ps done s o s' :
  cv_files s !! path = Some done -> cv_writes path done ps s = (o, s') ->
  exists n, cv_files s' !! path = Some (done ++ take n (concat ps)) /\
    (forall x, x <> path -> cv_files s' !! x = cv_files s !! x) /\ (cv_faults s = [] -> o = Ok tt /\ cv_faults s' = []).
Proof.
  revert done s. induction ps as [|p ps IH]; intros done s Hd; cbn [cv_writes concat].
  - intros [= <- <-]. exists 0%nat. by rewrite app_nil_r.
  - munfold. unfold cv_write at 1. destruct (default None (head (cv_faults s))) as [[j e]|] eqn:Ef.
    { intros [= <- <-]. exists (j `min` length p)%nat. cbn.
      rewrite lookup_insert_eq, take_app_le, <-take_take, firstn_all by lia.
      split; [done|]. split; [|intros Hn; by rewrite Hn in Ef]. intros x Hne. by rewrite lookup_insert_ne. }
    intros Hw. apply IH in Hw as (n & Hn & Hx & Hf); [|apply lookup_insert_eq].
    exists (length p + n)%nat. rewrite take_app_add, app_assoc. split; [done|]. split.
    + intros x Hne. rewrite (Hx x Hne). cbn. by rewrite lookup_insert_ne.
    + intros Hn'. apply Hf. cbn. by rewrite Hn'.
Qed.

(** Whatever fails, only the output changes, to a prefix of what is written. *)
Lemma process_cases k home filename f s o s' :
  process k home filename f s = (o, s') ->
  (cv_files s' = cv_files s /\ (cv_faults s = [] -> cv_faults s' = [] /\ o <> Ok tt)) \/
  exists r n, prepare k filename f = Ok r /\
    cv_files s' !! out_path home r = Some (take n (concat r.2)) /\
    (forall x, x <> out_path home r -> cv_files s' !! x = cv_files s !! x) /\
    (cv_faults s = [] -> o = Ok tt /\ cv_faults s' = []).
Proof.
  unfold process. munfold. destruct (prepare k filename f) as [r|e|]; [|intros [= <- <-]; by left..].
  unfold cv_call. destruct (default None (head (cv_faults s))) as [[j e]|] eqn:E1.
  { intros [= <- <-]. left. split; [done|]. intros Hn. by rewrite Hn in E1. }
  cbn [cv_faults cv_files]. destruct (default None (head (tail (cv_faults s)))) as [[j e]|] eqn:E2.
  { intros [= <- <-]. left. split; [done|]. intros Hn. by rewrite Hn in E2. }
  unfold cv_set at 1. munfold. intros Hw. right. exists r.
  apply cv_writes_prefix in Hw as (n & Hn & Hx & Hf); [|apply lookup_insert_eq].
  exists n. split; [done|]. split; [done|]. split.
  - intros x Hne. rewrite (Hx x Hne). cbn. by rewrite lookup_insert_ne.
  - intros He. apply Hf. cbn. by rewrite He.
Qed.

Lemma process_ok k home filename f s s' :
  process k home filename f s = (Ok tt, s') ->
  exists r, prepare k filename f = Ok r /\ cv_files s' !! out_path home r = Some (concat r.2).
Proof.
  unfold process. munfold. destruct (prepare k filename f) as [r|e|]; [|done..].
  destruct (cv_call s) as [o1 s1] eqn:E1.
  destruct (cv_call_cases _ _ _ E1) as (_ & [-> | (e & ->)]); [|done].
  destruct (cv_call s1) as [o2 s2] eqn:E2.
  destruct (cv_call_cases _ _ _ E2) as (_ & [-> | (e & ->)]); [|done].
  unfold cv_set at 1. munfold. intros Hw. exists r. split; [done|].
  apply (cv_writes_ok _ _ []) in Hw; [exact Hw|]. cbn. apply lookup_insert_eq.
Qed.

Lemma prepare_ok k filename f r :
  prepare k filename f = Ok r ->
  exists sb np ldso provides meta sigB,
    let x := make_meta f (TrimSuffix (path_Base filename) (str ".squashfs")) np sb ldso provides in
    let table := hash_table f in
    let header := header_bytes (im_ModTime sb) meta table (block_size (Z.of_nat (length f))) in
    let pad := padding (signOffset (Z.of_nat (length meta)) (Z.of_nat (length table))) in
    squash_New f = Ok sb /\
    parsePackageFilename (TrimSuffix (path_Base filename) (str ".squashfs")) = Ok np /\
    Marshal_meta x = Ok meta /\ Z.of_nat (length meta) <= 1048576 /\
    sign_header k header = Ok sigB /\ Z.of_nat (length sigB) <= pad /\
    r.2 = [header; meta; table; sign_buf pad sigB; f].
Proof.
  unfold prepare. rewrite !bind_Ok. intros (sb & Esb & E).
  revert E. rewrite bind_Ok. intros (np & Enp & E).
  revert E. rewrite bind_Ok. intros (ld & _ & E).
  revert E. rewrite bind_Ok. intros (pr & _ & E).
  revert E. rewrite bind_Ok. intros (meta & Em & E).
  revert E. rewrite bind_Ok. intros ([] & Ec & E). apply check_Ok, negb_true_iff, Z.ltb_ge in Ec.
  revert E. rewrite bind_Ok. intros (sg & Es & E).
  revert E. rewrite bind_Ok. intros ([] & Ep & [= <-]). apply check_Ok, negb_true_iff, Z.ltb_ge in Ep.
  exists sb, np, ld, pr, meta, sg. done.
Qed.

(** A signed header verifies, also when zeros follow the signature. *)
Lemma sign_header_ok k header sigB zs :
  (forall pub, PublicBlob k = Ok pub -> Z.of_nat (length pub) = PublicKeySize) ->
  (forall d b, KeySign k d = Ok b -> Z.of_nat (length b) = Ed25519SignatureSize) ->
  sign_header k header = Ok sigB ->
  Z.of_nat (length sigB) = SignatureSize /\ exists res, VerifyPkg header (sigB ++ zs) = Ok res.
Proof.
  intros Hpub Hsig. unfold sign_header. rewrite bind_Ok. intros (pub & Ep & E).
  revert E. rewrite bind_Ok. intros (blob & Eb & E).
  revert E. rewrite bind_Ok. intros (res & Ev & [= <-]).
  pose proof (Hpub _ Ep) as Hlp. pose proof (Hsig _ _ Eb) as Hlb. split.
  - unfold sig_blob, WriteVarblob. rewrite !length_app.
    rewrite !length_PutUvarint_small by (unfold PublicKeySize, Ed25519SignatureSize in *; lia).
    unfold SignatureSize. lia.
  - exists res. unfold VerifyPkg in *. destruct (verify _ _ _) as [o rest] eqn:E; cbn [fst] in Ev.
    subst o. by rewrite (verify_ext _ _ _ _ _ zs E).
Qed.

Lemma table_fits f :
  Z.of_nat (length f) < 2 ^ 40 -> Z.of_nat (length (hash_table f)) <= 2 ^ 28 + 32.
Proof.
  intros Hf. rewrite length_hash_table. set (n := length (file_blocks f)).
  pose proof (block_size_range (Z.of_nat (length f))) as Hr.
  destruct (block_size_spec (Z.of_nat (length f))) as [_ Hb]. cbn zeta in Hb.
  set (bs := block_size (Z.of_nat (length f))) in *.
  destruct (chunks_spec (length f) (Z.to_nat bs) f ltac:(lia) ltac:(lia)) as (_ & _ & _ & Hlen).
  change (chunks (length f) (Z.to_nat bs) f) with (file_blocks f) in Hlen. fold n in Hlen.
  assert (bs * Z.of_nat n < Z.of_nat (length f) + bs) as Hn by (apply Nat2Z.inj_lt in Hlen; lia).
  destruct Hb as [Hb|Hb]; [|nia].
  pose proof (Z.mul_succ_div_gt (Z.of_nat (length f)) bs ltac:(lia)). nia.
Qed.

Lemma OpenPackage_written created meta table bs sigB pad f info res :
  sizes_fit meta table -> 0 <= bs < two32 ->
  let header := header_bytes created meta table bs in
  pad = padding (signOffset (Z.of_nat (length meta)) (Z.of_nat (length table))) ->
  Z.of_nat (length sigB) = SignatureSize -> VerifyPkg header sigB = Ok res ->
  Unmarshal_info meta = Ok info ->
  exists p, OpenPackage (concat [header; meta; table; sign_buf pad sigB; f]) = Ok p /\
    pk_rawHeader p = header /\ pk_rawMeta p = meta /\ pk_name p = mi_FullName info /\
    pk_inodes p = mi_Inodes info.
Proof.
  intros Hfit Hbs header Hpad Hlen Hv Hinfo.
  destruct (read_apkg_header created meta table bs Hfit Hbs)
    as (h & h3 & Eh & _ & Hmo & Hml & Hmh & Hto & Htl & Hth & Hso & _).
  assert (length header = pkgHeaderLen) as Hl by apply length_header. fold header in Eh.
  set (zs := replicate (Z.to_nat pad - length sigB) Byte.x00).
  set (F := concat [header; meta; table; sign_buf pad sigB; f]).
  assert (F = header ++ meta ++ table ++ sigB ++ zs ++ f) as EF.
  { unfold F, sign_buf. cbn [concat]. by rewrite app_nil_r, <-app_assoc. }
  assert (file_ReadAt F pkgHeaderLen 0 = Ok header) as R1 by (by eapply (file_ReadAt_mid F [])).
  assert (file_ReadAt F (Z.to_nat SignatureSize) (at_ (a_last h) 0) = Ok sigB) as R2.
  { apply (file_ReadAt_mid F (header ++ meta ++ table) sigB (zs ++ f)).
    - by rewrite EF, <-!app_assoc.
    - by rewrite <-Hlen, Nat2Z.id.
    - rewrite Hso, !length_app, Hl. unfold signOffset, pkgHeaderLen. lia. }
  assert (file_ReadAt F (Z.to_nat (a_metaLen h)) (a_metaOff h) = Ok meta) as R3.
  { apply (file_ReadAt_mid F header meta (table ++ sigB ++ zs ++ f)); [done| |].
    - by rewrite Hml, Nat2Z.id.
    - by rewrite Hmo, Hl. }
  assert (file_ReadAt F (Z.to_nat (a_tableLen h)) (a_tableOff h) = Ok table) as R4.
  { apply (file_ReadAt_mid F (header ++ meta) table (sigB ++ zs ++ f)).
    - by rewrite EF, <-!app_assoc.
    - by rewrite Htl, Nat2Z.id.
    - rewrite Hto, length_app, Hl. unfold pkgHeaderLen. lia. }
  unfold OpenPackage. rewrite R1. cbn [mbind outcome_bind].
  rewrite bool_decide_eq_true_2 by reflexivity. cbn [check mbind outcome_bind].
  rewrite Eh. cbn [mbind outcome_bind]. rewrite R2. cbn [mbind outcome_bind]. rewrite Hv.
  cbn [mbind outcome_bind]. rewrite R3. cbn [mbind outcome_bind].
  rewrite Hmh, bool_decide_eq_true_2 by done. cbn [check mbind outcome_bind].
  rewrite R4. cbn [mbind outcome_bind]. rewrite Hth, bool_decide_eq_true_2 by done.
  cbn [check mbind outcome_bind]. unfold Meta. rewrite Hinfo. cbn [mbind outcome_bind].
  eexists. split; [reflexivity|]. done.
Qed.

(** Where [validate] finds the image, and the table's entry for each block. *)
Lemma written_layout created meta table bs sigB pad f :
  sizes_fit meta table -> 0 <= bs < two32 ->
  pad = padding (signOffset (Z.of_nat (length meta)) (Z.of_nat (length table))) ->
  Z.of_nat (length sigB) <= pad ->
  let header := header_bytes created meta table bs in
  let file := concat [header; meta; table; sign_buf pad sigB; f] in
  exists h, fst (read_apkg 3 (drop 4 header)) = Ok h /\ at_ (a_last h) 2 = bs /\
    (512 | at_ (a_last h) 1) /\ drop (Z.to_nat (at_ (a_last h) 1)) file = f.
Proof.
  intros Hfit Hbs Hpad Hle header file.
  destruct (read_apkg_header created meta table bs Hfit Hbs)
    as (_ & h3 & _ & Eh & _ & _ & _ & _ & _ & _ & _ & Hlast).
  exists h3. split; [exact Eh|]. rewrite Hlast. cbn [at_ nth].
  set (so := signOffset _ _) in *.
  assert (0 <= so) as Hso by (unfold so, signOffset; lia).
  destruct (padding_range so Hso) as [Hp Hd]. split; [done|]. split; [done|].
  unfold file. cbn [concat]. rewrite app_nil_r, !(app_assoc _ _ f), <-!app_assoc.
  replace (header ++ meta ++ table ++ sign_buf pad sigB ++ f)
    with ((header ++ meta ++ table ++ sign_buf pad sigB) ++ f) by (by rewrite <-!app_assoc).
  apply drop_app_length'. rewrite !length_app. unfold header. rewrite length_header.
  unfold sign_buf. rewrite length_app, length_replicate.
  unfold so, signOffset, pkgHeaderLen in *. change SignatureSize with 99 in *. lia.
Qed.

(** C37: The hash table of an image: its blocks are the image cut in pieces of the block
    size, entry by entry the table has their hashes, the block size is a power
    of two from 4 KiB to 128 KiB, and the table has at most 1501 entries as
    long as a larger block size could help. *)
Theorem hash_table_spec f :
  let bs := block_size (Z.of_nat (length f)) in
  let n := Z.of_nat (length (hash_table f)) in
  concat (file_blocks f) = f /\
  (forall i b, file_blocks f !! i = Some b ->
     b = take (Z.to_nat bs) (drop (Z.to_nat bs * i) f) /\ b <> [] /\
     take 32 (drop (32 * i) (hash_table f)) = Sum256 b) /\
  bs ∈ [4096; 8192; 16384; 32768; 65536; 131072] /\
  n = 32 * Z.of_nat (length (file_blocks f)) /\ (n <= 32 * 1501 \/ bs = 131072).
Proof.
  intros bs n. pose proof (block_size_range (Z.of_nat (length f))) as Hr.
  destruct (block_size_spec (Z.of_nat (length f))) as [Hin Hb]. cbn zeta in Hin, Hb. fold bs in Hr, Hin, Hb.
  destruct (chunks_spec (length f) (Z.to_nat bs) f ltac:(lia) ltac:(lia)) as (Hc & Hl & _ & Hlen).
  change (chunks (length f) (Z.to_nat bs) f) with (file_blocks f) in *.
  assert (n = 32 * Z.of_nat (length (file_blocks f))) as En
    by (unfold n; rewrite length_hash_table; lia).
  split; [done|]. split; [|split; [done|split; [done|]]].
  - intros i b Hi. destruct (Hl i b Hi) as [-> Hne]. split; [done|]. split; [done|].
    by apply hash_table_entry.
  - destruct Hb as [Hb|Hb]; [left|by right].
    assert (bs * Z.of_nat (length (file_blocks f)) < Z.of_nat (length f) + bs) as Hn
      by (apply Nat2Z.inj_lt in Hlen; lia).
    pose proof (Z.mul_succ_div_gt (Z.of_nat (length f)) bs ltac:(lia)). nia.
Qed.

(** What [prepare] makes is a package file. *)
Lemma prepared_opens k filename f r :
  (forall pub, PublicBlob k = Ok pub -> Z.of_nat (length pub) = PublicKeySize) ->
  (forall d b, KeySign k d = Ok b -> Z.of_nat (length b) = Ed25519SignatureSize) ->
  (forall x j, Marshal_meta x = Ok j -> exists info, Unmarshal_info j = Ok info) ->
  Z.of_nat (length f) < 2 ^ 40 -> prepare k filename f = Ok r ->
  let file := concat r.2 in
  exists p x info h, OpenPackage file = Ok p /\
    Marshal_meta x = Ok (pk_rawMeta p) /\
    FullName x = TrimSuffix (path_Base filename) (str ".squashfs") /\
    MetaSize x = Z.of_nat (length f) /\ Hash x = hex (Sum256 (hash_table f)) /\
    Unmarshal_info (pk_rawMeta p) = Ok info /\ pk_name p = mi_FullName info /\
    pk_inodes p = mi_Inodes info /\
    fst (read_apkg 3 (drop 4 (pk_rawHeader p))) = Ok h /\
    at_ (a_last h) 2 = block_size (Z.of_nat (length f)) /\
    (512 | at_ (a_last h) 1) /\ drop (Z.to_nat (at_ (a_last h) 1)) file = f.
Proof.
  intros Hpub Hsig Hjson Hf Ep file.
  destruct (prepare_ok _ _ _ _ Ep)
    as (sb & np & ld & pr & meta & sigB & _ & _ & Em & Hml & Es & Hle & Hr).
  destruct (sign_header_ok _ _ _ [] Hpub Hsig Es) as (Hls & res & Hv). rewrite app_nil_r in Hv.
  destruct (Hjson _ _ Em) as (info & Hinfo).
  pose proof (table_fits f Hf) as Ht.
  pose proof (block_size_range (Z.of_nat (length f))) as Hbs.
  assert (sizes_fit meta (hash_table f)) as Hfit by (unfold sizes_fit, two32; lia).
  assert (0 <= block_size (Z.of_nat (length f)) < two32) as Hb32 by (unfold two32; lia).
  destruct (OpenPackage_written (im_ModTime sb) meta (hash_table f) _ sigB _ f info res
    Hfit Hb32 eq_refl Hls Hv Hinfo) as (p & Eo & Hh & Hm & Hn & Hi).
  destruct (written_layout (im_ModTime sb) meta (hash_table f) _ sigB _ f Hfit Hb32 eq_refl Hle)
    as (h & Eh & Hlast).
  unfold file. rewrite Hr. exists p, (make_meta f (TrimSuffix (path_Base filename) (str ".squashfs")) np sb ld pr), info, h.
  split; [exact Eo|].
  rewrite Hm, Hh, Hn, Hi. do 4 (split; [done|]). split; [exact Hinfo|]. done.
Qed.

(** C22: What the converter writes, the daemon opens.  With an Ed25519 key and an image
    below 1 TiB, when [process] succeeds a file has been written that
    [OpenPackage] accepts, whose metadata is that of the image, and in which
    the header [validate] reads gives the block size and, aligned to 512 bytes,
    the place of the image. *)
Theorem process_opens k home filename f s s' :
  (forall pub, PublicBlob k = Ok pub -> Z.of_nat (length pub) = PublicKeySize) ->
  (forall d b, KeySign k d = Ok b -> Z.of_nat (length b) = Ed25519SignatureSize) ->
  (forall x j, Marshal_meta x = Ok j -> exists info, Unmarshal_info j = Ok info) ->
  Z.of_nat (length f) < 2 ^ 40 ->
  process k home filename f s = (Ok tt, s') ->
  exists out file p x info h,
    cv_files s' !! out = Some file /\ OpenPackage file = Ok p /\
    Marshal_meta x = Ok (pk_rawMeta p) /\
    FullName x = TrimSuffix (path_Base filename) (str ".squashfs") /\
    MetaSize x = Z.of_nat (length f) /\ Hash x = hex (Sum256 (hash_table f)) /\
    Unmarshal_info (pk_rawMeta p) = Ok info /\ pk_name p = mi_FullName info /\
    pk_inodes p = mi_Inodes info /\
    fst (read_apkg 3 (drop 4 (pk_rawHeader p))) = Ok h /\
    at_ (a_last h) 2 = block_size (Z.of_nat (length f)) /\
    (512 | at_ (a_last h) 1) /\ drop (Z.to_nat (at_ (a_last h) 1)) file = f.
Proof.
  intros Hpub Hsig Hjson Hf E. destruct (process_ok _ _ _ _ _ _ E) as (r & Ep & Hout).
  destruct (prepared_opens k filename f r Hpub Hsig Hjson Hf Ep) as (p & x & info & h & Hp).
  by exists (out_path home r), (concat r.2), p, x, info, h.
Qed.
End written.

(** ** Concrete instance, for evaluation *)

Module SampleConvert.
#[local] Existing Instance Toy.toy_ed25519.
#[local] Existing Instance Toy.toy_ed25519_spec.
#[local] Existing Instance SamplePkg.squashfs.
#[local] Existing Instance SamplePkg.remote.
#[local] Existing Instance SamplePkg.json.

(** An image with one program and one module of a virtual view. *)
Definition the_image : image := {|
  im_InodeCnt := 5; im_ModTime := 1654048543;
  im_ReadDir d := if bool_decide (d = str ".virtual") then [{| de_Name := str "py"; de_IsDir := true |}]
                  else if bool_decide (d = str ".virtual/py") then [{| de_Name := str "m"; de_IsDir := false |}]
                  else [];
  im_Readlink p := if bool_decide (p = str ".virtual/py/m") then Ok (str "../../m") else Err ErrInvalid;
  im_Lstat p := Ok {| fi_Mode := 0x1ed; fi_Size := 3 |};
  im_ReadFile p := Err ErrNotExist;
  im_Glob g := Ok (if bool_decide (g = str "bin/*") then [str "bin/x"] else []);
|}.
Instance squash_new : SquashNew := fun f => Ok the_image.
Instance meta_json : MetaJson := fun x => Ok (FullName x).

Example parse_1 :
  parsePackageFilename (str "core.foobar.libs.1.2.linux.amd64") = Ok {|
    np_cat := str "core"; np_name := str "foobar"; np_subcat := str "libs";
    np_version := [str "1"; str "2"]; np_os := str "linux"; np_arch := str "amd64";
    np_comps := [str "core"; str "foobar"; str "libs"] |}.
Proof. reflexivity. Qed.
Example parse_2 : parsePackageFilename (str "a.b.c.d") = Err errFilename.
Proof. reflexivity. Qed.
Example names_1 : version_names [str "a"; str "b"] [str "1"; str "2"] =
  [str "a.b"; str "a.b.1"; str "a.b.1.2"].
Proof. reflexivity. Qed.
Example virtuals_1 :
  (virtuals the_image !! str "py" ≫= fun sub => sub !! str "m") = Some (str "m").
Proof. reflexivity. Qed.

Definition start : cvState := {| cv_files := ∅; cv_faults := [] |}.
Definition pkg_name : bytes := str "/src/azusa.apkg.core.1.linux.amd64.squashfs".

Lemma process_opens_witness :
  exists s out file p,
    process (Toy.key Toy.pkg_kid) (str "/root") pkg_name (str "hsqs") start = (Ok tt, s) /\
    cv_files s !! out = Some file /\ OpenPackage file = Ok p /\
    pk_name p = str "azusa.apkg.core.1.linux.amd64".
Proof.
  assert (fst (process (Toy.key Toy.pkg_kid) (str "/root") pkg_name (str "hsqs") start) = Ok tt) as Ho
    by (vm_compute; reflexivity).
  destruct (process (Toy.key Toy.pkg_kid) (str "/root") pkg_name (str "hsqs") start) as [o s] eqn:E.
  cbn [fst] in Ho. subst o.
  destruct (process_opens (Toy.key Toy.pkg_kid) (str "/root") pkg_name (str "hsqs") start s)
    as (out & file & p & x & info & h & Hf & Eo & Em & Hn & _ & _ & Ei & Hp & _).
  - intros pub [= <-]. vm_compute. reflexivity.
  - intros d b [= <-]. vm_compute. reflexivity.
  - intros x j _. eexists. reflexivity.
  - vm_compute. reflexivity.
  - exact E.
  - exists s, out, file, p. split; [reflexivity|]. split; [exact Hf|]. split; [exact Eo|].
    rewrite Hp. injection Em as Em. injection Ei as <-. cbn [mi_FullName]. rewrite <-Em, Hn.
    vm_compute. reflexivity.
Defined.
End SampleConvert.
