(* ===== verification/Indexer.v ===== *)
(** * Indexer: the index of a directory of packages ([cmd/apkg-index/process.go])

    [processDb] walks the package files of a directory, applies each to the
    database of its platform, and publishes the databases.  The files are the
    entries [filepath.Walk] visits, in its order; the databases live in the
    shared state of [World.v]. *)

From S2P Require Import Prelude GoLib GoPath Sha256 Sig Collate Natsort OsArch Bolt Store GoTime Pins Ldso Index Export Package Update Unsigned World.
Local Open Scope Z_scope.

(** ** Outside the repository *)

(** [cmd/apkg-index/pkg.go], filled by [json.Unmarshal]. *)
Record pkgMeta := { pm_FullName : bytes; pm_Inodes : Z; pm_Arch : bytes; pm_Os : bytes }.
Class PkgMetaJson := Unmarshal_pkgMeta : bytes -> outcome pkgMeta.

(** A file as [filepath.Walk] reports it; [we_open] is what opening and reading
    it gives. *)
Record walkEntry := {
  we_path : bytes; we_err : option error; we_regular : bool; we_Size : Z; we_open : outcome bytes }.

(** The platform of a package, as written in its name or metadata. *)
Record fileKey := { fk_arch : bytes; fk_os : bytes }.
#[export] Instance fileKey_eq_dec : EqDecision fileKey.
Proof. solve_decision. Defined.
#[export] Program Instance fileKey_countable : Countable fileKey :=
  inj_countable (fun k => (fk_arch k, fk_os k)) (fun p => Some {| fk_arch := p.1; fk_os := p.2 |}) _.
Next Obligation. by intros []. Qed.

(** The order in which [range] visits a Go map. *)
Class GoRangeKeys := range_keys : forall V : Type, gmap fileKey V -> list (fileKey * V).
Class GoRangeKeysSpec `{GoRangeKeys} : Prop :=
  range_keys_perm V (m : gmap fileKey V) : range_keys V m ≡ₚ map_to_list m.

(** ** Names of removed packages *)

Definition is_lower (c : byte) : bool := (97 <=? b2z c) && (b2z c <=? 122).
Definition is_lower_digit (c : byte) : bool := is_lower c || ((48 <=? b2z c) && (b2z c <=? 57)).
Definition is_hex (c : byte) : bool :=
  ((97 <=? b2z c) && (b2z c <=? 102)) || ((48 <=? b2z c) && (b2z c <=? 57)).

(** The longest prefix of bytes with the property. *)
Fixpoint span (f : byte -> bool) (s : bytes) : bytes * bytes :=
  match s with
  | c :: t => if f c then (c :: (span f t).1, (span f t).2) else ([], s)
  | [] => ([], [])
  end.
(** A run of one or more, then the separator; [s] is read backwards. *)
Definition run_then (f : byte -> bool) (sep : byte) (s : bytes) : option (bytes * bytes) :=
  match span f s with
  | ((_ :: _) as r, c :: t) => if bool_decide (c = sep) then Some (rev r, t) else None
  | _ => None
  end.

Definition apkgSuffix : bytes := str ".apkg".

(** The expression [.*\.([a-z]+)\.([a-z0-9]+)-([a-f0-9]{7})\.apkg$]: the groups
    are the operating system, the architecture and the hash.  No group contains
    its separator, so that reading from the end finds the only match. *)
Definition removal_name (rpath : bytes) : option (bytes * bytes * bytes) :=
  if negb (HasSuffix rpath apkgSuffix) then None
  else
    let s := rev (TrimSuffix rpath apkgSuffix) in
    let h := take 7 s in
    if (length h =? 7)%nat && forallb is_hex h then
      match drop 7 s with
      | c :: s =>
          if bool_decide (c = Byte.x2d) then
            match run_then is_lower_digit dot s with
            | Some (arch, s) =>
                match run_then is_lower dot s with
                | Some (os, _) => Some (os, arch, rev h)
                | None => None
                end
            | None => None
            end
          else None
      | [] => None
      end
    else None.

(** [strings.TrimLeft(s, "/")] *)
Fixpoint TrimLeft (s : bytes) (c : byte) : bytes :=
  match s with x :: t => if bool_decide (x = c) then TrimLeft t c else s | [] => [] end.

Section Indexer.
Context `{BoltOps, LlrbOps, Ldcache, !Json, GoRange, GoSort, Ed25519, Jwt, Squashfs, Remote, PkgJson}.
Context `{!PkgMetaJson, !GoRangeKeys}.
Context (jwt_Sign : gmap bytes bytes -> bytes -> HsmKey -> outcome bytes).
Context (env : environ) (k : HsmKey) (name : bytes) (now : nat -> Z * Z).

(** The databases by platform, the shared state, and what left the process. *)
Record ixState := { ix_files : gmap fileKey nat; ix_world : World; ix_log : list effect }.

Definition on_world {A} (m : ST World A) : ST ixState A := fun s =>
  let '(o, w) := m (ix_world s) in
  (o, {| ix_files := ix_files s; ix_world := w; ix_log := ix_log s |}).
Definition add_file (fk : fileKey) (l : nat) : ST ixState unit := upd_st (fun s =>
  {| ix_files := <[fk := l]> (ix_files s); ix_world := ix_world s; ix_log := ix_log s |}).

(** The database of a platform, downloaded when it is first needed. *)
Definition file_db (tempDir : bytes) (fk : fileKey) : ST ixState nat :=
  s ← get_st;
  match ix_files s !! fk with
  | Some db => mret db
  | None =>
      db ← on_world (NewOsArch env PKG_URL_PREFIX name
             (path_Join [tempDir; fk_os fk; fk_arch fk]) (fk_os fk) (fk_arch fk));
      add_file fk db;;
      mret db
  end.

Definition remove_file (tempDir rpath : bytes) : ST ixState unit :=
  match removal_name rpath with
  | Some (os, arch, hash) =>
      db ← file_db tempDir {| fk_arch := arch; fk_os := os |};
      on_world (in_db db
        (RemovePackage (TrimSuffix (path_Base rpath) (str "-" ++ hash ++ apkgSuffix))))
  | None => mret tt
  end.

(** A package [AddPackage] refuses is only logged. *)
Definition index_file (tempDir rpath : bytes) (content : outcome bytes) : ST ixState unit :=
  f ← lift_st content;
  p ← lift_st (OpenPackage f);
  meta ← lift_st (Unmarshal_pkgMeta (pk_rawMeta p));
  db ← file_db tempDir {| fk_arch := pm_Arch meta; fk_os := pm_Os meta |};
  _ ← try_st (on_world (in_db db (AddPackage rpath (info_of p))));
  mret tt.

Definition walk_file (dir tempDir : bytes) (e : walkEntry) : ST ixState unit :=
  match we_err e with
  | Some err => err_st err
  | None =>
      if negb (we_regular e) then mret tt
      else if negb (HasSuffix (we_path e) apkgSuffix) then mret tt
      else
        let rpath := TrimLeft (TrimPrefix (we_path e) dir) slash in
        if we_Size e =? 0 then remove_file tempDir rpath
        else index_file tempDir rpath (we_open e)
  end.

(** [filepath.Walk] ends at the first error. *)
Fixpoint walk (dir tempDir : bytes) (es : list walkEntry) : ST ixState unit :=
  match es with
  | [] => mret tt
  | e :: es => walk_file dir tempDir e;; walk dir tempDir es
  end.

(** [now] is the time at which each database is exported. *)
Definition export_db (db : nat) : ST ixState unit := fun s =>
  match dbs (ix_world s) !! db with
  | Some d =>
      let '(o, (d, log)) := ExportAndUpload jwt_Sign k (now db).1 (now db).2 (d, ix_log s) in
      (o, {| ix_files := ix_files s; ix_world := set_dbs (<[db := d]> (dbs (ix_world s))) (ix_world s);
             ix_log := log |})
  | None => (Panic, s)
  end.
Fixpoint export_all (l : list (fileKey * nat)) : ST ixState unit :=
  match l with [] => mret tt | e :: l => export_db e.2;; export_all l end.

(** The directory [os.MkdirTemp] makes is removed at the end. *)
Definition processDb (tempDir : outcome bytes) (home : bytes) (es : list walkEntry) : ST ixState unit :=
  tmp ← lift_st tempDir;
  walk (path_Join [home; str "projects/apkg-tools/repo/apkg/dist"; name]) tmp es;;
  s ← get_st;
  export_all (range_keys _ (ix_files s)).
End Indexer.

(** ** What the directory asks for *)

Inductive change := CAdd (e : pkgEntry) | CRemove (full : bytes).

Section spec.
Context `{BoltSpec, LlrbOps, Ed25519, Squashfs, Remote, PkgJson, !PkgMetaJson}.

(** The change a file makes, and the platform it makes it for. *)
Definition asked (dir : bytes) (e : walkEntry) : option (fileKey * change) :=
  if we_regular e && HasSuffix (we_path e) apkgSuffix then
    let rpath := TrimLeft (TrimPrefix (we_path e) dir) slash in
    if we_Size e =? 0 then
      match removal_name rpath with
      | Some (os, arch, hash) =>
          Some ({| fk_arch := arch; fk_os := os |},
                CRemove (TrimSuffix (path_Base rpath) (str "-" ++ hash ++ apkgSuffix)))
      | None => None
      end
    else
      match we_open e with
      | Ok f =>
          match OpenPackage f with
          | Ok p =>
              match Unmarshal_pkgMeta (pk_rawMeta p) with
              | Ok m => Some ({| fk_arch := pm_Arch m; fk_os := pm_Os m |}, CAdd (entry_of rpath (info_of p)))
              | _ => None
              end
          | _ => None
          end
      | _ => None
      end
  else None.

Definition asked_of (dir : bytes) (fk : fileKey) (e : walkEntry) : option change :=
  match asked dir e with
  | Some (fk', c) => if decide (fk' = fk) then Some c else None
  | None => None
  end.
Definition changes (dir : bytes) (fk : fileKey) (es : list walkEntry) : list change :=
  omap (asked_of dir fk) es.

(** The effect of a change on the data: a package is stored when its hash is
    new, and is left out otherwise, or when it does not fit the store. *)
Inductive applied : change -> bdb -> bdb -> Prop :=
  | applied_add e b b' :
      bk b pkgBucket !! e_hash e = None -> pkg_put [] e b b' -> applied (CAdd e) b b'
  | applied_skip e b :
      is_Some (bk b pkgBucket !! e_hash e) \/ entry_fits e = false -> applied (CAdd e) b b
  | applied_remove n b b' :
      bucket_changed p2pBucket (delete (collatedVersion n)) b b' -> applied (CRemove n) b b'.

Inductive applied_all : list change -> bdb -> bdb -> Prop :=
  | all_nil b : applied_all [] b b
  | all_snoc cs c b b' b'' :
      applied_all cs b b' -> applied c b' b'' -> applied_all (cs ++ [c]) b b''.

(** [made] is [cs] without some of the packages to add, in the same order. *)
Inductive left_out : list change -> list change -> Prop :=
  | left_nil : left_out [] []
  | left_keep made cs c : left_out made cs -> left_out (made ++ [c]) (cs ++ [c])
  | left_skip made cs e : left_out made cs -> left_out made (cs ++ [CAdd e]).

(** What a call makes of a database for the change [c]: the change, or nothing
    when it is a package to add and some call of the database can fail. *)
Definition changed_by (c : change) (d d' : DB) : Prop :=
  locked d' = false /\ conf d' = conf d /\ (faults d = [] -> faults d' = []) /\
  (applied c (file d) (file d') \/
   faults d <> [] /\ (exists e, c = CAdd e) /\ file d' = file d).

(** From [d0] to [d] by the changes [cs]; only where calls can fail, packages to
    add may be left out. *)
Definition changed_all (cs : list change) (d0 d : DB) : Prop :=
  locked d = false /\ conf d = conf d0 /\
  exists made, left_out made cs /\ applied_all made (file d0) (file d) /\
    (faults d0 = [] -> faults d = [] /\ made = cs).

Lemma changed_all_refl d : locked d = false -> changed_all [] d d.
Proof. intros L. do 2 (split; [done|]). exists []. repeat split; try done; constructor. Qed.

Lemma changed_all_snoc cs c d0 d d' :
  changed_all cs d0 d -> changed_by c d d' -> changed_all (cs ++ [c]) d0 d'.
Proof.
  intros (L & C & made & K & A & F) (L' & C' & F' & H'). split; [done|]. split; [congruence|].
  destruct H' as [H'|(Hf & [e ->] & Hs)].
  - exists (made ++ [c]). split; [by constructor|]. split; [by econstructor|].
    intros Hz. destruct (F Hz) as [? ->]. auto.
  - exists made. split; [by constructor|]. split; [by rewrite Hs|].
    intros Hz. by destruct (F Hz) as [? _].
Qed.

Lemma changes_snoc dir fk es e :
  changes dir fk (es ++ [e]) = changes dir fk es ++ option_list (asked_of dir fk e).
Proof.
  unfold changes. rewrite omap_app. cbn. by destruct (asked_of dir fk e).
Qed.
End spec.

Section walk.
Context `{BoltSpec, LlrbOps, Ldcache, !Json, GoRange, GoSort, Ed25519, Jwt, Squashfs, Remote, PkgJson}.
Context `{!PkgMetaJson, !GoRangeKeys}.
Context (env : environ) (name dir tmp : bytes).

(** A database as [NewOsArch] makes it, whatever the shared state. *)
Definition start_db (fk : fileKey) : outcome DB :=
  d ← open_db env PKG_URL_PREFIX name (path_Join [tmp; fk_os fk; fk_arch fk]) (fk_os fk) (fk_arch fk);
  fst (let '(o, d) := init_db env d in (match o with Ok _ => Ok d | Err e => Err e | Panic => Panic end, d)).

Lemma start_db_unlocked fk d : start_db fk = Ok d -> locked d = false.
Proof.
  unfold start_db, open_db. destruct (env_open env); [done|]. cbn [mbind outcome_bind].
  destruct (init_db env _) as [o d1] eqn:E. destruct o; [|done..]. intros [= <-].
  revert E. unfold init_db, try_st. munfold. set (d0 := {| conf := _ |}).
  destruct (buildLdso d0) as [o1 d2] eqn:E1. apply buildLdso_frame in E1 as (_ & _ & _ & L1 & _).
  change (locked d0) with false in L1. clearbody d0.
  destruct o1 as [[]|e|]; [| |done].
  all: destruct (CurrentVersion d2) as [v| |]; [|done..]; case_bool_decide.
  all: try (intros [= _ <-]; done).
  all: destruct (download (env_net env) [] d2) as [o2 d3] eqn:E2; destruct o2; [|done..];
    intros [= _ <-]; by destruct (download_cases _ _ _ _ _ L1 E2) as (L2 & _).
Qed.

(** The databases after the files [es]: each is the one [NewOsArch] makes, with
    the changes for its platform applied in order. *)
Record walked (es : list walkEntry) (s : ixState) : Prop := {
  wk_db fk l : ix_files s !! fk = Some l ->
    (l < db_next (ix_world s))%nat /\
    exists d0 d, start_db fk = Ok d0 /\ dbs (ix_world s) !! l = Some d /\
      changed_all (changes dir fk es) d0 d;
  wk_inj fk fk' l : ix_files s !! fk = Some l -> ix_files s !! fk' = Some l -> fk = fk';
  wk_all fk : changes dir fk es <> [] -> is_Some (ix_files s !! fk);
}.

Lemma walked_none es e s : asked dir e = None -> walked es s -> walked (es ++ [e]) s.
Proof.
  intros Ha W. assert (forall fk, changes dir fk (es ++ [e]) = changes dir fk es) as Hc.
  { intros fk. rewrite changes_snoc. unfold asked_of. rewrite Ha. apply app_nil_r. }
  destruct W as [W1 W2 W3]. split; [|done|]; intros fk; setoid_rewrite Hc; auto.
Qed.

Definition with_db (l : nat) (d : DB) (s : ixState) : ixState :=
  {| ix_files := ix_files s; ix_world := set_dbs (<[l := d]> (dbs (ix_world s))) (ix_world s);
     ix_log := ix_log s |}.

Lemma walked_change es e s fk c l d d' :
  asked dir e = Some (fk, c) -> walked es s -> ix_files s !! fk = Some l ->
  dbs (ix_world s) !! l = Some d -> changed_by c d d' -> walked (es ++ [e]) (with_db l d' s).
Proof.
  intros Ha [W1 W2 W3] Hl Hd Hc. split; cbn.
  - intros fk' l' Hl'. destruct (W1 fk' l' Hl') as (Hlt & d0 & d1 & E0 & E1 & A).
    split; [done|]. rewrite changes_snoc. unfold asked_of. rewrite Ha.
    case_decide as Hk; cbn [option_list].
    + subst fk'. assert (l' = l) as -> by congruence. assert (d1 = d) as -> by congruence.
      exists d0, d'. rewrite lookup_insert_eq. split; [done|]. split; [done|]. by eapply changed_all_snoc.
    + exists d0, d1. rewrite app_nil_r, lookup_insert_ne; [done|]. intros ->. by eapply Hk, W2.
  - done.
  - intros fk'. rewrite changes_snoc. unfold asked_of. rewrite Ha. case_decide as Hk; [by subst|].
    cbn [option_list]. rewrite app_nil_r. apply W3.
Qed.

Lemma NewOsArch_start fk w o w' :
  NewOsArch env PKG_URL_PREFIX name (path_Join [tmp; fk_os fk; fk_arch fk]) (fk_os fk) (fk_arch fk) w
    = (o, w') ->
  match o with
  | Ok l => exists d, start_db fk = Ok d /\ l = db_next w /\ db_next w' = S l /\
              dbs w' = <[l := d]> (dbs w)
  | _ => True
  end.
Proof.
  unfold NewOsArch, start_db. cbn [loadUnsigned set_reg dbs db_next].
  destruct (open_db env _ _ _ _ _) as [d|e|]; [|intros [= <- <-]; done..].
  cbn [mbind outcome_bind]. destruct (init_db env d) as [[b|e|] d'] eqn:E; [|intros [= <- <-]; done..].
  intros [= <- <-]. exists d'. done.
Qed.

(** [file_db] gives the database of the platform, making it when there is none. *)
Lemma file_db_cases fk es s o s' :
  walked es s -> file_db env name tmp fk s = (o, s') ->
  match o with Ok l => walked es s' /\ ix_files s' !! fk = Some l | _ => True end.
Proof.
  intros W. unfold file_db. munfold. destruct (ix_files s !! fk) as [l|] eqn:El.
  { by intros [= <- <-]. }
  unfold on_world, add_file. munfold.
  destruct (NewOsArch _ _ _ _ _ _ _) as [o1 w'] eqn:En. apply NewOsArch_start in En.
  destruct o1 as [l|e|]; [|intros [= <- <-]; done..]. intros [= <- <-].
  destruct En as (d & Es & -> & Hn & Hdbs). cbn. split; [|apply lookup_insert_eq].
  destruct W as [W1 W2 W3]. split; cbn; rewrite ?Hn, ?Hdbs.
  - intros fk' l. rewrite lookup_insert_Some. intros [[<- <-]|[Hne Hl]].
    + split; [lia|]. exists d, d. rewrite lookup_insert_eq. split; [done|]. split; [done|].
      destruct (changes dir fk es) eqn:Ec; [by eapply changed_all_refl, start_db_unlocked|].
      destruct (W3 fk) as [? ?]; congruence.
    + destruct (W1 fk' l Hl) as (Hlt & d0 & d1 & ?). split; [lia|]. exists d0, d1.
      by rewrite lookup_insert_ne by lia.
  - intros fk1 fk2 l. rewrite !lookup_insert_Some.
    intros [[<- <-]|[Hn1 Hl1]] [[<- E]|[Hn2 Hl2]]; [done|..|by eapply W2].
    + destruct (W1 _ _ Hl2); lia.
    + destruct (W1 _ _ Hl1); lia.
  - intros fk' Hc. destruct (decide (fk = fk')) as [->|Hne]; [by rewrite lookup_insert_eq; eauto|].
    rewrite lookup_insert_ne by done. auto.
Qed.

(** One change on a database. *)
Lemma AddPackage_applied rpath p d o d' :
  locked d = false -> AddPackage rpath p d = (o, d') ->
  o <> Panic /\ changed_by (CAdd (entry_of rpath p)) d d'.
Proof.
  intros Hl E. destruct (AddPackage_cases rpath p d Hl) as (o1 & d1 & E1 & L & M & C & Hin & Hfit).
  rewrite E in E1. injection E1 as <- <-.
  destruct (write_tx_spec (add_tx rpath p) d Hl) as (o2 & d2 & E2 & _ & _ & _ & _ & Z).
  unfold AddPackage in E. rewrite E in E2. injection E2 as <- <-.
  destruct M as (Hc & _). split; [by destruct o|]. split; [done|]. split; [done|].
  split; [by intros (_ & _ & ?)%Z|].
  destruct o as [[]|e|]; [destruct C as (Hn & P & _); left; by constructor| |done].
  destruct (decide (faults d = [])) as [Hf|Hf]; [left|right; by eauto].
  rewrite C. apply applied_skip. change (e_hash (entry_of rpath p)) with (p_hash p).
  destruct (bk (file d) pkgBucket !! p_hash p) eqn:Eb; [by left; eauto|right].
  destruct (entry_fits (entry_of rpath p)) eqn:Ef; [|done]. by discriminate (Hfit Hf eq_refl eq_refl).
Qed.

Lemma RemovePackage_applied n d d' :
  locked d = false -> RemovePackage n d = (Ok tt, d') -> changed_by (CRemove n) d d'.
Proof.
  intros Hl E. unfold RemovePackage in E.
  destruct (write_tx_spec (tx_delete p2pBucket (collatedVersion n)) d Hl)
    as (o & d1 & E1 & M & L & _ & Hb & Z). rewrite E in E1. injection E1 as <- <-.
  split; [done|]. split; [by destruct M|]. split; [by intros (_ & _ & ?)%Z|]. left. constructor.
  destruct (has_bucket (file d) p2pBucket) eqn:Eh.
  - apply has_bucket_has in Eh. destruct (tx_delete_ok p2pBucket (collatedVersion n) _ Eh) as (b' & Eb & C).
    rewrite Eb in Hb. by injection Hb as <-.
  - rewrite tx_delete_panics in Hb; [done|]. intros Hh%has_bucket_has. congruence.
Qed.

(** A change made through [on_world]. *)
Lemma on_db_change {A} es e s fk c l (m : ST DB A) o s' :
  asked dir e = Some (fk, c) -> walked es s -> ix_files s !! fk = Some l ->
  (forall d o d', locked d = false -> m d = (o, d') -> o <> Panic ->
     (is_ok o = true \/ (exists x, c = CAdd x)) -> changed_by c d d') ->
  on_world (in_db l m) s = (o, s') -> o <> Panic -> (is_ok o = true \/ (exists x, c = CAdd x)) ->
  walked (es ++ [e]) s'.
Proof.
  intros Ha W Hl Hm. unfold on_world, in_db.
  destruct (wk_db _ _ W _ _ Hl) as (_ & d0 & d & _ & Hd & Hlk & _). rewrite Hd.
  destruct (m d) as [o1 d'] eqn:E. intros [= <- <-] Ho Hc.
  apply (walked_change es e s fk c l d d'); try done. by apply (Hm d o1).
Qed.

Lemma walk_file_ok es e s s' :
  walked es s ->
  walk_file env name dir tmp e s = (Ok tt, s') -> walked (es ++ [e]) s'.
Proof.
  intros W. unfold walk_file. destruct (we_err e); [done|].
  destruct (we_regular e) eqn:Er; cbn [negb];
    [|intros [= <-]; apply walked_none; [unfold asked; by rewrite Er|done]].
  destruct (HasSuffix (we_path e) apkgSuffix) eqn:Es; cbn [negb];
    [|intros [= <-]; apply walked_none; [unfold asked; by rewrite Er, Es|done]].
  set (rpath := TrimLeft _ slash). destruct (we_Size e =? 0) eqn:Ez.
  - unfold remove_file. destruct (removal_name rpath) as [[[os arch] h]|] eqn:En;
      [|intros [= <-]; apply walked_none; [unfold asked; by rewrite Er, Es, Ez; fold rpath; rewrite En|done]].
    intros [(l & s1 & E1 & E)|(om & _ & _ & ?)]%bind_cases; [|done].
    apply (file_db_cases _ es) in E1 as [W1 Hl]; [|done..].
    eapply (on_db_change es e s1); [|exact W1|exact Hl| |exact E|done|by left].
    { unfold asked. rewrite Er, Es, Ez. fold rpath. by rewrite En. }
    intros d o d' Hlk Em _ [Ho|[x ?]]; [|done]. destruct o as [[]| |]; [|done..].
    by apply RemovePackage_applied.
  - unfold index_file.
    intros [(f & s0 & E0 & E)|(om & _ & _ & ?)]%bind_cases; [|done]. injection E0 as Eo <-. revert E.
    intros [(p & s0 & E0 & E)|(om & _ & _ & ?)]%bind_cases; [|done]. injection E0 as Ep <-. revert E.
    intros [(m & s0 & E0 & E)|(om & _ & _ & ?)]%bind_cases; [|done]. injection E0 as Em <-. revert E.
    intros [(l & s1 & E1 & E)|(om & _ & _ & ?)]%bind_cases; [|done].
    apply (file_db_cases _ es) in E1 as [W1 Hl]; [|done..]. revert E.
    unfold try_st. munfold. destruct (on_world _ s1) as [o2 s2] eqn:E2.
    assert (o2 <> Panic -> walked (es ++ [e]) s2) as Hw; [|destruct o2; by intros [= <-]; apply Hw].
    intros Hp. eapply (on_db_change es e s1); [|exact W1|exact Hl| |exact E2|done|by right; eauto].
    { unfold asked. rewrite Er, Es, Ez. fold rpath. by rewrite Eo, Ep, Em. }
    intros d o d' Hlk Ea _ _. by apply AddPackage_applied in Ea as (_ & ?).
Qed.

Lemma walk_ok es0 es s s' :
  walked es0 s ->
  walk env name dir tmp es s = (Ok tt, s') -> walked (es0 ++ es) s'.
Proof.
  revert es0 s. induction es as [|e es IH]; intros es0 s W; cbn [walk].
  { intros [= <-]. by rewrite app_nil_r. }
  intros [([] & s1 & E1 & E)|(om & _ & _ & ?)]%bind_cases; [|done].
  apply (walk_file_ok es0) in E1; [|done..].
  replace (es0 ++ e :: es) with ((es0 ++ [e]) ++ es) by (by rewrite <-app_assoc).
  by eapply IH.
Qed.

(** ** The walk lets nothing out *)

Definition silent {A} (m : ST ixState A) : Prop := forall s o s', m s = (o, s') -> ix_log s' = ix_log s.

Lemma silent_bind {A B} (m : ST ixState A) (f : A -> ST ixState B) :
  silent m -> (forall a, silent (f a)) -> silent (m ≫= f).
Proof.
  intros Hm Hf s o s' [(a & s1 & E1 & E2)|(om & E1 & _)]%bind_cases; [|by eapply Hm].
  etrans; [by eapply Hf|by eapply Hm].
Qed.
Lemma silent_lift {A} (o : outcome A) : silent (lift_st o).
Proof. by intros s o' s' [= _ <-]. Qed.
Lemma silent_ret {A} (a : A) : silent (mret a).
Proof. by intros s o' s' [= _ <-]. Qed.
Lemma silent_err {A} e : silent (@err_st ixState A e).
Proof. by intros s o' s' [= _ <-]. Qed.
Lemma silent_get : silent get_st.
Proof. by intros s o' s' [= _ <-]. Qed.
Lemma silent_on_world {A} (m : ST World A) : silent (on_world m).
Proof. intros s o s'. unfold on_world. destruct (m _). by intros [= _ <-]. Qed.
Lemma silent_add fk l : silent (add_file fk l).
Proof. by intros s o' s' [= _ <-]. Qed.
Lemma silent_try {A} (m : ST ixState A) : silent m -> silent (try_st m).
Proof.
  intros Hm s o s'. unfold try_st. destruct (m s) as [o1 s1] eqn:E. apply Hm in E.
  destruct o1; by intros [= _ <-].
Qed.
Create HintDb silent.
#[local] Hint Resolve silent_bind silent_lift silent_ret silent_err silent_get silent_on_world
  silent_add silent_try : silent.

Lemma silent_file_db fk : silent (file_db env name tmp fk).
Proof. apply silent_bind; [auto with silent|]. intros s. destruct (_ !! _); auto 6 with silent. Qed.

Lemma silent_walk_file e : silent (walk_file env name dir tmp e).
Proof.
  unfold walk_file, remove_file, index_file. pose proof silent_file_db.
  repeat (case_match; auto with silent).
  apply silent_bind; [auto with silent|intros f]. apply silent_bind; [auto with silent|intros p].
  apply silent_bind; [auto with silent|intros m]. apply silent_bind; [auto with silent|intros l].
  auto with silent.
Qed.

Lemma silent_walk es : silent (walk env name dir tmp es).
Proof.
  induction es as [|e es IH]; cbn [walk]; [apply silent_ret|].
  apply silent_bind; [apply silent_walk_file|by intros _].
Qed.
End walk.

(** ** Publishing *)

Section publish.
Context `{BoltSpec, LlrbOps, Ldcache, !Json, GoRange, GoSort, Ed25519, Jwt, Squashfs, Remote, PkgJson}.
Context (jwt_Sign : gmap bytes bytes -> bytes -> HsmKey -> outcome bytes).
Context (k : HsmKey) (now : nat -> Z * Z).

(** What leaves for a database with settings [c] and data [b]: a file made of
    the data, which passes every check of [index], and its three uploads. *)
Definition published (c : DBConf) (b : bdb) (sec nsec : Z) (log : list effect) : Prop :=
  let fn := path_Join [db_path c; Stamp sec nsec ++ str ".bin"] in
  exists f h data,
    export_file k c sec nsec b = Ok f /\ check_file (db_name c) f = Ok (h, data) /\
    WriteFile fn f ∈ log /\
    forall cmd, cmd ∈ export_commands c fn (Stamp sec nsec) -> Exec cmd ∈ log.

Lemma published_more c b sec nsec log l : published c b sec nsec log -> published c b sec nsec (log ++ l).
Proof.
  intros (f & h & data & E & C & Hw & Hx). exists f, h, data. setoid_rewrite elem_of_app. eauto 10.
Qed.

Lemma run_all_execs cmds s s' :
  run_all cmds s = (Ok tt, s') -> forall cmd, cmd ∈ cmds -> Exec cmd ∈ s'.2.
Proof.
  revert s. induction cmds as [|c cmds IH]; intros s; [intros _ cmd Hc; by inversion Hc|]. cbn [run_all].
  intros [([] & s1 & E1 & E)|(om & _ & _ & ?)]%bind_cases; [|done]. injection E1 as <-. revert E.
  intros [([] & s2 & E2 & E)|(om & _ & _ & ?)]%bind_cases; [|done].
  intros cmd [->|Hc]%elem_of_cons; [|by eapply IH].
  apply (quiet_os_call (fun _ => True)) in E2 as (_ & _ & _ & l2 & W2 & _).
  apply quiet_run_all in E as (_ & _ & _ & l3 & W3 & _).
  rewrite W3, W2. cbn. set_solver.
Qed.

Lemma export_write_file c sec nsec fn s f s' :
  export_write k c sec nsec fn s = (Ok f, s') -> export_file k c sec nsec (file s.1) = Ok f.
Proof.
  unfold export_write.
  intros [([] & s1 & E1 & E)|(om & _ & _ & ?)]%bind_cases; [|done].
  apply (quiet_os_call not_exec) in E1 as (F1 & _). revert E.
  intros [(f0 & s2 & E2 & E)|(om & _ & _ & ?)]%bind_cases; [|done].
  unfold on_db, with_RLock, View in E2. cbn in E2. destruct (locked s1.1); [done|].
  destruct (dbptr s1.1); [|done]. injection E2 as E2 <-. rewrite F1 in E2. rewrite E2. f_equal.
  revert E. intros [(? & s3 & _ & E)|(om & _ & _ & ?)]%bind_cases; [|done]. revert E.
  intros [(? & s4 & _ & E)|(om & _ & _ & ?)]%bind_cases; [|done]. revert E.
  intros [(? & s5 & _ & E)|(om & _ & _ & ?)]%bind_cases; [|done]. by injection E as -> _.
Qed.

Lemma export_publish_execs c fn stamp s s' :
  export_publish jwt_Sign k c fn stamp s = (Ok tt, s') ->
  forall cmd, cmd ∈ export_commands c fn stamp -> Exec cmd ∈ s'.2.
Proof.
  unfold export_publish.
  do 7 (intros [(? & ? & _ & E)|(om & _ & _ & ?)]%bind_cases; [revert E|done]).
  apply run_all_execs.
Qed.

Lemma ExportAndUpload_ok sec nsec d log d' log' :
  locked d = false ->
  ExportAndUpload jwt_Sign k sec nsec (d, log) = (Ok tt, (d', log')) ->
  published (conf d) (file d) sec nsec log' /\ exists l, log' = log ++ l.
Proof.
  intros Hl. unfold ExportAndUpload, published. set (fn := path_Join _).
  intros [(s0 & s0' & E0 & E)|(om & _ & _ & ?)]%bind_cases; [|done].
  injection E0 as <- <-. cbn [fst] in E. fold fn in E. revert E.
  intros [(f & s1 & E1 & E)|(om & _ & _ & ?)]%bind_cases; [|done].
  pose proof (export_write_logged _ _ _ _ _ _ _ _ E1) as Hlog.
  pose proof (export_write_file _ _ _ _ _ _ _ E1) as Hfile.
  apply quiet_export_write in E1 as (F1 & C1 & L1 & l1 & W1 & _). cbn in F1, C1, L1, W1, Hfile.
  revert E. intros [([] & s2 & E2 & E)|(om & _ & _ & ?)]%bind_cases; [|done].
  pose proof (export_publish_execs _ _ _ _ _ E) as Hx.
  apply quiet_export_publish in E as (_ & _ & _ & l2 & W2 & _). cbn in W2, Hx.
  revert E2. unfold on_db. destruct (index f s1.1) as [o2 d2] eqn:Ei. intros [= -> <-]. cbn in W2.
  apply index_cases in Ei; [|congruence]. rewrite C1 in Ei.
  destruct (check_file (db_name (conf d)) f) as [[h data]| |] eqn:Ec; [|by destruct Ei..].
  split; [|exists (l1 ++ l2); by rewrite W2, W1, app_assoc].
  exists f, h, data. split; [done|]. split; [done|]. split; [|done]. rewrite W2. set_solver.
Qed.

(** Each database is exported from the data it has when the loop starts. *)
Lemma export_all_ok l s s' :
  NoDup l.*2 -> (forall fk n d, (fk, n) ∈ l -> dbs (ix_world s) !! n = Some d -> locked d = false) ->
  export_all jwt_Sign k now l s = (Ok tt, s') ->
  (exists more, ix_log s' = ix_log s ++ more) /\
  forall fk n, (fk, n) ∈ l -> exists d, dbs (ix_world s) !! n = Some d /\
    published (conf d) (file d) (now n).1 (now n).2 (ix_log s').
Proof.
  revert s. induction l as [|[fk n] l IH]; intros s Hnd Hlk; cbn [export_all].
  { intros [= <-]. split; [exists []; by rewrite app_nil_r|]. intros fk n Hn. by inversion Hn. }
  cbn in Hnd. apply NoDup_cons in Hnd as [Hni Hnd].
  intros [([] & s1 & E1 & E)|(om & _ & _ & ?)]%bind_cases; [|done]. cbn [snd] in E1.
  unfold export_db in E1. destruct (dbs (ix_world s) !! n) as [d|] eqn:Ed; [|done].
  destruct (ExportAndUpload _ _ _ _ _) as [o [d' log]] eqn:Ee. injection E1 as -> <-.
  apply ExportAndUpload_ok in Ee as (P & lg & ->); [|eapply (Hlk fk); [by left|done]].
  assert (forall fk' n', (fk', n') ∈ l -> n <> n') as Hne.
  { intros fk' n' Hin ->. apply Hni, list_elem_of_fmap. by exists (fk', n'). }
  assert (forall fk' n' d1, (fk', n') ∈ l -> <[n := d']> (dbs (ix_world s)) !! n' = Some d1 ->
    locked d1 = false) as Hlk'.
  { intros fk' n' d1 Hin. rewrite lookup_insert_ne by eauto. intros Hd. eapply Hlk; [by right|done]. }
  destruct (IH (with_db n d' {| ix_files := ix_files s; ix_world := ix_world s; ix_log := ix_log s ++ lg |})
    Hnd Hlk' E) as [[more Hm] Hall]. cbn in Hm, Hall.
  split; [exists (lg ++ more); by rewrite Hm, app_assoc|].
  intros fk' n' [[= -> ->]|Hin]%elem_of_cons.
  - exists d. split; [done|]. rewrite Hm. by apply published_more.
  - destruct (Hall fk' n' Hin) as (d1 & Hd & Hp). rewrite lookup_insert_ne in Hd by eauto. eauto.
Qed.
End publish.

Section theorem.
Context `{BoltSpec, LlrbOps, Ldcache, !Json, GoRange, GoSort, Ed25519, Jwt, Squashfs, Remote, PkgJson}.
Context `{!PkgMetaJson, !GoRangeKeys, !GoRangeKeysSpec}.

Lemma range_keys_elem {V} (m : gmap fileKey V) fk v : (fk, v) ∈ range_keys V m <-> m !! fk = Some v.
Proof. by rewrite range_keys_perm, elem_of_map_to_list. Qed.

Lemma range_keys_NoDup {V} (m : gmap fileKey V) :
  (forall fk fk' v, m !! fk = Some v -> m !! fk' = Some v -> fk = fk') ->
  NoDup (range_keys V m).*2.
Proof.
  intros Hinj. rewrite range_keys_perm. apply NoDup_fmap_2_strong; [|apply NoDup_map_to_list].
  intros [fk v] [fk' v'] H1'%elem_of_map_to_list H2'%elem_of_map_to_list. cbn. intros <-.
  f_equal. by eapply Hinj.
Qed.

Lemma range_unlocked env name dir tmp es s :
  walked env name dir tmp es s ->
  forall fk n d, (fk, n) ∈ range_keys _ (ix_files s) -> dbs (ix_world s) !! n = Some d -> locked d = false.
Proof.
  intros W fk n d Hin%range_keys_elem Hd.
  destruct (wk_db _ _ _ _ _ _ W _ _ Hin) as (_ & d0 & d1 & _ & Hd1 & L & _). congruence.
Qed.

Lemma walked_start env name dir tmp w :
  walked env name dir tmp [] {| ix_files := ∅; ix_world := w; ix_log := [] |}.
Proof. split; cbn; [intros ??; by rewrite lookup_empty..|done]. Qed.

(** What the walk makes of a database whose calls succeed. *)
Lemma walk_changes env name dir tmp es w s fk l d :
  (forall d, start_db env name tmp fk = Ok d -> faults d = []) ->
  walk env name dir tmp es {| ix_files := ∅; ix_world := w; ix_log := [] |} = (Ok tt, s) ->
  ix_files s !! fk = Some l -> dbs (ix_world s) !! l = Some d ->
  exists d0, start_db env name tmp fk = Ok d0 /\ applied_all (changes dir fk es) (file d0) (file d).
Proof.
  intros Hf Ew Hl Hd. apply (walk_ok _ _ _ _ []) in Ew; [|apply walked_start]. cbn [app] in Ew.
  destruct (wk_db _ _ _ _ _ _ Ew _ _ Hl) as (_ & d0 & d1 & Es & Hd1 & _ & _ & made & _ & A & F).
  destruct (F (Hf d0 Es)) as [_ ->]. exists d0. split; [done|]. congruence.
Qed.

(** A run that succeeds: the state after the walk, and what is published of each
    of its databases. *)
Lemma processDb_Ok jwt_Sign env k name now tmp home es w s' :
  let dir := path_Join [home; str "projects/apkg-tools/repo/apkg/dist"; name] in
  let start := {| ix_files := ∅; ix_world := w; ix_log := [] |} in
  processDb jwt_Sign env k name now (Ok tmp) home es start = (Ok tt, s') ->
  exists s1, walk env name dir tmp es start = (Ok tt, s1) /\ walked env name dir tmp es s1 /\
    forall fk l, ix_files s1 !! fk = Some l -> exists d, dbs (ix_world s1) !! l = Some d /\
      published k (conf d) (file d) (now l).1 (now l).2 (ix_log s').
Proof.
  intros dir start. unfold processDb. fold dir. munfold.
  destruct (walk env name dir tmp es start) as [o1 s1] eqn:Ew.
  destruct o1 as [[]|e|]; [|done..]. intros E. exists s1. split; [done|].
  apply (walk_ok _ _ _ _ []) in Ew; [|apply walked_start]. cbn [app] in Ew. split; [done|].
  intros fk l Hl.
  destruct (export_all_ok _ _ _ _ _ _ (range_keys_NoDup _ (wk_inj _ _ _ _ _ _ Ew)) (range_unlocked _ _ _ _ _ _ Ew) E)
    as [_ Hp].
  apply (Hp fk l). by apply range_keys_elem.
Qed.

(** C18: What [apkg-index] publishes, whatever calls fail.  It has a database for
    every platform the package files name.  When it succeeds, what it publishes
    for each is made of the database as [NewOsArch] found it with the changes of
    the files of that platform, in the order of the walk: a package whose hash
    is new is stored, an empty file takes its name out.  With no failing call in
    a database these are exactly the changes its files ask for; where calls
    fail, a package that could not be added is left out (the code logs the
    failure and goes on), and nothing else.  When the walk ends with an error,
    nothing is written and nothing is uploaded for any platform. *)
Theorem processDb_publishes jwt_Sign env k name now tmp home es w o s' :
  let dir := path_Join [home; str "projects/apkg-tools/repo/apkg/dist"; name] in
  let start := {| ix_files := ∅; ix_world := w; ix_log := [] |} in
  processDb jwt_Sign env k name now (Ok tmp) home es start = (o, s') ->
  match walk env name dir tmp es start with
  | (Ok _, s1) => o = Ok tt ->
      (forall fk, changes dir fk es <> [] -> is_Some (ix_files s1 !! fk)) /\
      forall fk l, ix_files s1 !! fk = Some l ->
        exists d0 made b, start_db env name tmp fk = Ok d0 /\
          left_out made (changes dir fk es) /\
          (faults d0 = [] -> made = changes dir fk es) /\
          applied_all made (file d0) b /\
          published k (conf d0) b (now l).1 (now l).2 (ix_log s')
  | (Err e, _) => o = Err e /\ ix_log s' = []
  | (Panic, _) => o = Panic /\ ix_log s' = []
  end.
Proof.
  intros dir start E. destruct (walk env name dir tmp es start) as [o1 s1] eqn:Ew.
  destruct o1 as [[]|e|].
  2,3: pose proof (silent_walk _ _ _ _ _ _ _ _ Ew) as Hlog; revert E; unfold processDb; fold dir; munfold;
    rewrite Ew; by intros [= <- <-].
  intros ->. destruct (processDb_Ok _ _ _ _ _ _ _ _ _ _ E) as (s2 & Ew2 & W & P). fold dir start in Ew2, W.
  rewrite Ew in Ew2. injection Ew2 as <-. split; [apply W|]. intros fk l Hl.
  destruct (P fk l Hl) as (d & Hd & Pd).
  destruct (wk_db _ _ _ _ _ _ W _ _ Hl) as (_ & d0 & d1 & Es & Hd1 & _ & C & made & K & A & F).
  assert (d1 = d) as -> by congruence. exists d0, made, (file d). rewrite <-C.
  split; [done|]. split; [done|]. split; [by intros [_ ?]%F|]. by split.
Qed.
End theorem.

(** ** Concrete instance, for evaluation *)

Module SampleIndexer.
#[local] Existing Instance MapBolt.ops.
#[local] Existing Instance MapBolt.spec.
#[local] Existing Instance Sample.list_llrb.
#[local] Existing Instance Sample.list_llrb_spec.
#[local] Existing Instance SampleLd.ldcache.
#[local] Existing Instance SampleLd.json.
#[local] Existing Instance SampleLd.range.
#[local] Existing Instance Toy.toy_ed25519.
#[local] Existing Instance SampleUpd.jwt.
#[local] Existing Instance SamplePkg.squashfs.
#[local] Existing Instance SamplePkg.remote.
#[local] Existing Instance SamplePkg.json.
Instance pkg_meta : PkgMetaJson := fun m => Ok {|
  pm_FullName := m; pm_Inodes := 5; pm_Arch := str "amd64"; pm_Os := str "linux" |}.
Instance sort : GoSort := insertion_sort.
Instance range_fks : GoRangeKeys := fun V m => map_to_list m.
Instance range_fks_spec : GoRangeKeysSpec.
Proof. by intros V m. Qed.

Example removal_1 :
  removal_name (str "core/symlinks/core.symlinks.0.0.2.linux.amd64-5d569d7.apkg") =
    Some (str "linux", str "amd64", str "5d569d7").
Proof. reflexivity. Qed.
Example removal_2 : removal_name (str "core.symlinks.0.0.2.linux.amd64-5D569d7.apkg") = None.
Proof. reflexivity. Qed.
Example removal_3 : removal_name (str "linux.amd64-5d569d7.apkg") = None.
Proof. reflexivity. Qed.

Definition env : environ := {|
  env_file _ := Some (snd (tx_put infoBucket versionKey (str "20220601015543") SampleExport.data));
  env_open := None; env_faults := []; env_net := SampleUpd.net |}.
Definition home : bytes := str "/root".
Definition file_at (rest : bytes) (n : Z) (content : outcome bytes) : walkEntry := {|
  we_path := str "/root/projects/apkg-tools/repo/apkg/dist/main/" ++ rest;
  we_err := None; we_regular := true; we_Size := n; we_open := content |}.

(** A new package, then the removal of the one in the database. *)
Definition entries : list walkEntry := [
  file_at (str "a/meta.apkg") 518 (Ok SamplePkg.apkg);
  file_at (str "sys-libs/sys-libs.zlib.libs.1.2.13.linux.amd64-0123456.apkg") 0 (Ok [])].
Definition world0 : World := {|
  dbs := ∅; db_next := 0; pkgs := ∅; pkg_next := 0; pkgCache := ∅;
  reg := {| unsignedMap := None; u_heap := ∅; u_next := 0 |};
  loadUnsigned := false; threads := [] |}.

Lemma no_faults fk d : start_db env (str "main") (str "/tmp/x") fk = Ok d -> faults d = [].
Proof.
  unfold start_db, open_db. cbn [env_open env mbind outcome_bind]. unfold init_db, try_st. munfold.
  set (d0 := {| conf := _ |}). destruct (buildLdso d0) as [o1 d1] eqn:E1.
  apply buildLdso_frame in E1 as (_ & Ef & Ep & El & Ez & _).
  assert (CurrentVersion d1 = Ok (str "20220601015543")) as Hv.
  { unfold CurrentVersion, current_version, with_RLock, View. rewrite Ef, Ep, El. vm_compute. reflexivity. }
  destruct o1 as [[]|e|]; cbn beta iota; [..|done].
  all: rewrite Hv, bool_decide_eq_false_2 by done; intros [= <-]; by rewrite Ez.
Qed.

Definition start0 : ixState := {| ix_files := ∅; ix_world := world0; ix_log := [] |}.
Definition jwt_text (m : gmap bytes bytes) (kid : bytes) (k : HsmKey) : outcome bytes := Ok (str "jwt").
Definition at_time (l : nat) : Z * Z := (1654048543, 0).
Definition dir0 : bytes := path_Join [home; str "projects/apkg-tools/repo/apkg/dist"; str "main"].
Definition amd64 : fileKey := {| fk_arch := str "amd64"; fk_os := str "linux" |}.

Lemma index_run_ok : exists s',
  processDb jwt_text env (Toy.key Toy.db_kid) (str "main") at_time (Ok (str "/tmp/x")) home entries start0 =
    (Ok tt, s').
Proof.
  assert (fst (processDb jwt_text env (Toy.key Toy.db_kid) (str "main") at_time (Ok (str "/tmp/x")) home
    entries start0) = Ok tt) as Ho by (vm_compute; reflexivity).
  destruct (processDb _ _ _ _ _ _ _ _ _) as [o s']. cbn [fst] in Ho. subst o. by exists s'.
Qed.

Lemma walk_run : exists s1, walk env (str "main") dir0 (str "/tmp/x") entries start0 = (Ok tt, s1).
Proof.
  assert (fst (walk env (str "main") dir0 (str "/tmp/x") entries start0) = Ok tt) as Ho
    by (vm_compute; reflexivity).
  destruct (walk _ _ _ _ _ _) as [o s1]. cbn [fst] in Ho. subst o. by exists s1.
Qed.

Lemma changes_run : exists e, changes dir0 amd64 entries = [CAdd e; CRemove (e_name SampleExport.entry)].
Proof. eexists. vm_compute. reflexivity. Qed.

Lemma processDb_publishes_witness :
  exists s' d0 b,
    processDb jwt_text env (Toy.key Toy.db_kid) (str "main") at_time (Ok (str "/tmp/x")) home entries start0 =
      (Ok tt, s') /\
    start_db env (str "main") (str "/tmp/x") amd64 = Ok d0 /\
    (exists e, applied_all [CAdd e; CRemove (e_name SampleExport.entry)] (file d0) b) /\
    published (Toy.key Toy.db_kid) (conf d0) b 1654048543 0 (ix_log s').
Proof.
  destruct index_run_ok as [s' E]. destruct walk_run as [s1 Ew]. destruct changes_run as [e Hc].
  pose proof (processDb_publishes jwt_text env (Toy.key Toy.db_kid) (str "main")
    at_time (str "/tmp/x") home entries world0 (Ok tt) s' E) as Hp.
  cbv zeta in Hp. fold dir0 start0 in Hp. rewrite Ew in Hp. destruct (Hp eq_refl) as [Hall Hpub].
  destruct (Hall amd64) as [l Hl]; [by rewrite Hc|].
  destruct (Hpub amd64 l Hl) as (d0 & made & b & Es & _ & F & A & P). exists s', d0, b.
  split; [exact E|]. split; [exact Es|]. split; [|exact P]. exists e.
  rewrite <-Hc, <-(F (no_faults amd64 d0 Es)). exact A.
Defined.
End SampleIndexer.
