(* ===== verification/Http.v ===== *)
(** * Http: the status page of a database ([apkgdb/http.go])

    [ServeHTTP] lists the packages of a database, or of one of its
    sub-databases, or describes it.  A response is its status code and body;
    the two parameters of the query are arguments. *)

From S2P Require Import Prelude GoLib GoPath Sig Collate Natsort OsArch Bolt Store GoTime Pins Ldso Index Export Package Update Unsigned World Lookup.
Local Open Scope Z_scope.

Record httpResponse := { hr_Code : Z; hr_Body : bytes }.
Definition StatusOK : Z := 200.
Definition StatusBadRequest : Z := 400.
Definition StatusInternalServerError : Z := 500.

(** [fmt.Fprintf(w, "%s\n", v)], and the lines of a list. *)
Definition line (v : bytes) : bytes := v ++ newline.
Definition lines (l : list bytes) : bytes := concat (line <$> l).
(** [http.Error] *)
Definition http_Error (msg : bytes) (code : Z) : httpResponse := {| hr_Code := code; hr_Body := line msg |}.

Section Http.
Context `{BoltOps, LlrbOps, Ldcache, !Json, GoRange, GoSort, Ed25519, Jwt, Squashfs, Remote, PkgJson}.
(** The text of an error. *)
Context (Error : error -> bytes).

(** A value shorter than its fixed part makes the slice expression panic. *)
Definition package_names (b : bdb) : outcome (list bytes) :=
  if has_bucket b p2pBucket then
    mapM (fun e : kv => slice 40 (length e.2) e.2) (Entries b p2pBucket)
  else Ok [].

Definition getPackagesList (l : nat) : ST World (list bytes) :=
  d ← get_db l;
  w ← get_st;
  let res := listUnsigned (db_osV (conf d)) (db_archV (conf d)) (reg w) in
  lift_st (with_RLock (fun d =>
    match dbptr d with
    | None => Ok res
    | Some _ => names ← View package_names d; Ok (natSort (res ++ names))
    end) d).

Definition sub_name (s : ArchOS) : bytes := OS_String (ao_OS s) ++ [dot] ++ Arch_String (ao_Arch s).

Definition status_page (l : nat) : ST World bytes :=
  d ← get_db l;
  version ← lift_st (CurrentVersion d);
  let subs := ListSubs d in
  mret (line (str "APKGDB STATUS") ++ newline ++
        line (str "Name: " ++ db_name (conf d)) ++ line (str "OS: " ++ db_os (conf d)) ++
        line (str "Arch: " ++ db_arch (conf d)) ++ line (str "Prefix: " ++ db_prefix (conf d)) ++
        line (str "Version: " ++ version) ++
        (if (0 <? length subs)%nat then
           line (str "Sub databases:") ++
           lines ((fun v => str "  - " ++ v) <$> sort_Sort bytes_ltb (sub_name <$> subs))
         else [])).

Definition respond (l : nat) (act : bytes) : ST World httpResponse :=
  if bool_decide (act = str "list") then
    list ← getPackagesList l;
    mret {| hr_Code := StatusOK; hr_Body := lines list |}
  else
    body ← status_page l;
    mret {| hr_Code := StatusOK; hr_Body := body |}.

(** Only a database without a parent has sub-databases. *)
Definition ServeHTTP (env : environ) (l : nat) (sub act : bytes) : ST World httpResponse :=
  d ← get_db l;
  if bool_decide (parent d = None) && negb (bool_decide (sub = [])) then
    let archos := ParseArchOS sub in
    if negb (IsValid archos) then mret (http_Error (str "Bad value for sub") StatusBadRequest)
    else fun w =>
      match SubGet env l archos w with
      | (Ok db, w) => respond db act w
      | (Err e, w) => (Ok (http_Error (Error e) StatusInternalServerError), w)
      | (Panic, w) => (Panic, w)
      end
  else respond l act.
End Http.

(** ** Properties *)

Section theorems.
Context `{BoltSpec, LlrbOps, Ldcache, !Json, GoRange, GoSortSpec, Ed25519, Jwt, Squashfs, Remote, PkgJson}.
Context (Error : error -> bytes).

Lemma package_names_listing b :
  db_wf b -> exists es, package_names b = Ok (e_name <$> es) /\
    if has_bucket b p2pBucket then listing b es else es = [].
Proof.
  intros Hw. unfold package_names. destruct (has_bucket b p2pBucket) eqn:E; [|by exists []].
  apply has_bucket_has in E. destruct (listing_exists b Hw E) as (es & L & We). exists es. split; [|done].
  unfold listing in L. induction L as [|x e l es [-> _] _ IH]; [done|].
  apply Forall_cons in We as [We Wes]. cbn [mapM snd].
  assert (slice 40 (length (p2p_value e)) (p2p_value e) = Ok (e_name e)) as ->; [|by rewrite IH].
  destruct We as (Hh & _).
  assert (p2p_value e = (e_hash e ++ be_put 8 (e_inodes e)) ++ e_name e ++ []) as ->
    by (unfold p2p_value; by rewrite app_nil_r, <-app_assoc).
  apply slice_mid; rewrite !length_app, length_be_put; cbn; lia.
Qed.

(** C28: the list of packages.  Asked for the list, for itself or for a valid
    sub-database, a database with well-formed data answers with one line for
    each unsigned package of its platform and each entry of its name index,
    all in natural order, and nothing else changes. *)
Theorem ServeHTTP_list env l sub w l0 d0 w' d :
  dbs w !! l = Some d0 ->
  (sub = [] \/ parent d0 <> None) /\ l0 = l /\ w' = w \/
  sub <> [] /\ parent d0 = None /\ IsValid (ParseArchOS sub) = true /\
    SubGet env l (ParseArchOS sub) w = (Ok l0, w') ->
  dbs w' !! l0 = Some d -> locked d = false -> dbptr d <> None -> db_wf (file d) ->
  exists names es,
    ServeHTTP Error env l sub (str "list") w = (Ok {| hr_Code := 200; hr_Body := lines names |}, w') /\
    names ≡ₚ listUnsigned (db_osV (conf d)) (db_archV (conf d)) (reg w') ++ (e_name <$> es) /\
    Sorted (fun x y => tokens_cmp (tokens x) (tokens y) <> Gt) names /\
    if has_bucket (file d) p2pBucket then listing (file d) es else es = [].
Proof.
  intros Hl Ht Hd Hlk Hp Hw. destruct (package_names_listing (file d) Hw) as (es & Ees & Hes).
  set (u := listUnsigned (db_osV (conf d)) (db_archV (conf d)) (reg w')).
  destruct (natSort_order (u ++ (e_name <$> es))) as [Hperm Hsort].
  exists (natSort (u ++ (e_name <$> es))), es. split; [|done].
  assert (respond l0 (str "list") w' =
    (Ok {| hr_Code := 200; hr_Body := lines (natSort (u ++ (e_name <$> es))) |}, w')) as Hr.
  { unfold respond. rewrite bool_decide_eq_true_2 by done. unfold getPackagesList, get_db. munfold.
    rewrite Hd. unfold with_RLock, View. rewrite Hlk. destruct (dbptr d); [|done]. by rewrite Ees. }
  unfold ServeHTTP, get_db. munfold. rewrite Hl.
  destruct Ht as [(Hs & -> & ->)|(Hs & Hpar & Hv & Hsub)].
  - rewrite (proj2 (andb_false_iff _ _)); [exact Hr|].
    destruct Hs as [->|Hs]; [by right|left; by apply bool_decide_eq_false].
  - rewrite Hpar, bool_decide_eq_true_2, bool_decide_eq_false_2 by done. cbn [negb andb].
    rewrite Hv. cbn [negb]. by rewrite Hsub.
Qed.

(** A name that is no platform is refused before anything is opened. *)
Lemma ServeHTTP_bad_sub env l sub act w d :
  dbs w !! l = Some d -> parent d = None -> sub <> [] -> IsValid (ParseArchOS sub) = false ->
  ServeHTTP Error env l sub act w =
    (Ok {| hr_Code := 400; hr_Body := line (str "Bad value for sub") |}, w).
Proof.
  intros Hd Hp Hs Hv. unfold ServeHTTP, get_db. munfold. rewrite Hd, Hp.
  rewrite bool_decide_eq_true_2, bool_decide_eq_false_2 by done. cbn [negb andb].
  by rewrite Hv.
Qed.
End theorems.

(** ** Concrete instance, for evaluation *)

Module SampleHttp.
Import SampleWorld.
#[local] Existing Instance MapBolt.ops.
#[local] Existing Instance MapBolt.spec.
#[local] Existing Instance Sample.list_llrb.
#[local] Existing Instance SampleLd.ldcache.
#[local] Existing Instance SampleLd.json.
#[local] Existing Instance SampleLd.range.
#[local] Existing Instance Toy.toy_ed25519.
#[local] Existing Instance SampleUpd.jwt.
#[local] Existing Instance SamplePkg.squashfs.
#[local] Existing Instance SamplePkg.remote.
#[local] Existing Instance SamplePkg.json.
#[local] Existing Instance insertion_GoSort.
#[local] Existing Instance insertion_GoSortSpec.

Definition text (e : error) : bytes := str "error".

Example page_1 :
  fst (ServeHTTP text SampleRun.env 0 [] [] world) = Ok {|
    hr_Code := 200;
    hr_Body := lines [str "APKGDB STATUS"; []; str "Name: main"; str "OS: linux"; str "Arch: amd64";
                      str "Prefix: https://data.apkg.net/"; str "Version: "] |}.
Proof. vm_compute. reflexivity. Qed.

Lemma ServeHTTP_list_witness :
  exists names, ServeHTTP text SampleRun.env 0 [] (str "list") world =
    (Ok {| hr_Code := 200; hr_Body := lines names |}, world).
Proof.
  destruct (ServeHTTP_list text SampleRun.env 0 [] world 0 (the_db None) world (the_db None))
    as (names & es & E & _).
  - reflexivity.
  - left. split; [by left|done].
  - reflexivity.
  - reflexivity.
  - discriminate.
  - exact (proj1 sample_wf).
  - exists names. exact E.
Defined.
End SampleHttp.
