(* ===== verification/Daemon.v ===== *)
(** * Daemon: the main program ([main.go], [updater.go], [ctrl.go], [vars.go])

    The start of the daemon, its signals, the replacement of its own executable,
    and the control channel. *)

From S2P Require Import Prelude GoLib GoPath Sig Collate Natsort OsArch Bolt Store GoTime Pins Ldso Index Export Package Update Unsigned World Lookup Proto Fuse Strconv Mount Linux.
Local Open Scope Z_scope.

(** ** [vars.go]: the build's date *)

Definition unknown : bytes := str "unknown".

(** [init]; a [break] leaves the switch only. *)
Fixpoint date_loop (settings : list (bytes * bytes)) (tag : bytes) : bytes :=
  match settings with
  | [] => tag
  | (key, value) :: settings =>
      date_loop settings
        (if bool_decide (key = str "vcs.time") then
           if negb (bool_decide (tag = unknown)) then tag
           else
             let v := filter (fun c => is_digit c = true) value in
             if (length v =? 14)%nat then v else tag
         else tag)
  end.
Definition DATE_TAG (build_info : option (list (bytes * bytes))) : bytes :=
  match build_info with Some settings => date_loop settings unknown | None => unknown end.

(** ** [updater.go] *)

(** What a round finds: the link to the latest version, the path of the
    executable, the new binary, and where reading it fails. *)
Record round := {
  ro_link : outcome bytes; ro_exec : outcome bytes;
  ro_new : outcome bytes; ro_copy : option (nat * error) }.

(** Files with their executable bit, the running version [v], the signals the
    process sent itself, and the outcomes of the coming system calls. *)
Record upState := {
  up_files : gmap bytes (bytes * bool); up_v : bytes; up_signals : nat;
  up_faults : list (option error) }.

Definition up_call : ST upState unit := fun s =>
  (match default None (head (up_faults s)) with None => Ok tt | Some e => Err e end,
   {| up_files := up_files s; up_v := up_v s; up_signals := up_signals s;
      up_faults := tail (up_faults s) |}).
Definition up_set (f : gmap bytes (bytes * bool) -> gmap bytes (bytes * bool)) : ST upState unit :=
  upd_st (fun s => {| up_files := f (up_files s); up_v := up_v s; up_signals := up_signals s;
                      up_faults := up_faults s |}).

(** [os.Create] keeps the mode of a file that exists. *)
Definition up_Create (fn : bytes) : ST upState unit :=
  up_call;; up_set (fun m => <[fn := ([], default false (snd <$> m !! fn))]> m).
(** [io.Copy] into a file just created: a part of the data when it fails. *)
Definition up_Copy (fn data : bytes) (fails : option (nat * error)) : ST upState unit :=
  match fails with
  | None => up_set (alter (fun f => (data, f.2)) fn)
  | Some (n, e) => up_set (alter (fun f => (take n data, f.2)) fn);; err_st e
  end.
Definition up_Chmod (fn : bytes) : ST upState unit :=
  up_call;; up_set (alter (fun f => (f.1, true)) fn).
Definition up_Remove (fn : bytes) : ST upState unit := up_call;; up_set (delete fn).
Definition up_Rename (from to : bytes) : ST upState unit :=
  up_call;;
  up_set (fun m => match m !! from with Some f => <[to := f]> (delete from m) | None => m end).

Definition link_version (n : bytes) : bytes :=
  default [] (head (Split (TrimPrefix n (str "azusa.apkg.core.")) dot)).

(** The case [-1]: the errors are logged and end the round. *)
Definition install_new (r : round) (n : bytes) : ST upState unit :=
  exec ← lift_st (ro_exec r);
  newV ← lift_st (ro_new r);
  let tmp := exec ++ [dot] ++ n in
  up_Create tmp;;
  err ← try_st (up_Copy tmp newV (ro_copy r));
  match err with
  | Some e => _ ← try_st (up_Remove tmp); err_st e
  | None =>
      _ ← try_st (up_Chmod tmp);                 (* the error is ignored *)
      err ← try_st (up_Rename tmp exec);
      match err with
      | Some e => _ ← try_st (up_Remove tmp); err_st e
      | None =>
          upd_st (fun s => {| up_files := up_files s; up_v := n; up_signals := S (up_signals s);
                              up_faults := up_faults s |})
      end
  end.

(** One turn of the loop, between two sleeps. *)
Definition updater_round (r : round) : ST upState unit :=
  match ro_link r with
  | Ok link =>
      s ← get_st;
      let n := link_version link in
      match bytes_cmp (up_v s) n with
      | Lt => _ ← try_st (install_new r n); mret tt
      | _ => mret tt
      end
  | Err _ => mret tt
  | Panic => lift_st Panic
  end.
Fixpoint updater (rs : list round) : ST upState unit :=
  match rs with [] => mret tt | r :: rs => updater_round r;; updater rs end.

(** ** [ctrl.go] *)

(** [Stack]: the buffer doubles until the trace of all goroutines, which may
    change from one call to the next, leaves a byte of it free. *)
Fixpoint stack_loop (fuel : nat) (size : nat) (trace : nat -> bytes) (i : nat) : option bytes :=
  match fuel with
  | O => None
  | S fuel =>
      let n := Nat.min size (length (trace i)) in
      if (n <? size)%nat then Some (take n (trace i))
      else stack_loop fuel (2 * size) trace (S i)
  end.
Definition Stack (fuel : nat) (trace : nat -> bytes) : option bytes :=
  stack_loop fuel (Z.to_nat (1024 * 1024)) trace 0.

(** The port of the control socket. *)
Definition ctrl_port (uid : Z) : Z := if negb (uid =? 0) then 10000 else 100.

(** [udpHandler]: the answers to the packets received, each to its sender,
    until reading fails. *)
Fixpoint udpHandler {A} (port : Z) (packets : list (outcome (bytes * A))) : list (bytes * A) :=
  match packets with
  | Ok (packet, addr) :: packets =>
      if bool_decide (take 1500 packet = str "DISCOVER")
      then (str "tcp/" ++ Itoa port, addr) :: udpHandler port packets
      else udpHandler port packets
  | _ => []
  end.

(** ** [main.go] *)

Inductive signal := Interrupt | SIGTERM | SIGHUP | SIGUSR2.
Inductive action := Shutdown | Reload | GracefulRestart.

(** [setupSignals]: the first signal to stop ends the loop. *)
Fixpoint signal_loop (l : list signal) : list action :=
  match l with
  | [] => []
  | (Interrupt | SIGTERM) :: _ => [Shutdown]
  | SIGHUP :: l => Reload :: signal_loop l
  | SIGUSR2 :: l => GracefulRestart :: signal_loop l
  end.

(** The directory of the databases and that of the mounts: [mnt] lists [/mnt],
    and [is_dir] is [os.Stat] with [IsDir]. *)
Definition main_paths (uid : Z) (mnt : outcome (list bytes)) (is_dir : bytes -> bool) (HOME : bytes)
    : bytes * bytes :=
  let p := str "/var/lib/apkg" in
  let base := str "/pkg" in
  if uid =? 0 then
    match mnt with
    | Ok dl =>
        match List.find (fun n => is_dir (str "/mnt/" ++ n ++ str "/AZUSA")) dl with
        | Some n => (str "/mnt/" ++ n ++ str "/AZUSA/apkg", base)
        | None => (p, base)
        end
    | _ => (p, base)
    end
  else if negb (bool_decide (HOME = [])) then
    (path_Join [HOME; str ".cache/apkg"], path_Join [HOME; str "pkg"])
  else (p, base).

Section main.
Context `{BoltOps, LlrbOps, Ldcache, !Json, GoRange, GoSort, Ed25519, Jwt, Squashfs, Remote, PkgJson}.

Inductive status := Returned | Exited (code : Z) | Running (db : nat) (c : conn).
Record daemon := { pr_world : World; pr_os : os }.

Definition dbName : bytes := str "main".

(** [main] up to the server, the updater and the control channel; [t] is the
    notification target the new file system is. *)
Definition main (env : environ) (m : machine) (goos goarch env_GOOS env_GOARCH p base channel : bytes)
    (t : nat) : ST daemon status := fun s =>
  match World.New env goos goarch env_GOOS env_GOARCH PKG_URL_PREFIX dbName p (pr_world s) with
  | (Panic, w) => (Panic, {| pr_world := w; pr_os := pr_os s |})
  | (Err _, w) => (Ok Returned, {| pr_world := w; pr_os := pr_os s |})
  | (Ok db, w) =>
      match SetChannel db channel w with
      | (Ok _, w) =>
          match Linux.New m (path_Join [base; dbName]) (pr_os s) with
          | (Ok c, o) =>
              match SetNotifyTarget db t w with
              | (Ok _, w) => (Ok (Running db c), {| pr_world := w; pr_os := o |})
              | (_, w) => (Panic, {| pr_world := w; pr_os := o |})
              end
          | (Err _, o) => (Ok (Exited 1), {| pr_world := w; pr_os := o |})
          | (Panic, o) => (Panic, {| pr_world := w; pr_os := o |})
          end
      | (_, w) => (Panic, {| pr_world := w; pr_os := pr_os s |})
      end
  end.
End main.

(** ** The updater *)

Lemma exec_tmp_ne (exec n : bytes) : exec ++ [dot] ++ n <> exec.
Proof. intros E. apply (f_equal length) in E. rewrite !length_app in E. cbn in E. lia. Qed.

(** A call changes nothing but the outcomes to come. *)
Lemma up_call_cases s o s' :
  up_call s = (o, s') ->
  up_files s' = up_files s /\ up_v s' = up_v s /\ up_signals s' = up_signals s /\
  (o = Ok tt \/ exists e, o = Err e).
Proof.
  unfold up_call. intros [= <- <-]. repeat split. destruct (default None _); eauto.
Qed.

(** The files but those with one name. *)
Definition only_at (fn : bytes) (s s' : upState) : Prop :=
  up_v s' = up_v s /\ up_signals s' = up_signals s /\
  forall x, x <> fn -> up_files s' !! x = up_files s !! x.
#[export] Instance only_at_preorder fn : PreOrder (only_at fn).
Proof.
  split; [done|]. intros x y z (V1 & S1 & F1) (V2 & S2 & F2).
  split; [congruence|]. split; [congruence|]. intros k Hk. by rewrite F2, F1.
Qed.

Lemma step_only_at (fn : bytes) (f : gmap bytes (bytes * bool) -> gmap bytes (bytes * bool)) s o s' :
  (forall m x, x <> fn -> f m !! x = m !! x) ->
  (up_call;; up_set f) s = (o, s') ->
  only_at fn s s' /\ ((o = Ok tt /\ up_files s' = f (up_files s)) \/ exists e, o = Err e).
Proof.
  intros Hf. unfold up_set. munfold. destruct (up_call s) as [o1 s1] eqn:E.
  destruct (up_call_cases _ _ _ E) as (F & V & S & [->|(e & ->)]); intros [= <- <-].
  - split; [|left; cbn; by rewrite F]. split; [done|]. split; [done|]. intros x Hx. cbn. by rewrite Hf, F.
  - split; [|by right; eauto]. split; [done|]. split; [done|]. intros x _. by rewrite F.
Qed.

Lemma only_at_set fn f s :
  (forall m x, x <> fn -> f m !! x = m !! x) ->
  only_at fn s {| up_files := f (up_files s); up_v := up_v s; up_signals := up_signals s;
                  up_faults := up_faults s |}.
Proof. intros Hf. split; [done|]. split; [done|]. intros x Hx. cbn. by apply Hf. Qed.

Lemma up_Remove_cases fn s o s' : up_Remove fn s = (o, s') -> only_at fn s s' /\ o <> Panic.
Proof.
  intros E. destruct (step_only_at fn (delete fn) _ _ _
    (fun m x Hx => lookup_delete_ne m fn x (not_eq_sym Hx)) E) as (O & [[-> _]|[e ->]]); done.
Qed.
Lemma up_Chmod_cases fn s o s' :
  up_Chmod fn s = (o, s') ->
  only_at fn s s' /\ o <> Panic /\
  forall d x, up_files s !! fn = Some (d, x) -> exists y, up_files s' !! fn = Some (d, y).
Proof.
  unfold up_Chmod, up_set. munfold. destruct (up_call s) as [o1 s1] eqn:E.
  destruct (up_call_cases _ _ _ E) as (F & V & S & [->|(e & ->)]); intros [= <- <-]; cbn.
  - split; [|split; [done|]].
    + split; [done|]. split; [done|]. intros x Hx. cbn. by rewrite lookup_alter_ne, F by done.
    + intros d x Hd. rewrite lookup_alter_eq, F, Hd. cbn. eauto.
  - split; [|split; [done|]]; [|rewrite F; eauto].
    split; [done|]. split; [done|]. intros x _. by rewrite F.
Qed.

(** What a round leaves: the old binary, or a whole new one. *)
Definition new_binary (exec tmp new n : bytes) (s s' : upState) : Prop :=
  (exists x, up_files s' !! exec = Some (new, x)) /\ up_v s' = n /\
  up_signals s' = S (up_signals s) /\ up_files s' !! tmp = None /\
  forall x, x <> exec -> x <> tmp -> up_files s' !! x = up_files s !! x.

Lemma up_Rename_cases from to s o s' f :
  up_Rename from to s = (o, s') -> up_files s !! from = Some f ->
  (o = Ok tt /\ up_v s' = up_v s /\ up_signals s' = up_signals s /\
   up_files s' = <[to := f]> (delete from (up_files s))) \/
  ((exists e, o = Err e) /\ only_at from s s').
Proof.
  unfold up_Rename, up_set. munfold. destruct (up_call s) as [o1 s1] eqn:E.
  destruct (up_call_cases _ _ _ E) as (F & V & S & [->|(e & ->)]); intros [= <- <-] Hf; cbn.
  - left. by rewrite F, Hf.
  - right. split; [by eauto|]. split; [done|]. split; [done|]. intros x _. by rewrite F.
Qed.

Lemma new_binary_intro exec n tmp new y s s3 s4 :
  tmp = exec ++ [dot] ++ n -> only_at tmp s s3 ->
  up_signals s4 = up_signals s3 -> up_files s4 = <[exec := (new, y)]> (delete tmp (up_files s3)) ->
  new_binary exec tmp new n s
    {| up_files := up_files s4; up_v := n; up_signals := S (up_signals s4); up_faults := up_faults s4 |}.
Proof.
  intros Ht (_ & Hs & Hf) Hs4 F4. pose proof (exec_tmp_ne exec n) as Hne. rewrite <-Ht in Hne.
  unfold new_binary. cbn. rewrite F4, Hs4, Hs. split; [rewrite lookup_insert_eq; eauto|].
  split; [done|]. split; [done|]. split; [by rewrite lookup_insert_ne, lookup_delete_eq|].
  intros x Hx Hxt. by rewrite lookup_insert_ne, lookup_delete_ne, Hf.
Qed.

Lemma install_new_cases r exec n tmp s o s' :
  ro_exec r = Ok exec -> ro_new r <> Panic -> tmp = exec ++ [dot] ++ n ->
  install_new r n s = (o, s') ->
  o <> Panic /\
  (only_at tmp s s' \/
   exists new, ro_new r = Ok new /\ ro_copy r = None /\ new_binary exec tmp new n s s').
Proof.
  intros Hx Hn Ht. unfold install_new. rewrite Hx. unfold try_st. munfold. rewrite <-Ht.
  destruct (ro_new r) as [new|e|] eqn:Er; [|intros [= <- <-]; split; [done|by left]|done].
  destruct (up_Create tmp s) as [o1 s1] eqn:E1.
  assert (forall m x, x <> tmp -> <[tmp := ([] : bytes, default false (snd <$> m !! tmp))]> m !! x = m !! x) as Hins
    by (intros m x Hne; by rewrite lookup_insert_ne).
  destruct (step_only_at tmp _ _ _ _ Hins E1) as (O1 & [[-> F1]|[e ->]]);
    [|intros [= <- <-]; split; [done|by left]].
  destruct (ro_copy r) as [[k e]|]; cbn [up_Copy]; unfold up_set; munfold.
  { destruct (up_Remove tmp _) as [o2 s2] eqn:E2. apply up_Remove_cases in E2 as (O2 & Hp).
    assert (only_at tmp s s2).
    { etrans; [exact O1|]. etrans; [|exact O2].
      apply only_at_set. intros m x Hne. by rewrite lookup_alter_ne. }
    destruct o2; intros [= <- <-]; by eauto. }
  match goal with |- context [up_Chmod tmp ?s2] => set (s2' := s2) end.
  assert (only_at tmp s1 s2' /\ exists x, up_files s2' !! tmp = Some (new, x)) as (O2 & x & F2).
  { split; [apply only_at_set; intros m y Hne; by rewrite lookup_alter_ne|].
    cbn. rewrite F1, lookup_alter_eq, lookup_insert_eq. cbn. eauto. }
  clearbody s2'. destruct (up_Chmod tmp s2') as [o3 s3] eqn:E3.
  apply up_Chmod_cases in E3 as (O3 & Hp3 & F3). destruct (F3 _ _ F2) as (y & F3').
  assert (only_at tmp s s3) as O by (etrans; [exact O1|]; by etrans).
  destruct o3 as [[]|e3|]; [| |done]; clear Hp3.
  all: destruct (up_Rename tmp exec s3) as [o4 s4] eqn:E4;
    destruct (up_Rename_cases tmp exec _ _ _ _ E4 F3') as [(-> & V4 & S4 & F4)|[(e & ->) O4]].
  all: try (destruct (up_Remove tmp s4) as [o5 s5] eqn:E5; apply up_Remove_cases in E5 as (O5 & Hp5);
    assert (only_at tmp s s5) by (etrans; [exact O|]; by etrans);
    destruct o5; intros [= <- <-]; by eauto).
  all: intros [= <- <-]; split; [done|right]; exists new; split; [done|]; split; [done|];
    by eapply new_binary_intro.
Qed.

(** The binary is the old one, with the same version, or that of a later round. *)
Definition binary_of (exec : bytes) (rs : list round) (s s' : upState) : Prop :=
  up_files s' !! exec = up_files s !! exec /\ up_v s' = up_v s /\ up_signals s' = up_signals s \/
  exists r link new x, r ∈ rs /\ ro_link r = Ok link /\ ro_new r = Ok new /\
    up_files s' !! exec = Some (new, x) /\ up_v s' = link_version link /\
    bytes_cmp (up_v s) (up_v s') = Lt /\ (up_signals s < up_signals s')%nat.

Definition round_ok (exec : bytes) (r : round) : Prop :=
  ro_exec r = Ok exec /\ ro_new r <> Panic /\ ro_link r <> Panic.

(** Files other than the executable and the copies next to it. *)
Definition others_kept (exec : bytes) (s s' : upState) : Prop :=
  forall x, x <> exec -> (forall n, x <> exec ++ [dot] ++ n) -> up_files s' !! x = up_files s !! x.

Lemma updater_round_cases exec r s o s' :
  round_ok exec r -> updater_round r s = (o, s') ->
  o = Ok tt /\ binary_of exec [r] s s' /\ others_kept exec s s'.
Proof.
  intros (Hx & Hn & Hl). unfold updater_round. munfold.
  assert (binary_of exec [r] s s /\ others_kept exec s s) as Hsame by (split; [by left|by intros ?]).
  destruct (ro_link r) as [link|e|] eqn:El; [|intros [= <- <-]; done|done].
  set (n := link_version link).
  destruct (bytes_cmp (up_v s) n) eqn:Ec; [intros [= <- <-]; done| |intros [= <- <-]; done].
  unfold try_st. destruct (install_new r n s) as [o1 s1] eqn:E.
  apply (install_new_cases _ exec _ (exec ++ [dot] ++ n)) in E as (Hp & E); [|done..].
  assert (binary_of exec [r] s s1 /\ others_kept exec s s1) as Hb.
  { pose proof (exec_tmp_ne exec n) as Hne.
    destruct E as [(V & S & F)|(new & En & _ & (x & Fx) & V & S & _ & F)].
    - split; [left; by rewrite F|]. intros k _ Hk. apply F, Hk.
    - split; [|intros k Hk Hk2; by apply F].
      right. exists r, link, new, x. rewrite V, S. repeat split; try done; [by left|lia]. }
  destruct o1; intros [= <- <-]; done.
Qed.

(** C27: The executable is replaced as a whole or not at all.  Whatever fails, in any
    number of rounds, after each of them the executable is the one from before,
    or the complete new binary of one of the rounds, whose version is greater
    than the one before and is the one the process then takes for its own; and
    only copies next to it are ever left behind. *)
Theorem updater_atomic exec rs s o s' :
  Forall (round_ok exec) rs -> updater rs s = (o, s') ->
  o = Ok tt /\ binary_of exec rs s s' /\ others_kept exec s s'.
Proof.
  intros Hrs. revert s. induction Hrs as [|r rs Hr Hrs IH]; intros s; cbn [updater].
  { intros [= <- <-]. split; [done|]. split; [by left|by intros ?]. }
  intros [([] & s1 & E1 & E)|(om & E1 & Ho & _)]%bind_cases;
    apply (updater_round_cases exec) in E1 as (E0 & B1 & K1); [|done| |done]; [|by subst om].
  apply IH in E as (-> & B2 & K2). split; [done|].
  split; [|intros x Hx Hk; by rewrite K2, K1].
  destruct B2 as [(F2 & V2 & S2)|(r2 & l2 & n2 & x2 & Hin & L2 & N2 & F2 & V2 & C2 & S2)].
  - destruct B1 as [(F1 & V1 & S1)|(r1 & l1 & n1 & x1 & Hin & B1)]; [left|right].
    + rewrite F2, V2, S2. done.
    + apply list_elem_of_singleton in Hin as ->. exists r, l1, n1, x1. rewrite F2, V2, S2.
      split; [by left|done].
  - right. exists r2, l2, n2, x2. split; [by right|]. do 4 (split; [done|]).
    destruct B1 as [(_ & V1 & S1)|(_ & _ & _ & _ & _ & _ & _ & _ & _ & C1 & S1)].
    + split; [congruence|lia].
    + split; [by eapply bytes_cmp_trans|lia].
Qed.

(** Without failures a round installs a greater version, executable, and asks
    for one restart; the next round finds nothing to do. *)
Lemma updater_installs exec r s link new :
  ro_exec r = Ok exec -> ro_link r = Ok link -> ro_new r = Ok new -> ro_copy r = None ->
  up_faults s = [] -> bytes_cmp (up_v s) (link_version link) = Lt ->
  exists s', updater_round r s = (Ok tt, s') /\ up_files s' !! exec = Some (new, true) /\
    up_v s' = link_version link /\ up_signals s' = S (up_signals s) /\
    updater_round r s' = (Ok tt, s').
Proof.
  intros Hx Hl Hn Hc Hf Hlt. unfold updater_round at 1. rewrite Hl. unfold try_st, install_new. munfold.
  rewrite Hlt, Hx, Hn, Hc. unfold up_Create, up_Chmod, up_Rename, up_Copy, up_set, up_call. munfold.
  cbn [up_faults up_files up_v up_signals]. rewrite Hf. cbn [head tail default from_option].
  eexists. split; [reflexivity|]. cbn [up_faults up_files up_v up_signals].
  rewrite !lookup_alter_eq, lookup_insert_eq. cbn [fmap option_fmap option_map fst snd].
  rewrite lookup_insert_eq. split; [done|]. split; [done|]. split; [done|].
  unfold updater_round. rewrite Hl. munfold. cbn [up_v]. by rewrite bytes_cmp_refl.
Qed.

(** The mode is changed after the copy and the error is ignored: when that call
    alone fails, what replaces the executable can not be executed. *)
Lemma chmod_ignored exec r s e link new :
  ro_exec r = Ok exec -> ro_link r = Ok link -> ro_new r = Ok new -> ro_copy r = None ->
  up_faults s = [None; Some e] -> bytes_cmp (up_v s) (link_version link) = Lt ->
  up_files s !! (exec ++ [dot] ++ link_version link) = None ->
  exists s', updater_round r s = (Ok tt, s') /\ up_files s' !! exec = Some (new, false).
Proof.
  intros Hx Hl Hn Hc Hf Hlt Hno. unfold updater_round. rewrite Hl. unfold try_st, install_new. munfold.
  rewrite Hlt, Hx, Hn, Hc. unfold up_Create, up_Chmod, up_Rename, up_Copy, up_set, up_call. munfold.
  cbn [up_faults up_files up_v up_signals]. rewrite Hf. cbn [head tail default from_option].
  eexists. split; [reflexivity|]. cbn [up_faults up_files up_v up_signals].
  rewrite !lookup_alter_eq, lookup_insert_eq, Hno. cbn [fmap option_fmap option_map fst snd default from_option].
  by rewrite lookup_insert_eq.
Qed.

(** ** The build's date *)

Lemma date_loop_cases settings tag :
  tag = unknown \/ (length tag = 14%nat /\ Forall (fun c => is_digit c = true) tag) ->
  let t := date_loop settings tag in
  t = unknown \/ (length t = 14%nat /\ Forall (fun c => is_digit c = true) t).
Proof.
  revert tag. induction settings as [|[key value] settings IH]; intros tag Ht; [done|].
  cbn [date_loop]. apply IH. case_bool_decide; [|done]. case_bool_decide; [|done]. cbn [negb].
  destruct (Nat.eqb_spec (length (filter (fun c => is_digit c = true) value)) 14); [|done].
  right. split; [done|]. apply Forall_forall. by intros c [Hc _]%list_elem_of_filter.
Qed.

Lemma unknown_after v : Forall (fun c => is_digit c = true) v -> bytes_cmp unknown v = Gt.
Proof.
  intros Hv. destruct v as [|c v]; [done|]. apply Forall_cons in Hv as [Hc _].
  apply is_digit_range in Hc. assert (unknown = z2b 117 :: str "nknown") as -> by reflexivity.
  cbn [bytes_cmp]. rewrite b2z_z2b. change (117 mod 256) with 117.
  by rewrite (proj2 (Z.compare_gt_iff 117 (b2z c))) by lia.
Qed.

(** ** The buffer of [Stack] *)

Lemma stack_loop_done fuel size trace i k :
  (0 < size)%nat -> (length (trace (i + k)%nat) < size * 2 ^ k)%nat -> (k < fuel)%nat ->
  exists j, (i <= j <= i + k)%nat /\ stack_loop fuel size trace i = Some (trace j).
Proof.
  revert size i k. induction fuel as [|fuel IH]; intros size i k Hs Hk Hf; [lia|]. cbn [stack_loop].
  destruct (Nat.ltb_spec (Nat.min size (length (trace i))) size) as [Hlt|Hge].
  - exists i. split; [lia|]. f_equal. apply take_ge. lia.
  - destruct k as [|k]; [rewrite Nat.add_0_r in Hk; cbn in Hk; lia|].
    destruct (IH (2 * size)%nat (S i) k) as (j & Hj & E); [lia| |lia|].
    + replace (S i + k)%nat with (i + S k)%nat by lia. rewrite Nat.pow_succ_r' in Hk. lia.
    + exists j. split; [lia|done].
Qed.

(** [Stack] ends, and gives a whole trace: when the trace of some call, numbered
    [k] from 0, is shorter than [2^k] MiB, that call or an earlier one leaves
    room in its buffer, and its trace is returned uncut. *)
Theorem Stack_whole trace k :
  (length (trace k) < Z.to_nat (1024 * 1024) * 2 ^ k)%nat ->
  exists j, (j <= k)%nat /\ Stack (S k) trace = Some (trace j).
Proof.
  intros Hk. unfold Stack.
  destruct (stack_loop_done (S k) (Z.to_nat (1024 * 1024)) trace 0 k) as (j & Hj & E);
    [apply (Z2Nat.inj_lt 0); lia|done|lia|]. exists j. split; [lia|done].
Qed.

(** ** The start of the daemon *)

Section starting.
Context `{BoltSpec, LlrbOps, Ldcache, !Json, GoRange, GoSort, Ed25519, Jwt, Squashfs, Remote, PkgJson}.

Lemma New_db env goos goarch eos earch prefix name path w l w' :
  World.New env goos goarch eos earch prefix name path w = (Ok l, w') ->
  exists d, dbs w' !! l = Some d /\ db_name (conf d) = name /\ db_path (conf d) = path /\
    parent d = None /\ sub d = ∅.
Proof.
  unfold World.New, NewOsArch. destruct (open_db env _ _ _ _ _) as [d| |] eqn:Eo; [|done..].
  destruct (init_db env d) as [[b| |] d'] eqn:Ei; [|done..]. intros [= <- <-].
  unfold open_db in Eo. destruct (env_open env); [done|]. injection Eo as <-.
  apply init_db_frame in Ei as (Fc & _ & _ & _ & Fp & _ & _ & Fs & _); [|done].
  exists d'. cbn. rewrite lookup_insert_eq, Fc, Fp, Fs. done.
Qed.

Lemma SetChannel_root l ch d w :
  dbs w !! l = Some d -> sub d = ∅ ->
  exists w', SetChannel l ch w = (Ok tt, w') /\ dbs w' = <[l := set_channel ch d]> (dbs w).
Proof.
  intros Hd Hs. unfold SetChannel, upd_db, get_db. munfold. rewrite Hd. cbn [dbs set_dbs].
  rewrite lookup_insert_eq. cbn [sub set_channel]. rewrite Hs, map_to_list_empty. cbn. eauto.
Qed.

(** What is running after the start.  When [main] reaches its loop, the
    database is the root of its sub-databases, follows the channel of the
    command line and notifies the file system, and the server has either the
    connection of the process before or a new descriptor, with the file system
    mounted where it says; when the database fails nothing was mounted, and when
    the mount fails the process exits with code 1 and no descriptor is left. *)
Theorem main_starts env m goos goarch eos earch p base ch t s r s' :
  Forall (fun fd => fd < next_fd (pr_os s)) (fds (pr_os s)) ->
  main env m goos goarch eos earch p base ch t s = (Ok r, s') ->
  match r with
  | Returned => pr_os s' = pr_os s
  | Exited c => c = 1 /\ fds (pr_os s') = fds (pr_os s)
  | Running db c =>
      (exists d, dbs (pr_world s') !! db = Some d /\ db_name (conf d) = str "main" /\
         db_path (conf d) = p /\ parent d = None /\ channel d = ch /\ ntgt d = Some t) /\
      (inherited (os_env (pr_os s)) c /\ fds (pr_os s') = fds (pr_os s) /\
         mounts (pr_os s') = mounts (pr_os s) \/
       fds (pr_os s') = Fd c :: fds (pr_os s) /\ (Fd c ∉ fds (pr_os s)) /\
       exists x, fuse_mount_at (MountPoint c) x /\ x ∈ mounts (pr_os s'))
  end.
Proof.
  intros Hfr. unfold main. destruct (World.New _ _ _ _ _ _ _ _ _) as [[l|e|] w1] eqn:En;
    [|intros [= <- <-]; done|done].
  destruct (New_db _ _ _ _ _ _ _ _ _ _ _ En) as (d & Hd & Hname & Hpath & Hpar & Hsub).
  destruct (SetChannel_root l ch d w1 Hd Hsub) as (w2 & Ec & Hw2). rewrite Ec.
  destruct (Linux.New m _ (pr_os s)) as [o s1] eqn:El. apply New_cases in El; [|done].
  destruct o as [c|e|]; [|intros [= <- <-]; by destruct El|done].
  unfold SetNotifyTarget, upd_db. rewrite Hw2, lookup_insert_eq. intros [= <- <-]. cbn. split.
  - exists (set_ntgt (Some t) (set_channel ch d)). by rewrite lookup_insert_eq.
  - destruct El as [El|(_ & Hf & Hni & x & over & Hx & Hm & _)]; [by left|right].
    split; [done|]. split; [done|]. exists x. split; [done|]. rewrite Hm. set_solver.
Qed.
End starting.

(** ** Concrete instance, for evaluation *)

Module SampleDaemon.
#[local] Existing Instance MapBolt.ops.
#[local] Existing Instance MapBolt.spec.
#[local] Existing Instance Sample.list_llrb.
#[local] Existing Instance SampleLd.ldcache.
#[local] Existing Instance SampleLd.json.
#[local] Existing Instance SampleLd.range.
#[local] Existing Instance Toy.toy_ed25519.
#[local] Existing Instance SampleUpd.jwt.
#[local] Existing Instance SamplePkg.squashfs.
#[local] Existing Instance SamplePkg.remote.
#[local] Existing Instance SamplePkg.json.
#[local] Existing Instance insertion_GoSort.

Example date_1 : DATE_TAG (Some [(str "vcs", str "git"); (str "vcs.time", str "2022-06-01T01:55:46Z")]) =
  str "20220601015546".
Proof. reflexivity. Qed.
Example date_2 : DATE_TAG (Some [(str "vcs.time", str "2022-06-01")]) = unknown.
Proof. reflexivity. Qed.
Example link_1 : link_version (str "azusa.apkg.core.20230101000000.linux.amd64") = str "20230101000000".
Proof. reflexivity. Qed.
Example signals_1 : signal_loop [SIGHUP; SIGUSR2; SIGTERM; SIGHUP] = [Reload; GracefulRestart; Shutdown].
Proof. reflexivity. Qed.
Example udp_1 : udpHandler 100 [Ok (str "HELLO", 1%nat); Ok (str "DISCOVER", 2%nat); Err ErrEOF] =
  [(str "tcp/100", 2%nat)].
Proof. reflexivity. Qed.

Definition bin : bytes := str "/usr/bin/apkg".
Definition to_2023 (copy : option (nat * error)) : round := {|
  ro_link := Ok (str "azusa.apkg.core.20230101000000.linux.amd64"); ro_exec := Ok bin;
  ro_new := Ok (str "new"); ro_copy := copy |}.
Definition up0 : upState := {|
  up_files := <[bin := (str "old", true)]> ∅; up_v := str "20220601015546"; up_signals := 0;
  up_faults := [] |}.

(** Two rounds: the copy fails in the first. *)
Lemma updater_atomic_witness :
  exists s', updater [to_2023 (Some (1%nat, ErrEOF)); to_2023 None] up0 = (Ok tt, s') /\
    binary_of bin [to_2023 (Some (1%nat, ErrEOF)); to_2023 None] up0 s'.
Proof.
  destruct (updater [to_2023 (Some (1%nat, ErrEOF)); to_2023 None] up0) as [o s'] eqn:E.
  destruct (updater_atomic bin [to_2023 (Some (1%nat, ErrEOF)); to_2023 None] up0 o s') as (-> & B & _).
  - repeat constructor; discriminate.
  - exact E.
  - exists s'. split; [reflexivity|exact B].
Defined.

Lemma Stack_whole_witness : exists j, (j <= 1)%nat /\ Stack 2 (fun _ => str "goroutine 1") = Some (str "goroutine 1").
Proof.
  destruct (Stack_whole (fun _ => str "goroutine 1") 1) as (j & Hj & E).
  - rewrite Nat.pow_1_r. change (length (str "goroutine 1")) with 11%nat. lia.
  - exists j. split; [exact Hj|exact E].
Defined.

Lemma main_starts_witness :
  exists db c s', main SampleRun.env SampleLinux.root_machine (str "linux") (str "amd64") [] []
      (str "/var/lib/apkg") (str "/pkg") (str "latest") 0
      {| pr_world := start_world; pr_os := SampleLinux.fresh [] |} = (Ok (Running db c), s') /\
    exists d, dbs (pr_world s') !! db = Some d /\ channel d = str "latest".
Proof.
  assert (match fst (main SampleRun.env SampleLinux.root_machine (str "linux") (str "amd64") [] []
      (str "/var/lib/apkg") (str "/pkg") (str "latest") 0
      {| pr_world := start_world; pr_os := SampleLinux.fresh [] |}) with
      | Ok (Running _ _) => true | _ => false end = true) as Ho by (vm_compute; reflexivity).
  destruct (main _ _ _ _ _ _ _ _ _ _ _) as [[[|code|db c]|e|] s'] eqn:E; try discriminate Ho.
  exists db, c, s'. split; [reflexivity|].
  destruct (main_starts SampleRun.env SampleLinux.root_machine (str "linux") (str "amd64") [] []
    (str "/var/lib/apkg") (str "/pkg") (str "latest") 0
    {| pr_world := start_world; pr_os := SampleLinux.fresh [] |} (Running db c) s') as [(d & Hd & _ & _ & _ & Hc & _) _].
  - repeat constructor; cbn; lia.
  - exact E.
  - exists d. split; [exact Hd|exact Hc].
Defined.
End SampleDaemon.
