(* ===== verification/Process.v ===== *)
(** * Process: the life of the daemon ([main.go], [ctrl.go], [update.go])

    What follows the start ([Daemon.v]): the signals and the way out, the
    control channel, and the requests for updates. *)

From S2P Require Import Prelude GoLib GoPath Sig Collate Natsort OsArch Bolt Store GoTime Pins Ldso Index Export Package Update Unsigned World Lookup Proto Fuse Strconv Mount Linux Http Daemon.
Local Open Scope Z_scope.

(** ** The signals, and the way out ([main.go]) *)

(** How the process ended, if it did: [Replaced] by the binary of a graceful
    restart, or [Stopped], after [main] returned. *)
Inductive ending := Alive | Replaced | Stopped.

(** The rest of [main] and the goroutine of [setupSignals], with the actions of
    its loop in the order they take effect.  An update is requested of the
    update thread.  A restart that fails is logged; one that succeeds does not
    return.  [shutdown] lets [main] return, which runs the deferred [Unmount]. *)
Fixpoint lifetime (m : machine) (c : conn) (acts : list action) : ST os ending :=
  match acts with
  | [] => mret Alive
  | Reload :: acts => lifetime m c acts
  | GracefulRestart :: acts =>
      gracefulRestart m (Some c);;
      s ← get_st;
      match execd s with
      | Some _ => mret Replaced
      | None => lifetime m c acts
      end
  | Shutdown :: _ => _ ← try_st (Unmount c); mret Stopped
  end.

(** ** The control channel ([ctrl.go]) *)

Definition NotFound : httpResponse := http_Error (str "404 page not found") 404.
Definition ctrl_root (path : bytes) : httpResponse :=
  if negb (bool_decide (path = str "/")) then NotFound
  else {| hr_Code := StatusOK;
          hr_Body := line (str "apkg control channel") ++ newline ++ line (str "apkgdb: db related endpoints") |}.
Definition ctrl_stack (stack : bytes) : httpResponse := {| hr_Code := StatusOK; hr_Body := stack |}.

(** The handlers registered: "/" stands for every path without another. *)
Definition ctrl_page (db : bytes) (stack : bytes) (dbPage : httpResponse) (path : bytes) : httpResponse :=
  if bool_decide (path = str "/_stack") then ctrl_stack stack
  else if bool_decide (path = str "/apkgdb/" ++ db) then dbPage
  else ctrl_root path.

(** What [listenCtrl] leaves: the HTTP server, the UDP socket with the
    option set or not, and the handler that reads from it. *)
Record control := { ct_http : bool; ct_udp : bool; ct_reuse : bool; ct_handler : option Z }.

(** [tcp], [udp] and [sc] are what [ListenTCP], [ListenUDP] and [SyscallConn]
    return.  The goroutine of the HTTP server assigns the variable [err] of
    [listenCtrl] itself when [http.Serve] ends: [race] is the moment, if it
    comes while the function runs, and the error. *)
Inductive moment := AfterUdp | AfterConn.
Definition overwrite (at_ : moment) (race : option (moment * error)) (err : option error) : option error :=
  match race, at_ with
  | Some (AfterUdp, e), AfterUdp | Some (AfterConn, e), AfterConn => Some e
  | _, _ => err
  end.
Definition err_of {A} (o : outcome A) : option error := match o with Err e => Some e | _ => None end.

Definition listenCtrl (uid : Z) (tcp udp sc : outcome unit) (race : option (moment * error)) : control :=
  let p := ctrl_port uid in
  match err_of tcp with
  | Some _ => {| ct_http := false; ct_udp := false; ct_reuse := false; ct_handler := None |}
  | None =>
      let opened := is_ok udp in
      match overwrite AfterUdp race (err_of udp) with
      | Some _ => {| ct_http := true; ct_udp := opened; ct_reuse := false; ct_handler := None |}
      | None =>
          {| ct_http := true; ct_udp := opened;
             ct_reuse := bool_decide (overwrite AfterConn race (err_of sc) = None);
             ct_handler := Some p |}
      end
  end.

(** Without the race a handler answers on the port exactly when both sockets
    are open; an HTTP server that fails right after the UDP socket was opened
    makes [listenCtrl] give up and leave that socket open, with no handler. *)
Lemma listenCtrl_handles uid tcp udp sc :
  tcp <> Panic -> udp <> Panic ->
  ct_handler (listenCtrl uid tcp udp sc None) =
    (if is_ok tcp && is_ok udp then Some (ctrl_port uid) else None).
Proof. by destruct tcp, udp. Qed.
Lemma listenCtrl_race uid sc e :
  listenCtrl uid (Ok tt) (Ok tt) sc (Some (AfterUdp, e)) =
    {| ct_http := true; ct_udp := true; ct_reuse := false; ct_handler := None |}.
Proof. done. Qed.

(** ** Requests for updates ([update.go]) *)

(** [DB.Update]: the channel has no buffer, so that the send succeeds, and wakes
    the update thread, only while the thread waits in its [select]. *)
Definition DB_Update (waiting : bool) (net : network) : list wakeup :=
  if waiting then [WakeUpd net] else [].

(** What the update thread receives from the signals of a process: for each
    SIGHUP, whether it waits then, and the network at that time. *)
Fixpoint reloads (acts : list action) (env : list (bool * network)) : list wakeup :=
  match acts, env with
  | Reload :: acts, (waiting, net) :: env => DB_Update waiting net ++ reloads acts env
  | (Reload | GracefulRestart) :: acts, env => reloads acts env
  | _, _ => []
  end.

(** ** The end of the process *)

(** A signal that stops the daemon. *)
Definition stops (s : signal) : bool := match s with Interrupt | SIGTERM => true | _ => false end.

Lemma signal_loop_shutdown sigs :
  Shutdown ∈ signal_loop sigs <-> existsb stops sigs = true.
Proof.
  induction sigs as [|[] sigs IH]; cbn; [set_solver|set_solver|set_solver| |];
    rewrite <-IH; set_solver.
Qed.

(** The next system call of a state fails, after [k] others. *)
Definition call_fails (s : os) (k : nat) : bool :=
  match sys_faults s !! k with Some (Some _) => true | _ => false end.

Lemma syscall_next s o s' :
  syscall s = (o, s') -> if call_fails s 0 then exists e, o = Err e else o = Ok tt.
Proof.
  unfold syscall, call_fails. intros [= <- _]. destruct (sys_faults s) as [|[e|] l]; cbn; by eauto.
Qed.

Lemma gracefulRestart_cases m c s o s' :
  gracefulRestart m (Some c) s = (o, s') -> execd s = None ->
  o = Ok tt /\ fds s' = fds s /\ mounts s' = mounts s /\
  (exists k, sys_faults s' = drop k (sys_faults s)) /\
  (execd s' = None \/ (exists bin, executable m = Ok bin /\ GracefulExec c bin s = (Ok tt, s'))).
Proof.
  unfold gracefulRestart. destruct (executable m) as [bin|e|];
    [|intros [= <- <-]; split; [done|]; split; [done|]; split; [done|]; split; [by exists 0%nat|by left]..].
  unfold try_st. munfold. intros E Hx. revert E. destruct (GracefulExec c bin s) as [o1 s1] eqn:E1.
  assert (fds s1 = fds s /\ mounts s1 = mounts s /\ (exists k, sys_faults s1 = drop k (sys_faults s)) /\
    (o1 = Ok tt \/ (exists e, o1 = Err e) /\ execd s1 = None)) as (Hf & Hm & Hk & Ho).
  { revert E1. unfold GracefulExec, sys_ClearCloexec, sys_Exec. munfold.
    destruct (syscall s) as [oa sa] eqn:Ea. pose proof (syscall_faults _ _ _ Ea) as Sa.
    destruct (syscall_cases _ _ _ Ea) as ((_ & Hf & _ & Hm & Hxa & _) & [->|(e & ->)]);
      [|intros [= <- <-]; split; [done|]; split; [done|]; split; [by exists 1%nat|right; split; [by eauto|congruence]]].
    match goal with |- context [syscall ?t] => destruct (syscall t) as [ob sb] eqn:Eb end.
    pose proof (syscall_faults _ _ _ Eb) as Sb. cbn in Sb.
    assert (sys_faults sb = drop 2 (sys_faults s)) as Sab by (rewrite Sb, Sa, drop_drop; done).
    destruct (syscall_cases _ _ _ Eb) as ((_ & Hfb & _ & Hmb & Hxb & _) & [->|(e & ->)]); cbn in Hfb, Hmb, Hxb;
      intros [= <- <-]; cbn; rewrite Hfb, Hmb, Hf, Hm; (split; [done|]; split; [done|]; split; [by exists 2%nat|]);
      [by left|right; split; [by eauto|congruence]]. }
  destruct Ho as [->|[[e ->] Hn]]; intros [= <- <-]; (do 3 (split; [done|])); (split; [done|]); [right|by left].
  exists bin. by split.
Qed.

Lemma Unmount_cases c s o s' :
  Unmount c s = (o, s') ->
  o = Ok tt /\ fds s' = filter (fun n => n <> Fd c) (fds s) /\ sys_faults s' = drop 1 (sys_faults s) /\
  mounts s' = (if call_fails s 0 then mounts s else unmount (MountPoint c) (mounts s)).
Proof.
  unfold Unmount, try_st, fuseUnmount, sys_Unmount, sys_Close, upd_mounts, upd_fds. munfold.
  destruct (syscall s) as [o1 s1] eqn:E1. pose proof (syscall_faults _ _ _ E1) as S1.
  pose proof (syscall_next _ _ _ E1) as N1.
  destruct (syscall_cases _ _ _ E1) as ((_ & Hf & _ & Hm & _) & _). destruct (call_fails s 0).
  - destruct N1 as [e ->]. intros [= <- <-]. cbn. by rewrite Hf, Hm.
  - subst o1. intros [= <- <-]. cbn. by rewrite Hf, Hm.
Qed.

Lemma call_fails_drop s1 s k j :
  sys_faults s1 = drop k (sys_faults s) -> call_fails s1 j = call_fails s (k + j).
Proof. intros E. unfold call_fails. by rewrite E, lookup_drop. Qed.

(** What the actions leave; [k] is the number of calls before the last one. *)
Lemma lifetime_cases m c acts s o s' :
  execd s = None -> lifetime m c acts s = (o, s') ->
  exists r, o = Ok r /\ match r with
  | Alive => fds s' = fds s /\ mounts s' = mounts s /\ (Shutdown ∉ acts) /\ execd s' = None
  | Replaced => fds s' = fds s /\ mounts s' = mounts s /\ GracefulRestart ∈ acts /\
      (exists bin s0, executable m = Ok bin /\ fds s0 = fds s /\ GracefulExec c bin s0 = (Ok tt, s'))
  | Stopped => Shutdown ∈ acts /\ fds s' = filter (fun n => n <> Fd c) (fds s) /\
      exists k, sys_faults s' = drop (S k) (sys_faults s) /\
        mounts s' = (if call_fails s k then mounts s else unmount (MountPoint c) (mounts s))
  end.
Proof.
  revert s. induction acts as [|[] acts IH]; intros s Hx; cbn [lifetime].
  - intros [= <- <-]. exists Alive. split; [done|]. repeat split; [set_solver|done].
  - unfold try_st. munfold. destruct (Unmount c s) as [o1 s1] eqn:E1.
    destruct (Unmount_cases _ _ _ _ E1) as (-> & Hf & Hs & Hm). intros [= <- <-].
    exists Stopped. split; [done|]. split; [set_solver|]. split; [done|]. by exists 0%nat.
  - intros E. destruct (IH s Hx E) as (r & -> & Hr). exists r. split; [done|]. destruct r; set_solver.
  - munfold. destruct (gracefulRestart m (Some c) s) as [o1 s1] eqn:E1.
    destruct (gracefulRestart_cases _ _ _ _ _ E1 Hx) as (-> & Hf & Hm & [k Hk] & [Hx1|(bin & Hb & Hg)]).
    + rewrite Hx1. intros E. destruct (IH s1 Hx1 E) as (r & -> & Hr). exists r. rewrite Hf, Hm in Hr.
      split; [done|]. destruct r; [set_solver|set_solver|]. destruct Hr as (Hs & Hfd & k' & Hk' & Hmt).
      split; [set_solver|]. split; [done|]. exists (k + k')%nat.
      rewrite (call_fails_drop _ _ _ _ Hk) in Hmt. split; [|done].
      rewrite Hk', Hk, drop_drop. f_equal. lia.
    + destruct (GracefulExec_ok _ _ _ _ Hg) as (_ & _ & _ & Hxe & _). rewrite Hxe.
      intros [= <- <-]. exists Replaced. split; [done|]. split; [done|]. split; [done|].
      split; [set_solver|]. exists bin, s. done.
Qed.

Section life.
Context `{BoltSpec, LlrbOps, Ldcache, !Json, GoRange, GoSort, Ed25519, Jwt, Squashfs, Remote, PkgJson}.

Lemma filter_new (fd : Z) l : fd ∉ l -> filter (fun n => n <> fd) (fd :: l) = l.
Proof.
  intros Hn. rewrite filter_cons_False by naive_solver. revert Hn.
  induction l as [|x l IH]; intros Hn; [done|]. rewrite filter_cons_True by set_solver.
  by rewrite IH by set_solver.
Qed.

(** A new descriptor comes with a new mount. *)
Lemma main_mounts env m goos goarch eos earch p base ch t s db c s1 :
  Forall (fun fd => fd < next_fd (pr_os s)) (fds (pr_os s)) ->
  main env m goos goarch eos earch p base ch t s = (Ok (Running db c), s1) ->
  fds (pr_os s1) <> fds (pr_os s) ->
  fds (pr_os s1) = Fd c :: fds (pr_os s) /\ (Fd c ∉ fds (pr_os s)) /\
  exists x over, fuse_mount_at (MountPoint c) x /\ mounts (pr_os s1) = over ++ x :: mounts (pr_os s).
Proof.
  intros Hfr. unfold main. destruct (World.New _ _ _ _ _ _ _ _ _) as [[l|e|] w1]; [|done..].
  destruct (SetChannel l ch w1) as [[[]|e|] w2]; [|done..].
  destruct (Linux.New m _ (pr_os s)) as [o2 s2] eqn:El. apply New_cases in El; [|done].
  destruct o2 as [c2|e|]; [|done..]. destruct (SetNotifyTarget l t w2) as [[[]|e|] w3]; [|done..].
  intros [= <- <- <-]. cbn. destruct El as [(_ & ? & _)|(_ & Hf & Hn & x & over & Hx & Hm & _)]; [done|].
  intros _. split; [done|]. split; [done|]. by exists x, over.
Qed.

(** C29: the life of a daemon that mounted the file system itself.  Whatever
    signals come, and whatever calls fail: it runs on, with its descriptor and
    its mount, and no signal stopped it; or it was replaced by the executable,
    which finds the descriptor and the mount point in its environment, both
    still in place, the descriptor open; or it was stopped by a signal and has
    closed its descriptor, its last system call (the one after [k] others) being
    the one that unmounts: when this call did not fail, the topmost mount of its
    mount point is gone, which leaves the mounts as before the start when it was
    the only new one; when it failed the mounts are as they were. *)
Theorem daemon_life env m goos goarch eos earch p base ch t s db c s1 sigs o s2 :
  Forall (fun fd => fd < next_fd (pr_os s)) (fds (pr_os s)) ->
  main env m goos goarch eos earch p base ch t s = (Ok (Running db c), s1) ->
  fds (pr_os s1) <> fds (pr_os s) -> execd (pr_os s1) = None ->
  lifetime m c (signal_loop sigs) (pr_os s1) = (o, s2) ->
  exists r, o = Ok r /\
    match r with
    | Alive => existsb stops sigs = false /\
        fds s2 = Fd c :: fds (pr_os s) /\ mounts s2 = mounts (pr_os s1)
    | Replaced => fds s2 = Fd c :: fds (pr_os s) /\ mounts s2 = mounts (pr_os s1) /\
        exists bin s3, executable m = Ok bin /\ fst <$> execd s2 = Some bin /\
          next_process s2 = Some s3 /\ Getenv (os_env s3) FUSE_FD = Itoa (Fd c) /\
          Getenv (os_env s3) MOUNT_POINT = MountPoint c /\
          Fd c ∈ fds s3 /\ mounts s3 = mounts (pr_os s1)
    | Stopped => existsb stops sigs = true /\ fds s2 = fds (pr_os s) /\
        exists k, sys_faults s2 = drop (S k) (sys_faults (pr_os s1)) /\
          if call_fails (pr_os s1) k then mounts s2 = mounts (pr_os s1)
          else mounts s2 = unmount (MountPoint c) (mounts (pr_os s1)) /\
            (length (mounts (pr_os s1)) = S (length (mounts (pr_os s))) -> mounts s2 = mounts (pr_os s))
    end.
Proof.
  intros Hfr E Hne Hx El. destruct (main_mounts _ _ _ _ _ _ _ _ _ _ _ _ _ _ Hfr E Hne) as (Hf & Hni & x & over & [Hx1 _] & Hm).
  destruct (lifetime_cases _ _ _ _ _ _ Hx El) as (r & -> & Hr). exists r. split; [done|].
  rewrite Hf in Hr. pose proof (signal_loop_shutdown sigs) as Hsd. destruct r.
  - destruct Hr as (-> & -> & Hn & _). split; [|done]. apply not_true_iff_false. tauto.
  - destruct Hr as (Hf2 & Hm2 & _ & bin & s0 & Hb & Hf0 & Hg). split; [done|]. split; [done|].
    destruct (GracefulExec_ok _ _ _ _ Hg) as (_ & _ & Hm0 & He & _).
    destruct (next_process s2) as [s3|] eqn:En; [|unfold next_process in En; by rewrite He in En].
    destruct (next_process_fds _ _ _ _ _ Hg En) as (Hf3 & Hm3 & He3 & _).
    destruct (exec_env_lookup c (os_env s0)) as [G1 G2]. exists bin, s3. rewrite He, He3.
    split; [done|]. split; [done|]. split; [done|]. split; [done|]. split; [done|].
    split; [|congruence]. unfold survivors in Hf3. rewrite Hf3, list_elem_of_filter, Hf0. split; by left.
  - destruct Hr as (Hs & -> & k & Hk & Hr). split; [tauto|]. split; [by apply filter_new|].
    exists k. split; [done|]. destruct (call_fails (pr_os s1) k); [done|]. split; [done|]. intros Hlen.
    rewrite Hm, length_app in Hlen. cbn in Hlen. destruct over; [|cbn in Hlen; lia].
    rewrite Hr, Hm. cbn. by rewrite bool_decide_eq_true_2.
Qed.
End life.

(** ** Concrete instance, for evaluation *)

Module SampleProcess.
#[local] Existing Instance MapBolt.ops.
#[local] Existing Instance MapBolt.spec.
#[local] Existing Instance Sample.list_llrb.
#[local] Existing Instance SampleLd.ldcache.
#[local] Existing Instance SampleLd.json.
#[local] Existing Instance SampleLd.range.
#[local] Existing Instance Toy.toy_ed25519.
#[local] Existing Instance SampleUpd.jwt.
#[local] Existing Instance SamplePkg.squashfs.
#[local] Existing Instance SamplePkg.remote.
#[local] Existing Instance SamplePkg.json.
#[local] Existing Instance insertion_GoSort.

Definition begin : daemon := {| pr_world := Lookup.start_world; pr_os := SampleLinux.fresh [] |}.
Definition started_main : outcome status * daemon :=
  main SampleRun.env SampleLinux.root_machine (str "linux") (str "amd64") [] []
    (str "/var/lib/apkg") (str "/pkg") (str "latest") 0 begin.
Definition the_conn : conn :=
  match fst started_main with Ok (Running _ c) => c | _ => {| Fd := 0; MountPoint := [] |} end.
Lemma started_is : fst started_main = Ok (Running 0 the_conn) /\
  fds (pr_os (snd started_main)) = [3; 2; 1; 0] /\ execd (pr_os (snd started_main)) = None /\ Fd the_conn = 3 /\
  sys_faults (pr_os (snd started_main)) = [] /\
  length (unmount (MountPoint the_conn) (mounts (pr_os (snd started_main)))) = 1%nat.
Proof. vm_compute. repeat split. Qed.

(** A reload, and then a signal to stop. *)
Definition signals : list signal := [SIGHUP; SIGTERM].
Lemma stopped_is : fst (lifetime SampleLinux.root_machine the_conn (signal_loop signals)
  (pr_os (snd started_main))) = Ok Stopped.
Proof. vm_compute. reflexivity. Qed.

Lemma daemon_life_witness : exists s2,
  lifetime SampleLinux.root_machine the_conn (signal_loop signals) (pr_os (snd started_main)) = (Ok Stopped, s2) /\
  fds s2 = [2; 1; 0] /\ length (mounts s2) = 1%nat.
Proof.
  destruct started_is as (Ho & Hf & Hx & _ & Hfaults & Hmounts). destruct started_main as [o s1] eqn:E. cbn [fst snd] in *. subst o.
  pose proof stopped_is as Hst. rewrite E in Hst. cbn [snd] in Hst.
  destruct (lifetime SampleLinux.root_machine the_conn (signal_loop signals) (pr_os s1)) as [o s2] eqn:El.
  cbn [fst] in Hst. subst o.
  destruct (daemon_life SampleRun.env SampleLinux.root_machine (str "linux") (str "amd64") [] []
    (str "/var/lib/apkg") (str "/pkg") (str "latest") 0 begin 0 the_conn s1 signals (Ok Stopped) s2)
    as (r & Er & Hr).
  - repeat constructor; cbn; lia.
  - exact E.
  - rewrite Hf. discriminate.
  - exact Hx.
  - exact El.
  - exists s2. split; [reflexivity|]. injection Er as <-. destruct Hr as (_ & Hfd & k & _ & Hr).
    split; [exact Hfd|]. replace (call_fails (pr_os s1) k) with false in Hr.
    + destruct Hr as [-> _]. exact Hmounts.
    + unfold call_fails. rewrite Hfaults. reflexivity.
Defined.
End SampleProcess.
