(* ===== verification/Tools.v ===== *)
(** * Tools: the main functions of the two tools

    [cmd/apkg-convert/main.go] and [cmd/apkg-index/main.go]: the key they take
    from the security module, and what they do with it.  The module is a
    parameter. *)

From S2P Require Import Prelude GoLib Sha256 GoPath Sig Collate Natsort OsArch Bolt Store GoTime Pins Ldso Index Export Package Update Unsigned World Convert Indexer.
Local Open Scope Z_scope.

(** ** The key *)

(** [hsm.HSM]: the keys with a name. *)
Record HSM := { ListKeysByName : bytes -> outcome (list HsmKey) }.

(** The first key with the name; [None] when the tool exits with code 1. *)
Definition tool_key (hsm_New : outcome HSM) (name : bytes) : outcome (option HsmKey) :=
  match hsm_New with
  | Panic => Panic
  | Err _ => Ok None
  | Ok h =>
      match ListKeysByName h name with
      | Panic => Panic
      | Err _ => Ok None
      | Ok ks => Ok (head ks)
      end
  end.

Inductive tool_exit := Done | Exit (code : Z).

(** ** [apkg-convert] *)

Section convert_main.
Context `{Ed25519, !SquashNew, !MetaJson}.

(** An argument, with what opening and reading the file gives; errors are
    logged and the next file is processed. *)
Fixpoint convert_args (k : HsmKey) (home : bytes) (args : list (bytes * outcome bytes)) : ST cvState unit :=
  match args with
  | [] => mret tt
  | (f, content) :: args =>
      _ ← try_st (c ← lift_st content; Convert.process k home f c);
      convert_args k home args
  end.

Definition convert_main (hsm_New : outcome HSM) (home : bytes) (args : list (bytes * outcome bytes))
    : ST cvState tool_exit :=
  k ← lift_st (tool_key hsm_New (str "pkg_sign_ed25519"));
  match k with
  | None => mret (Exit 1)
  | Some k => convert_args k home args;; mret Done
  end.

(** An argument whose file can be read and made a package. *)
Definition prepared (k : HsmKey) (arg : bytes * outcome bytes) (r : list bytes * list bytes) : Prop :=
  exists f, arg.2 = Ok f /\ prepare k arg.1 f = Ok r.

(** A file is as before, or starts like the package of one of the arguments;
    without failures it is whole. *)
Definition made (k : HsmKey) (home : bytes) (args : list (bytes * outcome bytes)) (s s' : cvState) : Prop :=
  forall x, cv_files s' !! x = cv_files s !! x \/
    exists arg r n, arg ∈ args /\ prepared k arg r /\ x = out_path home r /\
      cv_files s' !! x = Some (take n (concat r.2)).

Lemma convert_args_cases k home args s o s' :
  convert_args k home args s = (o, s') -> o <> Panic ->
  o = Ok tt /\ made k home args s s'.
Proof.
  revert s. induction args as [|[f content] args IH]; intros s; cbn [convert_args].
  { intros [= <- <-] _. split; [done|]. intros x. by left. }
  unfold try_st. munfold. intros E Ho.
  assert (exists o1 s1, (match content with Ok c => Convert.process k home f c s | Err e => (Err e, s) | Panic => (Panic, s) end)
    = (o1, s1) /\ o1 <> Panic /\ convert_args k home args s1 = (o, s')) as (o1 & s1 & E1 & Ho1 & E2).
  { destruct content as [c|e|]; [|by exists (Err e), s|by injection E as <-].
    destruct (Convert.process k home f c s) as [o1 s1]. exists o1, s1. split; [done|].
    destruct o1; [done|done|by injection E as <-]. }
  destruct (IH s1 E2 Ho) as [-> Hm]. split; [done|]. intros x.
  destruct (Hm x) as [Hx|(arg & r & n & Hin & Hr & Hx)];
    [|right; exists arg, r, n; split; [by right|done]].
  rewrite Hx. destruct content as [c|e|]; [|injection E1 as <- <-; by left|by injection E1 as <-].
  destruct (process_cases _ _ _ _ _ _ _ E1) as [[-> _]|(r & n & Ep & Hn & Hne & _)]; [by left|].
  destruct (decide (x = out_path home r)) as [->|Hnx]; [right|left; by apply Hne].
  exists (f, Ok c), r, n. split; [by left|]. split; [by exists c|]. done.
Qed.

(** The output directory after the arguments, without failing system calls:
    the package of each file that could be made, the last one of a name. *)
Definition put_package (k : HsmKey) (home : bytes) (m : gmap bytes bytes) (arg : bytes * outcome bytes)
    : gmap bytes bytes :=
  match c ← arg.2; prepare k arg.1 c with
  | Ok r => <[out_path home r := concat r.2]> m
  | _ => m
  end.

Lemma process_puts k home f c s o s' :
  Convert.process k home f c s = (o, s') -> cv_faults s = [] ->
  cv_faults s' = [] /\ (o <> Panic -> cv_files s' = put_package k home (cv_files s) (f, Ok c)).
Proof.
  intros E Hf. unfold put_package. cbn [fst snd mbind outcome_bind].
  pose proof (process_cases _ _ _ _ _ _ _ E) as [[Hs Ho]|(r & n & Ep & Hn & Hne & Ho)].
  - destruct (Ho Hf) as [Hf' Hno]. split; [done|]. intros _. rewrite Hs.
    revert E. unfold Convert.process. munfold. destruct (prepare k f c) as [r|e|]; [|done..].
    unfold cv_call at 1 2. rewrite Hf. cbn [head default tail cv_faults cv_files].
    unfold cv_set at 1. munfold. cbn [cv_faults cv_files]. intros Hw.
    apply cv_writes_prefix in Hw as (n & _ & _ & Hw); [|apply lookup_insert_eq].
    by destruct (Hw eq_refl) as [-> _].
  - destruct (Ho Hf) as [-> Hf']. split; [done|]. intros _. rewrite Ep.
    destruct (process_ok _ _ _ _ _ _ E) as (r' & Ep' & Hr'). rewrite Ep in Ep'. injection Ep' as <-.
    apply map_eq. intros x. destruct (decide (x = out_path home r)) as [->|Hx].
    + by rewrite lookup_insert_eq.
    + by rewrite lookup_insert_ne, Hne.
Qed.

Lemma convert_args_whole k home args s o s' :
  convert_args k home args s = (o, s') -> o <> Panic -> cv_faults s = [] ->
  cv_files s' = foldl (put_package k home) (cv_files s) args.
Proof.
  revert s. induction args as [|[f content] args IH]; intros s; cbn [convert_args foldl].
  { by intros [= <- <-]. }
  unfold try_st. munfold. intros E Ho Hf. destruct content as [c|e|].
  - destruct (Convert.process k home f c s) as [o1 s1] eqn:E1.
    destruct (process_puts _ _ _ _ _ _ _ E1 Hf) as [Hf1 Hp].
    destruct o1 as [[]|e|]; [| |by injection E as <-]; (rewrite <- Hp by done; by apply IH).
  - by apply IH.
  - by injection E as <-.
Qed.

(** C36: A run of [apkg-convert] that ends normally ends with code 1 and the
    directory untouched exactly when the security module has no key with the
    name; otherwise every file of the output directory is as before or a
    beginning of the package made of an argument, and when no system call
    failed the directory is what writing the packages of the arguments, in their
    order, makes of it, arguments that cannot be read or converted being
    skipped. *)
Theorem convert_run hsm home args s x s' :
  convert_main hsm home args s = (Ok x, s') ->
  (x = Exit 1 /\ s' = s /\ tool_key hsm (str "pkg_sign_ed25519") = Ok None) \/
  exists k, x = Done /\ tool_key hsm (str "pkg_sign_ed25519") = Ok (Some k) /\
    made k home args s s' /\
    (cv_faults s = [] -> cv_files s' = foldl (put_package k home) (cv_files s) args).
Proof.
  unfold convert_main. munfold. destruct (tool_key _ _) as [[k|]|e|]; [|intros [= <- <-]; by left|done..].
  destruct (convert_args k home args s) as [o s1] eqn:E. destruct o as [[]|e|]; [|done..].
  intros [= <- <-]. right. exists k. split; [done|]. split; [done|].
  split; [by apply (convert_args_cases _ _ _ _ _ _ E)|].
  intros Hf. by apply (convert_args_whole _ _ _ _ _ _ E).
Qed.
End convert_main.

(** ** [apkg-index] *)

Section index_main.
Context `{BoltOps, LlrbOps, Ldcache, !Json, GoRange, GoSort, Ed25519, Jwt, Squashfs, Remote, PkgJson}.
Context `{!PkgMetaJson, !GoRangeKeys}.
Context (jwt_Sign : gmap bytes bytes -> bytes -> HsmKey -> outcome bytes).

(** A failure of [processDb] is logged and the tool ends normally. *)
Definition index_main (env : environ) (now : nat -> Z * Z) (hsm_New : outcome HSM)
    (tempDir : outcome bytes) (home : bytes) (es : list walkEntry) : ST ixState tool_exit :=
  k ← lift_st (tool_key hsm_New (str "tpdb_sign_ed25519"));
  match k with
  | None => mret (Exit 1)
  | Some k => _ ← try_st (processDb jwt_Sign env k (str "main") now tempDir home es); mret Done
  end.
End index_main.

(** ** Concrete instance, for evaluation *)

Module SampleTools.
Import SampleConvert.
#[local] Existing Instance Toy.toy_ed25519.
#[local] Existing Instance SampleConvert.squash_new.
#[local] Existing Instance SampleConvert.meta_json.

Definition hsm : HSM := {| ListKeysByName n := Ok (
  if bool_decide (n = str "pkg_sign_ed25519") then [Toy.key Toy.pkg_kid]
  else if bool_decide (n = str "tpdb_sign_ed25519") then [Toy.key Toy.db_kid] else []) |}.
Definition args : list (bytes * outcome bytes) :=
  [(str "gone.squashfs", Err ErrNotExist); (pkg_name, Ok (str "hsqs")); (str "a.b.squashfs", Ok (str "hsqs"))].

Example no_hsm : tool_key (Err ErrNotExist) (str "pkg_sign_ed25519") = Ok None.
Proof. reflexivity. Qed.
Example no_key : tool_key (Ok hsm) (str "other") = Ok None.
Proof. reflexivity. Qed.

Lemma convert_runs : exists s', convert_main (Ok hsm) (str "/root") args start = (Ok Done, s').
Proof.
  assert (fst (convert_main (Ok hsm) (str "/root") args start) = Ok Done) as Ho by (vm_compute; reflexivity).
  destruct (convert_main _ _ _ _) as [o s']. cbn [fst] in Ho. subst o. by exists s'.
Qed.
Lemma args_put :
  size (foldl (put_package (Toy.key Toy.pkg_kid) (str "/root")) ∅ args) = 1%nat.
Proof. vm_compute. reflexivity. Qed.

Lemma convert_run_witness : exists s',
  convert_main (Ok hsm) (str "/root") args start = (Ok Done, s') /\ size (cv_files s') = 1%nat.
Proof.
  destruct convert_runs as [s' E]. exists s'. split; [exact E|].
  destruct (convert_run _ _ _ _ _ _ E) as [(Hx & _)|(k & _ & Hk & _ & Hw)]; [discriminate Hx|].
  rewrite (Hw eq_refl). injection Hk as <-. exact args_put.
Defined.
End SampleTools.
