(* ===== verification/Pipeline.v ===== *)
(** * Pipeline: from an image to the files below the mount point

    The components composed: [apkg-convert] makes a package of an image,
    [apkg-index] publishes a database that lists it, a daemon that starts
    downloads the database, resolves the name of the package, downloads the
    package, checks it and mounts the image.  Each section follows one of the
    hand-overs; the last theorem is the whole way. *)

From S2P Require Import Prelude GoLib Sha256 GoPath Sig Collate Natsort OsArch Bolt Store GoTime Pins Ldso Index Export Package Update Unsigned World Lookup Life Running Convert Indexer.
Local Open Scope Z_scope.

(** ** A package file, as the daemon reads it *)

Section package.
Context `{Ed25519, Squashfs, Remote, PkgJson}.

(** Reading [image], within its length. *)
Definition reads (R : nat -> Z -> outcome bytes) (image : bytes) : Prop :=
  forall n off, 0 <= off -> off + Z.of_nat n <= Z.of_nat (length image) -> R n off = file_ReadAt image n off.

(** [file] is a package [OpenPackage] accepts as [p], with [image] in it, and
    everything [validate] reads of it. *)
Record packed (file image : bytes) (p : Package) : Prop := {
  pc_open : OpenPackage file = Ok p;
  pc_length : Z.of_nat (length file) < two63;
  pc_layout : exists h sg res,
    fst (read_apkg 3 (drop 4 (pk_rawHeader p))) = Ok h /\ 0 <= at_ (a_last h) 0 /\
    file_ReadAt file 128 (at_ (a_last h) 0) = Ok sg /\ VerifyPkg (pk_rawHeader p) sg = Ok res /\
    0 <= at_ (a_last h) 1 <= Z.of_nat (length file) /\ drop (Z.to_nat (at_ (a_last h) 1)) file = image;
}.

Lemma OpenPackage_reads f p :
  OpenPackage f = Ok p ->
  file_ReadAt f pkgHeaderLen 0 = Ok (pk_rawHeader p) /\ pk_hash p = Sum256 (pk_rawHeader p) /\
  take 4 (pk_rawHeader p) = str "APKG" /\ pk_size p = Z.of_nat (length f).
Proof.
  unfold OpenPackage. rewrite bind_Ok. intros (header & Eh & E).
  revert E. rewrite bind_Ok. intros ([] & Em%check_Ok%bool_decide_eq_true & E).
  do 8 (revert E; rewrite bind_Ok; intros (? & _ & E)). by injection E as <-.
Qed.

(** What the network gives for a package: the content of [file]. *)
Definition serves (rf : rfile) (file : bytes) : Prop := reads (rf_ReadAt rf) file.

Lemma file_ReadAt_drop f n off k :
  0 <= off -> 0 <= k -> file_ReadAt f n (off + k) = file_ReadAt (drop (Z.to_nat k) f) n off.
Proof. intros Ho Hk. unfold file_ReadAt. by rewrite drop_drop, Z2Nat.inj_add, Nat.add_comm by done. Qed.

Lemma reads_Ok R f n off v : reads R f -> (0 < n)%nat -> 0 <= off -> file_ReadAt f n off = Ok v -> R n off = Ok v.
Proof.
  intros HR Hpos Ho E. rewrite <-E. apply HR; [done|]. apply file_ReadAt_Ok in E as [-> Hl]; [|done].
  unfold section_at in Hl. rewrite Nat2Z.id, length_take, length_drop in Hl. lia.
Qed.

Lemma validate_packed c s file image p rf :
  packed file image p -> pk_hash (dl_pkg s) = pk_hash p ->
  pk_f (dl_pkg s) = Some rf -> serves rf file ->
  exists s', validate c s = (Ok tt, s') /\ same_identity (dl_pkg s) (dl_pkg s') /\
    reads (ReadAt (dl_pkg s')) image.
Proof.
  intros [Eo Hlen (h & sg & res & Eh & Hso & Esg & Ev & Hoff & Himg)] Hh Hf Hs.
  destruct (OpenPackage_reads _ _ Eo) as (Er & Ehash & Em & _).
  unfold validate, f_ReadAt, upd_pkg. munfold. rewrite Hf.
  rewrite (reads_Ok _ _ pkgHeaderLen 0 _ Hs ltac:(unfold pkgHeaderLen; lia) ltac:(done) Er), decide_True by congruence.
  rewrite Em, bool_decide_eq_true_2 by done. cbn [check]. rewrite Eh. cbn. rewrite Hf.
  rewrite (reads_Ok _ _ 128 _ _ Hs ltac:(lia) Hso Esg), Ev. eexists. split; [reflexivity|]. split; [done|].
  intros n off Ho Hn. unfold ReadAt. cbn. rewrite Hf. rewrite <-Himg, length_drop in Hn.
  rewrite i64_small by lia. rewrite (Hs n) by lia. rewrite file_ReadAt_drop by lia. by rewrite Himg.
Qed.

(** Every reader of [image] mounts as [sq] at the number [i]. *)
Definition mounts_as (image : bytes) (i : Z) (sq : superblock) : Prop :=
  forall R, reads R image -> sq_New R i = Ok sq.

(** The network lets the attempt of [s] read the package from [file]. *)
Definition delivers (c : DBConf) (s : dlState) (file : bytes) : Prop :=
  let lp := lpath c (dl_pkg s) in
  MkdirAll (dl_tries s) (path_Dir lp) = Ok tt /\
  exists rf, OpenTo (dl_tries s) (pkg_url c (dl_pkg s)) lp = Ok rf /\
    serves (SetSize rf (i64 (pk_size (dl_pkg s)))) file.

(** Then the image is mounted. *)
Lemma ensureDl_packed c s file image p sq :
  packed file image p -> pk_hash (dl_pkg s) = pk_hash p -> pk_dlDone (dl_pkg s) = false ->
  delivers c s file -> mounts_as image (pk_startIno (dl_pkg s)) sq ->
  exists s', ensureDl c s = (Ok tt, s') /\ same_identity (dl_pkg s) (dl_pkg s') /\
    pk_squash (dl_pkg s') = Some sq /\ pk_dlDone (dl_pkg s') = true /\
    reads (ReadAt (dl_pkg s')) image.
Proof.
  intros Hp Hh Hd (Hm & rf & Ho & Hs) Hsq. unfold ensureDl, doDl, next_try, upd_pkg, try_st. munfold.
  rewrite Hd. cbn -[validate]. rewrite Hm, Ho. cbn -[validate].
  match goal with |- context [validate c ?s1] => set (s0 := s1) end.
  destruct (validate_packed c s0 file image p _ Hp Hh eq_refl Hs) as (s1 & -> & Hid & Hr).
  assert (pk_startIno (dl_pkg s1) = pk_startIno (dl_pkg s)) as Es by apply Hid.
  rewrite Es, (Hsq _ Hr). cbn. eexists. split; [reflexivity|]. cbn. by repeat split; try apply Hid.
Qed.
End package.

(** ** The package [apkg-convert] makes *)

(** [encoding/json] with the tags of the three structs: what [apkg-convert]
    marshals, [OpenPackage] and [apkg-index] unmarshal. *)
Class JsonAgrees `{MetaJson, PkgJson, PkgMetaJson} : Prop :=
  json_agrees x j : Marshal_meta x = Ok j -> exists info m,
    Unmarshal_info j = Ok info /\ Unmarshal_pkgMeta j = Ok m /\
    mi_FullName info = FullName x /\ mi_Inodes info = Inodes x /\
    pm_Arch m = MetaArch x /\ pm_Os m = MetaOS x.

(** A key that makes Ed25519 keys and signatures of their length. *)
Definition ed25519_key (k : HsmKey) : Prop :=
  (forall pub, PublicBlob k = Ok pub -> Z.of_nat (length pub) = PublicKeySize) /\
  (forall d b, KeySign k d = Ok b -> Z.of_nat (length b) = Ed25519SignatureSize).

Definition name_of (filename : bytes) : bytes := TrimSuffix (path_Base filename) (str ".squashfs").

Lemma parsed_dot n np : parsePackageFilename n = Ok np -> is_Some (IndexByte n dot).
Proof.
  intros E. destruct (IndexByte n dot) eqn:Ei; [done|]. exfalso. revert E. unfold parsePackageFilename.
  rewrite Split_no_sep; [done|]. by apply IndexByte_None.
Qed.

Section convert.
Context `{Ed25519Spec, !SquashNew, !MetaJson, Squashfs, Remote, PkgJson, !PkgMetaJson, !JsonAgrees}.

(** The layout of what is written, with the 128 bytes at the signature. *)
Lemma written_packed created meta table bs sigB pad f p :
  let header := header_bytes created meta table bs in
  let file := concat [header; meta; table; sign_buf pad sigB; f] in
  sizes_fit meta table -> 0 <= bs < two32 ->
  pad = padding (signOffset (Z.of_nat (length meta)) (Z.of_nat (length table))) ->
  Z.of_nat (length sigB) = SignatureSize -> 29 <= Z.of_nat (length f) < 2 ^ 40 ->
  (forall zs, exists res, VerifyPkg header (sigB ++ zs) = Ok res) ->
  OpenPackage file = Ok p -> pk_rawHeader p = header -> packed file f p.
Proof.
  intros header file Hfit Hbs Hpad Hls Hf Hv Eo Hh. set (so := signOffset _ _) in *.
  assert (length header = pkgHeaderLen) as Hl by apply length_header.
  assert (0 <= so /\ so = Z.of_nat (length (header ++ meta ++ table))) as [Hso Eso].
  { rewrite !length_app, Hl. unfold so, signOffset, pkgHeaderLen. lia. }
  destruct (padding_range so Hso) as [Hp _]. rewrite <-Hpad in Hp.
  destruct (written_layout created meta table bs sigB pad f Hfit Hbs Hpad ltac:(lia)) as (h & Eh & _ & _ & Himg).
  destruct (read_apkg_header created meta table bs Hfit Hbs) as (_ & h' & _ & Eh' & _ & _ & _ & _ & _ & _ & _ & Hlast).
  fold header in Eh, Eh', Himg. fold so in Hlast. rewrite <-Hpad in Hlast.
  assert (h' = h) as -> by congruence. rewrite Hlast in Himg. cbn [at_ nth] in Himg.
  set (rest := replicate (Z.to_nat pad - length sigB) Byte.x00 ++ f).
  assert (file = (header ++ meta ++ table) ++ (sigB ++ take 29 rest) ++ drop 29 rest) as Ef.
  { unfold file, sign_buf, rest. cbn [concat]. by rewrite app_nil_r, <-!app_assoc, take_drop. }
  assert (length file = length (header ++ meta ++ table) + Z.to_nat pad + length f)%nat as Elen.
  { unfold file, sign_buf. cbn [concat]. rewrite !length_app, length_replicate. cbn [length]. lia. }
  assert (29 <= length rest)%nat as Hrest by (unfold rest; rewrite length_app; lia).
  assert (so < 4294967296) as Hlt by (unfold so, signOffset, sizes_fit, two32 in *; lia).
  split; [done|unfold two63; lia|]. rewrite Hh. destruct (Hv (take 29 rest)) as [res Hres].
  exists h, (sigB ++ take 29 rest), res. rewrite Hlast. cbn [at_ nth]. split; [done|]. split; [done|].
  split; [|split; [done|split; [lia|done]]].
  apply (file_ReadAt_mid _ (header ++ meta ++ table) _ (drop 29 rest)); [done| |done].
  change SignatureSize with 99 in Hls. rewrite length_app, length_take. lia.
Qed.

Lemma prepared_packed k filename f r :
  ed25519_key k -> 29 <= Z.of_nat (length f) < 2 ^ 40 -> prepare k filename f = Ok r ->
  exists sb np p m, squash_New f = Ok sb /\ parsePackageFilename (name_of filename) = Ok np /\
    packed (concat r.2) f p /\ Unmarshal_pkgMeta (pk_rawMeta p) = Ok m /\
    pk_name p = name_of filename /\ pk_inodes p = im_InodeCnt sb /\
    pm_Arch m = np_arch np /\ pm_Os m = np_os np.
Proof.
  intros [Hpub Hsig] Hf Ep.
  destruct (prepare_ok _ _ _ _ Ep)
    as (sb & np & ld & pr & meta & sigB & Esb & Enp & Em & Hml & Es & Hle & Hr).
  destruct (json_agrees _ _ Em) as (info & m & Hinfo & Hm & Hn & Hi & Ha & Ho).
  destruct (sign_header_ok _ _ _ [] Hpub Hsig Es) as (Hls & res & Hv). rewrite app_nil_r in Hv.
  pose proof (table_fits f ltac:(lia)) as Ht.
  pose proof (block_size_range (Z.of_nat (length f))) as Hbs.
  assert (sizes_fit meta (hash_table f)) as Hfit by (unfold sizes_fit, two32; lia).
  assert (0 <= block_size (Z.of_nat (length f)) < two32) as Hb32 by (unfold two32; lia).
  destruct (OpenPackage_written (im_ModTime sb) meta (hash_table f) _ sigB _ f info res
    Hfit Hb32 eq_refl Hls Hv Hinfo) as (p & Eo & Hh & Hmt & Hnm & Hin).
  exists sb, np, p, m. split; [done|]. split; [done|]. rewrite Hmt, Hnm, Hin, Hn, Hi, Ha, Ho.
  split; [|done]. rewrite Hr. eapply written_packed; try done.
  intros zs. by destruct (sign_header_ok _ _ _ zs Hpub Hsig Es).
Qed.
End convert.

(** ** The database [apkg-index] publishes *)

(** A change that concerns neither the name nor the hash of [e]. *)
Definition independent (e : pkgEntry) (c : change) : Prop :=
  match c with
  | CAdd x => e_hash x <> e_hash e /\ e_name x <> e_name e
  | CRemove n => n <> e_name e
  end.

Section changes.
Context `{BoltSpec}.

Lemma pkg_put_stores extra e b b' : pkg_put extra e b b' -> wf_entry e -> listed b' e.
Proof.
  intros (P1 & P2 & P3 & P4 & P5 & P6 & _) We. split; [done|]. unfold stored.
  by rewrite P1, P2, P3, P4, P5, P6, !lookup_insert_eq.
Qed.

Lemma pkg_put_keeps extra x e b b' :
  pkg_put extra x b b' -> e_hash x <> e_hash e -> e_name x <> e_name e -> listed b e -> listed b' e.
Proof.
  intros (P1 & P2 & P3 & P4 & P5 & P6 & _) Hh Hn (We & Se & Le). split; [done|]. unfold stored in *.
  assert (collatedVersion (e_name x) <> collatedVersion (e_name e)) as Hk by by intros ?%collatedVersion_key.
  by rewrite P1, P2, P3, P4, P5, P6, !lookup_insert_ne.
Qed.

Lemma applied_keeps e c b b' : applied c b b' -> independent e c -> listed b e -> listed b' e.
Proof.
  destruct 1 as [x b b' _ P|x b _|n b b' C]; [|done|].
  - intros [Hh Hn]. by eapply pkg_put_keeps.
  - intros Hn (We & Se & Le). split; [done|]. unfold stored in *.
    rewrite (changed_eq _ _ _ _ C), !(changed_ne _ _ _ _ _ C) by discriminate.
    split; [done|]. rewrite lookup_delete_ne; [done|]. by intros ?%collatedVersion_key.
Qed.

Lemma applied_unknown e c b b' :
  applied c b b' -> independent e c -> bk b pkgBucket !! e_hash e = None ->
  bk b' pkgBucket !! e_hash e = None.
Proof.
  destruct 1 as [x b b' _ P|x b _|n b b' C]; [|done|].
  - intros [Hh _]. destruct P as (_ & P & _). by rewrite P, lookup_insert_ne.
  - intros _. by rewrite (changed_ne _ _ _ _ _ C) by discriminate.
Qed.

Lemma applied_all_last cs c b b' :
  applied_all (cs ++ [c]) b b' -> exists b1, applied_all cs b b1 /\ applied c b1 b'.
Proof.
  intros A. inversion A as [b0 E|cs' c' b0 b1 b2 A1 A2 E]; [by destruct cs|].
  apply app_inj_tail in E as [-> ->]. eauto.
Qed.

Lemma applied_all_unknown e cs b b' :
  Forall (independent e) cs -> applied_all cs b b' -> bk b pkgBucket !! e_hash e = None ->
  bk b' pkgBucket !! e_hash e = None.
Proof.
  intros Hcs A. induction A as [|cs c b b1 b' _ IH A]; [done|].
  apply Forall_app in Hcs as [Hcs [Hc _]%Forall_cons]. intros Hn. by eapply applied_unknown; eauto.
Qed.

(** A new package is listed in the end, when no other change concerns it. *)
Lemma applied_all_lists e cs cs' b b' :
  Forall (independent e) (cs ++ cs') ->
  wf_entry e -> entry_fits e = true -> bk b pkgBucket !! e_hash e = None ->
  applied_all (cs ++ CAdd e :: cs') b b' -> listed b' e.
Proof.
  intros [Hcs Hcs']%Forall_app We Hfit Hnew. revert b'. induction cs' as [|c cs' IH] using rev_ind; intros b' A.
  - apply applied_all_last in A as (b1 & A1 & A2).
    pose proof (applied_all_unknown _ _ _ _ Hcs A1 Hnew) as Hn1.
    inversion A2 as [x b0 b2 _ P|x b0 Hx|]; subst; [by eapply pkg_put_stores|].
    destruct Hx as [[? ?]|?]; congruence.
  - apply Forall_app in Hcs' as [Hcs' [Hc _]%Forall_cons].
    change (CAdd e :: cs' ++ [c]) with ((CAdd e :: cs') ++ [c]) in A. rewrite app_assoc in A.
    apply applied_all_last in A as (b1 & A1 & A2). by eapply applied_keeps; eauto.
Qed.
End changes.

(** *** The published file, indexed by a new database *)

Section exported.
Context `{BoltSpec, Ed25519}.

(** Packages whose hashes are distinct and new are all stored. *)
Lemma indexed_fresh es b b' :
  indexed es b b' -> NoDup (map e_hash es) -> Forall (fun e => bk b pkgBucket !! e_hash e = None) es ->
  bk b' p2pBucket = foldl (fun m e => <[(entry_kv e).1 := (entry_kv e).2]> m) (bk b p2pBucket) es /\
  Forall (stored b') es /\
  (forall e, e_hash e ∉ map e_hash es -> stored b e -> stored b' e).
Proof.
  induction 1 as [b|e es b b' [? Hs] _ _|e es b b1 b' Hn P Hi IH]; intros Hnd Hf.
  - split; [done|]. split; [constructor|done].
  - apply Forall_cons in Hf as [Hf _]. congruence.
  - apply Forall_cons in Hf as [_ Hf]. cbn [map] in Hnd. apply NoDup_cons in Hnd as [Hne Hnd].
    destruct P as (P1 & P2 & P3 & P4 & P5 & P6 & _). destruct IH as (Ep & St & Pr); [done| |].
    { rewrite Forall_forall in Hf |- *. intros x Hin. rewrite P2, lookup_insert_ne; [by apply Hf|].
      intros Eh. apply Hne. rewrite Eh. by apply (list_elem_of_fmap_2 e_hash). }
    split; [by rewrite Ep, P1|]. split.
    + constructor; [|done]. apply Pr; [done|]. unfold stored.
      by rewrite P2, P3, P4, P5, P6, !lookup_insert_eq.
    + intros x Hx Sx. cbn [map] in Hx. apply not_elem_of_cons in Hx as [Hxe Hx].
      apply Pr; [done|]. unfold stored in *. by rewrite P2, P3, P4, P5, P6, !lookup_insert_ne.
Qed.

(** Data within the limits of the file format. *)
Record publishable (b : bdb) (es : list pkgEntry) (ps : list pin) : Prop := {
  pb_wf : db_wf b;
  pb_has : has b p2pBucket;
  pb_listing : listing b es;
  pb_pins : pin_listing b ps;
  pb_exportable : Forall exportable es;
  pb_count : Z.of_nat (length es) < two32;
  pb_length : 196 + SignatureSize +
    Z.of_nat (length (concat (map encode_pkg es) ++ concat (map encode_pin ps))) < two32;
}.

(** A trusted key of a database. *)
Definition trusted_key (k : HsmKey) : Prop :=
  exists pub signer, key_works k pub /\ trustedDbSig !! RawURLEncode pub = Some signer.

(** What the value of the name index tells of a package. *)
Lemma p2p_value_inj e x :
  wf_entry e -> wf_entry x -> p2p_value e = p2p_value x ->
  e_hash e = e_hash x /\ e_inodes e = e_inodes x /\ e_name e = e_name x.
Proof.
  intros (He & _ & Hie) (Hx & _ & Hix) E. unfold p2p_value in E.
  apply app_inj_1 in E as [Eh E]; [|congruence].
  apply app_inj_1 in E as [Ei En]; [|by rewrite !length_be_put].
  split; [done|]. split; [|done]. apply (f_equal be_get) in Ei.
  by rewrite !be_get_put_small in Ei by (change (256 ^ Z.of_nat 8) with two64; lia).
Qed.

Lemma stored_same b b' e x :
  stored b e -> stored b x -> e_hash e = e_hash x -> stored b' x -> stored b' e.
Proof. unfold stored. intros Se Sx Eh. rewrite Eh in *. intuition congruence. Qed.

Lemma listing_elem b es v :
  has b p2pBucket -> listing b es -> (exists k, bk b p2pBucket !! k = Some v) ->
  exists x, x ∈ es /\ stored b x /\ v = p2p_value x.
Proof.
  intros Hp Hl [k Hk]. destruct (listing_keys b es Hp Hl) as (El & _ & _ & Hst).
  destruct Hp as [m Hm]. unfold bk in Hk. rewrite Hm in Hk.
  apply (Entries_lookup b p2pBucket m) in Hk; [|done]. rewrite El in Hk.
  apply list_elem_of_fmap in Hk as (x & [= _ ->] & Hx). exists x.
  split; [done|]. rewrite Forall_forall in Hst. by split; [apply Hst|].
Qed.

(** A new database that indexes the published file lists the same packages. *)
Lemma exported_indexes k c sec nsec b es ps f h data b1 b2 :
  publishable b es ps -> trusted_key k -> Byte.x00 ∉ db_name c -> (length (db_name c) <= 32)%nat ->
  0 <= sec < two63 -> 0 <= nsec < two63 ->
  export_file k c sec nsec b = Ok f -> check_file (db_name c) f = Ok (h, data) ->
  (forall m, bk b1 m = ∅) -> index_effect h data b1 b2 ->
  (forall e, listed b e -> listed b2 e) /\ (forall e, listed b2 e -> e_inodes e < two32).
Proof.
  intros [Hw Hp Hl Hpl Hx Hc Hlen] (pub & signer & Hk & Htr) Hn Hln Hs Hns Ef Eck He Hi.
  pose proof (export_data_listing b es ps Hw Hp Hl Hpl Hx Hc) as Ed.
  destruct (export_file_checks k c sec nsec b pub signer _ _ Hk Htr Hn Hln Hs Hns Ed)
    as (f' & h' & Ef' & Eck' & _ & _ & Hcnt); [lia..|].
  rewrite Ef in Ef'. injection Ef' as <-. rewrite Eck in Eck'. injection Eck' as <- ->.
  destruct Hi as (b0 & b3 & es' & r & ps' & Hs0 & _ & Er & Hix & _ & _ & _ & Ho & _).
  rewrite Hcnt, Nat2Z.id, read_pkgs_encode in Er by done. injection Er as <- _.
  destruct (listing_keys b es Hp Hl) as (_ & _ & Hnd & Hst).
  assert (forall m, bk b0 m = ∅) as He0 by (intros m; by rewrite Hs0).
  destruct (indexed_fresh es b0 b3 Hix Hnd) as (Ep & St & _).
  { apply Forall_forall. intros e _. by rewrite He0. }
  rewrite He0, (foldl_listing b es) in Ep by done.
  assert (bk b2 p2pBucket = bk b p2pBucket) as Ep2 by (rewrite Ho by discriminate; done).
  rewrite Forall_forall in St, Hx. split.
  - intros e (We & Se & Le). split; [done|]. rewrite Ep2. split; [|done].
    destruct (listing_elem b es (p2p_value e) Hp Hl) as (x & Hin & Sx & Ev); [eauto|].
    destruct (p2p_value_inj e x We) as (Eh & _ & _); [apply (Hx x Hin)|done|].
    apply (stored_same b b2 e x Se Sx Eh). unfold stored. rewrite !Ho by discriminate. by apply St.
  - intros e (We & _ & Le). rewrite Ep2 in Le.
    destruct (listing_elem b es (p2p_value e) Hp Hl) as (x & Hin & _ & Ev); [eauto|].
    destruct (p2p_value_inj e x We) as (_ & -> & _); [apply (Hx x Hin)|done|]. apply (Hx x Hin).
Qed.
End exported.

(** ** A daemon that starts *)

Section daemon.
Context `{BoltSpec, LlrbSpec, Ldcache, !Json, GoRange, GoSort, Ed25519Spec, Jwt, Squashfs, Remote, PkgJson}.

(** The settings of the main database of a daemon for a platform. *)
Definition daemon_conf (prefix name path os arch : bytes) : DBConf := {|
  db_prefix := prefix; db_path := path; db_name := name; db_os := os; db_arch := arch;
  db_osV := ParseOS os; db_archV := ParseArch arch |}.

(** A network that announces a version and has its whole database. *)
Definition offers (net : network) (c : DBConf) (f : bytes) : Prop :=
  exists version, latest_version net c = Ok (Some version) /\
    full_db net c version = Ok {| StatusCode := 200; Body := f; BodyErr := None |}.

Lemma first_download net c f d b d' :
  locked d = false -> conf d = c -> offers net c f -> download net [] d = (Ok b, d') ->
  same_but_ldso d d' /\ updated_by c f (file d) (file d').
Proof.
  intros Hl Hc (version & Hv & Hf) E. subst c. unfold download in E. munfold. rewrite Hv in E.
  rewrite bool_decide_eq_true_2 in E by done. cbn [negb andb] in E.
  unfold fetch_db in E. rewrite bool_decide_eq_true_2, Hf in E by done.
  destruct (install_cases _ _ _ _ Hl E) as (_ & S & Hn & [[_ W]|[_ W]]); [|done].
  by destruct b.
Qed.

(** [New] in a process that has no database yet. *)
Lemma new_daemon env goos goarch eos earch prefix name path r w f :
  let os := if bool_decide (eos = []) then goos else eos in
  let arch := if bool_decide (earch = []) then goarch else earch in
  let c := daemon_conf prefix name path os arch in
  (forall fn, env_file env fn = None) -> offers (env_net env) c f ->
  World.New env goos goarch eos earch prefix name path (started false) = (Ok r, w) ->
  exists d, live r d w /\ dbs w !! r = Some d /\ nextI d = 1000 /\ pkgI d = ∅ /\ channel d = [] /\
    conf d = c /\ pkgCache w = ∅ /\ unsignedMap (reg w) = None /\
    updated_by c f bolt_empty (file d).
Proof.
  intros os arch c Hf Ho E.
  assert (env_ok env) as He by (intros fn b; by rewrite Hf).
  destruct (New_live _ _ _ _ _ _ _ _ _ _ _ He E) as (d & L).
  unfold World.New in E. fold os arch in E. unfold NewOsArch, open_db in E.
  destruct (env_open env); [done|]. rewrite Hf in E.
  match type of E with context [init_db env ?d] => set (d0 := d) in E end.
  destruct (init_db env d0) as [[b|e|] d1] eqn:Ei; [|done..]. injection E as <- <-.
  cbn [db_next started] in L. pose proof (sh_root _ _ _ (b_shape _ _ _ (lv_base _ _ _ L))) as Hd.
  cbn [dbs] in Hd. rewrite lookup_insert_eq in Hd. injection Hd as <-.
  exists d1. split; [exact L|]. cbn [dbs]. rewrite lookup_insert_eq.
  revert Ei. unfold init_db, try_st. munfold.
  destruct (buildLdso d0) as [o1 d2] eqn:E1. apply buildLdso_frame in E1 as (S1 & F1 & P1 & L1 & _).
  assert (CurrentVersion d2 = Ok []) as Hv.
  { unfold CurrentVersion, current_version, with_RLock, View. rewrite L1, P1, F1. change (locked d0) with false.
    change (dbptr d0) with (Some ReadWrite). change (file d0) with bolt_empty. cbn [default option_map].
    assert (has_bucket bolt_empty p2pBucket = false) as ->; [|done].
    rewrite has_bucket_spec, contents_empty. done. }
  intros Ei. assert (exists b1, download (env_net env) [] d2 = (Ok b1, d1)) as [b1 Ed].
  { destruct o1 as [[]|e|]; [| |done]. 
    all: rewrite Hv, bool_decide_eq_true_2 in Ei by done.
    all: destruct (download (env_net env) [] d2) as [[b1|e1|] d3]; [|done..]; injection Ei as _ <-; eauto. }
  assert (locked d2 = false) as Hl by by rewrite L1.
  destruct (first_download _ c f _ _ _ Hl ltac:(apply S1) Ho Ed) as (S2 & U). rewrite F1 in U.
  assert (same_but_ldso d0 d1) as (Sc & _ & _ & _ & _ & Sn & Sp & _ & _ & Sch) by by etrans.
  split; [done|]. by rewrite Sc, Sn, Sp, Sch.
Qed.
End daemon.

(** ** The lookup, and the files *)

Section lookup.
Context `{BoltSpec, LlrbSpec, Ldcache, !Json, GoRange, GoSort, Ed25519Spec, Jwt, Squashfs, Remote, PkgJson}.

Lemma has_of_lookup b m k v : bk b m !! k = Some v -> has b m.
Proof. unfold bk, has. destruct (contents b !! m) eqn:E; [eauto|]. cbn. by rewrite lookup_empty. Qed.

(** The full name of a package that is listed and not yet loaded. *)
Lemma lookup_exact r dr w l d e :
  live r dr w -> dbs w !! l = Some d -> unsignedMap (reg w) = None -> is_Some (dbptr d) ->
  listed (file d) e -> is_Some (IndexByte (e_name e) dot) ->
  nextI dr + e_inodes e + 1 < two64 -> pkgCache w !! e_hash e = None ->
  exists n p p0 dr' w1, internalLookup l (e_name e) w = (Ok (n + 1), w1) /\ live r dr' w1 /\
    carries r w w1 /\
    pkgCache w1 !! e_hash e = Some p /\ pkgs w1 !! p = Some (fresh_dl p0) /\
    stored_pkg l (file d) n (e_hash e) = Ok p0 /\ pk_name p0 = e_name e.
Proof.
  intros L Hd Hu [m Hm] Le [i Hi] Hfit Hc. pose proof (lv_base _ _ _ L) as B.
  destruct (b_dbs _ _ _ B _ _ Hd) as (_ & Hl & _).
  destruct (live_instantiate r dr w l d e L Hd Le Hfit) as (n & dr' & w1 & Ei & L1 & C & _ & _ & _ & Hnew).
  destruct (Hnew Hc) as (p & p0 & Hp & Hst & Esp & Hs & Hn). exists n, p, p0, dr', w1.
  split; [|done]. rewrite (internalLookup_select l d _ w Hu Hd Hl), Hi, Hm.
  unfold select. destruct (Le) as (_ & _ & Ek).
  rewrite (proj2 (has_bucket_has _ _) (has_of_lookup _ _ _ _ Ek)), Get_bk, Ek. cbn [negb]. munfold. rewrite Ei.
  do 2 f_equal. pose proof (lv_base _ _ _ L1) as B1. pose proof (b_next _ _ _ B1).
  destruct (b_cache _ _ _ B1 _ _ Hp) as (st & Hp' & _ & Hit). rewrite Hst in Hp'. injection Hp' as <-.
  cbn [dl_pkg fresh_dl] in Hit. rewrite Hs in Hit.
  destruct (b_item _ _ _ B1 _ _ Hit) as (_ & ? & k & _ & ? & ?). by rewrite u64_small by lia.
Qed.

(** What [getPkgTx] takes from the entry. *)
Lemma stored_pkg_entry l b n e p0 :
  Forall (has b) addBuckets -> wf_entry e -> stored b e -> stored_pkg l b n (e_hash e) = Ok p0 ->
  pk_path p0 = e_path e /\ pk_size p0 = e_size e /\ pk_inodes p0 = e_inodes e /\ pk_dlDone p0 = false.
Proof.
  intros Hb We Se E. destruct (stored_pkg_listed l b n e Hb We Se) as (p1 & E1 & _ & Hi).
  rewrite E in E1. injection E1 as <-. destruct We as (_ & Hs & _), Se as (S1 & _ & _ & _ & S5).
  revert E. unfold stored_pkg. rewrite !Get_bk, S1, S5. cbn [default option_map id]. rewrite bind_Ok. intros ([] & _ & E).
  revert E. cbv zeta. rewrite bind_Ok. intros ([] & _ & E). revert E. rewrite bind_Ok. intros ([] & _ & E).
  split; [by injection E as <-|]. split; [|split; [done|by injection E as <-]].
  injection E as <-. refine (be_get_put_small 8 (e_size e) _).
  change (256 ^ Z.of_nat 8) with two64. lia.
Qed.

(** The package [p0], not yet downloaded or mounted as [sq] on a reader of [img]. *)
Definition loading (p0 : Package) (img : bytes) (sq : superblock) (st : dlState) : Prop :=
  st = fresh_dl p0 \/
  same_identity p0 (dl_pkg st) /\ pk_dlDone (dl_pkg st) = true /\ pk_squash (dl_pkg st) = Some sq /\
    reads (ReadAt (dl_pkg st)) img.

Lemma loading_identity p0 img sq st : loading p0 img sq st -> same_identity p0 (dl_pkg st).
Proof. intros [->|[? _]]; [apply same_identity_refl|done]. Qed.

(** Its superblock answers for a number inside. *)
Lemma loading_handles c p0 f img pk sq st k :
  packed f img pk -> pk_hash p0 = pk_hash pk -> pk_dlDone p0 = false -> delivers c (fresh_dl p0) f ->
  mounts_as img (pk_startIno p0) sq -> 0 < k -> loading p0 img sq st ->
  exists st', handleLookup c (pk_startIno p0 + k) st = (InoSquash <$> sq_GetInode sq k, st') /\
    loading p0 img sq st' /\ pk_dlDone (dl_pkg st') = true.
Proof.
  intros Hpk Hh Hdl Hdel Hsq Hk Hst.
  assert (exists st', ensureDl c st = (Ok tt, st') /\ loading p0 img sq st' /\ pk_dlDone (dl_pkg st') = true /\
    pk_squash (dl_pkg st') = Some sq /\ same_identity p0 (dl_pkg st') /\ pk_startIno (dl_pkg st) = pk_startIno p0)
    as (st' & E & Hl & Hd & Hq & Hid & Hs).
  { destruct Hst as [->|(Hid & Hd & Hq & Hr)].
    - destruct (ensureDl_packed c (fresh_dl p0) f img pk sq Hpk Hh Hdl Hdel Hsq) as (st' & -> & Hid & Hq & Hd & Hr).
      exists st'. split; [done|]. split; [by right|done].
    - exists st. unfold ensureDl. munfold. rewrite Hd. split; [done|]. split; [by right|].
      do 3 (split; [done|]). apply Hid. }
  exists st'. split; [|done]. unfold handleLookup. munfold. rewrite Hs, (proj2 (Z.eqb_neq _ _)) by lia.
  rewrite E, Hq. assert (pk_startIno (dl_pkg st') = pk_startIno p0) as -> by apply Hid.
  rewrite (proj2 (Z.leb_gt _ _)) by lia. by replace (pk_startIno p0 + k - pk_startIno p0) with k by lia.
Qed.

(** Requests for numbers of a package, one after the other. *)
Fixpoint ask (l : nat) (n : Z) (ks : list Z) (w : World) : list (outcome fsInode) :=
  match ks with
  | [] => []
  | k :: ks => let '(o, w) := GetInode l (n + k) w in o :: ask l n ks w
  end.

Lemma ask_answers r dr w d p p0 st n f img pk sq ks :
  live r dr w -> dbs w !! pk_parent p0 = Some d -> pkgCache w !! pk_hash p0 = Some p ->
  pkgs w !! p = Some st -> loading p0 img sq st ->
  packed f img pk -> pk_hash p0 = pk_hash pk -> pk_dlDone p0 = false -> delivers (conf d) (fresh_dl p0) f ->
  pk_startIno p0 = n -> mounts_as img n sq -> Forall (fun k => 0 < k <= pk_inodes p0) ks ->
  ask r n ks w = (fun k => (fun i => InoPkg (InoSquash i)) <$> sq_GetInode sq k) <$> ks.
Proof.
  intros L Hd Hc Hp Hst Hpk Hh Hdl Hdel <- Hsq Hks. revert w st L Hd Hc Hp Hst.
  induction Hks as [|k ks Hk _ IH]; intros w st L Hd Hc Hp Hst; [done|]. cbn [ask fmap list_fmap].
  pose proof (lv_base _ _ _ L) as B.
  pose proof (loading_identity _ _ _ _ Hst) as Hid.
  destruct (loading_handles (conf d) p0 f img pk sq st k Hpk Hh Hdl Hdel Hsq ltac:(lia) Hst)
    as (st' & E & Hst' & Hdl').
  assert (GetInode r (pk_startIno p0 + k) w =
    ((fun i => InoPkg (InoSquash i)) <$> sq_GetInode sq k, set_pkg p st' w)) as EG.
  { destruct Hid as (Ip & Is & _ & _ & Ii & _).
    assert (owned dr w (pk_startIno p0 + k) (pk_startIno p0)
      {| item_Value := pk_startIno p0; item_ref := RefPkg p |}) as O.
    { destruct (b_cache _ _ _ B _ _ Hc) as (st0 & Hp0 & _ & Hit). rewrite Hp in Hp0. injection Hp0 as <-.
      rewrite Is in Hit. split; [done|]. exists (pk_inodes p0). split; [by exists st|lia]. }
    rewrite (GetInode_owned _ _ _ _ _ _ B O). unfold routed. cbn [item_ref]. munfold.
    rewrite (in_pkg_get p _ w Hp). unfold get_db. rewrite Ip, Hd. unfold in_pkg. rewrite Hp, E.
    by destruct (sq_GetInode sq k). }
  rewrite EG. f_equal.
  destruct (set_pkg_live r dr w p st st' L Hp) as [L' _]; [|].
  { pose proof (loading_identity _ _ _ _ Hst') as Hid'. unfold same_identity in *. intuition congruence. }
  apply (IH _ st' L'); [done|done|cbn [pkgs set_pkg]; by rewrite lookup_insert_eq|done].
Qed.
End lookup.

(** ** The whole way *)

Section pipeline.
Context `{BoltSpec, LlrbSpec, Ldcache, !Json, GoRange, GoSort, Ed25519Spec, Jwt, Squashfs, Remote, PkgJson}.
Context `{!SquashNew, !MetaJson, !PkgMetaJson, !JsonAgrees, !GoRangeKeys, !GoRangeKeysSpec}.

(** *** The tools *)

(** The image, the key and the result of the conversion. *)
Context (kp : HsmKey) (filename img : bytes) (r : list bytes * list bytes) (sb : image) (np : nameParts).
Hypothesis Hkp : ed25519_key kp.
Hypothesis Himg : 29 <= Z.of_nat (length img) < 2 ^ 40.
Hypothesis Hsb : squash_New img = Ok sb.
Hypothesis Hinodes : 0 <= im_InodeCnt sb < two32.
Hypothesis Hnp : parsePackageFilename (name_of filename) = Ok np.
Hypothesis Hr : prepare kp filename img = Ok r.

(** The directory [apkg-index] walks, with the package in it. *)
Context (name tmp home : bytes) (es es' : list walkEntry) (we : walkEntry).
Let dir : bytes := path_Join [home; str "projects/apkg-tools/repo/apkg/dist"; name].
Let rpath : bytes := TrimLeft (TrimPrefix (we_path we) dir) slash.
Let fk : fileKey := {| fk_arch := np_arch np; fk_os := np_os np |}.
Hypothesis Hwe : we_regular we = true /\ HasSuffix (we_path we) apkgSuffix = true /\
  we_Size we <> 0 /\ we_open we = Ok (concat r.2).

(** The package as a database has it. *)
Definition the_entry (p : Package) : pkgEntry := entry_of rpath (info_of p).

Lemma converted_asked :
  exists p, packed (concat r.2) img p /\ pk_name p = name_of filename /\
    pk_inodes p = im_InodeCnt sb /\ wf_entry (the_entry p) /\
    asked dir we = Some (fk, CAdd (the_entry p)).
Proof.
  destruct (prepared_packed kp filename img r Hkp Himg Hr)
    as (sb' & np' & p & m & Esb & Enp & Hp & Em & Hn & Hi & Ha & Ho).
  rewrite Hsb in Esb. injection Esb as <-. rewrite Hnp in Enp. injection Enp as <-.
  exists p. split; [done|]. split; [done|]. split; [done|].
  destruct (OpenPackage_reads _ _ (pc_open _ _ _ Hp)) as (_ & Hh & _ & Hs). split.
  - split; [|split]; cbn [the_entry entry_of info_of e_hash e_size e_inodes p_hash p_size p_inodes].
    + rewrite Hh. apply length_Sum256.
    + rewrite Hs. pose proof (pc_length _ _ _ Hp). unfold two63, two64 in *. lia.
    + rewrite Hi. unfold two32, two64 in *. lia.
  - destruct Hwe as (H1' & H2' & H3' & H4'). unfold asked. rewrite H1', H2', H4', (pc_open _ _ _ Hp), Em.
    cbn [andb]. rewrite (proj2 (Z.eqb_neq _ _)) by done. by rewrite Ha, Ho.
Qed.

(** The run of [apkg-index]: the package is new, no other file concerns it, and
    the database it makes is within the limits of the file format. *)
Context (jwt_Sign : gmap bytes bytes -> bytes -> HsmKey -> outcome bytes).
Context (env : environ) (kd : HsmKey) (now : nat -> Z * Z) (w0 : World) (s' : ixState).
Context (entries : list pkgEntry) (pins : list pin).
Let start : ixState := {| ix_files := ∅; ix_world := w0; ix_log := [] |}.
Hypothesis Hkd : trusted_key kd.
Hypothesis Hname : (Byte.x00 ∉ name) /\ (length name <= 32)%nat.
Hypothesis Hnow : forall l, 0 <= (now l).1 < two63 /\ 0 <= (now l).2 < two63.
Hypothesis Hother : forall p, OpenPackage (concat r.2) = Ok p ->
  entry_fits (the_entry p) = true /\ Forall (independent (the_entry p)) (changes dir fk (es ++ es')).
Hypothesis Hbase : forall k d, start_db env name tmp k = Ok d -> faults d = [] /\
  forall p, k = fk -> OpenPackage (concat r.2) = Ok p -> bk (file d) pkgBucket !! pk_hash p = None.
Hypothesis Hpub : forall s l d, walk env name dir tmp (es ++ we :: es') start = (Ok tt, s) ->
  ix_files s !! fk = Some l -> dbs (ix_world s) !! l = Some d -> publishable (file d) entries pins.
Hypothesis Hrun : processDb jwt_Sign env kd name now (Ok tmp) home (es ++ we :: es') start = (Ok tt, s').

Lemma start_db_conf k d :
  start_db env name tmp k = Ok d ->
  db_name (conf d) = name /\ db_path (conf d) = path_Join [tmp; fk_os k; fk_arch k].
Proof.
  unfold start_db, open_db. destruct (env_open env); [done|]. cbn [mbind outcome_bind].
  match goal with |- context [init_db env ?d] => set (d0 := d) end.
  destruct (init_db env d0) as [o d1] eqn:E. destruct o as [b|e|]; [|done..]. intros [= <-].
  by apply init_db_frame in E as (-> & _).
Qed.

(** The database file of the platform, when its database is at [l]. *)
Definition db_file (l : nat) : bytes :=
  path_Join [path_Join [tmp; np_os np; np_arch np]; Stamp (now l).1 (now l).2 ++ str ".bin"].

(** What leaves for the platform lists the package. *)
Lemma run_lists p :
  packed (concat r.2) img p -> wf_entry (the_entry p) -> asked dir we = Some (fk, CAdd (the_entry p)) ->
  exists c b l f h data, db_name c = name /\ publishable b entries pins /\ listed b (the_entry p) /\
    export_file kd c (now l).1 (now l).2 b = Ok f /\ check_file name f = Ok (h, data) /\
    WriteFile (db_file l) f ∈ ix_log s'.
Proof.
  intros Hp We Ha. destruct (Hother p (pc_open _ _ _ Hp)) as [Hfit Hind].
  destruct (processDb_Ok _ _ _ _ _ _ _ _ _ _ Hrun) as (s & Ew & W & P).
  fold dir start in Ew, W.
  assert (changes dir fk (es ++ we :: es') = changes dir fk es ++ CAdd (the_entry p) :: changes dir fk es') as Ec.
  { unfold changes. rewrite omap_app. cbn. unfold asked_of at 2. rewrite Ha. by rewrite decide_True. }
  destruct (wk_all _ _ _ _ _ _ W fk) as [l Hl]; [rewrite Ec; by intros [_ ?]%app_eq_nil|].
  destruct (P fk l Hl) as (d & Hd & f & h & data & Ef & Eck & Hw & _).
  destruct (wk_db _ _ _ _ _ _ W _ _ Hl) as (_ & d0 & d1 & Es & Hd1 & _ & C & made & _ & A & F).
  assert (d1 = d) as -> by congruence. destruct (F (proj1 (Hbase fk d0 Es))) as [_ ->].
  destruct (start_db_conf fk d0 Es) as [Hn Hpath]. rewrite <-C in Hn, Hpath.
  rewrite Hn in Eck. rewrite Hpath in Hw.
  exists (conf d), (file d), l, f, h, data. split; [done|].
  split; [by apply (Hpub s l d)|]. split; [|done].
  rewrite Ec in A. apply (applied_all_lists _ _ _ _ _) in A; [done| |done|done|].
  - unfold changes in Hind |- *. by rewrite omap_app in Hind.
  - by apply (proj2 (Hbase fk d0 Es) p eq_refl), (pc_open _ _ _ Hp).
Qed.

(** *** The daemon *)

(** What the lookup of the package gives in a daemon, and any requests for
    numbers in the package: the inodes of the SquashFS that reads the image. *)
Definition resolves (l : nat) (w : World) (sq : Z -> superblock) : Prop :=
  exists n w1, internalLookup l (name_of filename) w = (Ok (n + 1), w1) /\
    GetInode l n w1 = (Ok (InoPkg (InoSymlink (name_of filename))), w1) /\
    forall ks, Forall (fun k => 0 < k <= im_InodeCnt sb) ks ->
      ask l n ks w1 = (fun k => (fun i => InoPkg (InoSquash i)) <$> sq_GetInode (sq n) k) <$> ks.

(** C1: from the image to the files.  [apkg-convert] makes a package of an
    image, which is among the files [apkg-index] processes.  Then [apkg-index]
    writes a database file for the platform of the package, with which the
    following holds.  A daemon for the platform that starts without a database
    downloads this one; the full name of the package then resolves; its first
    number is the link to the package; and when the network has the package at
    its place, every other number of the package is an inode of the SquashFS
    that was mounted on a reader of exactly the image. *)
Theorem image_to_files :
  exists i f, WriteFile (db_file i) f ∈ ix_log s' /\
  forall denv goos goarch eos earch prefix path l w sq,
    (if bool_decide (eos = []) then goos else eos) = np_os np ->
    (if bool_decide (earch = []) then goarch else earch) = np_arch np ->
    let c := daemon_conf prefix name path (np_os np) (np_arch np) in
    (forall fn, env_file denv fn = None) -> offers (env_net denv) c f ->
    World.New denv goos goarch eos earch prefix name path (started false) = (Ok l, w) ->
    (forall d, dbs w !! l = Some d -> is_Some (dbptr d)) ->
    (forall s, pk_path (dl_pkg s) = rpath -> dl_tries s = 0%nat ->
       pk_size (dl_pkg s) = Z.of_nat (length (concat r.2)) -> delivers c s (concat r.2)) ->
    (forall n, mounts_as img n (sq n)) ->
    resolves l w sq.
Proof.
  destruct converted_asked as (p & Hp & Hn & Hi & We & Ha).
  destruct (run_lists p Hp We Ha) as (c0 & b & i & f & h & data & Hc0 & Hb & Le & Ef & Eck & Hw).
  destruct (Hnow i) as [Hs1 Hs2]. exists i, f. split; [exact Hw|]. intros denv goos goarch eos earch prefix path l w sq Eos Earch c Hfn Hoff E Hop Hdel Hsq.
  pose proof (new_daemon denv goos goarch eos earch prefix name path l w f) as N. cbv zeta in N.
  rewrite Eos, Earch in N. fold c in N.
  destruct (N Hfn Hoff E) as (d & L & Hd & Hnext & _ & _ & Hcd & Hca & Hu & h2 & data2 & Eck2 & Hi2).
  change (db_name c) with name in Eck2. rewrite Eck in Eck2. injection Eck2 as <- <-.
  destruct Hname as [Hz Hlen]. rewrite <-Hc0 in Hz, Hlen, Eck.
  destruct (exported_indexes kd c0 (now i).1 (now i).2 b entries pins f h data bolt_empty (file d) Hb Hkd Hz Hlen Hs1 Hs2 Ef Eck)
    as [Hl Hsmall]; [intros m; unfold bk; by rewrite contents_empty|done|].
  assert (e_name (the_entry p) = name_of filename) as En by exact Hn.
  destruct (lookup_exact l d w l d (the_entry p) L Hd Hu (Hop d Hd) (Hl _ Le))
    as (n & q & p0 & dr' & w1 & Elk & L1 & C1 & Hq & Hst & Esp & Hn0).
  { rewrite En. by apply (parsed_dot _ np). }
  { rewrite Hnext. pose proof (Hsmall _ (Hl _ Le)). unfold two32, two64 in *. lia. }
  { by rewrite Hca, lookup_empty. }
  exists n, w1. rewrite <-En. split; [done|].
  destruct (stored_pkg_fields _ _ _ _ _ Esp) as (Hpar & Hs0 & Hh0 & _).
  split.
  { pose proof (cached_link _ _ _ _ _ _ L1 Hq Hst) as Hk. cbn [dl_pkg fresh_dl] in Hk. by rewrite Hs0, Hn0 in Hk. }
  intros ks Hks. destruct (ca_db _ _ _ C1 _ _ Hd) as (d1 & Hd1 & Hc1 & _).
  destruct (Hl _ Le) as (_ & Se & _).
  pose proof (b_dbs _ _ _ (lv_base _ _ _ L) _ _ Hd) as (_ & _ & Hwf).
  destruct (stored_pkg_entry _ _ _ _ _ (listed_buckets _ _ Hwf (Hl _ Le)) We Se Esp) as (Hpa & Hsz & Hin & Hdl).
  destruct (OpenPackage_reads _ _ (pc_open _ _ _ Hp)) as (_ & _ & _ & Hs).
  eapply (ask_answers l dr' w1 d1 q p0 (fresh_dl p0) n (concat r.2) img p (sq n)); try done.
  - by rewrite Hpar.
  - by rewrite Hh0.
  - by left.
  - rewrite Hc1, Hcd. apply Hdel; [exact Hpa|done|]. by etrans; [exact Hsz|].
  - rewrite Hin. cbn. by rewrite Hi.
Qed.
End pipeline.

(** ** Concrete instance, for evaluation *)

Module SamplePipeline.
#[local] Existing Instance MapBolt.ops.
#[local] Existing Instance MapBolt.spec.
#[local] Existing Instance Sample.list_llrb.
#[local] Existing Instance Sample.list_llrb_spec.
#[local] Existing Instance SampleLd.ldcache.
#[local] Existing Instance SampleLd.json.
#[local] Existing Instance SampleLd.range.
#[local] Existing Instance insertion_GoSort.
#[local] Existing Instance Toy.toy_ed25519.
#[local] Existing Instance Toy.toy_ed25519_spec.
#[local] Existing Instance SampleUpd.jwt.
#[local] Existing Instance SampleIndexer.range_fks.
#[local] Existing Instance SampleIndexer.range_fks_spec.

(** JSON that can say the name only: other metadata is refused. *)
Instance meta_json : MetaJson := fun x =>
  if (Inodes x =? 5) && bool_decide (MetaArch x = str "amd64") && bool_decide (MetaOS x = str "linux")
  then Ok (FullName x) else Err ErrInvalid.
Instance info_json : PkgJson := fun m => Ok {|
  mi_FullName := m; mi_Inodes := 5; mi_Arch := str "amd64"; mi_Os := str "linux" |}.
Instance pkg_json : PkgMetaJson := fun m => Ok {|
  pm_FullName := m; pm_Inodes := 5; pm_Arch := str "amd64"; pm_Os := str "linux" |}.
Instance json_ok : JsonAgrees.
Proof.
  intros x j. unfold Marshal_meta, meta_json.
  destruct (Z.eqb_spec (Inodes x) 5) as [Hi|]; [|done].
  do 2 (case_bool_decide; [|done]). intros [= <-]. eexists _, _. by do 2 (split; [reflexivity|]).
Qed.

Instance squash_new : SquashNew := fun f => Ok SampleConvert.the_image.
Definition img : bytes := str "hsqs" ++ replicate 60 Byte.x00.
Definition key : HsmKey := Toy.key Toy.pkg_kid.
Definition filename : bytes := str "/src/media-libs.xvid.core.1.3.linux.amd64.squashfs".
Definition made_of : list bytes * list bytes := Eval vm_compute in
  match prepare key filename img with Ok r => r | _ => ([], []) end.
Lemma prepared : prepare key filename img = Ok made_of.
Proof. vm_compute. reflexivity. Qed.

(** The SquashFS keeps what its reader gives of the image. *)
Instance squashfs : Squashfs := {|
  superblock := bytes * Z; sqInode := Z;
  sq_Open fn := Err ErrInvalid;
  sq_New R i := b ← R 64%nat 0; Ok (b, i);
  sq_InodeCnt s := 5;
  sq_SetInodeOffset s i := (fun s => (s.1, i)) <$> s;
  sq_GetInode s k := if bool_decide (s.1 = img) then Ok k else Err ErrInvalid;
|}.
Instance remote : Remote := {|
  rfile := bytes;
  MkdirAll t d := Ok tt;
  OpenTo t url lp := Ok (concat made_of.2);
  SetSize f n := f;
  rf_ReadAt := file_ReadAt;
|}.
Lemma mounts n : mounts_as img n ((img, n) : @superblock squashfs).
Proof. intros R HR. cbn. rewrite (HR 64%nat 0); [|lia|vm_compute; congruence]. reflexivity. Qed.
Lemma key_shape : ed25519_key key.
Proof. split; [intros pub [= <-]; vm_compute; reflexivity|by intros d b [= <-]]. Qed.

(** The indexer finds no database at the server. *)
Definition index_env : environ := {|
  env_file _ := None; env_open := None; env_faults := [];
  env_net := fun url => Ok {| StatusCode := 200; Body := str "NEW"; BodyErr := None |} |}.
Definition home : bytes := str "/root".
Definition entry0 : walkEntry := {|
  we_path := str "/root/projects/apkg-tools/repo/apkg/dist/main/media-libs/xvid/x.apkg";
  we_err := None; we_regular := true; we_Size := 600; we_open := Ok (concat made_of.2) |}.
Definition db_key : HsmKey := Toy.key Toy.db_kid.
Definition world0 : World := started false.
Definition start0 : ixState := {| ix_files := ∅; ix_world := world0; ix_log := [] |}.
Definition run : outcome unit * ixState :=
  processDb SampleIndexer.jwt_text index_env db_key (str "main") SampleIndexer.at_time (Ok (str "/tmp/x")) home
    [entry0] start0.
Lemma run_ok : fst run = Ok tt.
Proof. vm_compute. reflexivity. Qed.
Lemma run_is : run = (Ok tt, snd run).
Proof. generalize run_ok. generalize run. intros [o s]. cbn. by intros ->. Qed.
Definition parts : nameParts := Eval vm_compute in
  match parsePackageFilename (name_of filename) with
  | Ok np => np
  | _ => {| np_cat := []; np_name := []; np_subcat := []; np_version := []; np_os := []; np_arch := [];
            np_comps := [] |}
  end.
Lemma parsed : parsePackageFilename (name_of filename) = Ok parts.
Proof. vm_compute. reflexivity. Qed.
Definition the_name : bytes := db_file parts (str "/tmp/x") SampleIndexer.at_time 0.
Lemma same_name i : db_file parts (str "/tmp/x") SampleIndexer.at_time i = the_name.
Proof. unfold the_name, db_file, SampleIndexer.at_time. reflexivity. Qed.
Definition writes (log : list effect) : list bytes :=
  omap (fun e => match e with
                 | WriteFile fn f => if bool_decide (fn = the_name) then Some f else None
                 | _ => None end) log.
Definition the_file : bytes := Eval vm_compute in default [] (head (writes (ix_log (snd run)))).
Lemma run_writes : writes (ix_log (snd run)) = [the_file].
Proof. vm_compute. reflexivity. Qed.

(** The database made is empty at first. *)
Lemma start_new k d :
  start_db index_env (str "main") (str "/tmp/x") k = Ok d -> faults d = [] /\ file d = bolt_empty.
Proof.
  unfold start_db, open_db. cbn [env_open index_env mbind outcome_bind]. unfold init_db, try_st. munfold.
  set (d0 := {| conf := _ |}). destruct (buildLdso d0) as [o1 d1] eqn:E1.
  apply buildLdso_frame in E1 as (_ & Ef & Ep & El & Ez & _).
  assert (CurrentVersion d1 = Ok []) as Hv.
  { unfold CurrentVersion, current_version, with_RLock, View. rewrite Ef, Ep, El. vm_compute. reflexivity. }
  assert (download (env_net index_env) [] d1 = (Ok false, d1)) as Hd by (unfold download; munfold; reflexivity).
  destruct o1 as [[]|e|]; cbn beta iota; [..|done].
  all: rewrite Hv, bool_decide_eq_true_2, Hd by done; intros [= <-]; by rewrite Ez, Ef.
Qed.

Lemma one_package (b : @bdb MapBolt.ops) e :
  applied (CAdd e) bolt_empty b -> entry_fits e = true -> exportable e ->
  196 + SignatureSize + Z.of_nat (length (encode_pkg e)) < two32 -> publishable b [e] [].
Proof.
  intros A Hfit Hx Hlen. assert (wf_entry e) as We by apply Hx.
  assert (forall m, bk bolt_empty m = ∅) as He by (intros m; unfold bk; by rewrite contents_empty).
  inversion A as [e' b0 b1 _ P|e' b0 [[? Hs]|Hf]|]; subst; [|by rewrite He, lookup_empty in Hs|congruence].
  pose proof (pkg_put_stores _ _ _ _ P We) as (_ & Se & Le). destruct P as (P1 & _ & _ & _ & _ & _ & Po & _).
  assert (Forall (has b) addBuckets) as Hh.
  { unfold addBuckets. rewrite !Forall_cons. destruct Se as (S1 & S2 & S3 & S4 & S5).
    repeat split; try constructor; by eapply has_of_lookup. }
  rewrite He, insert_empty in P1.
  assert (Entries b p2pBucket = [(collatedVersion (e_name e), p2p_value e)]) as Ee.
  { destruct (has_of_lookup _ _ _ _ Le) as [m Hm]. destruct (Entries_spec b p2pBucket m Hm) as [Hp _].
    unfold bk in P1. rewrite Hm in P1. cbn in P1. rewrite P1, map_to_list_singleton in Hp.
    by apply Permutation_singleton_r in Hp. }
  split; [split; [|done]|by eapply has_of_lookup| | |by constructor|done|by cbn [map concat]; rewrite !app_nil_r].
  - intros k v. rewrite P1. intros [<- <-]%lookup_singleton_Some. by exists e.
  - unfold listing. rewrite Ee. constructor; [done|constructor].
  - unfold pin_listing. destruct (has_bucket b pinsBucket) eqn:Eh; [|constructor].
    apply has_bucket_has in Eh as [m Hm]. destruct (Entries_spec b pinsBucket m Hm) as [Hp _].
    assert (bk b pinsBucket = ∅) as Em by (rewrite Po; [apply He|bucket_dec]).
    unfold bk in Em. rewrite Hm in Em. cbn in Em. rewrite Em, map_to_list_empty in Hp.
    apply Permutation_nil_r in Hp as ->. constructor.
Qed.

Definition opened : option Package := match OpenPackage (concat made_of.2) with Ok p => Some p | _ => None end.
Lemma is_opened p : OpenPackage (concat made_of.2) = Ok p -> opened = Some p.
Proof. unfold opened. by intros ->. Qed.
Definition on_opened (P : Package -> bool) : bool := match opened with Some p => P p | None => false end.
Lemma on_opened_is P p : on_opened P = true -> OpenPackage (concat made_of.2) = Ok p -> P p = true.
Proof. intros HP E%is_opened. unfold on_opened in HP. by rewrite E in HP. Qed.

Definition entry_at (p : Package) : pkgEntry := the_entry (str "main") home entry0 p.
Lemma others p : OpenPackage (concat made_of.2) = Ok p ->
  entry_fits (entry_at p) = true /\ Forall (independent (entry_at p)) [].
Proof.
  intros E. split; [|constructor]. apply (on_opened_is (fun p => entry_fits (entry_at p))); [|done].
  vm_compute. reflexivity.
Qed.
Lemma small p : OpenPackage (concat made_of.2) = Ok p ->
  exportable (entry_at p) /\ 196 + SignatureSize + Z.of_nat (length (encode_pkg (entry_at p))) < two32.
Proof.
  intros E.
  apply (on_opened_is (fun p => let e := entry_at p in
    (length (e_hash e) =? 32)%nat && (0 <=? e_size e) && (e_size e <? 1000) && (0 <=? e_inodes e) &&
    (e_inodes e <? 1000) && (length (e_name e) <? 100)%nat && (length (e_path e) <? 100)%nat &&
    (length (e_header e) <? 200)%nat && (length (e_sig e) <? 100)%nat && (length (e_meta e) <? 200)%nat &&
    (length (encode_pkg e) <? 1000)%nat)) in E; [|vm_compute; reflexivity].
  cbn zeta in E. rewrite !andb_true_iff, !Nat.eqb_eq, !Nat.ltb_lt, !Z.leb_le, !Z.ltb_lt in E.
  unfold exportable, wf_entry, two32, two64.
  change SignatureSize with 99. repeat split; lia.
Qed.

Definition dir : bytes := path_Join [home; str "projects/apkg-tools/repo/apkg/dist"; str "main"].
Definition linux : fileKey := {| fk_arch := np_arch parts; fk_os := np_os parts |}.

Lemma is_asked : exists p, OpenPackage (concat made_of.2) = Ok p /\
  asked dir entry0 = Some (linux, CAdd (entry_at p)).
Proof.
  destruct (converted_asked key filename img made_of SampleConvert.the_image parts key_shape
    ltac:(vm_compute; split; congruence) eq_refl ltac:(vm_compute; split; congruence) parsed prepared
    (str "main") home entry0) as (p & Hp & _ & _ & _ & Ha).
  - split; [reflexivity|]. split; [vm_compute; reflexivity|]. split; [discriminate|reflexivity].
  - exists p. split; [apply Hp|exact Ha].
Qed.

Lemma run_changes p : OpenPackage (concat made_of.2) = Ok p ->
  changes dir linux [entry0] = [CAdd (entry_at p)].
Proof.
  intros E. destruct is_asked as (p' & E' & Ha). rewrite E in E'. injection E' as <-.
  unfold changes, asked_of. cbn [omap list_omap]. rewrite Ha. by rewrite decide_True.
Qed.

Lemma run_publishable s l d :
  walk index_env (str "main") dir (str "/tmp/x") [entry0] start0 = (Ok tt, s) ->
  ix_files s !! linux = Some l -> dbs (ix_world s) !! l = Some d ->
  exists p, OpenPackage (concat made_of.2) = Ok p /\ publishable (file d) [entry_at p] [].
Proof.
  intros Ew Hl Hd.
  destruct (walk_changes index_env (str "main") _ (str "/tmp/x") [entry0] world0 s _ l d
    (fun d0 E => proj1 (start_new _ d0 E)) Ew Hl Hd) as (d0 & Es & A).
  destruct (start_new _ _ Es) as [_ Hf]. rewrite Hf in A. clear Ew Hl Hd Es.
  destruct is_asked as (p & Ep & _). exists p. split; [exact Ep|]. rewrite (run_changes p Ep) in A.
  destruct (small p Ep) as [Hx Hlen]. destruct (others p Ep) as [Hfit _].
  apply (applied_all_last []) in A as (b1 & A1 & A). inversion A1 as [b2 E|cs c ? ? ? ? ? E]; [|by destruct cs].
  subst. by apply one_package.
Qed.

(** The server has the file. *)
Definition conf0 : DBConf :=
  daemon_conf (str "https://data.apkg.net/") (str "main") (str "/var/lib/apkg") (np_os parts) (np_arch parts).
Definition daemon_env : environ := {|
  env_file _ := None; env_open := None; env_faults := [];
  env_net := fun url => Ok {| StatusCode := 200;
    Body := if decide (url = db_url conf0 (str "LATEST.jwt")) then SampleUpd.version ++ [Byte.x0a] else the_file;
    BodyErr := None |} |}.
Lemma server_offers : offers (env_net daemon_env) conf0 the_file.
Proof. exists SampleUpd.version. split; vm_compute; reflexivity. Qed.
Definition daemon_start : outcome nat * World :=
  World.New daemon_env (str "linux") (str "amd64") [] [] (str "https://data.apkg.net/") (str "main")
    (str "/var/lib/apkg") (started false).
Lemma daemon_runs : fst daemon_start = Ok 0%nat /\
  match dbs (snd daemon_start) !! 0%nat with Some d => bool_decide (dbptr d = None) | None => false end = false.
Proof. split; vm_compute; reflexivity. Qed.
Lemma daemon_is : daemon_start = (Ok 0%nat, snd daemon_start).
Proof. generalize (proj1 daemon_runs). generalize daemon_start. intros [o s]. cbn. by intros ->. Qed.
Lemma daemon_open d : dbs (snd daemon_start) !! 0%nat = Some d -> is_Some (dbptr d).
Proof.
  intros Hd. pose proof (proj2 daemon_runs) as H. rewrite Hd in H. apply bool_decide_eq_false in H.
  by apply not_eq_None_Some.
Qed.

Lemma image_to_files_witness : exists n w1,
  internalLookup 0 (str "media-libs.xvid.core.1.3.linux.amd64") (snd daemon_start) = (Ok (n + 1), w1) /\
  ask 0 n [1; 3; 1] w1 = [Ok (InoPkg (InoSquash 1)); Ok (InoPkg (InoSquash 3)); Ok (InoPkg (InoSquash 1))].
Proof.
  destruct is_asked as (p & Ep & _).
  destruct (image_to_files key filename img made_of SampleConvert.the_image parts key_shape
    ltac:(vm_compute; split; congruence) eq_refl ltac:(vm_compute; split; congruence) parsed prepared
    (str "main") (str "/tmp/x") home [] [] entry0
    ltac:(split; [reflexivity|split; [vm_compute; reflexivity|split; [discriminate|reflexivity]]])
    SampleIndexer.jwt_text index_env db_key SampleIndexer.at_time world0 (snd run) [entry_at p] [])
    as (i & f & Hw & Hd).
  - exists (Toy.pub_of Toy.db_kid), (str "Mark Karpeles <magicaltux@gmail.com>").
    split; [exact SampleExport.key_ok|vm_compute; reflexivity].
  - split; [bucket_dec|vm_compute; lia].
  - intros l. vm_compute. repeat split; congruence.
  - intros p' Ep'. exact (others p' Ep').
  - intros k d E. destruct (start_new k d E) as [Hz Hf]. split; [exact Hz|]. intros p' _ _. rewrite Hf.
    unfold bk. by rewrite contents_empty, lookup_empty.
  - intros s l d Ew Hl Hdb. destruct (run_publishable s l d Ew Hl Hdb) as (p' & Ep' & Hp).
    rewrite Ep in Ep'. injection Ep' as <-. exact Hp.
  - exact run_is.
  - assert (f = the_file) as ->.
    { rewrite same_name in Hw. assert (f ∈ writes (ix_log (snd run))) as Hin.
      { apply list_elem_of_omap. exists (WriteFile the_name f). split; [exact Hw|]. cbn.
        by rewrite bool_decide_eq_true_2. }
      rewrite run_writes in Hin. by apply list_elem_of_singleton in Hin. }
    destruct (Hd daemon_env (str "linux") (str "amd64") [] [] (str "https://data.apkg.net/") (str "/var/lib/apkg")
      0%nat (snd daemon_start) (fun n => (img, n)) eq_refl eq_refl) as (n & w1 & E & _ & Ha).
    + intros fn. reflexivity.
    + exact server_offers.
    + exact daemon_is.
    + exact daemon_open.
    + intros s _ _ _. split; [reflexivity|]. eexists. split; [reflexivity|]. by intros k off Ho Hn.
    + exact mounts.
    + exists n, w1. split; [exact E|]. rewrite (Ha [1; 3; 1]); [reflexivity|]. repeat constructor; vm_compute; congruence.
Defined.
End SamplePipeline.
